(* ===== verification/_CoqProject ===== *)
-Q . S2P
Prelude.v
Fan.v
GoStrings.v
Netip.v
Names.v
Records.v
Runner.v
Dog.v
Dig.v
Trace.v
TraceText.v
DelegRef.v
Dnssec.v
DnssecRef.v
Wildcard.v
WildRef.v
Caa.v
Tlsa.v
Spf.v
SpfRef.v
SpfRfc.v
Mail.v
Tcp.v
Tls.v
Http.v
Versions.v
Web.v
NsAudit.v
Rdap.v
Preload.v
Report.v
Findings.v
ZoneFindings.v
NsFindings.v
WebFindings.v
MailFindings.v
Judge.v
Cli.v
ResolverText.v
Tools.v
Cache.v
Probe.v
Run.v
RunTruth.v
Session.v
Waves.v
Stages.v
NsPhase.v
Early.v
Aia.v
Loaders.v
Budget.v
Program.v
