(* ===== verification/Prelude.v ===== *)
(** * domaintest: a verification development

    domaintest checks one domain from the command line: it asks the DNS
    (through the tools dog and dig), probes the web servers, the QUIC
    endpoint (quicprobe), the name servers, the mail policy and the registry
    (rdap), and prints one JSON report with findings and a verdict. This
    library models the Go program under src/ and proves what each part
    promises and what the whole does.

    ** The parts, in the order of the files

    Prelude holds the notation, tactics, hint database and generic lemmas
    (steps and invariants, lists used as sets, grouping in order of first
    occurrence). Fan (run.go, parallel): tasks started at once and joined,
    each with a slot of its own. GoStrings and Netip are the parts of Go's strings, strconv
    and net/netip that the source uses, on byte strings.

    Data and tools. Names (names.go, reserved.go, publicsuffix.go, addr.go,
    version.go): normalised names, reserved suffixes, reserved addresses.
    Records (records.go): lookups, statuses, trust, TXT presentation format.
    Runner (runner.go): one tool run as a function of its process, the output
    cap, the concurrency limit as a step relation. Dog (dog.go) and Dig (dig.go): what is read from the
    two clients' output, with the retry.

    The DNS checks. Trace (trace.go): the delegation; TraceText: the text of
    a trace, for the round trip; DelegRef: the zones and servers a trace walks
    along. Dnssec (dnssec.go): the DNSSEC verdict; DnssecRef: the security of
    the zone behind it.
    Wildcard, Caa, Tlsa (the files of those names); WildRef: the zone that
    Wildcard probes. Spf and Mail (mail.go): the SPF evaluator as a state
    monad, DMARC, MX, DKIM, MTA-STS; SpfRef: what walking a policy
    costs, as a plain recursion; SpfRfc: what RFC 7208 counts. NsAudit (nsaudit.go): the name servers. Rdap (rdap.go).

    The web checks. Tcp (tcp.go, quic.go), Tls (tlsprobe.go, aia.go), Http
    (httpprobe.go), Versions (httpversions.go), Web (webconsistency.go and
    the web data of report.go), Aia (aia.go, the shared issuer downloads),
    Preload and Loaders (preloadlist.go: the list, its cache, the lock).

    The judgement. Report (report.go, data), Findings (the collector, a state
    monad with a logic of what a rule may emit), ZoneFindings, NsFindings,
    WebFindings, MailFindings (the rules), Judge (buildFindings).

    The run. Cli (main.go, arguments), ResolverText (the text of a resolver),
    Tools (finding the tools), Budget (budgets as int64), Cache (run.go,
    lookupCache in one wave), Probe (probeWeb and what follows it), Run
    (run.go, the run as one function), RunTruth (what its report says is so),
    Session (the memo through the spans of a run, setContext and dropTrust),
    Waves (the first wave of lookups), Stages (the random names, and both
    together), NsPhase (the lookups and audits of the name servers), Early
    (the web probes that run beside them), Program (main over the processes
    it starts).

    ** How they interact

    Components call each other as in the source. What one takes from another
    is its function, or a class: Dpdomain (names), Psl (public suffixes),
    Ipnorm (reserved addresses), UrlLib (net/url), TimeLib (time), Host (the
    files of the machine). The checks take a lookupFn, which Run instantiates
    with the cache over dog's answers of the current phase, and Program with
    what Dog makes of the output of the commands it runs. The findings rules
    read the Report and write the collector of Findings; Judge runs them
    behind its gates.

    State. Pure functions are functions. The SPF evaluator and the findings
    collector are state monads. Concurrency is modelled as step relations:
    limit_step (Runner), cache_step (Cache), session_step (Session),
    wave_step (Waves, the first tasks of gatherDNS over the shared memo and
    results), wild_step (Stages), fan_step and ns_step (Fan, NsPhase: tasks
    joined before the next ones start), early_step (Early), aia_step
    (Aia, sync.Once), load_step (Preload, the lock between processes) and
    world_step (Loaders, the same with the file in between). Elsewhere tasks
    that run at once write disjoint slots and are modelled in sequence, or
    take the order of completion as an argument. Go's nil slices are [],
    *bool is option bool, maps are gmap, the empty string is no error, and
    an absent time is None.

    ** What the theorems show

    The program: it ends with a report or a complaint and its exit status
    says which (Program.realMain_status, Run.run_finishes); every lookup in a
    report is well formed and about what was asked
    (Program.report_lookups_wf); a reserved name is left alone and a blind
    resolver is believed about nothing that needs validation
    (Run.run_reserved_left_alone, Run.run_blind_withholds); only public
    addresses are contacted (Probe.probeWeb_public_only, Tls.dialPublic_safe,
    Http.followRedirects_known_hosts).

    The judgement: what ok promises (Judge.ok_means_healthy), that a code has
    one severity, the gates, and that one cause is one finding.

    Refinement and concurrency: the tasks of the DNS phase leave what the
    run's function says (Stages.gatherDNS_refined), and so do those of the
    name server audit (NsPhase.auditNameservers_refined); through all spans of
    a run every check is told an answer to its own query, and those of the later
    spans the same one (Session.lookups_of_a_run); the loaders refine the lock and
    loadPreloadList (Loaders.loadPreloadList_refines); the memo, the issuer
    downloads, the limiter and the early web probes are safe under every
    interleaving and can always finish.

    References: the wildcard verdict is that of the zone
    (WildRef.wildcard_of_zone); the DNSSEC verdict is the security that the
    zone has for a validating resolver (DnssecRef.classifyDNSSEC_true); the
    delegation status read off the text of a trace is that of the zones and
    servers dig walked along, but for a zone without NS records on its parent's
    servers (DelegRef.traceDelegation_of_walk); and together,
    what the report of a run says of the three is so (RunTruth.report_is_so).
    The SPF evaluator decides the limit of ten lookups as RFC 7208 counts them
    (SpfRfc.evaluateSPF_exact); a trace reads back as printed
    (TraceText.parseTrace_roundtrip), and so does a resolver
    (ResolverText.parseResolver_roundtrip).

    Termination and bounds: SPF, redirects, the issuer loop; budgets do not
    wrap below Budget.maxSeconds.

    The checks: each verdict stated from its evidence (DNSSEC, delegation,
    wildcard, CAA, TLSA, certificate chains, HTTP versions, name servers,
    preload status), and the round trips of TXT records and of the cache.

    ** Fuel

    Spf.descend has fuel spfFuel = 21: a path longer than 20 is not followed,
    so the fuel is never used up (evaluateSPF_total); run is an option only
    for it, and run_finishes shows that it is never None. The recursions of
    SpfRef and SpfRfc have a depth instead, and the theorem holds of every
    depth from 20 up. Tls.pem_certs has the length of the text as fuel, each block being
    shorter than what is left (pem_certs_ends). The follower has
    maxRedirectHops + 1 requests and the issuer loop maxAIADepth downloads,
    the source's own bounds. acquireLock is a function of the attempts made;
    it ends when the context does (Preload.acquireLock_ends).

    ** Not modelled

    The processes themselves (what they write and how they end is given),
    sockets, TLS handshakes, certificate verification, hashing, JSON, the
    blocks of PEM, IDNA and the public suffix list are code outside src/, and
    appear as parameters or classes. Of contexts only the effects appear:
    that a tool timed out, that a budget was spent, the deadline flag. Files
    appear as the results of the calls on them, but for the cache file in
    Loaders. Case, blanks and quoting are those of ASCII; daysRemaining
    truncates exactly where the source goes through a float64; elapsed
    milliseconds and the timestamp are given. The reason of a skipped
    reachability probe is the value ReachSkipped without its text. In Loaders
    a process may be killed at any point between the lock's request and its
    release but the two reads. Run takes the answers of each span as a
    function of the query; Stages shows that the DNS phase gives one, and
    Session what is told to the checks that come later. *)

From Stdlib Require Export Ascii.
From stdpp Require Export base decidable numbers pretty sorting gmap strings list.

(** ** Notation, tactics and hints of the development *)

Declare Scope go_scope.
Delimit Scope go_scope with go.

(** Go's [*bool]: [None] is the nil pointer. *)
Definition boolPtr (b : bool) : option bool := Some b.

Definition isTrue (b : option bool) : bool :=
  match b with Some true => true | _ => false end.

Create HintDb go discriminated.

(** Case analysis on the scrutinee of the first [match] or [if] in sight. *)
Ltac case_goal :=
  match goal with
  | |- context [match ?x with _ => _ end] => destruct x eqn:?
  end.

Ltac case_hyp H :=
  match type of H with
  | context [match ?x with _ => _ end] => destruct x eqn:?
  end.

(** Boolean connectives and decisions in the context, turned into propositions. *)
Ltac simp_bool :=
  repeat match goal with
  | H : (_ && _) = true |- _ => apply andb_true_iff in H as [??]
  | H : (_ || _) = false |- _ => apply orb_false_iff in H as [??]
  | H : (_ || _) = true |- _ => apply orb_true_iff in H
  | H : (_ && _) = false |- _ => apply andb_false_iff in H
  | H : negb _ = true |- _ => apply negb_true_iff in H
  | H : negb _ = false |- _ => apply negb_false_iff in H
  | H : bool_decide _ = true |- _ => apply bool_decide_eq_true in H
  | H : bool_decide _ = false |- _ => apply bool_decide_eq_false in H
  | H : (_ =? _)%nat = true |- _ => apply Nat.eqb_eq in H
  | H : (_ =? _)%nat = false |- _ => apply Nat.eqb_neq in H
  | H : (_ <? _)%nat = true |- _ => apply Nat.ltb_lt in H
  | H : (_ <? _)%nat = false |- _ => apply Nat.ltb_ge in H
  | H : (_ <=? _)%nat = true |- _ => apply Nat.leb_le in H
  | H : (_ <=? _)%nat = false |- _ => apply Nat.leb_gt in H
  | H : (_ =? _)%Z = true |- _ => apply Z.eqb_eq in H
  | H : (_ =? _)%Z = false |- _ => apply Z.eqb_neq in H
  | H : (_ <? _)%Z = true |- _ => apply Z.ltb_lt in H
  | H : (_ <? _)%Z = false |- _ => apply Z.ltb_ge in H
  | H : (_ <=? _)%Z = true |- _ => apply Z.leb_le in H
  | H : (_ <=? _)%Z = false |- _ => apply Z.leb_gt in H
  end.

(** ** Generic definitions and lemmas *)

(** The value a Go map read returns: the zero value for a missing key. *)
Definition mget {V} (zero : V) (m : gmap string V) (k : string) : V := default zero (m !! k).

(** An invariant of the steps holds along every run. *)
Lemma rtc_preserves {A} (R : relation A) (P : A -> Prop) x y :
  (forall a b, P a -> R a b -> P b) -> rtc R x y -> P x -> P y.
Proof. intros HR. induction 1; eauto. Qed.

(** Steps that can always go on until they are done, with less work left,
    can be brought to an end. *)
Lemma rtc_completes {A} (R : relation A) (P done : A -> Prop) (work : A -> nat) `{forall x, Decision (done x)} :
  (forall x y, P x -> R x y -> P y) ->
  (forall x, P x -> ~ done x -> exists y, R x y /\ (work y < work x)%nat) ->
  forall x, P x -> exists y, rtc R x y /\ done y.
Proof.
  intros Hpres Hstep x. remember (work x) as n eqn:En. revert x En.
  induction n as [n IH] using lt_wf_ind. intros x -> Hx.
  destruct (decide (done x)) as [Hd|Hd]; [by exists x; split; [apply rtc_refl|]|].
  destruct (Hstep x Hx Hd) as (y & Hy & Hlt). destruct (IH _ Hlt y eq_refl) as (z & Hz & Hdz); [by eapply Hpres|].
  exists z. split; [by eapply rtc_l|done].
Qed.

(** Updates of a list by index. *)
Lemma sum_insert {A} (f : A -> nat) l i x y :
  l !! i = Some y -> (sum_list_with f (<[i := x]> l) + f y = sum_list_with f l + f x)%nat.
Proof.
  revert i. induction l as [|z l IH]; intros [|i] H; try done; cbn in *.
  - injection H as ->. lia.
  - specialize (IH i H). rewrite <-!Nat.add_assoc. f_equal. exact IH.
Qed.

Lemma insert_lookup_cases {A} (l : list A) i j x y :
  (<[i := x]> l) !! j = Some y -> (i = j /\ x = y) \/ (i <> j /\ l !! j = Some y).
Proof. intros H%list_lookup_insert_Some. tauto. Qed.

(** A map made of a list of keys. *)
Lemma lookup_tabulate {V} (g : string -> V) (l : list string) (k : string) :
  (list_to_map (map (fun t => (t, g t)) l) : gmap string V) !! k = if decide (k ∈ l) then Some (g k) else None.
Proof.
  induction l as [|t l IH]; [cbn; by rewrite lookup_empty|]. cbn. destruct (decide (t = k)) as [->|Hne].
  - rewrite lookup_insert_eq, decide_True by by left. done.
  - rewrite lookup_insert_ne, IH by done. apply decide_ext. set_solver.
Qed.

(** Membership test on a list used as a set ([slices.Contains]). *)
Definition member {A} `{EqDecision A} (x : A) (l : list A) : bool := bool_decide (x ∈ l).

Lemma member_true {A} `{EqDecision A} (x : A) l : member x l = true <-> x ∈ l.
Proof. unfold member. apply bool_decide_eq_true. Qed.

Lemma member_false {A} `{EqDecision A} (x : A) l : member x l = false <-> x ∉ l.
Proof. unfold member. apply bool_decide_eq_false. Qed.

(** First occurrence of each value, in order: the [seen]-map loop. *)
Fixpoint dedupe_from {A} `{EqDecision A} (seen : list A) (l : list A) : list A :=
  match l with
  | [] => []
  | x :: l' => if member x seen then dedupe_from seen l' else x :: dedupe_from (x :: seen) l'
  end.

Lemma elem_of_dedupe_from {A} `{EqDecision A} (x : A) seen l :
  x ∈ dedupe_from seen l <-> x ∈ l /\ x ∉ seen.
Proof.
  revert seen. induction l as [|y l IH]; intros seen; simpl; [set_solver|].
  destruct (member y seen) eqn:E.
  - apply member_true in E. rewrite IH. set_solver.
  - apply member_false in E. rewrite elem_of_cons, IH.
    destruct (decide (x = y)) as [->|]; set_solver.
Qed.

Lemma NoDup_dedupe_from {A} `{EqDecision A} (seen l : list A) : NoDup (dedupe_from seen l).
Proof.
  revert seen. induction l as [|y l IH]; intros seen; simpl; [constructor|].
  destruct (member y seen); [done|]. constructor; [|done].
  rewrite elem_of_dedupe_from. set_solver.
Qed.

Lemma dedupe_from_sublist {A} `{EqDecision A} (seen l : list A) :
  dedupe_from seen l `sublist_of` l.
Proof.
  revert seen. induction l as [|y l IH]; intros seen; simpl; [done|].
  destruct (member y seen); [by apply sublist_cons | by apply sublist_skip].
Qed.

(** A list without duplicates is its own deduplication. *)
Lemma dedupe_from_id {A} `{EqDecision A} (seen l : list A) :
  NoDup l -> (forall x, x ∈ l -> x ∉ seen) -> dedupe_from seen l = l.
Proof.
  revert seen. induction l as [|y l IH]; intros seen Hnd Hs; simpl; [done|].
  inversion_clear Hnd as [|? ? Hy Hl].
  rewrite (proj2 (member_false y seen)) by (apply Hs; set_solver).
  f_equal. apply IH; [done|]. intros x Hx.
  assert (x <> y) by (intros ->; done). set_solver.
Qed.

(** Sorting strings ([sort.Strings]): bytewise lexicographic order. *)
Definition sort_strings (l : list string) : list string := merge_sort String.le l.

Lemma sort_strings_perm l : sort_strings l ≡ₚ l.
Proof. apply merge_sort_Permutation. Qed.

Lemma sort_strings_sorted l : Sorted String.le (sort_strings l).
Proof. apply Sorted_merge_sort, _. Qed.

Lemma elem_of_sort_strings x l : x ∈ sort_strings l <-> x ∈ l.
Proof. by rewrite (sort_strings_perm l). Qed.

(** Two permutations of one list sort to the same list. *)
Lemma sort_strings_perm_eq l1 l2 : l1 ≡ₚ l2 -> sort_strings l1 = sort_strings l2.
Proof.
  intros Hp. apply (Sorted_unique String.le); try apply sort_strings_sorted.
  by rewrite !sort_strings_perm.
Qed.

Lemma sort_strings_idemp l : sort_strings (sort_strings l) = sort_strings l.
Proof. apply sort_strings_perm_eq, sort_strings_perm. Qed.

Lemma existsb_elem {A} (p : A -> bool) (l : list A) :
  existsb p l = true <-> exists x, x ∈ l /\ p x = true.
Proof.
  rewrite existsb_exists. by setoid_rewrite list_elem_of_In.
Qed.

Lemma forallb_elem {A} (p : A -> bool) (l : list A) :
  forallb p l = true <-> forall x, x ∈ l -> p x = true.
Proof.
  rewrite forallb_forall. by setoid_rewrite list_elem_of_In.
Qed.

Lemma existsb_elem_false {A} (p : A -> bool) (l : list A) :
  existsb p l = false <-> forall x, x ∈ l -> p x = false.
Proof.
  rewrite <-not_true_iff_false, existsb_elem. split.
  - intros H x Hx. apply not_true_iff_false. intros Hp. apply H. eauto.
  - intros H (x & Hx & Hp). specialize (H x Hx). congruence.
Qed.

(** ** Grouping: a map of tallies and the order its keys first appeared in *)

Section Group.
Context {A T : Type} (key : A -> string) (new : A -> T) (upd : A -> T -> T).

Definition grouped : Type := gmap string T * list string.

Definition touch (st : grouped) (x : A) : grouped :=
  let '(m, order) := st in
  match m !! key x with
  | None => (<[key x := upd x (new x)]> m, order ++ [key x])
  | Some t => (<[key x := upd x t]> m, order)
  end.

Definition group (l : list A) : grouped := foldl touch (∅, []) l.

(** What one key's elements amount to. *)
Definition tally_of (l : list A) : option T :=
  match l with
  | [] => None
  | x0 :: _ => Some (foldl (fun t x => upd x t) (new x0) l)
  end.

Lemma dedupe_from_snoc {B} `{EqDecision B} (seen l : list B) x :
  dedupe_from seen (l ++ [x]) = dedupe_from seen l ++ (if member x (l ++ seen) then [] else [x]).
Proof.
  revert seen. induction l as [|y l IH]; intros seen; simpl.
  - destruct (member x seen); done.
  - assert (Hm : forall s, y ∈ s -> member x (l ++ s) = member x (y :: l ++ s)).
    { intros s Hs. apply eq_true_iff_eq. rewrite !member_true. set_solver. }
    destruct (member y seen) eqn:E.
    + apply member_true in E. by rewrite IH, Hm.
    + rewrite IH. simpl. f_equal. f_equal.
      replace (member x (l ++ y :: seen)) with (member x (y :: l ++ seen)); [done|].
      apply eq_true_iff_eq. rewrite !member_true. set_solver.
Qed.

Lemma tally_of_snoc l x :
  tally_of (l ++ [x]) = Some (upd x (default (new x) (tally_of l))).
Proof. destruct l as [|x0 l]; [done|]. unfold tally_of. simpl. by rewrite foldl_snoc. Qed.

(** The order is that of first appearance; each key's tally is of its own
    elements, in order. *)
Lemma group_order l : (group l).2 = dedupe_from [] (map key l) /\
  forall k, (group l).1 !! k = tally_of (base.filter (fun x => key x = k) l).
Proof.
  induction l as [|x l [IHo IHm]] using rev_ind; [split; [done|intros k; apply lookup_empty]|].
  unfold group in *. rewrite foldl_snoc, map_app. change (map key [x]) with [key x]. rewrite dedupe_from_snoc, <-IHo.
  destruct (foldl touch (∅, []) l) as [m order]. simpl in *.
  rewrite (app_nil_r (map key l)).
  assert (Hx : m !! key x = None <-> key x ∉ order).
  { rewrite IHo, elem_of_dedupe_from, IHm.
    destruct (base.filter (fun y => key y = key x) l) as [|y ys] eqn:E; simpl.
    - split; [|done]. intros _ [Hin _]. apply list_elem_of_fmap in Hin as (y & Hy & Hin).
      assert (y ∈ base.filter (fun y => key y = key x) l) as Hf by (by apply list_elem_of_filter).
      rewrite E in Hf. set_solver.
    - split; [done|]. intros []. split; [|set_solver].
      assert (y ∈ base.filter (fun y => key y = key x) l) as Hf by (rewrite E; set_solver).
      apply list_elem_of_filter in Hf as [<- Hf]. by apply list_elem_of_fmap_2. }
  assert (Hmem : member (key x) (map key l) = true <-> key x ∈ order).
  { rewrite member_true, IHo, elem_of_dedupe_from. set_solver. }
  assert (Hup : forall k, (if decide (key x = k) then Some (upd x (default (new x) (m !! key x))) else m !! k)
                = tally_of (base.filter (fun y => key y = k) (l ++ [x]))).
  { intros k. rewrite filter_app. case_decide as Hk.
    - subst k. rewrite filter_cons_True by done. simpl. by rewrite tally_of_snoc, IHm.
    - rewrite filter_cons_False by done. simpl. by rewrite app_nil_r. }
  destruct (m !! key x) as [t|] eqn:Em.
  - assert (key x ∈ order) as Hin.
    { destruct (decide (key x ∈ order)) as [|Hn]; [done|]. apply Hx in Hn. congruence. }
    rewrite (proj2 Hmem Hin), app_nil_r. split; [done|]. intros k. simpl. rewrite <-Hup.
    case_decide as Hk; [subst; by rewrite lookup_insert_eq | by rewrite lookup_insert_ne].
  - rewrite (proj1 (not_true_iff_false _)) by (rewrite Hmem; by apply Hx).
    split; [done|]. intros k. simpl. rewrite <-Hup.
    case_decide as Hk; [subst; by rewrite lookup_insert_eq | by rewrite lookup_insert_ne].
Qed.
End Group.

Arguments grouped T : clear implicits.

#[export] Hint Resolve NoDup_dedupe_from sort_strings_perm sort_strings_sorted : go.
