(* ===== verification/Fan.v ===== *)
(** * Tasks run at once and joined: [parallel] of run.go

    The program often starts a task for each of some things and waits for all
    of them; a task leaves what it found in a slot of its own, or appends it
    under a lock. Here is that pattern, with its lemmas: whatever the order in
    which the tasks return, what is left is what they would have left in
    turn. *)

From S2P Require Import Prelude.

(** The slots, and the tasks that have returned, in that order. *)
Record fan (A : Type) := mkFan { f_out : list (option A); f_order : list nat }.

Arguments mkFan {A} _ _.
Arguments f_out {A} _.
Arguments f_order {A} _.

Section Fan.
Context {Q A : Type}.
(** What the task for a thing may find. *)
Variable finds : Q -> A -> Prop.
Variable qs : list Q.

Definition fan_init : fan A := mkFan (map (fun _ => None) qs) [].

Inductive fan_step : fan A -> fan A -> Prop :=
| fan_returns out order i q a :
    qs !! i = Some q -> out !! i = Some None -> finds q a ->
    fan_step (mkFan out order) (mkFan (<[i := Some a]> out) (order ++ [i])).

(** The wait is over: what is in the slots. *)
Definition fan_slots (f : fan A) : option (list A) := mapM id (f_out f).

(** What was appended, in order. *)
Definition fan_appended (f : fan A) : list A := omap (fun i => o ← f_out f !! i; o) (f_order f).

(** ** Lemmas *)

Definition fan_inv (f : fan A) : Prop :=
  Forall2 (fun q o => forall a, o = Some a -> finds q a) qs (f_out f) /\
  NoDup (f_order f) /\
  (forall i, i ∈ f_order f <-> exists a, f_out f !! i = Some (Some a)).

Lemma fan_inv_init : fan_inv fan_init.
Proof.
  split_and!; cbn; [|constructor|].
  - induction qs; cbn; by constructor.
  - intros i. split; [by intros ?%elem_of_nil|]. intros [a H].
    rewrite list_lookup_fmap in H. destruct (qs !! i); discriminate H.
Qed.

Lemma fan_inv_step f f' : fan_inv f -> fan_step f f' -> fan_inv f'.
Proof.
  intros (Hf & Hnd & Ho). destruct 1 as [out order i q a Hq Hi Ha]. cbn in *. split_and!; cbn.
  - rewrite <-(list_insert_id qs i q) by done. apply Forall2_insert; [done|]. by intros ? [= <-].
  - apply NoDup_app. split_and!; [done| |apply NoDup_singleton]. intros j Hj ->%list_elem_of_singleton.
    apply Ho in Hj as [b Hb]. congruence.
  - intros j. rewrite elem_of_app, list_elem_of_singleton, Ho. destruct (decide (j = i)) as [->|Hne].
    + rewrite list_lookup_insert_eq by (by eapply lookup_lt_Some). naive_solver.
    + rewrite list_lookup_insert_ne by done. naive_solver.
Qed.

Lemma fan_inv_reachable f : rtc fan_step fan_init f -> fan_inv f.
Proof. intros H. eapply rtc_preserves; [exact fan_inv_step|exact H|exact fan_inv_init]. Qed.

Lemma fan_slots_Some f outs : fan_slots f = Some outs -> f_out f = map Some outs.
Proof.
  unfold fan_slots. intros H%mapM_Some. induction H as [|o a os outs Ho _ IH]; [done|]. cbn in *. by rewrite Ho, IH.
Qed.

(** What is in the slots in the end was found by their tasks. *)
Lemma fan_found f outs : fan_inv f -> fan_slots f = Some outs -> Forall2 finds qs outs.
Proof.
  intros (Hf & _) E%fan_slots_Some. rewrite E in Hf. apply Forall2_fmap_r in Hf. eapply Forall2_impl; [exact Hf|]. cbn. auto.
Qed.

Lemma slots_in_order (outs : list A) :
  omap (fun i => o ← map Some outs !! i; o) (seq 0 (length outs)) = outs.
Proof.
  induction outs as [|a outs IH]; [done|]. cbn. f_equal. rewrite <-IH at 2. clear IH. rewrite <-fmap_S_seq.
  induction (seq 0 (length outs)) as [|i js IHi]; [done|]. cbn. by rewrite IHi.
Qed.

(** What was appended is what is in the slots, in another order. *)
Lemma fan_appended_perm f outs : fan_inv f -> fan_slots f = Some outs -> fan_appended f ≡ₚ outs.
Proof.
  intros (_ & Hnd & Ho) E%fan_slots_Some.
  assert (Hp : f_order f ≡ₚ seq 0 (length outs)).
  { apply NoDup_Permutation; [done|apply NoDup_seq|]. intros i. rewrite Ho, E, elem_of_seq. split.
    - intros [a H%lookup_lt_Some]. rewrite length_map in H. lia.
    - intros [_ H]. destruct (lookup_lt_is_Some_2 outs i H) as [a Ha]. exists a. by rewrite list_lookup_fmap, Ha. }
  unfold fan_appended. rewrite Hp, E. by rewrite slots_in_order.
Qed.

(** Something can be found for all of them. *)
Lemma found_exists : (forall q, exists a, finds q a) -> forall l, exists outs, Forall2 finds l outs.
Proof.
  intros Ht l. induction l as [|q l (outs & IH)]; [by exists []|]. destruct (Ht q) as [a Ha]. exists (a :: outs). by constructor.
Qed.

(** All tasks can always return. *)
Definition slot_open (o : option A) : nat := match o with None => 1 | Some _ => 0 end.

Definition fan_work (f : fan A) : nat := sum_list_with slot_open (f_out f).

Lemma fan_slots_None f : fan_slots f = None -> exists i, f_out f !! i = Some None.
Proof.
  unfold fan_slots. induction (f_out f) as [|[a|] out IH]; [done| |by exists 0%nat]. cbn.
  intros H. destruct (mapM id out); [done|]. destruct IH as [i Hi]; [done|]. by exists (S i).
Qed.

Lemma fan_progress f :
  (forall q, exists a, finds q a) -> fan_inv f -> fan_slots f = None ->
  exists f', fan_step f f' /\ (fan_work f' < fan_work f)%nat.
Proof.
  intros Ht (Hf & _) [i Hi]%fan_slots_None. destruct (Forall2_lookup_r _ _ _ _ _ Hf Hi) as (q & Hq & _).
  destruct (Ht q) as [a Ha]. exists (mkFan (<[i := Some a]> (f_out f)) (f_order f ++ [i])). split.
  - destruct f as [out order]. by eapply fan_returns.
  - unfold fan_work. cbn. pose proof (sum_insert slot_open _ _ (Some a) _ Hi). cbn in *. lia.
Qed.
#[local] Instance slots_filled_dec f : Decision (is_Some (fan_slots f)).
Proof. apply is_Some_dec. Defined.

Lemma fan_completes f :
  (forall q, exists a, finds q a) -> fan_inv f ->
  exists f' outs, rtc fan_step f f' /\ fan_inv f' /\ fan_slots f' = Some outs.
Proof.
  intros Ht Hf. destruct (rtc_completes fan_step fan_inv (fun f => is_Some (fan_slots f)) fan_work) with (x := f)
    as (f' & Hr & [outs Ho]); [exact fan_inv_step| |done|].
  - intros x Hx Hn. apply fan_progress; [done..|]. by apply eq_None_not_Some.
  - exists f', outs. split_and!; [done| |done]. by eapply rtc_preserves; [exact fan_inv_step|exact Hr|].
Qed.
End Fan.

(** What was found, as a function of the thing, when no thing comes twice. *)
Lemma found_function {Q A} `{EqDecision Q} (finds : Q -> A -> Prop) (zero : A) (qs : list Q) (outs : list A) :
  NoDup qs -> Forall2 finds qs outs ->
  exists g, outs = map g qs /\ forall q, q ∈ qs -> finds q (g q).
Proof.
  intros Hnd H. induction H as [|q a qs outs Ha H IH]; [by exists (fun _ => zero); split; [|intros q ?%elem_of_nil]|].
  apply NoDup_cons in Hnd as [Hq Hnd]. destruct (IH Hnd) as (g & -> & Hg).
  exists (fun q' => if decide (q' = q) then a else g q'). split.
  - cbn. rewrite decide_True by done. f_equal. apply map_ext_in. intros q' Hin%list_elem_of_In.
    rewrite decide_False; [done|]. by intros ->.
  - intros q' [->|Hin]%elem_of_cons; [by rewrite decide_True|]. rewrite decide_False; [by apply Hg|]. by intros ->.
Qed.

#[export] Hint Resolve fan_inv_init fan_inv_step : go.
