(* ===== verification/GoStrings.v ===== *)
(** * Go's strings and strconv, as far as the program uses them

    Go strings are byte strings: here [string], a list of bytes. White space
    and letter case are those of ASCII; a byte from 0x80 up is left alone by
    [ToLower] and never counts as space. *)

From S2P Require Import Prelude.

(** ** Bytes *)

Definition byte_in (lo hi : nat) (c : ascii) : bool :=
  (lo <=? Ascii.nat_of_ascii c)%nat && (Ascii.nat_of_ascii c <=? hi)%nat.

Definition is_digit (c : ascii) : bool := byte_in 48 57 c.
Definition is_upper (c : ascii) : bool := byte_in 65 90 c.
Definition is_lower (c : ascii) : bool := byte_in 97 122 c.
Definition is_blank (c : ascii) : bool := Ascii.eqb c " "%char || Ascii.eqb c "009"%char.
Definition is_space (c : ascii) : bool := Ascii.is_space c.

Definition lower_byte (c : ascii) : ascii :=
  if is_upper c then Ascii.ascii_of_nat (Ascii.nat_of_ascii c + 32) else c.
Definition upper_byte (c : ascii) : ascii :=
  if is_lower c then Ascii.ascii_of_nat (Ascii.nat_of_ascii c - 32) else c.

Definition newline : ascii := "010"%char.
Definition tab : ascii := "009"%char.
Definition dquote : ascii := "034"%char.
Definition byte_string (c : ascii) : string := String c "".

(** ** Substrings *)

Fixpoint str_take (n : nat) (s : string) : string :=
  match n, s with
  | S n, String c s => String c (str_take n s)
  | _, _ => ""
  end.

Fixpoint str_drop (n : nat) (s : string) : string :=
  match n, s with
  | S n, String _ s => str_drop n s
  | _, _ => s
  end.

Fixpoint str_rev_onto (s acc : string) : string :=
  match s with
  | "" => acc
  | String c s => str_rev_onto s (String c acc)
  end.
Definition str_rev (s : string) : string := str_rev_onto s "".

Fixpoint str_map (f : ascii -> ascii) (s : string) : string :=
  match s with
  | "" => ""
  | String c s => String (f c) (str_map f s)
  end.

Fixpoint str_filter (p : ascii -> bool) (s : string) : string :=
  match s with
  | "" => ""
  | String c s => if p c then String c (str_filter p s) else str_filter p s
  end.

Fixpoint str_all (p : ascii -> bool) (s : string) : bool :=
  match s with
  | "" => true
  | String c s => p c && str_all p s
  end.

Definition str_any (p : ascii -> bool) (s : string) : bool := negb (str_all (fun c => negb (p c)) s).

(** The byte [s[i]]; [None] where Go would panic. *)
Fixpoint str_get (i : nat) (s : string) : option ascii :=
  match i, s with
  | O, String c _ => Some c
  | S i, String _ s => str_get i s
  | _, "" => None
  end.

Fixpoint str_drop_while (p : ascii -> bool) (s : string) : string :=
  match s with
  | "" => ""
  | String c s' => if p c then str_drop_while p s' else s
  end.

Fixpoint str_take_while (p : ascii -> bool) (s : string) : string :=
  match s with
  | "" => ""
  | String c s' => if p c then String c (str_take_while p s') else ""
  end.

(** ** Package strings *)

Fixpoint HasPrefix (s p : string) : bool :=
  match p, s with
  | "", _ => true
  | String c p, String d s => Ascii.eqb c d && HasPrefix s p
  | String _ _, "" => false
  end.

Definition HasSuffix (s p : string) : bool := HasPrefix (str_rev s) (str_rev p).

Definition TrimPrefix (s p : string) : string :=
  if HasPrefix s p then str_drop (String.length p) s else s.

Definition TrimSuffix (s p : string) : string :=
  if HasSuffix s p then str_take (String.length s - String.length p) s else s.

Fixpoint Contains (s sub : string) : bool :=
  HasPrefix s sub || match s with "" => false | String _ s => Contains s sub end.

Definition ContainsByte (s : string) (c : ascii) : bool := str_any (Ascii.eqb c) s.

(** [ContainsAny s chars]: some byte of [chars] occurs in [s]. *)
Definition ContainsAny (s chars : string) : bool := str_any (ContainsByte chars) s.

Definition TrimLeftFunc (p : ascii -> bool) (s : string) : string := str_drop_while p s.
Definition TrimRightFunc (p : ascii -> bool) (s : string) : string :=
  str_rev (str_drop_while p (str_rev s)).
Definition TrimFunc (p : ascii -> bool) (s : string) : string := TrimRightFunc p (TrimLeftFunc p s).
Definition TrimSpace (s : string) : string := TrimFunc is_space s.

(** The text before and after the first byte [c]; [None] when [c] is absent. *)
Fixpoint cut_byte (c : ascii) (s : string) : option (string * string) :=
  match s with
  | "" => None
  | String d s =>
      if Ascii.eqb d c then Some ("", s)
      else match cut_byte c s with
           | Some (x, y) => Some (String d x, y)
           | None => None
           end
  end.

(** [strings.Cut] on one byte. *)
Definition Cut (s : string) (c : ascii) : string * string * bool :=
  match cut_byte c s with
  | Some (x, y) => (x, y, true)
  | None => (s, "", false)
  end.

(** [strings.SplitN(s, sep, 2)] on one byte. *)
Definition SplitN2 (s : string) (c : ascii) : list string :=
  match cut_byte c s with
  | Some (x, y) => [x; y]
  | None => [s]
  end.

(** Pieces between the bytes that satisfy [p]. *)
Fixpoint split_func (p : ascii -> bool) (s : string) : list string :=
  match s with
  | "" => [""]
  | String c s =>
      if p c then "" :: split_func p s
      else match split_func p s with
           | x :: xs => String c x :: xs
           | [] => [String c ""]
           end
  end.

Definition Split (s : string) (c : ascii) : list string := split_func (Ascii.eqb c) s.

Definition is_empty (s : string) : bool := match s with "" => true | _ => false end.

Definition Fields (s : string) : list string :=
  base.filter (fun x => negb (is_empty x) = true) (split_func is_space s).

Fixpoint Join (l : list string) (sep : string) : string :=
  match l with
  | [] => ""
  | [x] => x
  | x :: l => x +:+ sep +:+ Join l sep
  end.

Definition ToLower (s : string) : string := str_map lower_byte s.
Definition ToUpper (s : string) : string := str_map upper_byte s.
Definition EqualFold (s t : string) : bool := String.eqb (ToLower s) (ToLower t).

(** [strings.ReplaceAll] with a non-empty [old]: [skip] counts the bytes of a
    match already replaced. *)
Fixpoint replace_from (skip : nat) (s old new : string) : string :=
  match s with
  | "" => ""
  | String c s' =>
      match skip with
      | S k => replace_from k s' old new
      | O => if HasPrefix s old
             then new +:+ replace_from (pred (String.length old)) s' old new
             else String c (replace_from O s' old new)
      end
  end.
Definition ReplaceAll (s old new : string) : string := replace_from O s old new.

Definition firstNonEmpty (vals : list string) : string :=
  match base.filter (fun v => negb (is_empty v) = true) vals with
  | v :: _ => v
  | [] => ""
  end.

(** ** Package strconv *)

Inductive NumError := ErrSyntax | ErrRange.

Definition digit_val (c : ascii) : Z := Z.of_nat (Ascii.nat_of_ascii c) - 48.

Fixpoint digits_val (s : string) (acc : Z) : Z :=
  match s with
  | "" => acc
  | String c s => digits_val s (10 * acc + digit_val c)
  end.

Definition maxInt64 : Z := 2 ^ 63 - 1.
Definition minInt64 : Z := - 2 ^ 63.

(** [strconv.ParseInt(s, 10, 64)], and [strconv.Atoi] on a 64-bit platform:
    the value together with the error, which a caller may ignore. *)
Definition ParseInt (s : string) : Z * option NumError :=
  let '(neg, ds) :=
    match s with
    | String "+" ds => (false, ds)
    | String "-" ds => (true, ds)
    | _ => (false, s)
    end in
  if is_empty ds || negb (str_all is_digit ds) then (0%Z, Some ErrSyntax)
  else
    let v := if neg : bool then Z.opp (digits_val ds 0) else digits_val ds 0 in
    if (v >? maxInt64)%Z then (maxInt64, Some ErrRange)
    else if (v <? minInt64)%Z then (minInt64, Some ErrRange)
    else (v, None).

Definition Atoi (s : string) : Z * option NumError := ParseInt s.

(** The value when there is no error. *)
Definition AtoiOk (s : string) : option Z :=
  match Atoi s with
  | (v, None) => Some v
  | _ => None
  end.

Definition Itoa (n : Z) : string := pretty n.
Definition itoa (n : nat) : string := pretty n.

(** [strconv.ParseBool]. *)
Definition ParseBool (s : string) : option bool :=
  if member s ["1"; "t"; "T"; "TRUE"; "true"; "True"] then Some true
  else if member s ["0"; "f"; "F"; "FALSE"; "false"; "False"] then Some false
  else None.

(** [strconv.Quote] on ASCII text (a byte from 0x80 up is printed as is). *)
Definition hex_digit (n : nat) : ascii :=
  if (n <? 10)%nat then Ascii.ascii_of_nat (48 + n) else Ascii.ascii_of_nat (87 + n).

Definition quote_byte (c : ascii) : string :=
  let n := Ascii.nat_of_ascii c in
  match n with
  | 34%nat | 92%nat => String "\" (String c "")
  | 7%nat => "\a" | 8%nat => "\b" | 12%nat => "\f" | 10%nat => "\n"
  | 13%nat => "\r" | 9%nat => "\t" | 11%nat => "\v"
  | _ => if (n <? 32)%nat || (n =? 127)%nat
         then "\x" +:+ String (hex_digit (n / 16)) (String (hex_digit (n mod 16)) "")
         else String c ""
  end.

Fixpoint quote_body (s : string) : string :=
  match s with
  | "" => ""
  | String c s => quote_byte c +:+ quote_body s
  end.
Definition Quote (s : string) : string := String dquote (quote_body s +:+ String dquote "").

(** [%v] of a string slice. *)
Definition fmt_strings (l : list string) : string := "[" +:+ Join l " " +:+ "]".

Definition fmt_bool (b : bool) : string := if b then "true" else "false".

(** ** Lemmas *)

Lemma HasPrefix_refl s : HasPrefix s s = true.
Proof. induction s as [|c s IH]; simpl; [done|]. by rewrite Ascii.eqb_refl, IH. Qed.

Lemma HasPrefix_app p s : HasPrefix (p +:+ s) p = true.
Proof. induction p as [|c p IH]; [by destruct s|]. simpl. by rewrite Ascii.eqb_refl, IH. Qed.

Lemma HasPrefix_inv s p : HasPrefix s p = true -> exists t, s = p +:+ t.
Proof.
  revert s. induction p as [|c p IH]; intros s H; [by exists s|].
  destruct s as [|d s]; simpl in H; [done|]. simp_bool.
  apply Ascii.eqb_eq in H as ->. destruct (IH s) as [t ->]; [done|]. by exists t.
Qed.

Lemma str_drop_app p s : str_drop (String.length p) (p +:+ s) = s.
Proof. by induction p. Qed.

Lemma TrimPrefix_app p s : TrimPrefix (p +:+ s) p = s.
Proof. unfold TrimPrefix. by rewrite HasPrefix_app, str_drop_app. Qed.

Lemma is_empty_true s : is_empty s = true <-> s = "".
Proof. by destruct s. Qed.

Lemma is_empty_false s : is_empty s = false <-> s <> "".
Proof. by destruct s. Qed.

Lemma app_assoc_str (a b c : string) : (a +:+ b) +:+ c = a +:+ (b +:+ c).
Proof. induction a as [|x a IH]; [done|]. unfold String.app in *. simpl. by rewrite IH. Qed.

Lemma app_nil_str (a : string) : a +:+ "" = a.
Proof. induction a as [|x a IH]; [done|]. unfold String.app in *. simpl. by rewrite IH. Qed.

Lemma length_app_str a b : String.length (a +:+ b) = (String.length a + String.length b)%nat.
Proof. induction a as [|x a IH]; [done|]. unfold String.app in *. simpl. by rewrite IH. Qed.

Lemma append_inj_l a b d : a +:+ d = b +:+ d -> a = b.
Proof.
  revert b. induction a as [|x a IH]; intros [|y b] E; [done|exfalso|exfalso|].
  - apply (f_equal String.length) in E. rewrite !length_app_str in E. cbn in E. lia.
  - apply (f_equal String.length) in E. rewrite !length_app_str in E. cbn in E. lia.
  - injection E as -> E. f_equal. auto.
Qed.

Lemma str_rev_onto_app s acc : str_rev_onto s acc = str_rev s +:+ acc.
Proof.
  unfold str_rev. revert acc. induction s as [|c s IH]; intros acc; [done|]. simpl.
  rewrite IH, (IH (String c "")), app_assoc_str. done.
Qed.

Lemma str_rev_cons c s : str_rev (String c s) = str_rev s +:+ String c "".
Proof. unfold str_rev at 1. simpl. apply str_rev_onto_app. Qed.

Lemma str_rev_app a b : str_rev (a +:+ b) = str_rev b +:+ str_rev a.
Proof.
  induction a as [|c a IH].
  - change ("" +:+ b) with b. change (str_rev "") with "". by rewrite app_nil_str.
  - change (String c a +:+ b) with (String c (a +:+ b)).
    by rewrite !str_rev_cons, IH, app_assoc_str.
Qed.

Lemma str_rev_rev s : str_rev (str_rev s) = s.
Proof. induction s as [|c s IH]; [done|]. by rewrite str_rev_cons, str_rev_app, IH. Qed.

Lemma HasPrefix_app_l s p t : HasPrefix s p = true -> HasPrefix (s +:+ t) p = true.
Proof. intros [u ->]%HasPrefix_inv. rewrite app_assoc_str. apply HasPrefix_app. Qed.

(** Two prefixes of one string are prefixes of one another. *)
Lemma HasPrefix_comparable s p q :
  HasPrefix s p = true -> HasPrefix s q = true -> HasPrefix p q || HasPrefix q p = true.
Proof.
  revert p q. induction s as [|c s IH]; intros [|d p] [|e q]; simpl; try done.
  intros Hp Hq. simp_bool.
  repeat match goal with H : Ascii.eqb _ _ = true |- _ => apply Ascii.eqb_eq in H as -> end.
  rewrite Ascii.eqb_refl. simpl. eauto.
Qed.

Lemma HasSuffix_app s p : HasSuffix (s +:+ p) p = true.
Proof. unfold HasSuffix. rewrite str_rev_app. apply HasPrefix_app. Qed.

(** Splitting never returns the empty slice. *)
Lemma split_func_nonempty p s : split_func p s <> [].
Proof. destruct s as [|c s]; simpl; [done|]. by destruct (p c), (split_func p s). Qed.

(** A piece of a split holds no separator. *)
Lemma split_func_free p s x : x ∈ split_func p s -> str_all (fun c => negb (p c)) x = true.
Proof.
  revert x. induction s as [|c s IH]; intros x; simpl.
  { by intros ->%list_elem_of_singleton. }
  destruct (p c) eqn:E.
  { intros [->|H]%elem_of_cons; [done|auto]. }
  destruct (split_func p s) as [|y ys] eqn:Es; [by apply split_func_nonempty in Es|].
  intros [->|H]%elem_of_cons; simpl.
  - rewrite E. simpl. apply IH. set_solver.
  - apply IH. set_solver.
Qed.

Lemma split_func_app_sep p x s c :
  str_all (fun c => negb (p c)) x = true -> p c = true ->
  split_func p (x +:+ String c s) = x :: split_func p s.
Proof.
  intros Hx Hc. induction x as [|d x IH]; unfold String.app; simpl.
  { by rewrite Hc. }
  simpl in Hx. simp_bool. rewrite H.
  unfold String.app in IH. by rewrite IH.
Qed.

Lemma split_func_whole p x :
  str_all (fun c => negb (p c)) x = true -> split_func p x = [x].
Proof.
  induction x as [|d x IH]; simpl; [done|]. intros H. simp_bool. by rewrite H, IH.
Qed.

(** Splitting what was joined, when no piece holds the separator. *)
Lemma Split_Join c l :
  l <> [] -> Forall (fun x => str_all (fun d => negb (Ascii.eqb c d)) x = true) l ->
  Split (Join l (String c "")) c = l.
Proof.
  unfold Split. intros Hne HF. induction HF as [|x l Hx HF IH]; [done|].
  destruct l as [|y l]; [by apply split_func_whole|].
  change (Join (x :: y :: l) (String c "")) with (x +:+ String c (Join (y :: l) (String c ""))).
  rewrite split_func_app_sep; [|done|by rewrite Ascii.eqb_refl].
  f_equal. by apply IH.
Qed.

Lemma elem_of_Fields x s :
  x ∈ Fields s -> x <> "" /\ str_all (fun c => negb (is_space c)) x = true.
Proof.
  unfold Fields. intros [Hn Hx]%list_elem_of_filter.
  apply negb_true_iff, is_empty_false in Hn.
  split; [done|]. by apply split_func_free in Hx.
Qed.

Lemma firstNonEmpty_l a l : a <> "" -> firstNonEmpty (a :: l) = a.
Proof.
  intros Ha. unfold firstNonEmpty. rewrite filter_cons_True; [done|].
  by apply negb_true_iff, is_empty_false.
Qed.

Lemma firstNonEmpty_empty l : firstNonEmpty ("" :: l) = firstNonEmpty l.
Proof. unfold firstNonEmpty. by rewrite filter_cons_False by done. Qed.

(** The parsed integer always lies in the 64-bit range, errors included. *)
Lemma ParseInt_range s : (minInt64 <= (ParseInt s).1 <= maxInt64)%Z.
Proof.
  unfold ParseInt.
  match goal with |- context [let '(a, b) := ?e in _] => destruct e as [neg ds] end.
  case_match; [simpl; unfold minInt64, maxInt64; lia|].
  set (v := if neg then _ else _). unfold maxInt64, minInt64 in *.
  destruct (Z.gtb_spec v (2 ^ 63 - 1)); simpl; [lia|].
  destruct (Z.ltb_spec v (- 2 ^ 63)); simpl; lia.
Qed.

Lemma str_all_app p a b : str_all p (a +:+ b) = str_all p a && str_all p b.
Proof.
  induction a as [|c a IH]; [done|]. unfold String.app in *. simpl. rewrite IH. apply andb_assoc.
Qed.

Lemma str_all_rev p s : str_all p (str_rev s) = str_all p s.
Proof.
  induction s as [|c s IH]; [done|]. rewrite str_rev_cons, str_all_app, IH. cbn.
  rewrite andb_true_r. apply andb_comm.
Qed.

(** ** Numbers written and read *)

Lemma pretty_char_digit n : (n < 10)%N -> is_digit (pretty_N_char n) = true /\ digit_val (pretty_N_char n) = Z.of_N n.
Proof.
  rewrite <-(N2Nat.id n). generalize (N.to_nat n) as k. intros k Hk. do 10 (destruct k as [|k]; [done|]). lia.
Qed.

Lemma pretty_go_digits n s :
  str_all is_digit (pretty_N_go n s) = str_all is_digit s /\ digits_val (pretty_N_go n s) 0 = digits_val s (Z.of_N n).
Proof.
  revert s. induction (N.lt_wf_0 n) as [n _ IH]. intros s. destruct (decide (n = 0)%N) as [->|Hn]; [done|].
  rewrite pretty_N_go_step by lia.
  destruct (pretty_char_digit (n mod 10)) as [Hd Hv]; [by apply N.mod_lt|].
  destruct (IH (n / 10)%N (N.div_lt n 10 ltac:(lia) ltac:(lia)) (String (pretty_N_char (n mod 10)) s)) as [H1 H2].
  rewrite H1, H2. simpl str_all. simpl digits_val. rewrite Hd, Hv. split; [done|]. f_equal.
  pose proof (N.div_mod n 10 ltac:(lia)). lia.
Qed.

Lemma pretty_N_digits (n : N) :
  str_all is_digit (pretty n) = true /\ digits_val (pretty n) 0 = Z.of_N n /\ pretty n <> "".
Proof.
  unfold pretty, pretty_N. destruct (decide (n = 0)%N) as [->|Hn]; [done|].
  destruct (pretty_go_digits n "") as [H1 H2]. split_and!; [done|done|].
  intros E. rewrite E in H2. simpl in H2. lia.
Qed.

(** A number in range reads back as it was written. *)
Lemma ParseInt_Itoa n : (minInt64 <= n <= maxInt64)%Z -> ParseInt (Itoa n) = (n, None).
Proof.
  intros Hn. set (m := Z.abs_N n). destruct (pretty_N_digits m) as (Hd & Hv & Hne).
  assert (Hbody : forall neg : bool, (if neg then - Z.of_N m else Z.of_N m)%Z = n ->
    (if is_empty (pretty m) || negb (str_all is_digit (pretty m)) then (0%Z, Some ErrSyntax)
     else let v := if neg then Z.opp (digits_val (pretty m) 0) else digits_val (pretty m) 0 in
          if (v >? maxInt64)%Z then (maxInt64, Some ErrRange)
          else if (v <? minInt64)%Z then (minInt64, Some ErrRange) else (v, None)) = (n, None)).
  { intros neg E. rewrite Hd, Hv, (proj2 (is_empty_false _) Hne), E. cbn.
    destruct (Z.gtb_spec n maxInt64); [lia|]. by destruct (Z.ltb_spec n minInt64); [lia|]. }
  unfold ParseInt, Itoa. destruct n as [|p|p]; [done| |exact (Hbody true eq_refl)].
  change (pretty (Z.pos p)) with (pretty m). rewrite <-(Hbody false eq_refl).
  destruct (pretty m) as [|c s]; [done|]. cbn in Hd. simp_bool.
  destruct c as [[] [] [] [] [] [] [] []]; done.
Qed.

#[export] Hint Resolve HasPrefix_refl HasPrefix_app : go.
