(* ===== verification/Netip.v ===== *)
(** * Go's net/netip, as far as the program uses it

    An address is a 32-bit IPv4 or a 128-bit IPv6 number (the latter with the
    zone of a scoped address); prefixes, parsing and printing as in the
    package. *)

From S2P Require Import Prelude GoStrings.

(** ** Addresses *)

Inductive Addr :=
| V4 (n : N)
| V6 (n : N) (zone : string).

#[export] Instance Addr_eq_dec : EqDecision Addr.
Proof. solve_decision. Defined.

#[export] Instance Addr_countable : Countable Addr.
Proof.
  apply (inj_countable'
    (fun a => match a with V4 n => inl n | V6 n z => inr (n, z) end)
    (fun s => match s with inl n => V4 n | inr (n, z) => V6 n z end)).
  by intros [].
Defined.

(** The number fits the address width. *)
Definition addr_wf (a : Addr) : Prop :=
  match a with
  | V4 n => (n < 2 ^ 32)%N
  | V6 n _ => (n < 2 ^ 128)%N
  end.

Definition Is4 (a : Addr) : bool := match a with V4 _ => true | V6 _ _ => false end.
Definition Is6 (a : Addr) : bool := match a with V4 _ => false | V6 _ _ => true end.

(** ::ffff:0:0/96. *)
Definition Is4In6 (a : Addr) : bool :=
  match a with
  | V4 _ => false
  | V6 n _ => (N.shiftr n 32 =? 65535)%N
  end.

Definition Unmap (a : Addr) : Addr :=
  match a with
  | V6 n z => if Is4In6 (V6 n z) then V4 (N.land n (N.ones 32)) else V6 n z
  | V4 n => V4 n
  end.

Definition BitLen (a : Addr) : Z := match a with V4 _ => 32 | V6 _ _ => 128 end.
Definition hasZone (a : Addr) : bool :=
  match a with V4 _ => false | V6 _ z => negb (is_empty z) end.
Definition withoutZone (a : Addr) : Addr := match a with V4 n => V4 n | V6 n _ => V6 n "" end.
Definition addr_num (a : Addr) : N := match a with V4 n | V6 n _ => n end.

(** ** Prefixes; [pfx_bits] is -1 for an invalid one, as [Prefix.Bits]. *)

Record Prefix := mkPrefix { pfx_addr : Addr; pfx_bits : Z }.

#[export] Instance Prefix_eq_dec : EqDecision Prefix.
Proof. solve_decision. Defined.

#[export] Instance Prefix_countable : Countable Prefix.
Proof.
  apply (inj_countable' (fun p => (pfx_addr p, pfx_bits p)) (fun p => mkPrefix p.1 p.2)).
  by intros [].
Defined.

Definition PrefixFrom (a : Addr) (bits : Z) : Prefix :=
  mkPrefix (withoutZone a) (if ((0 <=? bits) && (bits <=? BitLen a))%Z then bits else (-1)).

(** The top [bits] of a [w]-bit number. *)
Definition mask_top (w bits : Z) (n : N) : N :=
  N.shiftl (N.shiftr n (Z.to_N (w - bits))) (Z.to_N (w - bits)).

(** [Addr.Prefix(b)]; [None] is the error. *)
Definition addr_Prefix (a : Addr) (b : Z) : option Prefix :=
  if ((b <? 0) || (BitLen a <? b))%Z then None
  else Some (mkPrefix (match a with
                       | V4 n => V4 (mask_top 32 b n)
                       | V6 n _ => V6 (mask_top 128 b n) ""
                       end) b).

(** [Prefix.Masked]; the zero prefix when invalid. *)
Definition Masked (p : Prefix) : option Prefix := addr_Prefix (pfx_addr p) (pfx_bits p).

Definition pfx_Contains (p : Prefix) (a : Addr) : bool :=
  if ((pfx_bits p <? 0)%Z || hasZone a)%bool then false
  else if negb (BitLen (pfx_addr p) =? BitLen a)%Z then false
  else (mask_top (BitLen a) (pfx_bits p) (addr_num (pfx_addr p))
        =? mask_top (BitLen a) (pfx_bits p) (addr_num a))%N.

(** ** Parsing *)

Definition parse_octet (s : string) : option N :=
  if is_empty s || (3 <? String.length s)%nat || negb (str_all is_digit s) then None
  else if HasPrefix s "0" && negb (String.eqb s "0") then None
  else let v := Z.to_N (digits_val s 0) in if (v <? 256)%N then Some v else None.

Definition parseIPv4 (s : string) : option N :=
  match mapM parse_octet (Split s "."%char) with
  | Some [a; b; c; d] => Some (((a * 256 + b) * 256 + c) * 256 + d)%N
  | _ => None
  end.

Definition hex_val (c : ascii) : option N :=
  let n := N.of_nat (Ascii.nat_of_ascii c) in
  if is_digit c then Some (n - 48)%N
  else if byte_in 97 102 c then Some (n - 87)%N
  else if byte_in 65 70 c then Some (n - 55)%N
  else None.

Fixpoint hex_num (s : string) (acc : N) : option N :=
  match s with
  | "" => Some acc
  | String c s => v ← hex_val c; hex_num s (acc * 16 + v)%N
  end.

Definition parse_hextet (s : string) : option N :=
  if is_empty s || (4 <? String.length s)%nat then None else hex_num s 0.

(** Hextets separated by colons; the last group may be an IPv4 address when
    [v4ok]. *)
Fixpoint parse_groups (v4ok : bool) (gs : list string) : option (list N) :=
  match gs with
  | [] => Some []
  | [g] => match parse_hextet g with
           | Some h => Some [h]
           | None => if v4ok then v ← parseIPv4 g; Some [N.shiftr v 16; N.land v 65535] else None
           end
  | g :: gs => h ← parse_hextet g; hs ← parse_groups v4ok gs; Some (h :: hs)
  end.

Definition parse_side (v4ok : bool) (s : string) : option (list N) :=
  if is_empty s then Some [] else parse_groups v4ok (Split s ":"%char).

(** The text before and after the first double colon. *)
Fixpoint cut_ellipsis (s : string) : option (string * string) :=
  match s with
  | "" => None
  | String c s' =>
      if HasPrefix s "::" then Some ("", str_drop 2 s)
      else match cut_ellipsis s' with
           | Some (x, y) => Some (String c x, y)
           | None => None
           end
  end.

Definition hextets_num (hs : list N) : N := foldl (fun acc h => acc * 65536 + h)%N 0%N hs.

Definition parseIPv6 (s : string) : option Addr :=
  let '(body, zone, zoned) := Cut s "%"%char in
  if zoned && is_empty zone then None
  else match cut_ellipsis body with
       | None =>
           hs ← parse_groups true (Split body ":"%char);
           if (length hs =? 8)%nat then Some (V6 (hextets_num hs) zone) else None
       | Some (l, r) =>
           ls ← parse_side false l; rs ← parse_side true r;
           if (length ls + length rs <? 8)%nat
           then Some (V6 (hextets_num (ls ++ replicate (8 - length ls - length rs) 0%N ++ rs)) zone)
           else None
       end.

(** The first of the bytes '.', ':' and '%' decides the family. *)
Fixpoint first_marker (s : string) : option ascii :=
  match s with
  | "" => None
  | String c s =>
      if Ascii.eqb c "."%char || Ascii.eqb c ":"%char || Ascii.eqb c "%"%char then Some c
      else first_marker s
  end.

Definition ParseAddr (s : string) : option Addr :=
  match first_marker s with
  | Some "."%char => V4 <$> parseIPv4 s
  | Some ":"%char => parseIPv6 s
  | _ => None
  end.

Definition ParsePrefix (s : string) : option Prefix :=
  match cut_byte "/"%char (str_rev s) with
  | None => None
  | Some (rbits, raddr) =>
      let bits := str_rev rbits in
      a ← ParseAddr (str_rev raddr);
      if hasZone a then None
      else if (1 <? String.length bits)%nat
              && match bits with String c _ => negb (byte_in 49 57 c) | "" => false end then None
      else n ← AtoiOk bits;
           if ((n <? 0) || (BitLen a <? n))%Z then None else Some (PrefixFrom a n)
  end.

(** ** Printing *)

Definition v4_string (n : N) : string :=
  Join (map (fun k => pretty (N.land (N.shiftr n k) 255)) [24; 16; 8; 0]%N) ".".

Definition v6_hextets (n : N) : list N :=
  map (fun k => N.land (N.shiftr n k) 65535) [112; 96; 80; 64; 48; 32; 16; 0]%N.

Fixpoint hex_string (fuel : nat) (n : N) (acc : string) : string :=
  match fuel with
  | O => acc
  | S fuel =>
      let acc := String (hex_digit (N.to_nat (n mod 16))) acc in
      if (n <? 16)%N then acc else hex_string fuel (n / 16) acc
  end.

(** The zero run starting at the head of the list. *)
Fixpoint zero_run (hs : list N) : nat :=
  match hs with
  | 0%N :: hs => S (zero_run hs)
  | _ => O
  end.

(** The first longest run of at least two zero hextets: (start, length). *)
Fixpoint longest_run (i : nat) (hs : list N) (best : nat * nat) : nat * nat :=
  match hs with
  | [] => best
  | _ :: hs' =>
      let r := zero_run hs in
      longest_run (S i) hs' (if (snd best <? r)%nat && (2 <=? r)%nat then (i, r) else best)
  end.

Definition v6_string (n : N) : string :=
  let hs := v6_hextets n in
  let show l := Join (map (fun h => hex_string 4 h "") l) ":" in
  let '(i, r) := longest_run 0 hs (0, 0)%nat in
  if (r =? 0)%nat then show hs else show (take i hs) +:+ "::" +:+ show (drop (i + r) hs).

(** [Addr.String]. *)
Definition addr_string (a : Addr) : string :=
  match a with
  | V4 n => v4_string n
  | V6 n z =>
      (if Is4In6 a then "::ffff:" +:+ v4_string (N.land n (N.ones 32)) else v6_string n)
      +:+ (if is_empty z then "" else "%" +:+ z)
  end.

(** ** Lemmas *)

Lemma Unmap_idemp a : Unmap (Unmap a) = Unmap a.
Proof. destruct a as [|n z]; [done|]. cbn [Unmap]. destruct (Is4In6 (V6 n z)) eqn:E; cbn [Unmap]; by rewrite ?E. Qed.

(** The unmapped address of an IPv4-mapped one is IPv4, so an unmapped
    address is IPv6 only when it was a real IPv6 address. *)
Lemma Unmap_not_4in6 a : Is4In6 (Unmap a) = false.
Proof. destruct a as [|n z]; [done|]. cbn [Unmap]. by destruct (Is4In6 (V6 n z)) eqn:E. Qed.

Lemma Is4_Is6 a : Is6 a = negb (Is4 a).
Proof. by destruct a. Qed.
