(* ===== verification/Names.v ===== *)
(** * Names and addresses: names.go, publicsuffix.go, reserved.go, addr.go

    The DataPulse libraries dpdomain, psl and ipnorm are not part of the
    repository. They enter as classes: a client's definitions take the
    operations, and the few documented laws they rely on are the class
    [DpdomainLaws]. *)

From S2P Require Import Prelude GoStrings Netip.

(** ** Interfaces of the external libraries *)

Inductive NameKind := KindName | KindIP.

(** dpdomain.Name, by the fields the program reads. *)
Record Name := mkName { ASCII : string; Unicode : string; Kind : NameKind }.

Record Options := mkOptions { Lenient : bool; AllowIP : bool }.

Class Dpdomain := {
  (** [dpdomain.Normalize]: the name, or the error's text. *)
  Normalize : string -> Options -> Name + string;
  (** [Name.FQDN]. *)
  FQDN : Name -> string;
}.

(** What the program relies on: the a-label form is a fixed point of the
    normaliser, is not empty and carries no trailing dot; FQDN appends one. *)
Class DpdomainLaws (D : Dpdomain) : Prop := {
  Normalize_ASCII : forall s o n, Normalize s o = inl n -> Normalize (ASCII n) o = inl n;
  ASCII_nonempty : forall s o n, Normalize s o = inl n -> ASCII n <> "";
  FQDN_dot : forall n, FQDN n = ASCII n +:+ ".";
}.

Record PslResult := mkPslResult { Registrable : string; Suffix : string; ICANN : bool }.

Class Psl := {
  psl_Lookup : string -> bool -> PslResult;
  psl_Registrable : string -> option string;
  psl_RDAPServer : string -> option string;
}.

Class Ipnorm := {
  (** [ipnorm.Reserved]: why the address is not public, or the empty string. *)
  ipnorm_Reserved : Addr -> string;
}.

Section Names.
Context `{D : Dpdomain}.

(** ** names.go *)

Definition dnsName (s : string) : Name + string := Normalize s (mkOptions true false).

Definition hostOrIP (s : string) : Name + string := Normalize s (mkOptions true true).

Definition bareName (s : string) : string :=
  match dnsName s with
  | inl n => ASCII n
  | inr _ => ""
  end.

Definition fqdnOf (s : string) : string :=
  match dnsName s with
  | inl n => FQDN n
  | inr _ => ""
  end.

(** ** reserved.go *)

Definition specialUseSuffixes : list (string * string) :=
  [ ("invalid", "RFC 6761"); ("test", "RFC 6761"); ("localhost", "RFC 6761");
    ("example", "RFC 6761"); ("local", "RFC 6762"); ("onion", "RFC 7686");
    ("home.arpa", "RFC 8375") ].

Definition under (d suffix : string) : bool :=
  String.eqb d suffix || HasSuffix d ("." +:+ suffix).

(** The loop of [reservedName] over an enumeration of the map: Go fixes no
    order, so the order is an argument. *)
Fixpoint reservedIn (table : list (string * string)) (d : string) : string :=
  match table with
  | [] => ""
  | (suffix, rfc) :: table => if under d suffix then rfc else reservedIn table d
  end.

Definition reservedName (domain : string) : string :=
  let d := bareName domain in
  if String.eqb d "" then "" else reservedIn specialUseSuffixes d.

Context `{P : Psl}.

(** ** publicsuffix.go *)

Definition registrableDomain (domain : string) : bool :=
  if String.eqb domain "" then false
  else String.eqb (Registrable (psl_Lookup domain true)) domain.

Definition isPublicSuffix (domain : string) : bool :=
  if String.eqb domain "" then false
  else String.eqb (Suffix (psl_Lookup domain true)) domain.

Definition registrySuffix (domain : string) : bool :=
  if String.eqb domain "" then false
  else let r := psl_Lookup domain true in ICANN r && String.eqb (Suffix r) domain.

End Names.

Section Addresses.
Context `{I : Ipnorm}.

(** ** addr.go *)

Definition reservedReason (ip : Addr) : string := ipnorm_Reserved ip.

Definition dedupeStrings (l : list string) : list string := dedupe_from [] l.

Definition reserved_entry (ip : Addr) : string :=
  addr_string ip +:+ " (" +:+ reservedReason ip +:+ ")".

Fixpoint splitReserved (addrs : list Addr) : list Addr * list string :=
  match addrs with
  | [] => ([], [])
  | ip :: addrs =>
      let '(public, reserved) := splitReserved addrs in
      if String.eqb (reservedReason ip) "" then (ip :: public, reserved)
      else (public, reserved_entry ip :: reserved)
  end.

End Addresses.

(** ** version.go: the version a build reports *)

Section Version.
Variable version : string.

(** One [debug.BuildSetting]. *)
Record BuildSetting := mkSetting { Key : string; Value : string }.

Definition vcs_step (st : string * bool) (s : BuildSetting) : string * bool :=
  if String.eqb (Key s) "vcs.revision" then (Value s, snd st)
  else if String.eqb (Key s) "vcs.modified" then (fst st, String.eqb (Value s) "true")
  else st.

Definition vcsVersion (settings : list BuildSetting) : string :=
  let '(rev, dirty) := foldl vcs_step ("", false) settings in
  if String.eqb rev "" then version
  else if dirty : bool then rev +:+ "-dirty"
  else rev.

(** [info] is what [debug.ReadBuildInfo] returned. *)
Definition buildVersion (info : option (list BuildSetting)) : string :=
  if negb (String.eqb version "devel") then version
  else match info with
       | None => version
       | Some settings => vcsVersion settings
       end.
End Version.

(** ** Lemmas *)

Lemma elem_of_dedupeStrings x l : x ∈ dedupeStrings l <-> x ∈ l.
Proof. unfold dedupeStrings. rewrite elem_of_dedupe_from. set_solver. Qed.

Lemma splitReserved_spec `{I : Ipnorm} addrs :
  fst (splitReserved addrs) = base.filter (fun ip => reservedReason ip = "") addrs /\
  snd (splitReserved addrs) = map reserved_entry (base.filter (fun ip => reservedReason ip <> "") addrs).
Proof.
  induction addrs as [|a addrs [IH1 IH2]]; simpl; [done|].
  destruct (splitReserved addrs) as [public reserved]. simpl in *. rewrite !filter_cons.
  destruct (String.eqb_spec (reservedReason a) "") as [E|E].
  - rewrite decide_True by done. rewrite decide_False by (by intros H). simpl. by rewrite IH1, IH2.
  - rewrite decide_False by done. rewrite decide_True by done. simpl. by rewrite IH1, IH2.
Qed.

(** Asking for the suffix with its dot of the name with its dot decides both
    arms of [under] at once. *)
Lemma under_dotted d s : under d s = true -> HasSuffix ("." +:+ d) ("." +:+ s) = true.
Proof.
  unfold under, HasSuffix. intros [->%String.eqb_eq|H]%orb_true_iff; [auto with go|].
  rewrite (str_rev_app "." d). by apply HasPrefix_app_l.
Qed.

(** No name lies under two of the reserved suffixes. *)
Lemma under_functional d t1 t2 :
  t1 ∈ specialUseSuffixes -> t2 ∈ specialUseSuffixes ->
  under d (fst t1) = true -> under d (fst t2) = true -> t1 = t2.
Proof.
  intros H1 H2 U1%under_dotted U2%under_dotted. unfold HasSuffix in *.
  pose proof (HasPrefix_comparable _ _ _ U1 U2) as Hc. clear U1 U2.
  unfold specialUseSuffixes in *.
  repeat match goal with
  | H : _ ∈ _ :: _ |- _ => apply elem_of_cons in H as [->|H]
  | H : _ ∈ [] |- _ => by apply elem_of_nil in H
  end; first [reflexivity | vm_compute in Hc; discriminate].
Qed.

Lemma reservedIn_None table d :
  (forall t, t ∈ table -> under d (fst t) = false) -> reservedIn table d = "".
Proof.
  induction table as [|[s r] table IH]; simpl; intros H; [done|].
  specialize (H (s, r) ltac:(set_solver)) as Hs. simpl in Hs. rewrite Hs. apply IH. set_solver.
Qed.

Lemma reservedIn_Some table d t :
  t ∈ table -> under d (fst t) = true ->
  (forall t', t' ∈ table -> under d (fst t') = true -> t' = t) ->
  reservedIn table d = snd t.
Proof.
  induction table as [|[s r] table IH]; simpl; intros Hin Hu Hf; [set_solver|].
  destruct (under d s) eqn:E.
  - by rewrite <-(Hf (s, r)) by set_solver.
  - apply IH; [|done|set_solver].
    apply elem_of_cons in Hin as [->|?]; [|done]. simpl in Hu. congruence.
Qed.

(** ** Properties *)

(** [reservedName] ranges over a Go map, whose order is not fixed: every order of the table gives the same RFC, and the RFC is that of the one suffix the name equals or lies under, empty when there is none. *)
Theorem reservedName_any_order `{D : Dpdomain} (table : list (string * string)) (domain : string) :
  table ≡ₚ specialUseSuffixes -> bareName domain <> "" ->
  reservedIn table (bareName domain) = reservedName domain /\
  (reservedName domain = "" <-> forall t, t ∈ table -> under (bareName domain) (fst t) = false) /\
  (forall t, t ∈ table -> under (bareName domain) (fst t) = true -> reservedName domain = snd t).
Proof.
  intros Hp Hne. unfold reservedName. destruct (String.eqb_spec (bareName domain) ""); [done|].
  set (d := bareName domain) in *.
  assert (Hall : forall t, t ∈ specialUseSuffixes -> under d (fst t) = true ->
                 reservedIn table d = snd t /\ reservedIn specialUseSuffixes d = snd t).
  { intros t Ht Hu. split; apply (reservedIn_Some _ _ t); try done; try (by rewrite Hp);
      intros t' Ht' Hu'; apply (under_functional d); try done; by rewrite <-Hp. }
  destruct (existsb (fun t => under d (fst t)) specialUseSuffixes) eqn:E.
  - apply existsb_elem in E as (t & Ht & Hu). destruct (Hall t Ht Hu) as [-> Hs].
    rewrite Hs. split_and!; [done| |].
    + split; intros H.
      * unfold specialUseSuffixes in Ht. rewrite !elem_of_cons, elem_of_nil in Ht.
        by destruct_or! Ht; subst.
      * rewrite H in Hu; [done|]. by rewrite Hp.
    + intros t' Ht' Hu'. f_equal. apply (under_functional d); try done. by rewrite <-Hp.
  - rewrite existsb_elem_false in E.
    rewrite !reservedIn_None; [|done|intros t Ht; apply E; by rewrite <-Hp].
    split_and!; [done| |].
    + split; [|done]. intros _ t Ht. apply E. by rewrite <-Hp.
    + intros t Ht. rewrite E by (by rewrite <-Hp). done.
Qed.

(** A normaliser for the witnesses: letters to lower case, nothing refused. *)
Definition lower_dpdomain : Dpdomain :=
  Build_Dpdomain (fun s _ => inl (mkName (ToLower s) (ToLower s) KindName)) (fun n => ASCII n +:+ ".").

Lemma reservedName_any_order_witness :
  reverse specialUseSuffixes ≡ₚ specialUseSuffixes /\
  @reservedName lower_dpdomain "Printer.Home.ARPA" = "RFC 8375".
Proof.
  split; [apply reverse_Permutation|].
  destruct (@reservedName_any_order lower_dpdomain (reverse specialUseSuffixes) "Printer.Home.ARPA")
    as (_ & _ & H).
  - apply reverse_Permutation.
  - vm_compute. discriminate.
  - apply (H ("home.arpa", "RFC 8375")); [|vm_compute; reflexivity].
    apply elem_of_reverse. unfold specialUseSuffixes. set_solver.
Defined.
