(* ===== verification/Records.v ===== *)
(** * Resource records and lookups: records.go *)

From S2P Require Import Prelude GoStrings Netip.

(** ** Data *)

(** The zero value stands for a map entry that is not there. *)
Inductive Trust := TrustNone | TrustSecure | TrustInsecure | TrustBogus.
Inductive LookupStatus :=
| StatusNone | StatusOK | StatusNXRRSet | StatusNXDomain | StatusFailure | StatusTimeout.

#[export] Instance Trust_eq_dec : EqDecision Trust.
Proof. solve_decision. Defined.
#[export] Instance LookupStatus_eq_dec : EqDecision LookupStatus.
Proof. solve_decision. Defined.

Record RR := mkRR {
  Owner : string;
  TTL : Z;
  RType : string;
  RData : string;
  RDLen : nat;  (* computed for TXT and CNAME only *)
}.

Record Lookup := mkLookup {
  l_Name : string;
  l_Type : string;
  l_Status : LookupStatus;
  l_Trust : Trust;
  l_Records : list string;
  l_CNAME : list string;
  l_Error : string;
  l_Retries : nat;
  l_unqueryable : bool;
  l_rrs : list RR;
}.

#[export] Instance RR_eq_dec : EqDecision RR.
Proof. solve_decision. Defined.
#[export] Instance Lookup_eq_dec : EqDecision Lookup.
Proof. solve_decision. Defined.

(** [Lookup{}]. *)
Definition zeroLookup : Lookup := mkLookup "" "" StatusNone TrustNone [] [] "" 0 false [].

#[export] Instance Lookup_inhabited : Inhabited Lookup := populate zeroLookup.

(** A read of a [map[string]Lookup]. *)
Definition lget (m : gmap string Lookup) (k : string) : Lookup := mget zeroLookup m k.

Definition set_Name (n : string) (l : Lookup) : Lookup :=
  mkLookup n (l_Type l) (l_Status l) (l_Trust l) (l_Records l) (l_CNAME l) (l_Error l)
    (l_Retries l) (l_unqueryable l) (l_rrs l).
Definition set_Status (st : LookupStatus) (l : Lookup) : Lookup :=
  mkLookup (l_Name l) (l_Type l) st (l_Trust l) (l_Records l) (l_CNAME l) (l_Error l)
    (l_Retries l) (l_unqueryable l) (l_rrs l).
Definition set_Trust (t : Trust) (l : Lookup) : Lookup :=
  mkLookup (l_Name l) (l_Type l) (l_Status l) t (l_Records l) (l_CNAME l) (l_Error l)
    (l_Retries l) (l_unqueryable l) (l_rrs l).
Definition set_Error (e : string) (l : Lookup) : Lookup :=
  mkLookup (l_Name l) (l_Type l) (l_Status l) (l_Trust l) (l_Records l) (l_CNAME l) e
    (l_Retries l) (l_unqueryable l) (l_rrs l).
Definition set_Retries (n : nat) (l : Lookup) : Lookup :=
  mkLookup (l_Name l) (l_Type l) (l_Status l) (l_Trust l) (l_Records l) (l_CNAME l) (l_Error l)
    n (l_unqueryable l) (l_rrs l).
Definition set_unqueryable (l : Lookup) : Lookup :=
  mkLookup (l_Name l) (l_Type l) (l_Status l) (l_Trust l) (l_Records l) (l_CNAME l) (l_Error l)
    (l_Retries l) true (l_rrs l).

(** ** Methods of Lookup *)

Definition Addrs (l : Lookup) : list Addr :=
  omap (fun rec => Unmap <$> ParseAddr rec) (l_Records l).

Definition Answered (l : Lookup) : bool :=
  bool_decide (l_Status l = StatusOK) || bool_decide (l_Status l = StatusNXRRSet)
  || bool_decide (l_Status l = StatusNXDomain).

Definition HasRecords (l : Lookup) : bool :=
  bool_decide (l_Status l = StatusOK) && (0 <? length (l_Records l))%nat.

Definition SOAOwner (l : Lookup) : string :=
  match list_find (fun rr => RType rr = "SOA") (l_rrs l) with
  | Some (_, rr) => Owner rr
  | None => ""
  end.

Definition IsNullMX (l : Lookup) : bool :=
  if negb (HasRecords l) then false
  else forallb (fun rec => String.eqb (Join (Fields rec) " ") "0 .") (l_Records l).

(** ** Presentation format *)

Definition ends_with_byte (c : ascii) (s : string) : bool :=
  match str_rev s with String d _ => Ascii.eqb c d | "" => false end.

Definition starts_with_byte (c : ascii) (s : string) : bool :=
  match s with String d _ => Ascii.eqb c d | "" => false end.

Definition unquoteYAML (s : string) : string :=
  let s := TrimSpace s in
  let s := if (2 <=? String.length s)%nat && starts_with_byte "'"%char s
              && ends_with_byte "'"%char s
           then str_take (String.length s - 2) (str_drop 1 s) else s in
  ReplaceAll s "''" "'".

Definition isDigits (s : string) : bool := str_all is_digit s && negb (is_empty s).

(** The byte the escape after a backslash stands for, and how many bytes
    after the backslash it takes: \DDD, \X, or a backslash that ends the text. *)
Definition decodeEscape (rest : string) : ascii * nat :=
  if (3 <=? String.length rest)%nat && isDigits (str_take 3 rest)
  then (Ascii.ascii_of_nat (Z.to_nat (digits_val (str_take 3 rest) 0) mod 256), 3%nat)
  else match rest with
       | String c _ => (c, 1%nat)
       | "" => ("\"%char, 0%nat)
       end.

(** The loop of [txtStrings]: [skip] bytes belong to an escape already read,
    [b] is the string being built (reversed). *)
Fixpoint txt_loop (skip : nat) (inQuote : bool) (b : string) (s : string) : list string :=
  match s with
  | "" => []
  | String c rest =>
      match skip with
      | S skip => txt_loop skip inQuote b rest
      | O =>
          if Ascii.eqb c dquote then
            if inQuote then str_rev b :: txt_loop O false "" rest
            else txt_loop O true b rest
          else if negb inQuote then txt_loop O inQuote b rest
          else if Ascii.eqb c "\"%char then
            let '(d, n) := decodeEscape rest in txt_loop n inQuote (String d b) rest
          else txt_loop O inQuote (String c b) rest
      end
  end.

Definition txtStrings (rdata : string) : list string :=
  if negb (ContainsByte rdata dquote) then [rdata]
  else txt_loop O false "" rdata.

Definition joinTXT (rdata : string) : string := Join (txtStrings rdata) "".

Definition wireNameLen (name : string) : nat :=
  let name := TrimSuffix name "." in
  if String.eqb name "" then 1%nat else (String.length name + 2)%nat.

(** [None] is the early return of the empty string. *)
Fixpoint drop_fields (n : nat) (rest : string) : option string :=
  match n with
  | O => Some rest
  | S n =>
      let rest := str_drop_while (fun c => negb (is_blank c)) (str_drop_while is_blank rest) in
      if is_empty rest then None else drop_fields n rest
  end.

Definition afterFields (text : string) (n : nat) : string :=
  match drop_fields n text with
  | Some rest => TrimSpace rest
  | None => ""
  end.

Definition txt_rdlen (strs : list string) : nat :=
  list_sum (map (fun s => 1 + String.length s)%nat strs).

(** The rdata and its wire length for a record of type [rtype]. *)
Definition rr_data (rtype rdata : string) : string * nat :=
  if String.eqb rtype "TXT" then
    let strs := txtStrings rdata in (Join strs "", txt_rdlen strs)
  else if String.eqb rtype "CNAME" then (rdata, wireNameLen rdata)
  else (rdata, O).

Definition parseRR (text : string) : option RR :=
  let f := Fields text in
  match f with
  | owner :: f1 :: _ =>
      let '(ttl, i) := match ParseInt f1 with (v, None) => (v, 2%nat) | _ => (0%Z, 1%nat) end in
      let i := match f !! i with Some "IN" => S i | _ => i end in
      match f !! i with
      | None => None
      | Some rtype =>
          let '(rdata, rdlen) := rr_data rtype (afterFields text (S i)) in
          Some (mkRR (ToLower owner) ttl rtype rdata rdlen)
      end
  | _ => None
  end.

(** The size of the answer without EDNS: header, question, and every record
    of the queried type or CNAME, owners compressed. *)
Definition udpAnswerOctets (l : Lookup) : nat :=
  if negb (String.eqb (l_Type l) "TXT") then 0%nat
  else
    let name := if String.eqb (l_Name l) "" then match l_rrs l with rr :: _ => Owner rr | [] => "" end
                else l_Name l in
    let counted := base.filter (fun rr => RType rr = l_Type l \/ RType rr = "CNAME") (l_rrs l) in
    (12 + wireNameLen name + 4 + list_sum (map (fun rr => 12 + RDLen rr) counted))%nat.

Definition firstLine (s : string) : string :=
  TrimSpace (match cut_byte newline s with Some (x, _) => x | None => s end).

(** ** Lemmas *)

Lemma Answered_spec l :
  Answered l = true <->
  l_Status l = StatusOK \/ l_Status l = StatusNXRRSet \/ l_Status l = StatusNXDomain.
Proof. unfold Answered. rewrite !orb_true_iff, !bool_decide_eq_true. tauto. Qed.

Lemma HasRecords_spec l :
  HasRecords l = true <-> l_Status l = StatusOK /\ l_Records l <> [].
Proof.
  unfold HasRecords. rewrite andb_true_iff, bool_decide_eq_true, Nat.ltb_lt.
  destruct (l_Records l); simpl; intuition (auto; try lia; try done).
Qed.

Lemma HasRecords_Answered l : HasRecords l = true -> Answered l = true.
Proof. rewrite HasRecords_spec, Answered_spec. tauto. Qed.

Lemma Addrs_Unmapped l a : a ∈ Addrs l -> Unmap a = a.
Proof.
  unfold Addrs. intros (r & _ & Hr)%list_elem_of_omap.
  destruct (ParseAddr r) as [b|]; simplify_eq/=. apply Unmap_idemp.
Qed.

#[export] Hint Resolve HasRecords_Answered Addrs_Unmapped : go.

(** ** Presentation of character strings *)

(** The three digits of a byte. *)
Definition ddd (n : nat) : string :=
  String (Ascii.ascii_of_nat (48 + n / 100))
    (String (Ascii.ascii_of_nat (48 + n / 10 mod 10))
      (String (Ascii.ascii_of_nat (48 + n mod 10)) "")).

(** [presents body v]: the text [body] between two quotes stands for the
    bytes [v]: plain bytes, escaped bytes and decimal escapes in any mixture. *)
Inductive presents : string -> string -> Prop :=
| pr_nil : presents "" ""
| pr_plain c b v :
    c <> dquote -> c <> "\"%char -> presents b v -> presents (String c b) (String c v)
| pr_char c b v :
    is_digit c = false -> presents b v -> presents (String "\" (String c b)) (String c v)
| pr_ddd n b v :
    (n < 256)%nat -> presents b v ->
    presents (String "\" (ddd n +:+ b)) (String (Ascii.ascii_of_nat n) v).

Definition quoted (body : string) : string := String dquote (body +:+ String dquote "").

Lemma ddd_spec n : (n < 256)%nat ->
  isDigits (ddd n) = true /\ (Z.to_nat (digits_val (ddd n) 0) mod 256 = n)%nat.
Proof.
  intros Hn. enough (H : forallb (fun n => isDigits (ddd n) &&
    (Z.to_nat (digits_val (ddd n) 0) mod 256 =? n)%nat) (seq 0 256) = true).
  { rewrite forallb_elem in H. specialize (H n ltac:(apply elem_of_seq; lia)). by simp_bool. }
  vm_compute. reflexivity.
Qed.

Lemma decodeEscape_ddd n rest : (n < 256)%nat ->
  decodeEscape (ddd n +:+ rest) = (Ascii.ascii_of_nat n, 3%nat).
Proof.
  intros Hn. destruct (ddd_spec n Hn) as [Hd Hv].
  unfold decodeEscape. change (str_take 3 (ddd n +:+ rest)) with (ddd n).
  rewrite Hd, Hv, length_app_str. done.
Qed.

Lemma decodeEscape_char c rest : is_digit c = false ->
  decodeEscape (String c rest) = (c, 1%nat).
Proof.
  intros Hc. unfold decodeEscape, isDigits. simpl. rewrite Hc. simpl. by rewrite andb_false_r.
Qed.

(** Inside a quoted string the loop reads one presented byte at a time. *)
Lemma txt_loop_presents body v s b :
  presents body v -> txt_loop O true b (body +:+ s) = txt_loop O true (str_rev_onto v b) s.
Proof.
  intros H. revert b. induction H as [|c body v Hq Hb H IH|c body v Hd H IH|n body v Hn H IH]; intros b.
  - done.
  - change (String c body +:+ s) with (String c (body +:+ s)). simpl.
    destruct (Ascii.eqb_spec c dquote); [done|]. destruct (Ascii.eqb_spec c "\"); [done|]. apply IH.
  - change (String "\" (String c body) +:+ s) with (String "\" (String c (body +:+ s))).
    cbn [txt_loop]. rewrite decodeEscape_char by done. simpl. apply IH.
  - change (String "\" (ddd n +:+ body) +:+ s) with (String "\" ((ddd n +:+ body) +:+ s)).
    rewrite app_assoc_str. cbn [txt_loop]. rewrite decodeEscape_ddd by done. simpl. apply IH.
Qed.

Lemma txt_loop_quoted body v s :
  presents body v -> txt_loop O false "" (quoted body +:+ s) = v :: txt_loop O false "" s.
Proof.
  intros H. unfold quoted. change (String dquote (body +:+ String dquote "") +:+ s)
    with (String dquote ((body +:+ String dquote "") +:+ s)).
  rewrite app_assoc_str. cbn [txt_loop]. rewrite Ascii.eqb_refl.
  rewrite (txt_loop_presents body v) by done.
  change (String dquote "" +:+ s) with (String dquote s). cbn [txt_loop].
  rewrite Ascii.eqb_refl. f_equal. apply str_rev_rev.
Qed.

(** ** Properties *)

(** C40: Reading the TXT presentation format undoes writing it: whichever escapes the writer chose, one or more quoted strings separated by a space come back as exactly the bytes they stand for, one string each, and [joinTXT] returns their concatenation. *)
Theorem txtStrings_roundtrip (bodies vals : list string) :
  bodies <> [] -> Forall2 presents bodies vals ->
  txtStrings (Join (map quoted bodies) " ") = vals /\
  joinTXT (Join (map quoted bodies) " ") = Join vals "".
Proof.
  intros Hne HF. unfold joinTXT.
  enough (Ht : txtStrings (Join (map quoted bodies) " ") = vals) by (by rewrite Ht).
  assert (Hc : ContainsByte (Join (map quoted bodies) " ") dquote = true).
  { destruct bodies as [|b bodies]; [done|]. by destruct bodies. }
  unfold txtStrings. rewrite Hc. simpl. clear Hc.
  induction HF as [|b v bodies vals Hb HF IH]; [done|].
  destruct bodies as [|b' bodies].
  - inversion HF; subst. cbn [map Join]. rewrite <-(app_nil_str (quoted b)).
    by apply (txt_loop_quoted b v).
  - cbn [map]. cbn [Join]. rewrite (txt_loop_quoted b v) by done. f_equal. by apply IH.
Qed.

Lemma txtStrings_roundtrip_witness :
  txtStrings (Join (map quoted ["v=spf1 \065\\"; "\;b"]) " ") = ["v=spf1 A\"; ";b"].
Proof.
  apply (txtStrings_roundtrip ["v=spf1 \065\\"; "\;b"]); [discriminate|].
  constructor; [|constructor; [|constructor]].
  - do 7 (apply pr_plain; [discriminate|discriminate|]).
    apply (pr_ddd 65); [lia|]. apply pr_char; [reflexivity|constructor].
  - apply pr_char; [reflexivity|]. apply pr_plain; [discriminate|discriminate|constructor].
Defined.
