(* ===== verification/Runner.v ===== *)
(** * Running external tools: runner.go

    The process itself is the environment's: what it wrote before [cmd.Run]
    returned, chunk by chunk, and the error [cmd.Run] gave. Modelled are what
    a run makes of them, the bounded output buffer, the timeout test, and the
    cap on concurrent tools, a counting semaphore, as a step relation over the
    calls in flight. *)

From S2P Require Import Prelude GoStrings.

(** ** What one run returned *)

(** [ctx.Err()]. *)
Inductive CtxErr := Canceled | DeadlineExceeded.

#[export] Instance CtxErr_eq_dec : EqDecision CtxErr.
Proof. solve_decision. Defined.

Inductive RunErr :=
| ErrDeadline                      (* wraps context.DeadlineExceeded *)
| ErrExit (code : Z) (text : string)   (* an *exec.ExitError *)
| ErrOther (text : string).

Record RunResult := mkRun {
  run_stdout : string;
  run_stderr : string;
  run_err : option RunErr;
  run_ctx : option CtxErr;  (* ctx.Err() when the call returned *)
}.

Definition errText (err : option RunErr) : string :=
  match err with
  | None => ""
  | Some ErrDeadline => "context deadline exceeded"
  | Some (ErrExit _ t) => t
  | Some (ErrOther t) => t
  end.

Definition isTimeout (ctx : option CtxErr) (err : option RunErr) : bool :=
  bool_decide (ctx = Some DeadlineExceeded)
  || match err with Some ErrDeadline => true | _ => false end.

(** ** cappedBuffer *)

Record cappedBuffer := mkBuf { buf : string; max : nat }.

(** [Write]: the buffer after it, and the number of bytes accepted. *)
Definition buf_Write (b : cappedBuffer) (p : string) : cappedBuffer * nat :=
  let room := (max b - String.length (buf b))%nat in
  ((if (0 <? room)%nat
    then mkBuf (buf b +:+ str_take (Nat.min (String.length p) room) p) (max b)
    else b), String.length p).

Definition buf_Bytes (b : cappedBuffer) : string := buf b.

Definition buf_writes (b : cappedBuffer) (ps : list string) : cappedBuffer :=
  foldl (fun b p => fst (buf_Write b p)) b ps.

(** ** execRunner *)

Definition maxToolOutput : nat := Z.to_nat (Z.shiftl 1 20).

(** A process that was started: the chunks it wrote to its two outputs, and
    the error of [cmd.Run]. *)
Record process := mkProcess {
  pr_stdout : list string;
  pr_stderr : list string;
  pr_err : option RunErr;
}.

(** [fmt.Errorf("%s: %w", name, ctx.Err())]. *)
Definition wrapCtx (name : string) (e : CtxErr) : RunErr :=
  match e with
  | DeadlineExceeded => ErrDeadline
  | Canceled => ErrOther (name +:+ ": context canceled")
  end.

(** [ctx] is [None] for a nil context, else its error when the tool returned. *)
Definition execRun (ctx : option (option CtxErr)) (name : string) (pr : process) : RunResult :=
  match ctx with
  | None => mkRun "" "" (Some (ErrOther "runner: nil context")) None
  | Some ctxErr =>
      let collect ps := buf_Bytes (buf_writes (mkBuf "" maxToolOutput) ps) in
      mkRun (collect (pr_stdout pr)) (collect (pr_stderr pr))
        (match ctxErr with Some e => Some (wrapCtx name e) | None => pr_err pr end) ctxErr
  end.

(** A call of the limited runner: its context ended while it waited for a
    slot, or it got one and the tool ran. *)
Inductive attempt :=
| NoSlot (e : CtxErr)
| Started (ctxErr : option CtxErr) (pr : process).

Definition limitedRun (name : string) (a : attempt) : RunResult :=
  match a with
  | NoSlot e => mkRun "" "" (Some (wrapCtx name e)) (Some e)
  | Started ctxErr pr => execRun (Some ctxErr) name pr
  end.

(** [limitRunner] and its Run: a limit that is not positive is none. [refused]
    is the error of a context that ended before a slot was free. *)
Definition limitRunner (n : Z) (refused : option CtxErr) (name : string) (ctxErr : option CtxErr) (pr : process)
    : RunResult :=
  if (n <=? 0)%Z then execRun (Some ctxErr) name pr
  else limitedRun name (match refused with Some e => NoSlot e | None => Started ctxErr pr end).

(** ** limitedRunner *)

Inductive phase := Waiting | Running | Refused | Finished.

#[export] Instance phase_eq_dec : EqDecision phase.
Proof. solve_decision. Defined.

(** [sem] is the number of tokens in the channel of capacity [n]. *)
Record limited := mkLimited { sem : nat; calls : list phase }.

Definition limit_init (callers : nat) : limited := mkLimited 0 (replicate callers Waiting).

Section Limited.
(** [n] is positive: [limitRunner] returns the runner unchanged otherwise.
    [done i] says that the context of call [i] may end. *)
Variable n : nat.
Variable done : nat -> bool.

Inductive limit_step : limited -> limited -> Prop :=
| step_acquire s i :
    calls s !! i = Some Waiting -> (sem s < n)%nat ->
    limit_step s (mkLimited (S (sem s)) (<[i := Running]> (calls s)))
| step_cancel s i :
    calls s !! i = Some Waiting -> done i = true ->
    limit_step s (mkLimited (sem s) (<[i := Refused]> (calls s)))
| step_release s i :
    calls s !! i = Some Running ->
    limit_step s (mkLimited (pred (sem s)) (<[i := Finished]> (calls s))).

Definition running (s : limited) : nat :=
  length (base.filter (fun p => p = Running) (calls s)).

(** The channel holds one token per running tool. *)
Definition limit_inv (s : limited) : Prop := sem s = running s /\ (sem s <= n)%nat.

End Limited.

Definition limit_reachable (n : nat) (done : nat -> bool) (callers : nat) (s : limited) : Prop :=
  rtc (limit_step n done) (limit_init callers) s.

(** ** Lemmas *)

Lemma str_take_all s k : (String.length s <= k)%nat -> str_take k s = s.
Proof.
  revert k. induction s as [|c s IH]; intros [|k] H; simpl in *; try done; [lia|].
  f_equal. apply IH. lia.
Qed.

Lemma length_str_take k s : String.length (str_take k s) = Nat.min k (String.length s).
Proof. revert k. induction s as [|c s IH]; intros [|k]; simpl; auto. Qed.

Lemma str_take_app k a b :
  str_take k (a +:+ b) = str_take k a +:+ str_take (k - String.length a) b.
Proof.
  revert k. induction a as [|c a IH]; intros k.
  - change ("" +:+ b) with b. simpl. rewrite Nat.sub_0_r. by destruct k.
  - destruct k as [|k]; [done|].
    change (String c a +:+ b) with (String c (a +:+ b)). simpl. by rewrite IH.
Qed.

Lemma str_take_min k s : str_take (Nat.min (String.length s) k) s = str_take k s.
Proof.
  destruct (decide (String.length s <= k)%nat).
  - rewrite Nat.min_l by done. by rewrite !str_take_all.
  - by rewrite Nat.min_r by lia.
Qed.

Lemma buf_Write_max b p : max (fst (buf_Write b p)) = max b.
Proof. unfold buf_Write. simpl. by destruct (0 <? _)%nat. Qed.

(** One write keeps the first [max] bytes of everything written so far. *)
Lemma buf_Write_prefix b p text :
  buf b = str_take (max b) text -> buf (fst (buf_Write b p)) = str_take (max b) (text +:+ p).
Proof.
  intros Hb. unfold buf_Write. simpl. rewrite str_take_app, <-Hb.
  assert (Hl : String.length (buf b) = Nat.min (max b) (String.length text))
    by (by rewrite Hb, length_str_take).
  destruct (Nat.ltb_spec 0 (max b - String.length (buf b))); simpl.
  - rewrite str_take_min. f_equal. f_equal. lia.
  - replace (max b - String.length text)%nat with 0%nat by lia.
    destruct p; simpl; by rewrite app_nil_str.
Qed.

Definition one_if (b : bool) : nat := if b then 1%nat else 0%nat.

(** Replacing a call's phase moves the number of running tools by at most one. *)
Lemma running_insert (l : list phase) i p q :
  l !! i = Some p ->
  (length (base.filter (fun x => x = Running) (<[i := q]> l)) + one_if (bool_decide (p = Running)) =
   length (base.filter (fun x => x = Running) l) + one_if (bool_decide (q = Running)))%nat.
Proof.
  revert i. induction l as [|x l IH]; intros [|i] Hi; simplify_eq/=.
  - rewrite !filter_cons. destruct (decide (p = Running)) as [->|Hp];
      destruct (decide (q = Running)) as [->|Hq];
      rewrite ?(bool_decide_true (Running = Running)) by done;
      rewrite ?bool_decide_false by done; simpl; lia.
  - rewrite !filter_cons. specialize (IH i Hi).
    destruct (decide (x = Running)); cbn [length]; lia.
Qed.

Lemma running_init callers : running (limit_init callers) = 0%nat.
Proof.
  unfold running, limit_init. simpl. induction callers as [|k IH]; [done|].
  simpl. rewrite filter_cons. by case_decide.
Qed.

Lemma limit_inv_init n callers : limit_inv n (limit_init callers).
Proof. unfold limit_inv. rewrite running_init. simpl. lia. Qed.

Lemma limit_inv_step n done s s' : limit_inv n s -> limit_step n done s s' -> limit_inv n s'.
Proof.
  unfold limit_inv, running. intros [Hs Hn] Hstep. destruct Hstep as [s i Hi Hlt|s i Hi Hd|s i Hi];
    simpl in *; pose proof (running_insert (calls s) i) as Hr.
  - specialize (Hr _ Running Hi). unfold one_if in Hr. repeat case_bool_decide; try done; lia.
  - specialize (Hr _ Refused Hi). unfold one_if in Hr. repeat case_bool_decide; try done; lia.
  - specialize (Hr _ Finished Hi). unfold one_if in Hr. repeat case_bool_decide; try done; lia.
Qed.

Lemma limit_inv_reachable n done callers s : limit_reachable n done callers s -> limit_inv n s.
Proof.
  intros Hr. apply (rtc_preserves (limit_step n done) (limit_inv n) (limit_init callers));
    eauto using limit_inv_init, limit_inv_step.
Qed.

Lemma limit_reachable_length n done callers s :
  limit_reachable n done callers s -> length (calls s) = callers.
Proof.
  intros Hr. apply (rtc_preserves (limit_step n done) (fun s => length (calls s) = callers)
    (limit_init callers)); [|done|by apply length_replicate].
  intros a b Ha Hs. destruct Hs; simpl; by rewrite length_insert.
Qed.

(** A running tool, when there is one. *)
Lemma running_pos s : (0 < running s)%nat -> exists i, calls s !! i = Some Running.
Proof.
  unfold running. intros H.
  destruct (base.filter (fun p => p = Running) (calls s)) as [|p l] eqn:E; [simpl in H; lia|].
  assert (Hp : p ∈ base.filter (fun p => p = Running) (calls s)) by (rewrite E; set_solver).
  apply list_elem_of_filter in Hp as [-> Hp]. by apply list_elem_of_lookup in Hp.
Qed.

(** Whatever the sizes of the writes, the capped buffer holds exactly the
    first [max] bytes of everything written, and every write reports that it
    took all its bytes, so the tool is never blocked or failed by the cap. *)
Theorem cappedBuffer_keeps_prefix (limit : nat) (ps : list string) (p : string) :
  buf_Bytes (buf_writes (mkBuf "" limit) ps) = str_take limit (Join ps "") /\
  snd (buf_Write (buf_writes (mkBuf "" limit) ps) p) = String.length p.
Proof.
  split; [|done].
  enough (H : forall b text, max b = limit -> buf b = str_take limit text ->
    buf (buf_writes b ps) = str_take limit (text +:+ Join ps "")).
  { apply (H (mkBuf "" limit) ""); [done|]. by destruct limit. }
  unfold buf_writes. induction ps as [|q ps IH]; intros b text Hm Hb; simpl foldl.
  { simpl Join. by rewrite app_nil_str. }
  rewrite (IH _ (text +:+ q)); [|exact (eq_trans (buf_Write_max b q) Hm)|].
  - rewrite app_assoc_str. do 2 f_equal. destruct ps; simpl Join; [by rewrite app_nil_str|done].
  - subst limit. by apply (buf_Write_prefix b q text).
Qed.

(** ** Properties *)

(** C25: Whatever the interleaving of the calls and whichever contexts end, the limited runner never has more than n tools running, its channel holds exactly one token per running tool, and it never gets stuck: while a call waits or runs, some step is possible. *)
Theorem limitedRunner_safe (n : nat) (done : nat -> bool) (callers : nat) (s : limited) :
  (0 < n)%nat -> limit_reachable n done callers s ->
  (running s <= n)%nat /\ sem s = running s /\
  ((exists i, calls s !! i = Some Waiting \/ calls s !! i = Some Running) ->
   exists s', limit_step n done s s').
Proof.
  intros Hn Hr. destruct (limit_inv_reachable n done callers s Hr) as [Hs Hle].
  split_and!; [lia|done|]. intros (i & [Hi|Hi]).
  - destruct (decide (sem s < n)%nat) as [Hlt|Hge]; [eauto using limit_step|].
    destruct (running_pos s) as [j Hj]; [lia|]. eauto using limit_step.
  - eauto using limit_step.
Qed.

Lemma limitedRunner_safe_witness :
  limit_reachable 1 (fun _ => false) 2 (mkLimited 1 [Running; Waiting]) /\
  (running (mkLimited 1 [Running; Waiting]) <= 1)%nat.
Proof.
  assert (H : limit_reachable 1 (fun _ => false) 2 (mkLimited 1 [Running; Waiting])).
  { eapply rtc_l; [apply (step_acquire _ _ _ 0); [reflexivity|simpl; lia]|]. apply rtc_refl. }
  split; [exact H|]. apply (limitedRunner_safe 1 (fun _ => false) 2); [lia|exact H].
Defined.

(** C24: What a tool's run gives its caller. At most a mebibyte of each output,
    and exactly the first of what the tool wrote, however it wrote it; a run
    counts as timed out exactly when the caller's deadline passed, waiting for
    a slot included, or the tool's own error says so; and a run without an
    error is one whose context lived and whose tool succeeded. *)
Theorem limitedRun_spec (name : string) (a : attempt) :
  let r := limitedRun name a in
  let written out := match a with NoSlot _ => "" | Started _ pr => Join (out pr) "" end in
  run_stdout r = str_take maxToolOutput (written pr_stdout) /\
  run_stderr r = str_take maxToolOutput (written pr_stderr) /\
  (Z.of_nat (String.length (run_stdout r)) <= 2 ^ 20 /\ Z.of_nat (String.length (run_stderr r)) <= 2 ^ 20)%Z /\
  (isTimeout (run_ctx r) (run_err r) = true <->
     a = NoSlot DeadlineExceeded \/
     exists pr, a = Started (Some DeadlineExceeded) pr \/ (a = Started None pr /\ pr_err pr = Some ErrDeadline)) /\
  (run_err r = None <-> exists pr, a = Started None pr /\ pr_err pr = None).
Proof.
  cbv zeta. assert (Hmax : Z.of_nat maxToolOutput = (2 ^ 20)%Z) by (unfold maxToolOutput; by rewrite Z2Nat.id).
  unfold limitedRun, execRun. generalize dependent maxToolOutput. intros limit Hmax.
  destruct a as [e|ctxErr pr]; cbn [run_stdout run_stderr run_ctx run_err].
  - split_and!; [by destruct limit|by destruct limit|done|done| |]; unfold isTimeout.
    + destruct e; cbn; split; try done; [|by left]. intros [|(? & [|[]])]; done.
    + split; [done|]. by intros (? & ? & _).
  - destruct (cappedBuffer_keeps_prefix limit (pr_stdout pr) "") as [-> _].
    destruct (cappedBuffer_keeps_prefix limit (pr_stderr pr) "") as [-> _].
    rewrite !length_str_take. split_and!; [done|done|lia|lia| |]; unfold isTimeout.
    + destruct ctxErr as [[]|]; cbn.
      * split; [done|]. intros [|(? & [|[]])]; done.
      * split; [|done]. intros _. right. exists pr. by left.
      * destruct (pr_err pr) as [[| |]|] eqn:E; cbn.
        { split; [|done]. intros _. right. exists pr. by right. }
        all: split; [done|]; intros [|(? & [|[[= ->] ?]])]; congruence.
    + destruct ctxErr; split; [done|by intros (? & ? & _)|eauto|by intros (? & [= ->] & ?)].
Qed.
