(* ===== verification/Dog.v ===== *)
(** * The DNS client's output: dog.go

    encoding/json's streaming decoder is the parameter [decode]: the documents
    it yields before its first error. *)

From S2P Require Import Prelude GoStrings Netip Records Runner.

(** ** JSON values as the decoder leaves them *)

Inductive json :=
| JNull
| JBool (b : bool)
| JInt (n : Z)
| JOtherNum                 (* a number that is no integer *)
| JStr (s : string)
| JArr (l : list json)
| JObj.

Definition dogData := gmap string json.

Definition d_str (d : dogData) (k : string) : string :=
  match d !! k with Some (JStr s) => s | _ => "" end.

Definition d_num (d : dogData) (k : string) : Z :=
  match d !! k with
  | Some (JInt n) => if ((minInt64 <=? n) && (n <=? maxInt64))%Z then n else 0%Z
  | _ => 0%Z
  end.

Definition d_flag (d : dogData) (k : string) : bool :=
  match d !! k with Some (JBool b) => b | _ => false end.

Definition json_string (j : json) : option string :=
  match j with JStr s => Some s | JNull => Some "" | _ => None end.

Definition d_strs (d : dogData) (k : string) : list string :=
  match d !! k with
  | Some (JArr l) => default [] (mapM json_string l)
  | _ => []
  end.

Record dogRecord := mkRec { r_name : string; r_ttl : Z; r_type : string; r_data : dogData }.

Record dogResponse := mkResp {
  resp_AD : bool;
  resp_Rcode : string;
  resp_answers : list dogRecord;
  resp_authorities : list dogRecord;
}.

Record dogOutput := mkOut {
  out_responses : list dogResponse;
  out_error : bool;
  out_message : string;
}.

(** ** Arguments *)

Definition maxInt (a b : Z) : Z := if (a >? b)%Z then a else b.

Definition dogArgs (server : string) (timeoutSec : Z) (name qtype : string) : list string :=
  ["-J"; "-Z"; "ad"; "--timeout"; Itoa (maxInt 1 timeoutSec)]
  ++ (if negb (String.eqb server "") then ["-n"; server] else [])
  ++ ["-q"; name; "-t"; qtype].

(** The first attempt's deadline, in nanoseconds from now: half of what is
    left, at least [minAttempt]; none without a deadline. *)
Definition minAttempt : Z := 1000000000.

Definition firstAttempt (left : option Z) : option Z :=
  match left with
  | None => None
  | Some d => let half := Z.quot d 2 in Some (if (half <? minAttempt)%Z then minAttempt else half)
  end.

(** ** Rendering records *)

Definition txtLengthOctets (n : nat) : nat :=
  if (n =? 0)%nat then 1%nat else ((n + 254) / 255)%nat.

Definition sp (l : list string) : string := Join l " ".

Definition rdataRenderer (rtype : string) : option (dogData -> string) :=
  if member rtype ["A"; "AAAA"] then Some (fun d => d_str d "address")
  else if String.eqb rtype "NS" then Some (fun d => d_str d "nameserver")
  else if String.eqb rtype "CNAME" then Some (fun d => d_str d "domain")
  else if String.eqb rtype "PTR" then Some (fun d => d_str d "cname")
  else if String.eqb rtype "MX" then
    Some (fun d => sp [Itoa (d_num d "preference"); d_str d "exchange"])
  else if String.eqb rtype "TXT" then Some (fun d => Join (d_strs d "messages") "")
  else if String.eqb rtype "CAA" then
    Some (fun d => sp [Itoa (if d_flag d "critical" then 128 else 0); d_str d "tag";
                       Quote (d_str d "value")])
  else if String.eqb rtype "TLSA" then
    Some (fun d => sp [Itoa (d_num d "certificate_usage"); Itoa (d_num d "selector");
                       Itoa (d_num d "matching_type"); ToUpper (d_str d "certificate_data")])
  else if String.eqb rtype "DS" then
    Some (fun d => sp [Itoa (d_num d "key_tag"); Itoa (d_num d "algorithm");
                       Itoa (d_num d "digest_type"); ToUpper (d_str d "digest")])
  else if String.eqb rtype "DNSKEY" then
    Some (fun d => sp [Itoa (d_num d "flags"); Itoa (d_num d "protocol");
                       Itoa (d_num d "algorithm"); d_str d "public_key"])
  else if String.eqb rtype "SOA" then
    Some (fun d => sp [d_str d "mname"; d_str d "rname"; Itoa (d_num d "serial");
                       Itoa (d_num d "refresh"); Itoa (d_num d "retry");
                       Itoa (d_num d "expire"); Itoa (d_num d "minimum")])
  else None.

Definition dogRR (rec : dogRecord) : option RR :=
  match rdataRenderer (r_type rec) with
  | None => None
  | Some render =>
      let rdata := render (r_data rec) in
      let rdlen :=
        if String.eqb (r_type rec) "TXT" then
          list_sum (map (fun s => String.length s + txtLengthOctets (String.length s))%nat
                        (d_strs (r_data rec) "messages"))
        else if String.eqb (r_type rec) "CNAME" then wireNameLen rdata
        else 0%nat in
      Some (mkRR (ToLower (r_name rec)) (r_ttl rec) (r_type rec) rdata rdlen)
  end.

(** ** Filling a lookup *)

Definition add_rr (l : Lookup) (rr : RR) : Lookup :=
  mkLookup (l_Name l) (l_Type l) (l_Status l) (l_Trust l) (l_Records l) (l_CNAME l) (l_Error l)
    (l_Retries l) (l_unqueryable l) (l_rrs l ++ [rr]).

Definition add_record (l : Lookup) (rdata : string) : Lookup :=
  mkLookup (l_Name l) (l_Type l) (l_Status l) (l_Trust l) (l_Records l ++ [rdata]) (l_CNAME l)
    (l_Error l) (l_Retries l) (l_unqueryable l) (l_rrs l).

Definition add_cname (l : Lookup) (target : string) : Lookup :=
  mkLookup (l_Name l) (l_Type l) (l_Status l) (l_Trust l) (l_Records l) (l_CNAME l ++ [target])
    (l_Error l) (l_Retries l) (l_unqueryable l) (l_rrs l).

Definition addAnswer (l : Lookup) (rec : dogRecord) : Lookup :=
  match dogRR rec with
  | None => l
  | Some rr =>
      let l := add_rr l rr in
      if String.eqb (RType rr) (l_Type l) then add_record l (RData rr)
      else if String.eqb (RType rr) "CNAME" then add_cname l (RData rr)
      else l
  end.

Definition addAnswers (l : Lookup) (answers : list dogRecord) : Lookup := foldl addAnswer l answers.

Definition addAuthority (l : Lookup) (rec : dogRecord) : Lookup :=
  match dogRR rec with
  | Some rr => if String.eqb (RType rr) "SOA" then add_rr l rr else l
  | None => l
  end.

Definition setStatus (l : Lookup) (resp : dogResponse) : Lookup :=
  let trusted l := set_Trust (if resp_AD resp then TrustSecure else TrustInsecure) l in
  if String.eqb (resp_Rcode resp) "NXDOMAIN" then trusted (set_Status StatusNXDomain l)
  else if negb (String.eqb (resp_Rcode resp) "NOERROR") then
    set_Error ("resolver answered " +:+ resp_Rcode resp) (set_Status StatusFailure l)
  else if (0 <? length (l_Records l))%nat then trusted (set_Status StatusOK l)
  else trusted (set_Status StatusNXRRSet l).

Definition fillFromResponse (l : Lookup) (resp : dogResponse) : Lookup :=
  setStatus (foldl addAuthority (addAnswers l (resp_answers resp)) (resp_authorities resp)) resp.

Definition networkStatus (msg : string) : LookupStatus * string :=
  if Contains (ToLower msg) "timed out" then (StatusTimeout, "dns lookup timed out")
  else (StatusFailure, "dog: " +:+ msg).

Definition lookupOf (qtype : string) : Lookup :=
  mkLookup "" qtype StatusNone TrustNone [] [] "" 0 false [].

Section Dog.
Variable decode : string -> list dogOutput.

Definition firstDogResponse (out : string) : option dogResponse :=
  head (omap (fun doc => head (out_responses doc)) (decode out)).

Definition dogErrorMessage (stderr : string) : string :=
  match head (base.filter (fun doc => out_error doc && negb (String.eqb (out_message doc) "") = true)
                     (decode stderr)) with
  | Some doc => out_message doc
  | None => ""
  end.

Definition parseDogOutput (stdout stderr : string) (runErr : option RunErr) (qtype : string) : Lookup :=
  let l := lookupOf qtype in
  match firstDogResponse stdout with
  | Some resp => fillFromResponse l resp
  | None =>
      let msg := dogErrorMessage stderr in
      if negb (String.eqb msg "") then
        let '(st, e) := networkStatus msg in set_Error e (set_Status st l)
      else set_Error ("dog: " +:+ firstNonEmpty [firstLine (TrimSpace stderr); errText runErr; "no response"])
             (set_Status StatusFailure l)
  end.

Definition dogOptionsError : Z := 3.

Definition exitCode (err : option RunErr) : Z :=
  match err with Some (ErrExit code _) => code | _ => -1 end.

Definition timedOutLookup (name qtype : string) : Lookup :=
  mkLookup name qtype StatusTimeout TrustNone [] [] "dns lookup timed out" 0 false [].

Definition dogOnce (run : RunResult) (name qtype : string) : Lookup :=
  if isTimeout (run_ctx run) (run_err run) then timedOutLookup name qtype
  else
    let l := set_Name name (parseDogOutput (run_stdout run) (run_stderr run) (run_err run) qtype) in
    if (exitCode (run_err run) =? dogOptionsError)%Z then
      set_Error ("dog cannot query the name: "
                 +:+ TrimPrefix (firstLine (TrimSpace (run_stderr run))) "dog: ")
        (set_unqueryable l)
    else l.

(** The two attempts of [dnsLookup]: [second] runs only when the first timed
    out and the caller's context is still alive. *)
Definition dnsLookup (first : RunResult) (ctxErr : option CtxErr) (second : RunResult)
    (name qtype : string) : Lookup :=
  let l := dogOnce first name qtype in
  if bool_decide (l_Status l = StatusTimeout) && bool_decide (ctxErr = None) then
    set_Retries 1 (dogOnce second name qtype)
  else l.

End Dog.

(** ** Lemmas *)

(** What every lookup that came out of the client satisfies. *)
Definition lookup_wf (l : Lookup) : Prop :=
  match l_Status l with
  | StatusNone => False
  | StatusOK => l_Records l <> [] /\ l_Trust l <> TrustNone /\ l_Trust l <> TrustBogus
  | StatusNXRRSet => l_Records l = [] /\ l_Trust l <> TrustNone /\ l_Trust l <> TrustBogus
  | StatusNXDomain => l_Trust l <> TrustNone /\ l_Trust l <> TrustBogus
  | StatusFailure | StatusTimeout => l_Trust l = TrustNone
  end.

Lemma addAnswer_Type l rec : l_Type (addAnswer l rec) = l_Type l.
Proof. unfold addAnswer. repeat case_goal; done. Qed.

Lemma addAnswer_Trust l rec : l_Trust (addAnswer l rec) = l_Trust l.
Proof. unfold addAnswer. repeat case_goal; done. Qed.

Lemma addAnswers_Trust l recs : l_Trust (addAnswers l recs) = l_Trust l.
Proof.
  revert l. induction recs as [|r recs IH]; intros l; [done|].
  unfold addAnswers in *. simpl. by rewrite IH, addAnswer_Trust.
Qed.

Lemma addAuthority_Trust l rec : l_Trust (addAuthority l rec) = l_Trust l.
Proof. unfold addAuthority. repeat case_goal; done. Qed.

Lemma addAuthorities_Trust l recs : l_Trust (foldl addAuthority l recs) = l_Trust l.
Proof. revert l. induction recs as [|r recs IH]; intros l; simpl; [done|]. by rewrite IH, addAuthority_Trust. Qed.

(** A response in which the resolver signalled an answer carries a verdict. *)
Lemma setStatus_wf l resp : l_Trust l = TrustNone -> lookup_wf (setStatus l resp).
Proof.
  intros Ht. unfold setStatus, lookup_wf.
  destruct (String.eqb _ "NXDOMAIN"); [simpl; by destruct (resp_AD resp)|].
  destruct (negb _); [done|].
  destruct (l_Records l) eqn:E; simpl; rewrite E; simpl; by destruct (resp_AD resp).
Qed.

Lemma fillFromResponse_wf l resp : l_Trust l = TrustNone -> lookup_wf (fillFromResponse l resp).
Proof.
  intros Ht. apply setStatus_wf. by rewrite addAuthorities_Trust, addAnswers_Trust.
Qed.

Lemma networkStatus_failed msg :
  (networkStatus msg).1 = StatusTimeout \/ (networkStatus msg).1 = StatusFailure.
Proof. unfold networkStatus. destruct (Contains _ _); auto. Qed.

Lemma parseDogOutput_wf decode stdout stderr err qtype :
  lookup_wf (parseDogOutput decode stdout stderr err qtype).
Proof.
  unfold parseDogOutput. destruct (firstDogResponse _ _).
  { by apply fillFromResponse_wf. }
  destruct (negb _); [|done].
  destruct (networkStatus_failed (dogErrorMessage decode stderr)) as [H|H];
    destruct (networkStatus _) as [st e]; simpl in *; by subst.
Qed.

Lemma dogOnce_wf decode run name qtype : lookup_wf (dogOnce decode run name qtype).
Proof.
  unfold dogOnce. destruct (isTimeout _ _); [done|].
  pose proof (parseDogOutput_wf decode (run_stdout run) (run_stderr run) (run_err run) qtype) as H.
  unfold lookup_wf in *. destruct (_ =? _)%Z; done.
Qed.

#[export] Hint Resolve setStatus_wf fillFromResponse_wf parseDogOutput_wf dogOnce_wf : go.

(** The parts of a lookup a response does not touch. *)
Definition frame (l : Lookup) : string * string * nat := (l_Name l, l_Type l, l_Retries l).

Lemma foldl_frame (f : Lookup -> dogRecord -> Lookup) l recs :
  (forall l r, frame (f l r) = frame l) -> frame (foldl f l recs) = frame l.
Proof. intros Hf. revert l. induction recs as [|r recs IH]; intros l; simpl; [done|]. by rewrite IH. Qed.

Lemma fillFromResponse_frame l resp : frame (fillFromResponse l resp) = frame l.
Proof.
  unfold fillFromResponse. trans (frame (foldl addAuthority (addAnswers l (resp_answers resp))
                                        (resp_authorities resp))).
  { unfold setStatus. repeat case_goal; done. }
  unfold addAnswers. rewrite !foldl_frame; [done| |]; intros l' r;
    unfold addAnswer, addAuthority; repeat case_goal; done.
Qed.

Lemma parseDogOutput_frame decode stdout stderr err qtype :
  frame (parseDogOutput decode stdout stderr err qtype) = ("", qtype, 0%nat).
Proof.
  unfold parseDogOutput. destruct (firstDogResponse _ _); [by rewrite fillFromResponse_frame|].
  repeat case_goal; done.
Qed.

(** The lookup is about the question asked. *)
Lemma dogOnce_frame decode run name qtype :
  frame (dogOnce decode run name qtype) = (name, qtype, 0%nat).
Proof.
  unfold dogOnce. destruct (isTimeout _ _); [done|].
  pose proof (parseDogOutput_frame decode (run_stdout run) (run_stderr run) (run_err run) qtype) as H.
  unfold frame in *. destruct (_ =? _)%Z; simpl; by injection H as _ -> ->.
Qed.

(** ** Properties *)

(** Whatever the DNS client printed and however it ended, a lookup is well formed and about the question asked: it has a status, a success has records, an answer carries the resolver's verdict and a failure none, and no answer is ever marked bogus. A second attempt is made, and recorded, exactly when the first timed out with the caller still waiting, so a timeout is reported only after that. *)
Theorem dnsLookup_wf (decode : string -> list dogOutput) (first second : RunResult)
    (ctxErr : option CtxErr) (name qtype : string) :
  let l := dnsLookup decode first ctxErr second name qtype in
  let timedOut run := l_Status (dogOnce decode run name qtype) = StatusTimeout in
  lookup_wf l /\ l_Name l = name /\ l_Type l = qtype /\
  (l_Retries l = 1%nat <-> timedOut first /\ ctxErr = None) /\
  (l_Retries l = 0%nat <-> ~ (timedOut first /\ ctxErr = None)) /\
  (l_Status l = StatusTimeout -> timedOut first /\ (ctxErr <> None \/ timedOut second)).
Proof.
  cbv zeta. unfold dnsLookup.
  destruct (bool_decide (l_Status (dogOnce decode first name qtype) = StatusTimeout)
            && bool_decide (ctxErr = None)) eqn:E; simp_bool.
  - pose proof (dogOnce_frame decode second name qtype) as [= Hn Ht _].
    pose proof (dogOnce_wf decode second name qtype) as Hw.
    split_and!; [exact Hw|exact Hn|exact Ht|simpl; tauto| |simpl; tauto].
    simpl. split; [done|tauto].
  - pose proof (dogOnce_frame decode first name qtype) as [= Hn Ht Hr].
    assert (Hno : ~ (l_Status (dogOnce decode first name qtype) = StatusTimeout /\ ctxErr = None))
      by (destruct E; simp_bool; tauto).
    split_and!; [apply dogOnce_wf|done|done| | |].
    + rewrite Hr. split; [done|tauto].
    + tauto.
    + intros H. split; [done|]. left. tauto.
Qed.

(** The wire length assumed for a TXT string of n bytes counts one length octet per character string of at most 255 bytes: enough octets for all bytes, at least one, and none too many. *)
Theorem txtLengthOctets_least (n : nat) :
  let k := txtLengthOctets n in
  (1 <= k /\ n <= 255 * k /\ (k = 1 \/ 255 * (k - 1) < n))%nat.
Proof.
  cbv zeta. unfold txtLengthOctets. destruct (Nat.eqb_spec n 0) as [->|Hn]; [lia|].
  pose proof (Nat.div_mod_eq (n + 254) 255). pose proof (Nat.mod_upper_bound (n + 254) 255).
  lia.
Qed.
