(* ===== verification/Dig.v ===== *)
(** * dig's YAML output: dig.go

    [parseDigYAML] is a state machine over the lines dig prints; its state is
    a record of the messages finished, the one being read, and the flags. *)

From S2P Require Import Prelude GoStrings Netip Records Runner.

Record digMessage := mkMsg {
  m_Status : string;
  m_Flags : list string;
  m_Protocol : string;
  m_Answer : list RR;
  m_Authority : list RR;
  m_Additional : list RR;
  m_OPT : bool;
  m_EDNSFlags : list string;
  m_Error : string;
}.

#[export] Instance digMessage_eq_dec : EqDecision digMessage.
Proof. solve_decision. Defined.

Definition zeroMsg : digMessage := mkMsg "" [] "" [] [] [] false [] "".
Definition errMsg (e : string) : digMessage := mkMsg "" [] "" [] [] [] false [] e.

Definition hasFlag (m : digMessage) (f : string) : bool := member f (m_Flags m).

Definition records (m : digMessage) (rtype : string) : list RR :=
  base.filter (fun rr => RType rr = rtype) (m_Answer m).

(** ** One line of a message *)

Definition appendSection (m : digMessage) (section : string) (rr : RR) : digMessage :=
  if String.eqb section "ANSWER" then
    mkMsg (m_Status m) (m_Flags m) (m_Protocol m) (m_Answer m ++ [rr]) (m_Authority m)
      (m_Additional m) (m_OPT m) (m_EDNSFlags m) (m_Error m)
  else if String.eqb section "AUTHORITY" then
    mkMsg (m_Status m) (m_Flags m) (m_Protocol m) (m_Answer m) (m_Authority m ++ [rr])
      (m_Additional m) (m_OPT m) (m_EDNSFlags m) (m_Error m)
  else if String.eqb section "ADDITIONAL" then
    mkMsg (m_Status m) (m_Flags m) (m_Protocol m) (m_Answer m) (m_Authority m)
      (m_Additional m ++ [rr]) (m_OPT m) (m_EDNSFlags m) (m_Error m)
  else m.

Definition set_m_Status (s : string) (m : digMessage) : digMessage :=
  mkMsg s (m_Flags m) (m_Protocol m) (m_Answer m) (m_Authority m) (m_Additional m) (m_OPT m)
    (m_EDNSFlags m) (m_Error m).
Definition set_m_Flags (f : list string) (m : digMessage) : digMessage :=
  mkMsg (m_Status m) f (m_Protocol m) (m_Answer m) (m_Authority m) (m_Additional m) (m_OPT m)
    (m_EDNSFlags m) (m_Error m).
Definition set_m_Protocol (p : string) (m : digMessage) : digMessage :=
  mkMsg (m_Status m) (m_Flags m) p (m_Answer m) (m_Authority m) (m_Additional m) (m_OPT m)
    (m_EDNSFlags m) (m_Error m).
Definition set_m_OPT (m : digMessage) : digMessage :=
  mkMsg (m_Status m) (m_Flags m) (m_Protocol m) (m_Answer m) (m_Authority m) (m_Additional m) true
    (m_EDNSFlags m) (m_Error m).
Definition set_m_EDNSFlags (f : list string) (m : digMessage) : digMessage :=
  mkMsg (m_Status m) (m_Flags m) (m_Protocol m) (m_Answer m) (m_Authority m) (m_Additional m)
    (m_OPT m) f (m_Error m).
Definition set_m_Error (e : string) (m : digMessage) : digMessage :=
  mkMsg (m_Status m) (m_Flags m) (m_Protocol m) (m_Answer m) (m_Authority m) (m_Additional m)
    (m_OPT m) (m_EDNSFlags m) e.

(** The message, the section and the EDNS flag after the line. *)
Definition parseDigLine (m : digMessage) (line section : string) (inEDNS : bool)
    : digMessage * string * bool :=
  if HasPrefix line "socket_protocol:" then
    (set_m_Protocol (TrimSpace (TrimPrefix line "socket_protocol:")) m, section, inEDNS)
  else if HasPrefix line "status:" then
    (set_m_Status (TrimSpace (TrimPrefix line "status:")) m, section, inEDNS)
  else if String.eqb line "OPT_PSEUDOSECTION:" then (m, section, true)
  else if String.eqb line "EDNS:" then (set_m_OPT m, section, inEDNS)
  else if HasPrefix line "flags:" then
    let fields := Fields (TrimPrefix line "flags:") in
    (if inEDNS then set_m_EDNSFlags fields m else set_m_Flags fields m, section, inEDNS)
  else if HasSuffix line "_SECTION:" then (m, TrimSuffix line "_SECTION:", false)
  else if HasPrefix line "- '" then
    match parseRR (unquoteYAML (str_drop 2 line)) with
    | Some rr => (appendSection m section rr, section, inEDNS)
    | None => (m, section, inEDNS)
    end
  else (m, section, inEDNS).

(** ** The state machine *)

Record yamlState := mkYaml {
  y_done : list digMessage;      (* messages before the current one *)
  y_cur : option digMessage;
  y_section : string;
  y_inEDNS : bool;
  y_inError : bool;
}.

Definition yaml_init : yamlState := mkYaml [] None "" false false.

Definition y_msgs (s : yamlState) : list digMessage :=
  y_done s ++ match y_cur s with Some m => [m] | None => [] end.

Definition yaml_open (s : yamlState) (isError : bool) : yamlState :=
  mkYaml (y_msgs s) (Some zeroMsg) "" false isError.

Definition yaml_line (s : yamlState) (raw : string) : yamlState :=
  let line := TrimSpace raw in
  if String.eqb line "- type: MESSAGE" then yaml_open s false
  else if String.eqb line "- type: DIG_ERROR" then yaml_open s true
  else match y_cur s with
       | None => s
       | Some m =>
           if y_inError s then
             if negb (HasPrefix line "message:") && negb (String.eqb line "") then
               mkYaml (y_done s) (Some (set_m_Error (TrimSpace (m_Error m +:+ " " +:+ line)) m))
                 (y_section s) (y_inEDNS s) (y_inError s)
             else s
           else
             let '(m, section, inEDNS) := parseDigLine m line (y_section s) (y_inEDNS s) in
             mkYaml (y_done s) (Some m) section inEDNS (y_inError s)
       end.

Definition parseDigYAML (out : string) : list digMessage :=
  y_msgs (foldl yaml_line yaml_init (Split out newline)).

Definition runDig (run : RunResult) : list digMessage :=
  if isTimeout (run_ctx run) (run_err run) then [errMsg "dig timed out"]
  else
    let msgs := parseDigYAML (run_stdout run) in
    match msgs with
    | [] =>
        let detail := TrimSpace (run_stderr run) in
        let detail := match run_err run with
                      | Some _ => if String.eqb detail "" then errText (run_err run) else detail
                      | None => detail
                      end in
        [errMsg (firstNonEmpty [detail; "dig produced no output"])]
    | _ => msgs
    end.

(** ** Lemmas *)

Definition opens_message (raw : string) : bool :=
  member (TrimSpace raw) ["- type: MESSAGE"; "- type: DIG_ERROR"].

Lemma yaml_line_done s raw :
  opens_message raw = false -> y_done (yaml_line s raw) = y_done s.
Proof.
  unfold opens_message, yaml_line. intros H%member_false.
  destruct (String.eqb_spec (TrimSpace raw) "- type: MESSAGE"); [set_solver|].
  destruct (String.eqb_spec (TrimSpace raw) "- type: DIG_ERROR"); [set_solver|].
  destruct (y_cur s) as [m|]; [|done]. destruct (y_inError s).
  - by destruct (negb _ && _).
  - by destruct (parseDigLine _ _ _ _) as [[??]?].
Qed.

(** A line that opens a message forgets everything but the messages so far. *)
Lemma yaml_line_open s raw :
  opens_message raw = true ->
  exists b, yaml_line s raw = yaml_open s b /\ forall s', yaml_line s' raw = yaml_open s' b.
Proof.
  unfold opens_message, yaml_line. intros H%member_true.
  destruct (String.eqb_spec (TrimSpace raw) "- type: MESSAGE"); [by exists false|].
  destruct (String.eqb_spec (TrimSpace raw) "- type: DIG_ERROR"); [by exists true|].
  set_solver.
Qed.

(** [ms] put before the messages a state has finished. *)
Definition yaml_shift (ms : list digMessage) (s : yamlState) : yamlState :=
  mkYaml (ms ++ y_done s) (y_cur s) (y_section s) (y_inEDNS s) (y_inError s).

Lemma yaml_line_shift ms s raw : yaml_line (yaml_shift ms s) raw = yaml_shift ms (yaml_line s raw).
Proof.
  unfold yaml_line, yaml_open, y_msgs, yaml_shift. simpl.
  destruct (String.eqb _ _); [cbn [y_done]; by rewrite <-app_assoc|].
  destruct (String.eqb _ _); [cbn [y_done]; by rewrite <-app_assoc|].
  destruct (y_cur s) as [m|] eqn:Em; [|by rewrite Em]. destruct (y_inError s) eqn:Ee; simpl.
  - destruct (negb _ && _); simpl; by rewrite ?Em, ?Ee.
  - by destruct (parseDigLine _ _ _ _) as [[??]?].
Qed.

Lemma yaml_lines_shift ms s lines :
  foldl yaml_line (yaml_shift ms s) lines = yaml_shift ms (foldl yaml_line s lines).
Proof. revert s. induction lines as [|l lines IH]; intros s; simpl; [done|]. by rewrite yaml_line_shift. Qed.

Lemma y_msgs_shift ms s : y_msgs (yaml_shift ms s) = ms ++ y_msgs s.
Proof. unfold y_msgs. simpl. by rewrite app_assoc. Qed.

(** The number of messages is the number of lines that open one. *)
Lemma yaml_line_count s raw :
  length (y_msgs (yaml_line s raw)) =
  (length (y_msgs s) + if opens_message raw then 1 else 0)%nat.
Proof.
  destruct (opens_message raw) eqn:E.
  - destruct (yaml_line_open s raw E) as (b & -> & _). unfold yaml_open, y_msgs. simpl.
    by rewrite length_app.
  - unfold y_msgs. rewrite !length_app, yaml_line_done by done. rewrite Nat.add_0_r. f_equal.
    unfold opens_message in E. apply member_false in E. unfold yaml_line.
    destruct (String.eqb_spec (TrimSpace raw) "- type: MESSAGE"); [set_solver|].
    destruct (String.eqb_spec (TrimSpace raw) "- type: DIG_ERROR"); [set_solver|].
    destruct (y_cur s) as [m|] eqn:Em; [|by rewrite Em]. destruct (y_inError s).
    + destruct (negb _ && _); simpl; [done|by rewrite Em].
    + by destruct (parseDigLine _ _ _ _) as [[??]?].
Qed.

Lemma yaml_lines_count lines s :
  length (y_msgs (foldl yaml_line s lines)) =
  (length (y_msgs s) + length (base.filter (fun l => opens_message l = true) lines))%nat.
Proof.
  revert s. induction lines as [|l lines IH]; intros s; cbn [foldl]; [rewrite filter_nil; simpl; lia|].
  rewrite IH, yaml_line_count, filter_cons.
  destruct (opens_message l) eqn:E.
  - rewrite decide_True by done. cbn [length]. lia.
  - rewrite decide_False by done. lia.
Qed.

Definition one_line (l : string) : Prop := str_all (fun d => negb (Ascii.eqb newline d)) l = true.

(** ** Properties *)

(** dig's output is read message by message: the messages of an output cut before a line that opens a message are those of the two halves, so nothing a message holds (its section, its EDNS or error mode) leaks into the next one; the second half may also be read on its own. *)
Theorem parseDigYAML_app (before after : list string) (open : string) :
  before <> [] -> Forall one_line before -> Forall one_line (open :: after) ->
  opens_message open = true ->
  parseDigYAML (Join (before ++ open :: after) (byte_string newline)) =
  parseDigYAML (Join before (byte_string newline)) ++
  parseDigYAML (Join (open :: after) (byte_string newline)).
Proof.
  intros Hne Hb Ha Ho. unfold parseDigYAML, byte_string.
  rewrite !Split_Join; try done; [|by destruct before|by apply Forall_app].
  rewrite foldl_app. set (s := foldl yaml_line yaml_init before). cbn [foldl].
  destruct (yaml_line_open s open Ho) as (b & Hs & Hall). rewrite Hs, (Hall yaml_init).
  replace (yaml_open s b) with (yaml_shift (y_msgs s) (yaml_open yaml_init b)).
  - by rewrite yaml_lines_shift, y_msgs_shift.
  - unfold yaml_open, yaml_shift. simpl. by rewrite app_nil_r.
Qed.

Lemma parseDigYAML_app_witness :
  parseDigYAML (Join (["- type: MESSAGE"; " status: NOERROR"] ++ ["- type: DIG_ERROR"; " timed out"])
                  (byte_string newline)) =
  [set_m_Status "NOERROR" zeroMsg; errMsg "timed out"].
Proof.
  etransitivity.
  - apply (parseDigYAML_app ["- type: MESSAGE"; " status: NOERROR"] [" timed out"] "- type: DIG_ERROR").
    + discriminate.
    + repeat constructor.
    + repeat constructor.
    + reflexivity.
  - vm_compute. reflexivity.
Defined.

(** The output yields one message for each line that opens one, whatever the other lines hold, and a run of dig yields at least one message, so its callers may index the first. *)
Theorem parseDigYAML_count (out : string) (run : RunResult) :
  length (parseDigYAML out) =
    length (base.filter (fun l => opens_message l = true) (Split out newline)) /\
  (1 <= length (runDig run))%nat.
Proof.
  split.
  - unfold parseDigYAML. by rewrite yaml_lines_count.
  - unfold runDig. destruct (isTimeout _ _); [done|].
    destruct (parseDigYAML (run_stdout run)); simpl; lia.
Qed.
