(* ===== verification/Trace.v ===== *)
(** * The delegation trace: trace.go *)

From S2P Require Import Prelude GoStrings Netip Names Records Runner Dog.

Inductive DelegationStatus :=
| DelegationNone            (* the zero value of a report not filled *)
| DelegationMatch | DelegationMismatch | DelegationNotDelegated | DelegationNoChildAnswer
| DelegationSameServers | DelegationChildNoNS | DelegationNotAZone | DelegationReservedName
| DelegationError.

#[export] Instance DelegationStatus_eq_dec : EqDecision DelegationStatus.
Proof. solve_decision. Defined.

Record Delegation := mkDeleg {
  d_Status : DelegationStatus;
  d_ParentNS : list string;
  d_ParentServer : string;
  d_ChildNS : list string;
  d_ChildServer : string;
  d_ParentOnly : list string;
  d_ChildOnly : list string;
  d_Error : string;
}.

Definition zeroDeleg : Delegation := mkDeleg DelegationNone [] "" [] "" [] [] "".

Record traceBlock := mkBlock { RRs : list RR; Server : string; IP : string }.

Definition zeroBlock : traceBlock := mkBlock [] "" "".

(** ** Parsing the output *)

(** RE2's \s. *)
Definition re_space (c : ascii) : bool :=
  member c [" "; "009"; "010"; "012"; "013"]%char.

Definition not_space (c : ascii) : bool := negb (re_space c).

(** After the hash sign: \d+\((\S+)\), the last closing parenthesis of the run. *)
Definition match_server (t : string) : option string :=
  let digits := str_take_while is_digit t in
  if is_empty digits then None
  else match str_drop (String.length digits) t with
       | String "(" t =>
           let run := str_take_while not_space t in
           match cut_byte ")"%char (str_rev run) with
           | Some (_, server) => if is_empty server then None else Some (str_rev server)
           | None => None
           end
       | _ => None
       end.

(** (\S+?)# and what follows it, from the left; [ip] is read so far, reversed. *)
Fixpoint match_ip (ip : string) (t : string) : option (string * string) :=
  match t with
  | "" => None
  | String c t' =>
      if re_space c then None
      else match (if Ascii.eqb c "#"%char && negb (is_empty ip) then match_server t' else None) with
           | Some server => Some (str_rev ip, server)
           | None => match_ip (String c ip) t'
           end
  end.

(** The expression receivedRe: the address and the name of the server. *)
Definition receivedRe (line : string) : option (string * string) :=
  if negb (HasPrefix line ";; Received ") then None
  else
    let t := TrimPrefix line ";; Received " in
    let digits := str_take_while is_digit t in
    let t := str_drop (String.length digits) t in
    if is_empty digits || negb (HasPrefix t " bytes from ") then None
    else match_ip "" (TrimPrefix t " bytes from ").

Definition is_diag (line : string) : bool :=
  HasPrefix line ";; communications error" || HasPrefix line ";; connection timed out"
  || HasPrefix line ";; no servers could be reached".

(** Blocks finished, diagnostics, and the block being read. *)
Definition traceState : Type := list traceBlock * list string * traceBlock.

Definition trace_line (st : traceState) (raw : string) : traceState :=
  let '(blocks, diags, cur) := st in
  let line := TrimSpace raw in
  if String.eqb line "" then st
  else if HasPrefix line ";; Received" then
    let cur := match receivedRe line with
               | Some (ip, server) => mkBlock (RRs cur) server ip
               | None => cur
               end in
    (blocks ++ [cur], diags, zeroBlock)
  else if is_diag line then (blocks, diags ++ [TrimPrefix line ";; "], cur)
  else if HasPrefix line ";" then st
  else match parseRR line with
       | Some rr => (blocks, diags, mkBlock (RRs cur ++ [rr]) (Server cur) (IP cur))
       | None => st
       end.

Definition parseTrace (out : string) : list traceBlock * list string :=
  let '(blocks, diags, cur) := foldl trace_line ([], [], zeroBlock) (Split out newline) in
  ((if (0 <? length (RRs cur))%nat then blocks ++ [cur] else blocks), diags).

(** ** Judging the blocks *)

Section Trace.
Context `{D : Dpdomain}.

Definition nsFor (b : traceBlock) (fqdn : string) : list string :=
  sort_strings
    (omap (fun rr => if String.eqb (RType rr) "NS" && String.eqb (Owner rr) fqdn
                     then let f := fqdnOf (RData rr) in
                          if String.eqb f "" then None else Some f
                     else None) (RRs b)).

Definition hasSOA (b : traceBlock) : bool := existsb (fun rr => String.eqb (RType rr) "SOA") (RRs b).

Definition hasSOAFor (b : traceBlock) (fqdn : string) : bool :=
  existsb (fun rr => String.eqb (RType rr) "SOA" && String.eqb (Owner rr) fqdn) (RRs b).

Definition setDiff (a b : list string) : list string :=
  sort_strings (base.filter (fun s => s ∉ b) a).

Definition soaOnlyChild (after : list traceBlock) (fqdn : string) : option traceBlock :=
  head (base.filter (fun b => hasSOAFor b fqdn = true) after).

Definition orElse (e dflt : string) : string := if String.eqb e "" then dflt else e.

Definition classifyChildNoNS (err : string) (parent child : traceBlock) (fqdn : string) : Delegation :=
  let ns := nsFor parent fqdn in
  mkDeleg DelegationChildNoNS ns (Server parent) [] (Server child) ns []
    (orElse err ("zone at " +:+ Server child +:+ " has a SOA but no NS records")).

Definition classifySingleBlock (err : string) (b : traceBlock) (fqdn : string) : Delegation :=
  let ns := nsFor b fqdn in
  if member (fqdnOf (Server b)) ns then
    mkDeleg DelegationSameServers ns (Server b) ns (Server b) [] [] err
  else mkDeleg DelegationNoChildAnswer ns (Server b) [] "" [] [] err.

Definition classifyNoNS (err : string) (blocks : list traceBlock) : Delegation :=
  match last blocks with
  | None => mkDeleg DelegationError [] "" [] "" [] [] (orElse err "dig +trace produced no responses")
  | Some b =>
      if hasSOA b then mkDeleg DelegationNotDelegated [] (Server b) [] "" [] [] err
      else mkDeleg DelegationError [] "" [] "" [] []
             (orElse err ("trace ended at " +:+ Server b +:+ " without an NS answer for the domain"))
  end.

(** The blocks with an NS answer for the name, each with the blocks after it. *)
Fixpoint blocksWithNS (fqdn : string) (blocks : list traceBlock) : list (traceBlock * list traceBlock) :=
  match blocks with
  | [] => []
  | b :: after =>
      if (0 <? length (nsFor b fqdn))%nat then (b, after) :: blocksWithNS fqdn after
      else blocksWithNS fqdn after
  end.

Definition compareDelegation (blocks : list traceBlock) (diags : list string) (domain : string)
    : Delegation :=
  let fqdn := fqdnOf domain in
  let err := Join diags "; " in
  match blocksWithNS fqdn blocks with
  | [] => classifyNoNS err blocks
  | [(b, after)] =>
      match soaOnlyChild after fqdn with
      | Some child => classifyChildNoNS err b child fqdn
      | None => classifySingleBlock err b fqdn
      end
  | (parent, _) :: rest =>
      let child := match last rest with Some (c, _) => c | None => parent end in
      let pns := nsFor parent fqdn in
      let cns := nsFor child fqdn in
      let ponly := setDiff pns cns in
      let conly := setDiff cns pns in
      mkDeleg (match ponly, conly with [], [] => DelegationMatch | _, _ => DelegationMismatch end)
        pns (Server parent) cns (Server child) ponly conly err
  end.

(** ** Running it *)

Definition rootServer : string := "a.root-servers.net".

Definition family_switch (family : string) : string :=
  if String.eqb family "ipv6" then "-6" else "-4".

Definition traceArgs (family : string) (timeoutSec : Z) (domain : string) : list string :=
  ["+trace"; "+nodnssec"; "+tries=1"; "+time=" +:+ Itoa (maxInt 1 (Z.quot timeoutSec 2));
   family_switch family; "@" +:+ rootServer; domain; "NS"].

Definition authArgs (server family : string) (timeoutSec : Z) (domain : string) : list string :=
  ["+norecurse"; "+yaml"; "+tries=1"; "+time=" +:+ Itoa (maxInt 1 (Z.quot timeoutSec 2));
   family_switch family; "@" +:+ server; domain; "NS"].

(** The groups of every match of digFlagsRe, line by line: the value may
    stand on a later line, since \s* also crosses line ends. [pending] says
    that a flags line without a value came before. *)
Fixpoint flags_groups (pending : bool) (lines : list string) : list string :=
  match lines with
  | [] => []
  | l :: lines =>
      let t := str_drop_while re_space l in
      if pending then
        if is_empty t then flags_groups true lines else t :: flags_groups false lines
      else if HasPrefix t "flags:" then
        let v := str_drop_while re_space (TrimPrefix t "flags:") in
        if is_empty v then flags_groups true lines else v :: flags_groups false lines
      else flags_groups false lines
  end.

Definition digAuthoritative (out : string) : bool :=
  existsb (fun g => member "aa" (Fields g)) (flags_groups false (Split out newline)).

(** [auth] is the answer of the direct query, asked only when needed. *)
Definition traceDelegation (trace : RunResult) (ctxErr : option CtxErr) (auth : RunResult)
    (domain : string) : Delegation :=
  let '(blocks, diags) := parseTrace (run_stdout trace) in
  let diags :=
    if isTimeout (run_ctx trace) (run_err trace) then diags ++ ["dig +trace timed out"]
    else match run_err trace with
         | Some e => if (length blocks =? 0)%nat
                     then diags ++ ["dig: " +:+ errText (Some e) +:+ " " +:+ TrimSpace (run_stderr trace)]
                     else diags
         | None => diags
         end in
  let d := compareDelegation blocks diags domain in
  if bool_decide (d_Status d = DelegationNoChildAnswer) && negb (String.eqb (d_ParentServer d) "")
     && bool_decide (ctxErr = None) && digAuthoritative (run_stdout auth)
  then mkDeleg DelegationSameServers (d_ParentNS d) (d_ParentServer d) (d_ParentNS d)
         (d_ParentServer d) (d_ParentOnly d) (d_ChildOnly d) (d_Error d)
  else d.

(** ** Lemmas *)

Lemma elem_of_setDiff x a b : x ∈ setDiff a b <-> x ∈ a /\ x ∉ b.
Proof. unfold setDiff. rewrite elem_of_sort_strings, list_elem_of_filter. tauto. Qed.

Lemma setDiff_nil a b : setDiff a b = [] <-> (forall x, x ∈ a -> x ∈ b).
Proof.
  split.
  - intros H x Hx. destruct (decide (x ∈ b)) as [|Hb]; [done|].
    assert (Hd : x ∈ setDiff a b) by (by apply elem_of_setDiff).
    rewrite H in Hd. by apply elem_of_nil in Hd.
  - intros H. destruct (setDiff a b) as [|x l] eqn:E; [done|].
    assert (Hd : x ∈ setDiff a b) by (rewrite E; set_solver).
    apply elem_of_setDiff in Hd as [Ha Hb]. by apply H in Ha.
Qed.

Lemma blocksWithNS_elem fqdn blocks b after :
  (b, after) ∈ blocksWithNS fqdn blocks -> b ∈ blocks /\ nsFor b fqdn <> [].
Proof.
  induction blocks as [|b' blocks IH]; simpl; [set_solver|].
  destruct (Nat.ltb_spec 0 (length (nsFor b' fqdn))) as [Hl|Hl].
  - intros [[= -> ->]|H]%elem_of_cons.
    + split; [set_solver|]. by destruct (nsFor b' fqdn); simpl in Hl; [lia|].
    + destruct (IH H). split; [set_solver|done].
  - intros H. destruct (IH H). split; [set_solver|done].
Qed.

End Trace.

(** ** Properties *)

(** The delegation of two or more blocks with an NS answer. *)
Lemma compareDelegation_two `{D : Dpdomain} blocks diags domain p q rest :
  blocksWithNS (fqdnOf domain) blocks = p :: q :: rest ->
  exists child after, last (q :: rest) = Some (child, after) /\
  let pns := nsFor (fst p) (fqdnOf domain) in
  let cns := nsFor child (fqdnOf domain) in
  compareDelegation blocks diags domain =
  mkDeleg (match setDiff pns cns, setDiff cns pns with [], [] => DelegationMatch | _, _ => DelegationMismatch end)
    pns (Server (fst p)) cns (Server child) (setDiff pns cns) (setDiff cns pns) (Join diags "; ").
Proof.
  intros E. unfold compareDelegation. rewrite E. destruct p as [parent pafter].
  destruct (last (q :: rest)) as [[child after]|] eqn:El.
  - exists child, after. by destruct q.
  - apply last_None in El. done.
Qed.

(** With fewer blocks the two sides are never compared. *)
Lemma compareDelegation_few `{D : Dpdomain} blocks diags domain :
  (length (blocksWithNS (fqdnOf domain) blocks) < 2)%nat ->
  d_Status (compareDelegation blocks diags domain) <> DelegationMatch /\
  d_Status (compareDelegation blocks diags domain) <> DelegationMismatch.
Proof.
  intros Hl. unfold compareDelegation.
  destruct (blocksWithNS (fqdnOf domain) blocks) as [|[b after] [|q rest]]; [| |simpl in Hl; lia].
  - unfold classifyNoNS. repeat case_goal; done.
  - unfold classifyChildNoNS, classifySingleBlock. repeat case_goal; done.
Qed.

(** The delegation is called a match exactly when at least two servers answered with NS records for the name and the first (the parent) and the last (the child) name the same set of servers; a mismatch exactly when two answered and some server is on one side only, and the report then lists those of each side. *)
Theorem compareDelegation_verdict `{D : Dpdomain} (blocks : list traceBlock) (diags : list string)
    (domain : string) :
  let d := compareDelegation blocks diags domain in
  let compared := (2 <= length (blocksWithNS (fqdnOf domain) blocks))%nat in
  (d_Status d = DelegationMatch <->
     compared /\ forall ns, ns ∈ d_ParentNS d <-> ns ∈ d_ChildNS d) /\
  (d_Status d = DelegationMismatch <->
     compared /\ exists ns, ns ∈ d_ParentOnly d ++ d_ChildOnly d) /\
  (compared -> forall ns,
     (ns ∈ d_ParentOnly d <-> ns ∈ d_ParentNS d /\ ns ∉ d_ChildNS d) /\
     (ns ∈ d_ChildOnly d <-> ns ∈ d_ChildNS d /\ ns ∉ d_ParentNS d)).
Proof.
  cbv zeta. pose proof (compareDelegation_few blocks diags domain) as Hfew.
  destruct (blocksWithNS (fqdnOf domain) blocks) as [|p [|q rest]] eqn:E.
  1,2: destruct Hfew as [H1 H2]; [simpl; lia|]; split_and!; [split; [done|simpl; lia]..|simpl; lia].
  clear Hfew. destruct (compareDelegation_two blocks diags domain p q rest E) as (child & after & _ & ->).
  cbv zeta. set (pns := nsFor (fst p) (fqdnOf domain)). set (cns := nsFor child (fqdnOf domain)).
  cbn [d_Status d_ParentNS d_ChildNS d_ParentOnly d_ChildOnly length].
  split_and!.
  - destruct (setDiff pns cns) as [|x l] eqn:E1; [destruct (setDiff cns pns) as [|x l] eqn:E2|].
    + rewrite setDiff_nil in E1. rewrite setDiff_nil in E2. split; [|done]. split; [lia|]. split; auto.
    + split; [done|]. intros [_ H].
      assert (Hx : x ∈ setDiff cns pns) by (rewrite E2; set_solver).
      apply elem_of_setDiff in Hx as [Hx Hn]. by apply H in Hx.
    + split; [done|]. intros [_ H].
      assert (Hx : x ∈ setDiff pns cns) by (rewrite E1; set_solver).
      apply elem_of_setDiff in Hx as [Hx Hn]. by apply H in Hx.
  - destruct (setDiff pns cns) as [|x l] eqn:E1; [destruct (setDiff cns pns) as [|x l] eqn:E2|].
    + split; [done|]. intros [_ [x Hx]]. by apply elem_of_nil in Hx.
    + split; [|done]. intros _. split; [lia|]. exists x. set_solver.
    + split; [|done]. intros _. split; [lia|]. exists x. set_solver.
  - intros _ ns. split; apply elem_of_setDiff.
Qed.
