(* ===== verification/TraceText.v ===== *)
(** * The text of a trace, and what is read of it (trace.go, records.go)

    dig +trace prints, for every server it asked, the diagnostics it met, one
    line for each record of the answer, a line that says where the answer
    came from, and a blank line. Here is that text, for any such trace, and
    the theorem that [parseTrace] reads back what was printed. *)

From S2P Require Import Prelude GoStrings Names Records Trace.

(** ** The text *)

(** A record as dig prints it; the rdata as text. *)
Record printed := mkPrinted { pt_owner : string; pt_ttl : Z; pt_type : string; pt_rdata : string }.

(** One answer of the trace. *)
Record hop := mkHop {
  h_diags : list string;
  h_records : list printed;
  h_size : nat;
  h_ip : string;
  h_server : string;
  h_time : nat;
}.

Definition tabs (l : list string) : string := Join l (String tab "").

Definition print_record (r : printed) : string :=
  tabs [pt_owner r; Itoa (pt_ttl r); "IN"; pt_type r; pt_rdata r].

Definition print_received (h : hop) : string :=
  ";; Received " +:+ itoa (h_size h) +:+ " bytes from " +:+ h_ip h +:+ "#53(" +:+ h_server h +:+ ") in "
  +:+ itoa (h_time h) +:+ " ms".

Definition print_diag (d : string) : string := ";; " +:+ d.

Definition hop_lines (h : hop) : list string :=
  map print_diag (h_diags h) ++ map print_record (h_records h) ++ [print_received h; ""].

(** The banner comes first; diagnostics of a query that nobody answered last. *)
Definition print_trace (banner : list string) (hops : list hop) (diags : list string) : string :=
  Join (banner ++ concat (map hop_lines hops) ++ map print_diag diags ++ [""]) (String newline "").

(** What was printed of a record, and of an answer. *)
Definition record_of (r : printed) : RR :=
  let '(rdata, rdlen) := rr_data (pt_type r) (pt_rdata r) in mkRR (pt_owner r) (pt_ttl r) (pt_type r) rdata rdlen.

Definition block_of (h : hop) : traceBlock := mkBlock (map record_of (h_records h)) (h_server h) (h_ip h).

(** ** What can be printed *)

(** A word holds no blank; a text neither begins nor ends with one, and is of
    one line. *)
Definition word (s : string) : Prop := s <> "" /\ str_all (fun c => negb (is_space c)) s = true.

Definition tight (s : string) : Prop :=
  (forall c t, s = String c t -> is_space c = false) /\ (forall c t, str_rev s = String c t -> is_space c = false).

(** The first half of it, as a test. *)
Definition starts_clean (s : string) : bool :=
  match s with String c _ => negb (is_space c) | "" => true end.

Definition one_line_text (s : string) : Prop := str_all (fun c => negb (Ascii.eqb newline c)) s = true.

Definition printed_ok (r : printed) : Prop :=
  word (pt_owner r) /\ ToLower (pt_owner r) = pt_owner r /\ HasPrefix (pt_owner r) ";" = false /\
  (0 <= pt_ttl r <= maxInt64)%Z /\ word (pt_type r) /\
  pt_rdata r <> "" /\ tight (pt_rdata r) /\ one_line_text (pt_rdata r).

Definition diag_ok (d : string) : Prop := is_diag (print_diag d) = true /\ tight d /\ one_line_text d.

Definition hop_ok (h : hop) : Prop :=
  Forall diag_ok (h_diags h) /\ Forall printed_ok (h_records h) /\
  word (h_ip h) /\ ContainsByte (h_ip h) "#"%char = false /\ word (h_server h).

Definition banner_ok (l : string) : Prop :=
  one_line_text l /\ (TrimSpace l = "" \/
    HasPrefix (TrimSpace l) ";" = true /\ HasPrefix (TrimSpace l) ";; Received" = false /\ is_diag (TrimSpace l) = false).

(** ** Lemmas on blanks *)

Lemma TrimSpace_tight s : tight s -> TrimSpace s = s.
Proof.
  intros [H1 H2]. unfold TrimSpace, TrimFunc, TrimRightFunc, TrimLeftFunc.
  assert (Hd : forall t, (forall c t', t = String c t' -> is_space c = false) -> str_drop_while is_space t = t).
  { intros [|c t] H; [done|]. cbn. by rewrite (H c t). }
  rewrite (Hd s H1), (Hd (str_rev s) H2). apply str_rev_rev.
Qed.

Lemma TrimSpace_cons c s : is_space c = true -> TrimSpace (String c s) = TrimSpace s.
Proof. intros H. unfold TrimSpace, TrimFunc, TrimLeftFunc. cbn. by rewrite H. Qed.

Lemma tight_app a b : a <> "" -> b <> "" -> tight a -> tight b -> forall m, tight (a +:+ m +:+ b).
Proof.
  intros Ha Hb [H1 _] [_ H2] m. split.
  - destruct a as [|c a]; [done|]. intros d t. cbn. intros [= <- _]. by eapply H1.
  - rewrite !str_rev_app. destruct (str_rev b) as [|c b'] eqn:E; [|intros d t; cbn; intros [= <- _]; by eapply H2].
    destruct Hb. by rewrite <-(str_rev_rev b), E.
Qed.

Lemma tight_word s : word s -> tight s.
Proof.
  intros [_ H]. split; intros c t E; [|rewrite <-str_all_rev in H]; rewrite E in H; cbn in H; by simp_bool.
Qed.

Lemma word_digits s : s <> "" -> str_all is_digit s = true -> word s.
Proof.
  intros Hs H. split; [done|]. clear Hs. induction s as [|c s IH]; [done|]. cbn in *. simp_bool.
  rewrite IH by done. destruct c as [[] [] [] [] [] [] [] []]; done.
Qed.

Lemma word_Itoa n : (0 <= n)%Z -> word (Itoa n).
Proof.
  intros Hn. destruct n as [|p|p]; [done| |lia]. destruct (pretty_N_digits (N.pos p)) as (H & _ & Hne).
  by apply word_digits.
Qed.

Lemma word_itoa n : word (itoa n).
Proof. destruct (pretty_N_digits (N.of_nat n)) as (H & _ & Hne). by apply word_digits. Qed.

Lemma Fields_cons x c s : word x -> is_space c = true -> Fields (x +:+ String c s) = x :: Fields s.
Proof.
  intros [Hx Hw] Hc. unfold Fields. rewrite split_func_app_sep by done. rewrite filter_cons_True; [done|].
  by apply negb_true_iff, is_empty_false.
Qed.

Lemma blank_space c : is_blank c = true -> is_space c = true.
Proof. destruct c as [[] [] [] [] [] [] [] []]; done. Qed.

(** ** Records *)

Lemma drop_fields_word n x c s :
  word x -> is_blank c = true -> drop_fields (S n) (x +:+ String c s) = drop_fields n (String c s).
Proof.
  intros [Hx Hw] Hc. cbn [drop_fields].
  assert (Hb : forall d, negb (is_space d) = true -> is_blank d = false).
  { intros d Hd. apply negb_true_iff in Hd. destruct (is_blank d) eqn:E; [|done]. apply blank_space in E. congruence. }
  assert (E : str_drop_while (fun d => negb (is_blank d)) (x +:+ String c s) = String c s).
  { clear Hx. induction x as [|d x IH]; [change ("" +:+ ?y) with y|change (String d x +:+ ?y) with (String d (x +:+ y))];
      cbn [str_drop_while]; [by rewrite Hc|].
    cbn [str_all] in Hw. apply andb_true_iff in Hw as [Hd Hw]. rewrite (Hb d Hd). by apply IH. }
  destruct x as [|d x]; [done|]. cbn in Hw. apply andb_true_iff in Hw as [Hd Hw].
  change (String d x +:+ String c s) with (String d (x +:+ String c s)) in *. cbn [str_drop_while]. rewrite (Hb d Hd).
  by rewrite E.
Qed.

Lemma drop_fields_blank n c s : is_blank c = true -> drop_fields (S n) (String c s) = drop_fields (S n) s.
Proof. intros Hc. cbn [drop_fields str_drop_while]. by rewrite Hc. Qed.

Lemma parse_printed r : printed_ok r -> parseRR (print_record r) = Some (record_of r).
Proof.
  intros (Ho & Hlow & _ & Httl & Hty & Hrd & Hti & _). unfold print_record, tabs. cbn [Join].
  assert (Hn : word (Itoa (pt_ttl r))) by (apply word_Itoa; lia).
  assert (HI : word "IN") by done. assert (Ht : is_blank tab = true) by done.
  set (t := pt_type r) in *. set (d := pt_rdata r) in *.
  assert (Hs : forall s, String tab "" +:+ s = String tab s) by done. rewrite !Hs.
  unfold parseRR. rewrite !Fields_cons by done.
  rewrite ParseInt_Itoa by (unfold minInt64; lia). cbn [lookup list_lookup].
  change (String.eqb "IN" "IN") with true. cbn beta iota.
  unfold afterFields. repeat (rewrite drop_fields_word by done; try rewrite drop_fields_blank by done).
  cbn [drop_fields]. rewrite TrimSpace_cons, TrimSpace_tight, Hlow by done.
  unfold record_of. fold t d. by destruct (rr_data t d).
Qed.

(** ** Lines *)

Lemma HasPrefix_less s p q : HasPrefix s (p +:+ q) = true -> HasPrefix s p = true.
Proof. intros [t ->]%HasPrefix_inv. rewrite app_assoc_str. apply HasPrefix_app. Qed.

Lemma no_comment s p : HasPrefix s ";" = false -> HasPrefix s (";" +:+ p) = false.
Proof. intros H. destruct (HasPrefix s (";" +:+ p)) eqn:E; [|done]. apply HasPrefix_less in E. congruence. Qed.

Lemma word_one_line s : word s -> one_line_text s.
Proof.
  intros [_ H]. unfold one_line_text. induction s as [|c s IH]; [done|]. cbn [str_all] in *. simp_bool.
  rewrite IH by done. destruct (Ascii.eqb_spec newline c) as [<-|_]; [done|]. reflexivity.
Qed.

Lemma one_line_app a b : one_line_text a -> one_line_text b -> one_line_text (a +:+ b).
Proof. unfold one_line_text. intros H1 H2. by rewrite str_all_app, H1, H2. Qed.

Lemma trace_record blocks diags cur r :
  printed_ok r ->
  trace_line (blocks, diags, cur) (print_record r) = (blocks, diags, mkBlock (RRs cur ++ [record_of r]) (Server cur) (IP cur)).
Proof.
  intros Hr. pose proof (parse_printed r Hr) as Hp. destruct Hr as (Ho & _ & Hsemi & _ & _ & Hrd & Hti & _).
  assert (E : print_record r = pt_owner r +:+ tabs [""; Itoa (pt_ttl r); "IN"; pt_type r; ""] +:+ pt_rdata r).
  { unfold print_record, tabs. cbn [Join]. by rewrite !app_assoc_str. }
  assert (Ht : tight (print_record r)) by (rewrite E; apply tight_app; [apply Ho|done|by apply tight_word|done]).
  assert (Hpre : print_record r <> "" /\ forall p, HasPrefix (print_record r) (String ";" p) = false).
  { rewrite E. destruct (pt_owner r) as [|c o]; [by destruct Ho|]. split; [done|]. intros p.
    change (String c o +:+ ?y) with (String c (o +:+ y)). cbn [HasPrefix] in Hsemi |- *.
    destruct (Ascii.eqb ";" c); [by destruct o|done]. }
  destruct Hpre as [Hne Hpre].
  unfold trace_line. rewrite (TrimSpace_tight _ Ht). unfold is_diag. rewrite !Hpre, Hp.
  by rewrite (proj2 (String.eqb_neq _ _) Hne).
Qed.

Lemma trace_diag blocks diags cur d :
  diag_ok d -> trace_line (blocks, diags, cur) (print_diag d) = (blocks, diags ++ [d], cur).
Proof.
  intros (Hd & Ht & _). unfold trace_line.
  assert (Hne : d <> "") by (by intros ->).
  rewrite TrimSpace_tight by (by apply (tight_app ";;" d ltac:(done) Hne (tight_word ";;" ltac:(done)) Ht " ")).
  rewrite Hd. unfold print_diag in *. rewrite TrimPrefix_app. destruct (String.eqb_spec (";; " +:+ d) ""); [done|].
  destruct (HasPrefix (";; " +:+ d) ";; Received") eqn:E; [|done]. exfalso.
  unfold is_diag in Hd. apply HasPrefix_inv in E as [t E]. rewrite E in Hd. done.
Qed.

Lemma trace_banner st l : banner_ok l -> trace_line st l = st.
Proof.
  intros [_ H]. destruct st as [[blocks diags] cur]. unfold trace_line. destruct H as [->|(H1 & H2 & H3)]; [done|].
  rewrite H1, H2, H3. by destruct (String.eqb _ _).
Qed.

(** ** The line that says where an answer came from *)

Lemma take_while_app p x c s :
  str_all p x = true -> p c = false -> str_take_while p (x +:+ String c s) = x.
Proof.
  intros Hx Hc. induction x as [|d x IH]; unfold String.app; simpl; [by rewrite Hc|].
  cbn in Hx. apply andb_true_iff in Hx as [-> Hx]. unfold String.app in IH. by rewrite IH.
Qed.

Lemma word_not_space s : word s -> str_all not_space s = true.
Proof.
  intros [_ H]. induction s as [|c s IH]; [done|]. cbn [str_all] in *. apply andb_true_iff in H as [Hc Hs].
  rewrite IH by done. revert Hc. clear. destruct c as [[] [] [] [] [] [] [] []]; done.
Qed.

Lemma match_ip_app acc ip t :
  str_all not_space ip = true -> ContainsByte ip "#"%char = false -> match_ip acc (ip +:+ t) = match_ip (str_rev ip +:+ acc) t.
Proof.
  revert acc. induction ip as [|c ip IH]; intros acc Hs Hh; [done|].
  change (String c ip +:+ t) with (String c (ip +:+ t)). cbn [match_ip].
  cbn in Hs. apply andb_true_iff in Hs as [Hc Hs]. unfold not_space in Hc. apply negb_true_iff in Hc. rewrite Hc.
  unfold ContainsByte, str_any in Hh. apply negb_false_iff in Hh. cbn [str_all] in Hh.
  apply andb_true_iff in Hh as [H1 H2]. apply negb_true_iff in H1. rewrite Ascii.eqb_sym, H1. cbn [andb].
  rewrite IH; [|done|unfold ContainsByte, str_any; by rewrite H2]. by rewrite str_rev_cons, app_assoc_str.
Qed.

Lemma match_server_printed server t :
  word server -> match_server ("53(" +:+ server +:+ ") in " +:+ t) = Some server.
Proof.
  intros Hw. unfold match_server. change (str_take_while is_digit _) with "53". cbn [is_empty String.length].
  change (str_drop 2 _) with (String "(" (server +:+ ") in " +:+ t)). cbv zeta.
  assert (E : str_take_while not_space (server +:+ ") in " +:+ t) = server +:+ ")").
  { change (") in " +:+ t) with (")" +:+ String " " ("in " +:+ t)). rewrite <-app_assoc_str. apply take_while_app; [|done].
    rewrite str_all_app, (word_not_space _ Hw). done. }
  cbn beta iota. rewrite E, str_rev_app. change (str_rev ")" +:+ ?x) with (String ")" x). cbn [cut_byte].
  rewrite Ascii.eqb_refl. destruct (is_empty (str_rev server)) eqn:Ee; [|by rewrite str_rev_rev].
  apply is_empty_true in Ee. destruct Hw as [Hne _]. destruct Hne. by rewrite <-(str_rev_rev server), Ee.
Qed.

Lemma receivedRe_printed h : hop_ok h -> receivedRe (print_received h) = Some (h_ip h, h_server h).
Proof.
  intros (_ & _ & Hip & Hhash & Hserver). unfold receivedRe, print_received. rewrite HasPrefix_app, TrimPrefix_app.
  cbn [negb]. cbv zeta. destruct (pretty_N_digits (N.of_nat (h_size h))) as (Hd & _ & Hne).
  change (pretty (N.of_nat (h_size h))) with (itoa (h_size h)) in *.
  set (rest := h_ip h +:+ _).
  assert (Etake : str_take_while is_digit (itoa (h_size h) +:+ " bytes from " +:+ rest) = itoa (h_size h)) by (by apply take_while_app).
  rewrite Etake, str_drop_app, HasPrefix_app, TrimPrefix_app, (proj2 (is_empty_false _) Hne). cbn [negb orb].
  unfold rest. rewrite match_ip_app; [|by apply word_not_space|done]. rewrite app_nil_str.
  change ("#53(" +:+ ?y) with (String "#" ("53(" +:+ y)). cbn [match_ip].
  change (re_space "#"%char) with false. rewrite Ascii.eqb_refl. cbn beta iota.
  assert (Er : is_empty (str_rev (h_ip h)) = false).
  { apply is_empty_false. intros E. destruct Hip as [Hn _]. destruct Hn. by rewrite <-(str_rev_rev (h_ip h)), E. }
  rewrite Er. cbn [negb andb]. by rewrite match_server_printed, str_rev_rev.
Qed.

Lemma trace_received blocks diags cur h :
  hop_ok h ->
  trace_line (blocks, diags, cur) (print_received h) =
    (blocks ++ [mkBlock (RRs cur) (h_server h) (h_ip h)], diags, zeroBlock).
Proof.
  intros Hh. unfold trace_line.
  assert (Ht : tight (print_received h)).
  { assert (exists m, print_received h = ";;" +:+ m +:+ "ms") as [m ->].
    { eexists (" Received " +:+ itoa (h_size h) +:+ " bytes from " +:+ h_ip h +:+ "#53(" +:+ h_server h +:+ ") in "
               +:+ itoa (h_time h) +:+ " ").
      unfold print_received. by rewrite !app_assoc_str. }
    apply tight_app; [done|done|by apply tight_word ..]. }
  rewrite (TrimSpace_tight _ Ht), (receivedRe_printed h Hh). done.
Qed.

(** ** The lines of a trace *)

Lemma trace_diags blocks diags cur ds :
  Forall diag_ok ds -> foldl trace_line (blocks, diags, cur) (map print_diag ds) = (blocks, diags ++ ds, cur).
Proof.
  intros H. revert diags. induction H as [|d ds Hd _ IH]; intros diags; cbn [map foldl]; [by rewrite app_nil_r|].
  rewrite trace_diag, IH by done. by rewrite <-app_assoc.
Qed.

Lemma trace_records blocks diags cur rs :
  Forall printed_ok rs ->
  foldl trace_line (blocks, diags, cur) (map print_record rs) =
    (blocks, diags, mkBlock (RRs cur ++ map record_of rs) (Server cur) (IP cur)).
Proof.
  intros H. revert cur. induction H as [|r rs Hr _ IH]; intros cur; cbn [map foldl].
  { rewrite app_nil_r. by destruct cur. }
  rewrite trace_record, IH by done. cbn. by rewrite <-app_assoc.
Qed.

Lemma trace_hops blocks diags hops :
  Forall hop_ok hops ->
  foldl trace_line (blocks, diags, zeroBlock) (concat (map hop_lines hops)) =
    (blocks ++ map block_of hops, diags ++ concat (map h_diags hops), zeroBlock).
Proof.
  intros H. revert blocks diags. induction H as [|h hops Hh _ IH]; intros blocks diags; cbn [map concat].
  { by rewrite !app_nil_r. }
  unfold hop_lines at 1. rewrite !foldl_app, trace_diags, trace_records by apply Hh.
  cbn [foldl]. rewrite trace_received by done. cbn [RRs zeroBlock app].
  change (trace_line ?st "") with st. rewrite IH, <-!app_assoc. done.
Qed.

Lemma one_line_digits s : s <> "" -> str_all is_digit s = true -> one_line_text s.
Proof. intros Hs H. by apply word_one_line, word_digits. Qed.

#[local] Hint Resolve one_line_app word_one_line word_itoa : text.

Lemma record_one_line r : printed_ok r -> one_line_text (print_record r).
Proof.
  intros (Ho & _ & _ & Httl & Hty & _ & _ & Hrd). assert (word (Itoa (pt_ttl r))) by (apply word_Itoa; lia).
  unfold print_record, tabs. cbn [Join]. repeat apply one_line_app; auto with text; done.
Qed.

Lemma received_one_line h : hop_ok h -> one_line_text (print_received h).
Proof.
  intros (_ & _ & Hip & _ & Hs). unfold print_received. repeat apply one_line_app; auto with text; done.
Qed.

Lemma diags_one_line ds : Forall diag_ok ds -> Forall one_line_text (map print_diag ds).
Proof. intros H. rewrite Forall_map. eapply Forall_impl; [exact H|]. intros d (_ & _ & Hd). by apply one_line_app. Qed.

Lemma hop_one_line h : hop_ok h -> Forall one_line_text (hop_lines h).
Proof.
  intros Hh. unfold hop_lines. rewrite !Forall_app, Forall_cons. split_and!.
  - apply diags_one_line, Hh.
  - rewrite Forall_map. eapply Forall_impl; [apply Hh|]. apply record_one_line.
  - by apply received_one_line.
  - by repeat constructor.
Qed.

(** ** Properties *)

(** C37: A trace is read as it was printed. Whatever the servers asked, the records in their answers and the diagnostics between them, [parseTrace] gives back one block for each answer, in order, with its records, owner, time to live, type and data, and with the server and the address it came from, and the diagnostics in order; nothing else in the text, the banner or a blank line, is taken for either. *)
Theorem parseTrace_roundtrip (banner : list string) (hops : list hop) (diags : list string) :
  Forall banner_ok banner -> Forall hop_ok hops -> Forall diag_ok diags ->
  parseTrace (print_trace banner hops diags) =
    (map block_of hops, concat (map h_diags hops) ++ diags).
Proof.
  intros Hb Hh Hd. unfold parseTrace, print_trace. rewrite Split_Join.
  - rewrite !foldl_app.
    assert (Eb : foldl trace_line ([], [], zeroBlock) banner = ([], [], zeroBlock)).
    { clear -Hb. induction Hb as [|l banner Hl _ IH]; [done|]. cbn [foldl]. by rewrite trace_banner. }
    rewrite Eb, trace_hops, trace_diags by done. done.
  - intros E. apply (f_equal length) in E. rewrite !length_app in E. cbn in E. lia.
  - rewrite !Forall_app. split_and!.
    + eapply Forall_impl; [exact Hb|]. by intros l [Hl _].
    + rewrite Forall_concat, Forall_map. eapply Forall_impl; [exact Hh|]. apply hop_one_line.
    + by apply diags_one_line.
    + by repeat constructor.
Qed.

Definition sample_hops : list hop :=
  [mkHop [] [mkPrinted "nl." 172800 "NS" "ns1.dns.nl."; mkPrinted "nl." 86400 "DS" "34112 8 2 3C5B5F9B"] 421
     "198.41.0.4" "a.root-servers.net" 12;
   mkHop ["communications error to 194.0.28.53#53: timed out"]
     [mkPrinted "a.nl." 3600 "NS" "ns1.a.nl."; mkPrinted "a.nl." 3600 "TXT" "v=spf1"] 93 "2001:678:2c::53" "ns1.dns.nl" 5].

Lemma parseTrace_roundtrip_witness :
  parseTrace (print_trace ["; <<>> DiG 9.20 <<>> +trace a.nl NS"; ""] sample_hops []) =
    (map block_of sample_hops, ["communications error to 194.0.28.53#53: timed out"]).
Proof.
  assert (Hw : forall s, str_all (fun c => negb (is_space c)) s && negb (is_empty s) = true -> word s).
  { intros s [H E]%andb_true_iff. split; [by apply is_empty_false, negb_true_iff|done]. }
  assert (Ht : forall s, starts_clean s && starts_clean (str_rev s) = true -> tight s).
  { intros s [H1 H2]%andb_true_iff. split; intros c t E; [rewrite E in H1|rewrite E in H2]; by apply negb_true_iff. }
  apply (parseTrace_roundtrip _ sample_hops []); [| |constructor].
  - repeat (apply Forall_cons; split); [split; [done|right; split_and!; reflexivity]|split; [done|by left]|apply Forall_nil; done].
  - repeat (apply Forall_cons; split); try apply Forall_nil; try done; unfold hop_ok; cbn [h_diags h_records h_ip h_server].
    all: split_and!; repeat (apply Forall_cons; split); try by apply Forall_nil.
    all: unfold printed_ok, diag_ok; cbn; split_and?;
      first [done|apply Hw; reflexivity|apply Ht; reflexivity|unfold maxInt64; lia].
Defined.
