(* ===== verification/DelegRef.v ===== *)
(** * What a trace can be: a reference for Trace

    A chain of zones from the root to the domain, the servers that host them,
    and the walk dig makes along it: a server answers from the lowest zone it
    hosts, and otherwise refers to the servers of the next one. The theorem
    is that the status read off the printed text of any such walk is the one
    the zones and the end of the walk give. *)

From S2P Require Import Prelude GoStrings Names Records Runner Trace TraceText.

(** A zone: its name, the name servers its parent has for it, and its own. *)
Record dzone := mkDZone { dz_name : string; dz_above : list string; dz_own : list string; dz_soa : string }.

(** How the walk ends: nobody answers, above the domain or at it; a server
    above answers, for want of a delegation or because it hosts the domain
    too; a server of the domain answers. *)
Inductive ending := TraceLost | ChildSilent | Undelegated | FromBoth | FromChild.

#[export] Instance ending_eq_dec : EqDecision ending.
Proof. solve_decision. Defined.

(** Records as owner, type and data. *)
Definition rrs : Type := list (string * string * string).

Definition ns_rrs (owner : string) (names : list string) : rrs := map (fun n => (owner, "NS", n)) names.

(** The hop as the server that answered and its records, whatever else was
    printed with them. *)
Definition printed_as (h : hop) (server : string) (l : rrs) : Prop :=
  hop_ok h /\ h_server h = server /\ map (fun r => (pt_owner r, pt_type r, pt_rdata r)) (h_records h) = l.

Section DelegRef.
Context `{D : Dpdomain}.
(** Which server hosts which zone. *)
Variable hosts : string -> string -> bool.
(** The domain, fully qualified. *)
Variable fqdn : string.

(** The records of the name's own zone, or the denial of the zone above. *)
Definition final_rrs (z : dzone) : rrs :=
  if bool_decide (dz_name z = fqdn)
  then match dz_own z with [] => [(fqdn, "SOA", dz_soa z)] | own => ns_rrs fqdn own end
  else [(dz_name z, "SOA", dz_soa z)].

(** What a server that hosts the first zone says of the domain, and the zones
    left to ask, none when it is the last word. *)
Fixpoint reply (server : string) (zs : list dzone) : rrs * list dzone :=
  match zs with
  | [] => ([], [])
  | z :: rest =>
      match rest with
      | [] => (final_rrs z, [])
      | z' :: _ =>
          if hosts server (dz_name z') then reply server rest else (ns_rrs (dz_name z') (dz_above z'), rest)
      end
  end.

Definition ends (zs : list dzone) (answered : bool) : ending :=
  let at_domain o := match o with Some z => bool_decide (dz_name z = fqdn) | None => false end in
  if at_domain (head zs) then if answered then FromChild else ChildSilent
  else if answered then if at_domain (last zs) then FromBoth else Undelegated else TraceLost.

(** A walk along the zones: any server of the first one may answer, or none. *)
Inductive walk : list dzone -> list hop -> ending -> Prop :=
| walk_silent zs : walk zs [] (ends zs false)
| walk_answer zs server h l :
    reply server zs = (l, []) -> printed_as h server l -> walk zs [h] (ends zs true)
| walk_follow zs server h l rest hops e :
    reply server zs = (l, rest) -> rest <> [] -> printed_as h server l -> walk rest hops e -> walk zs (h :: hops) e.

(** Names of servers are written in full. *)
Definition name_ok (n : string) : Prop := fqdnOf n = n /\ n <> "".

Definition dzone_ok (z : dzone) : Prop :=
  dz_above z <> [] /\ Forall name_ok (dz_above z) /\ Forall name_ok (dz_own z).

(** Only the last zone can be the domain's. *)
Fixpoint chain_ok (zs : list dzone) : Prop :=
  match zs with
  | [] => False
  | [z] => dzone_ok z
  | z :: rest => dz_name z <> fqdn /\ chain_ok rest
  end.

(** The status the report should give. *)
Definition same_names (a b : list string) : Prop :=
  Forall (fun n => n ∈ b) a /\ Forall (fun n => n ∈ a) b.

#[export] Instance same_names_dec a b : Decision (same_names a b).
Proof. unfold same_names. apply _. Defined.

Definition walked_status (z : dzone) (e : ending) : DelegationStatus :=
  match e with
  | TraceLost => DelegationError
  | Undelegated => DelegationNotDelegated
  | ChildSilent => DelegationNoChildAnswer
  | FromBoth => match dz_own z with [] => DelegationChildNoNS | _ => DelegationSameServers end
  | FromChild => match dz_own z with
                 | [] => DelegationChildNoNS
                 | own => if bool_decide (same_names (dz_above z) own) then DelegationMatch else DelegationMismatch
                 end
  end.

(** A zone without NS records, hosted by the servers of its parent: the one
    case in which the status is not the zone's. *)
Definition bare_shared (z : dzone) (e : ending) : Prop := e = FromBoth /\ dz_own z = [].

Definition status_of_walk (z : dzone) (e : ending) (st : DelegationStatus) : Prop :=
  (~ bare_shared z e -> st = walked_status z e) /\ (bare_shared z e -> st = DelegationNotDelegated).

(** ** The blocks of a hop *)

Definition ns_of (r : string * string * string) : option string :=
  if String.eqb r.1.2 "NS" && String.eqb r.1.1 fqdn
  then let f := fqdnOf r.2 in if String.eqb f "" then None else Some f else None.

Lemma nsFor_printed h server l : printed_as h server l -> nsFor (block_of h) fqdn = sort_strings (omap ns_of l).
Proof.
  intros (_ & _ & <-). unfold nsFor, block_of. cbn [RRs]. f_equal.
  induction (h_records h) as [|r rs IH]; [done|]. cbn [map omap list_omap]. rewrite IH.
  assert (E : (let rr := record_of r in
    if String.eqb (RType rr) "NS" && String.eqb (Owner rr) fqdn
    then let f := fqdnOf (RData rr) in if String.eqb f "" then None else Some f else None)
    = ns_of (pt_owner r, pt_type r, pt_rdata r)); [|by rewrite <-E].
  unfold record_of, ns_of. destruct (rr_data (pt_type r) (pt_rdata r)) as [d n] eqn:Er. cbn.
  destruct (String.eqb_spec (pt_type r) "NS") as [Et|]; [|done]. rewrite Et in Er. cbn in Er. by injection Er as <- _.
Qed.

Lemma ns_of_names names : Forall name_ok names -> omap ns_of (ns_rrs fqdn names) = names.
Proof.
  induction 1 as [|n names [Hn Hne] _ IH]; [done|]. cbn. unfold ns_of at 1. cbn.
  rewrite String.eqb_refl. cbn. rewrite Hn, (proj2 (String.eqb_neq _ _) Hne). by f_equal.
Qed.

Lemma ns_of_other owner names : owner <> fqdn -> omap ns_of (ns_rrs owner names) = [].
Proof.
  intros Ho. induction names as [|n names IH]; [done|]. cbn. unfold ns_of at 1. cbn.
  by rewrite (proj2 (String.eqb_neq _ _) Ho).
Qed.

Lemma hasSOA_printed h server l :
  printed_as h server l ->
  hasSOA (block_of h) = existsb (fun r => String.eqb r.1.2 "SOA") l /\
  hasSOAFor (block_of h) fqdn = existsb (fun r => String.eqb r.1.2 "SOA" && String.eqb r.1.1 fqdn) l.
Proof.
  intros (_ & _ & <-). unfold hasSOA, hasSOAFor, block_of. cbn [RRs].
  induction (h_records h) as [|r rs [IH1 IH2]]; [done|]. cbn. rewrite IH1, IH2.
  unfold record_of. by destruct (rr_data (pt_type r) (pt_rdata r)).
Qed.

Lemma no_soa owner names p : existsb (fun r => String.eqb r.1.2 "SOA" && p r) (ns_rrs owner names) = false.
Proof. by induction names. Qed.

(** ** The shape of a walk *)

Lemma reply_spec server zs l rest :
  chain_ok zs -> reply server zs = (l, rest) ->
  (rest = [] /\ exists z, last zs = Some z /\ l = final_rrs z /\
     (forall z0, head zs = Some z0 -> dz_name z0 <> fqdn -> dz_name z = fqdn -> hosts server fqdn = true)) \/
  (exists z' rest', rest = z' :: rest' /\ chain_ok rest /\ last rest = last zs /\
     l = ns_rrs (dz_name z') (dz_above z') /\ hosts server (dz_name z') = false).
Proof.
  induction zs as [|z zs IH]; [done|]. destruct zs as [|z' zs]; cbn [reply].
  - intros _ [= <- <-]. left. split; [done|]. exists z. split_and!; [done..|]. by intros z0 [= <-].
  - intros [Hz Hc]. destruct (hosts server (dz_name z')) eqn:Eh.
    + intros E. destruct (IH Hc E) as [(-> & zl & Hl & -> & Hh)|H]; [left|by right].
      split; [done|]. exists zl. split_and!; [done..|]. intros _ _ _ Hn.
      destruct (decide (dz_name z' = fqdn)) as [Hz'|Hz']; [by rewrite <-Hz'|]. by apply (Hh z').
    + intros [= <- <-]. right. by exists z', zs.
Qed.

Lemma chain_at_domain z zs : chain_ok (z :: zs) -> dz_name z = fqdn -> zs = [].
Proof. destruct zs as [|z' zs]; [done|]. by intros [? _]. Qed.

Lemma chain_last zs z : chain_ok zs -> last zs = Some z -> dzone_ok z.
Proof.
  induction zs as [|z0 zs IH]; [done|]. destruct zs as [|z1 zs]; [by intros ? [= <-]|].
  intros [_ H]. rewrite last_cons_cons. by apply IH.
Qed.

Definition quiet (h : hop) : Prop := nsFor (block_of h) fqdn = [] /\ hasSOA (block_of h) = false.

(** The hops that count, for each end of a walk. *)
Definition tail_shape (z : dzone) (e : ending) (tail : list hop) : Prop :=
  match e with
  | TraceLost => tail = []
  | Undelegated => exists h, tail = [h] /\ nsFor (block_of h) fqdn = [] /\ hasSOA (block_of h) = true
  | ChildSilent =>
      exists p s, tail = [p] /\ printed_as p s (ns_rrs fqdn (dz_above z)) /\ hosts s fqdn = false
  | FromBoth =>
      dz_name z = fqdn /\ exists h s, tail = [h] /\ printed_as h s (final_rrs z) /\ hosts s fqdn = true
  | FromChild =>
      dz_name z = fqdn /\ exists p s c s', tail = [p; c] /\ printed_as p s (ns_rrs fqdn (dz_above z)) /\
        hosts s fqdn = false /\ printed_as c s' (final_rrs z)
  end.

Lemma walk_at_domain z hops e :
  walk [z] hops e -> dz_name z = fqdn ->
  (hops = [] /\ e = ChildSilent) \/ (exists c s, hops = [c] /\ e = FromChild /\ printed_as c s (final_rrs z)).
Proof.
  intros Hw Hz. inversion Hw as [? E1 E2|? s h l Hr Hp E1 E2|? s h l rest ? ? Hr Hn]; subst; clear Hw.
  - left. unfold ends. cbn. by rewrite bool_decide_true.
  - right. exists h, s. injection Hr as <-. split_and!; [done| |done]. unfold ends. cbn. by rewrite bool_decide_true.
  - injection Hr as <- <-. by destruct Hn.
Qed.

Lemma quiet_referral h s owner names : printed_as h s (ns_rrs owner names) -> owner <> fqdn -> quiet h.
Proof.
  intros Hp Ho. split.
  - by rewrite (nsFor_printed _ _ _ Hp), ns_of_other.
  - destruct (hasSOA_printed _ _ _ Hp) as [-> _]. clear. by induction names.
Qed.

Lemma walk_shape zs hops e z0 :
  walk zs hops e -> chain_ok zs -> head zs = Some z0 -> dz_name z0 <> fqdn ->
  exists z pre tail, last zs = Some z /\ hops = pre ++ tail /\ Forall quiet pre /\ tail_shape z e tail.
Proof.
  intros Hw. revert z0. induction Hw as [zs|zs s h l Hr Hp|zs s h l rest hops e Hr Hn Hp Hw IH]; intros z0 Hc H0 Hne.
  - destruct (last zs) as [z|] eqn:El; [|by apply last_None in El; subst]. exists z, [], [].
    split_and!; [done..|]. unfold ends. rewrite H0. by rewrite bool_decide_false.
  - destruct (reply_spec _ _ _ _ Hc Hr) as [(_ & z & Hl & -> & Hh)|(z' & ? & [=] & _)].
    exists z, [], [h]. split_and!; [done..|]. unfold ends. rewrite H0, Hl. rewrite bool_decide_false by done.
    destruct (decide (dz_name z = fqdn)) as [Hz|Hz].
    + rewrite bool_decide_true by done. split; [done|]. exists h, s. split_and!; [done..|]. by apply (Hh z0).
    + rewrite bool_decide_false by done. exists h. split; [done|]. unfold final_rrs in Hp.
      rewrite bool_decide_false in Hp by done. split; [by rewrite (nsFor_printed _ _ _ Hp)|].
      by destruct (hasSOA_printed _ _ _ Hp) as [-> _].
  - destruct (reply_spec _ _ _ _ Hc Hr) as [(? & _)|(z' & rest' & -> & Hc' & Hl & -> & Hh)]; [done|].
    destruct (decide (dz_name z' = fqdn)) as [Hz|Hz].
    + pose proof (chain_at_domain _ _ Hc' Hz) as ->. rewrite Hz in Hp, Hh. exists z'. rewrite <-Hl.
      destruct (walk_at_domain _ _ _ Hw Hz) as [[-> ->]|(c & s' & -> & -> & Hpc)].
      * exists [], [h]. split_and!; [done..|]. by exists h, s.
      * exists [], [h; c]. split_and!; [done..|]. split; [done|]. by exists h, s, c, s'.
    + destruct (IH z' Hc' eq_refl Hz) as (z & pre & tail & Hlast & -> & Hq & Ht).
      exists z, (h :: pre), tail. rewrite <-Hl. split_and!; [done..| |done]. constructor; [|done].
      by eapply quiet_referral.
Qed.

(** ** The status of each end *)

Lemma quiet_prefix pre bs :
  Forall quiet pre -> blocksWithNS fqdn (map block_of pre ++ bs) = blocksWithNS fqdn bs.
Proof. induction 1 as [|h pre [Hns _] _ IH]; [done|]. cbn [map app blocksWithNS]. by rewrite Hns. Qed.

Lemma quiet_no_ns pre : Forall quiet pre -> blocksWithNS fqdn (map block_of pre) = [].
Proof. intros H. by rewrite <-(app_nil_r (map block_of pre)), quiet_prefix. Qed.

Lemma sorted_pos names : names <> [] -> (0 <? length (sort_strings names))%nat = true.
Proof.
  intros H. apply Nat.ltb_lt. rewrite (Permutation_length (sort_strings_perm names)). destruct names; [done|cbn; lia].
Qed.

Section Ends.
Variable domain : string.
Hypothesis Hfqdn : fqdn = fqdnOf domain.
Variable z : dzone.
Hypothesis Hz : dzone_ok z.
(** A listed server that refers is no server of the zone. *)
Hypothesis Hlisted : forall s, fqdnOf s ∈ dz_above z -> hosts s fqdn = true.
Variable pre : list hop.
Hypothesis Hpre : Forall quiet pre.
Variable diags : list string.

Local Notation judge tail := (compareDelegation (map block_of (pre ++ tail)) diags domain).

Lemma ends_lost : d_Status (judge []) = DelegationError.
Proof.
  unfold compareDelegation. rewrite app_nil_r, <-Hfqdn, quiet_no_ns by done. unfold classifyNoNS.
  destruct (last (map block_of pre)) as [b|] eqn:El; [|done].
  rewrite fmap_last in El. destruct (last pre) as [h|] eqn:Eh; [|done]. injection El as <-.
  assert (quiet h) as [_ ->]; [|done]. rewrite Forall_forall in Hpre. apply Hpre.
  apply last_Some in Eh as [l ->]. apply elem_of_app. right. by left.
Qed.

Lemma ends_undelegated h :
  nsFor (block_of h) fqdn = [] -> hasSOA (block_of h) = true -> d_Status (judge [h]) = DelegationNotDelegated.
Proof.
  intros Hns Hsoa. unfold compareDelegation. rewrite map_app, <-Hfqdn, quiet_prefix by done. cbn [map blocksWithNS].
  rewrite Hns. cbn [length Nat.ltb Nat.leb]. unfold classifyNoNS. by rewrite last_snoc, Hsoa.
Qed.

(** One answer with records. *)
Lemma single_block h s names :
  printed_as h s (ns_rrs fqdn names) -> Forall name_ok names -> names <> [] ->
  judge [h] = classifySingleBlock (Join diags "; ") (block_of h) fqdn /\
  nsFor (block_of h) fqdn = sort_strings names /\ Server (block_of h) = s /\ s <> "".
Proof.
  intros Hp Hok Hne. assert (E : nsFor (block_of h) fqdn = sort_strings names) by (by rewrite (nsFor_printed _ _ _ Hp), ns_of_names).
  split_and!; [|exact E|apply Hp|].
  - unfold compareDelegation. rewrite map_app, <-Hfqdn, quiet_prefix by done. cbn [map blocksWithNS]. by rewrite E, sorted_pos.
  - destruct Hp as ((_ & _ & _ & _ & Hw) & <- & _). apply Hw.
Qed.

Lemma ends_silent p s :
  printed_as p s (ns_rrs fqdn (dz_above z)) -> hosts s fqdn = false ->
  d_Status (judge [p]) = DelegationNoChildAnswer /\ d_ParentServer (judge [p]) = s.
Proof.
  intros Hp Hh. destruct Hz as (Hne & Hab & _). destruct (single_block _ _ _ Hp Hab Hne) as (-> & E & Es & _).
  unfold classifySingleBlock. rewrite E, Es. rewrite (proj2 (member_false _ _)); [done|].
  rewrite elem_of_sort_strings. intros H%Hlisted. congruence.
Qed.

Lemma ends_both h s :
  dz_name z = fqdn -> printed_as h s (final_rrs z) ->
  match dz_own z with
  | [] => d_Status (judge [h]) = DelegationNotDelegated
  | _ => d_ParentServer (judge [h]) = s /\ s <> "" /\
         (d_Status (judge [h]) = DelegationSameServers \/ d_Status (judge [h]) = DelegationNoChildAnswer)
  end.
Proof.
  intros Hn Hp. unfold final_rrs in Hp. rewrite bool_decide_true in Hp by done. destruct Hz as (_ & _ & Hown).
  destruct (dz_own z) as [|n own] eqn:Eo.
  - apply ends_undelegated; [by rewrite (nsFor_printed _ _ _ Hp)|]. by destruct (hasSOA_printed _ _ _ Hp) as [-> _].
  - destruct (single_block _ _ _ Hp Hown) as (-> & E & Es & Hs); [done|]. unfold classifySingleBlock.
    rewrite Es. destruct (member _ _); cbn; auto.
Qed.

Lemma ends_child p s c s' :
  dz_name z = fqdn -> printed_as p s (ns_rrs fqdn (dz_above z)) -> printed_as c s' (final_rrs z) ->
  let d := judge [p; c] in
  d_Status d = walked_status z FromChild /\
  (dz_own z <> [] -> forall n, (n ∈ d_ParentOnly d <-> n ∈ dz_above z /\ n ∉ dz_own z) /\
                               (n ∈ d_ChildOnly d <-> n ∈ dz_own z /\ n ∉ dz_above z)).
Proof.
  intros Hn Hp Hc. cbv zeta. destruct Hz as (Hne & Hab & Hown). unfold walked_status.
  assert (Ep : nsFor (block_of p) fqdn = sort_strings (dz_above z)) by (by rewrite (nsFor_printed _ _ _ Hp), ns_of_names).
  unfold compareDelegation. rewrite map_app, <-Hfqdn, quiet_prefix by done. cbn [map blocksWithNS].
  rewrite Ep, sorted_pos by done. unfold final_rrs in Hc. rewrite bool_decide_true in Hc by done.
  destruct (dz_own z) as [|n own] eqn:Eo.
  - rewrite (nsFor_printed _ _ _ Hc). cbn. unfold soaOnlyChild.
    destruct (hasSOA_printed _ _ _ Hc) as [_ Hs]. cbn in Hs. rewrite String.eqb_refl in Hs.
    rewrite filter_cons_True by done. by split.
  - assert (Ec : nsFor (block_of c) fqdn = sort_strings (dz_own z)).
    { rewrite (nsFor_printed _ _ _ Hc), ns_of_names by done. by rewrite Eo. }
    assert (Hd : forall a b, setDiff (sort_strings a) (sort_strings b) = [] <-> Forall (fun m => m ∈ b) a).
    { intros a b. rewrite setDiff_nil, Forall_forall. by setoid_rewrite elem_of_sort_strings. }
    rewrite Ec, sorted_pos by (by rewrite Eo). cbn [last]. rewrite Ec, Ep. cbn [d_Status d_ParentOnly d_ChildOnly].
    rewrite <-Eo. split; [|intros _ m; by rewrite !elem_of_setDiff, !elem_of_sort_strings].
    destruct (bool_decide_reflect (same_names (dz_above z) (dz_own z))) as [[->%Hd ->%Hd]|H]; [done|].
    destruct (setDiff (sort_strings (dz_above z)) _) eqn:E1; [|done].
    destruct (setDiff (sort_strings (dz_own z)) _) eqn:E2; [|done]. destruct H. split; by apply Hd.
Qed.
End Ends.
End DelegRef.

(** ** The text of the walk *)

Lemma walk_hops_ok `{D : Dpdomain} hosts fqdn zs hops e : walk hosts fqdn zs hops e -> Forall hop_ok hops.
Proof. induction 1 as [|? ? h l _ [Hp _]|? ? h l ? ? ? _ _ [Hp _] _ IH]; auto using Forall_cons, Forall_nil. Qed.

(** The direct query goes to the server the trace names. *)
Definition silence : RunResult := mkRun "" "" None None.

Definition traced `{D : Dpdomain} (trace : RunResult) (auth : string -> RunResult) (domain : string) : Delegation :=
  traceDelegation trace None (auth (d_ParentServer (traceDelegation trace None silence domain))) domain.

Lemma traced_blocks `{D : Dpdomain} trace auth domain blocks diags :
  parseTrace (run_stdout trace) = (blocks, diags) ->
  exists diags', let d := compareDelegation blocks diags' domain in
    d_ParentOnly (traced trace auth domain) = d_ParentOnly d /\ d_ChildOnly (traced trace auth domain) = d_ChildOnly d /\
    d_Status (traced trace auth domain) =
      if bool_decide (d_Status d = DelegationNoChildAnswer) && negb (String.eqb (d_ParentServer d) "")
         && digAuthoritative (run_stdout (auth (d_ParentServer d)))
      then DelegationSameServers else d_Status d.
Proof.
  intros Hp. unfold traced, traceDelegation. rewrite Hp. set (diags' := if isTimeout _ _ then _ else _).
  exists diags'. cbv zeta. set (d := compareDelegation blocks diags' domain).
  rewrite (bool_decide_true (None = None)), !andb_true_r by done.
  assert (d_ParentServer (if bool_decide (d_Status d = DelegationNoChildAnswer) && negb (String.eqb (d_ParentServer d) "") &&
      digAuthoritative (run_stdout silence)
    then mkDeleg DelegationSameServers (d_ParentNS d) (d_ParentServer d) (d_ParentNS d) (d_ParentServer d)
           (d_ParentOnly d) (d_ChildOnly d) (d_Error d) else d) = d_ParentServer d) as -> by by destruct (_ && _).
  by destruct (bool_decide _ && _ && _).
Qed.

Lemma traced_walk `{D : Dpdomain} (hosts : string -> string -> bool) (domain : string)
    (zs : list dzone) (z0 z : dzone) (hops : list hop) (e : ending) (banner diags : list string)
    (trace : RunResult) (auth : string -> RunResult) :
  let fqdn := fqdnOf domain in
  chain_ok fqdn zs -> head zs = Some z0 -> dz_name z0 <> fqdn -> last zs = Some z ->
  (forall s, fqdnOf s ∈ dz_above z -> hosts s fqdn = true) ->
  (forall s, digAuthoritative (run_stdout (auth s)) = hosts s fqdn) ->
  Forall banner_ok banner -> Forall diag_ok diags -> run_stdout trace = print_trace banner hops diags ->
  walk hosts fqdn zs hops e ->
  let d := traced trace auth domain in
  status_of_walk z e (d_Status d) /\
  (e = FromChild -> dz_own z <> [] -> forall n,
     (n ∈ d_ParentOnly d <-> n ∈ dz_above z /\ n ∉ dz_own z) /\
     (n ∈ d_ChildOnly d <-> n ∈ dz_own z /\ n ∉ dz_above z)).
Proof.
  intros fqdn Hc H0 Hne Hl Hlisted Hauth Hb Hd Htext Hw d.
  pose proof (parseTrace_roundtrip banner hops diags Hb (walk_hops_ok _ _ _ _ _ Hw) Hd) as Hp. rewrite <-Htext in Hp.
  destruct (traced_blocks trace auth domain _ _ Hp) as (diags' & Ep & Ec & Es). fold d in Ep, Ec, Es.
  destruct (walk_shape hosts fqdn _ _ _ _ Hw Hc H0 Hne) as (z' & pre & tail & Hl' & -> & Hq & Ht).
  assert (z' = z) as -> by congruence. pose proof (chain_last _ _ _ Hc Hl) as Hz.
  assert (Hplain : forall st, e <> FromBoth -> st = walked_status z e -> status_of_walk z e st)
    by (intros st He ->; by split; [|intros []]).
  rewrite Ep, Ec, Es. destruct e; cbn [tail_shape] in Ht.
  - subst tail. rewrite (ends_lost fqdn domain eq_refl pre Hq). split; [by apply Hplain|done].
  - destruct Ht as (p & s & -> & Hpr & Hh).
    destruct (ends_silent hosts fqdn domain eq_refl z Hz Hlisted pre Hq diags' p s Hpr Hh) as [-> ->].
    rewrite Hauth, Hh, andb_false_r. split; [by apply Hplain|done].
  - destruct Ht as (h & -> & Hns & Hsoa). rewrite (ends_undelegated fqdn domain eq_refl pre Hq diags' h Hns Hsoa). split; [by apply Hplain|done].
  - destruct Ht as (Hn & h & s & -> & Hpr & Hh). split; [|done].
    pose proof (ends_both fqdn domain eq_refl z Hz pre Hq diags' h s Hn Hpr) as He.
    unfold status_of_walk, bare_shared, walked_status. destruct (dz_own z) as [|n own]; [split; [|by rewrite He]|].
    { intros Hb'. by destruct Hb'. }
    split; [intros _|by intros []]. destruct He as (-> & Hs & [->| ->]); [done|].
    by rewrite Hauth, Hh, (proj2 (String.eqb_neq s "") Hs).
  - destruct Ht as (Hn & p & s & c & s' & -> & Hpr & _ & Hcr).
    destruct (ends_child fqdn domain eq_refl z Hz pre Hq diags' p s c s' Hn Hpr Hcr) as [-> H]. split; [|by intros _].
    apply Hplain; [done|]. unfold walked_status. destruct (dz_own z); [done|]. by destruct (bool_decide (same_names _ _)).
Qed.

(** ** Properties *)

(** C23: The delegation status is that of the zones and of the walk. Let the zones from the root down to the domain be hosted by any servers, at each step let any server of the zone answer from the lowest zone it hosts or refer to the next, or let none answer, and let dig print what it was told, with whatever diagnostics; let a server of the parent's list host the zone, and the server that is asked directly say whether it does. Then the status read off the text is a match exactly when a server of the domain answered with the names its parent has, a mismatch when it answered with others, which are then listed, and otherwise says who kept silent, that the parent's servers host the domain, that the zone has no NS records, or that the domain is not delegated. One zone is told otherwise than it is: without NS records on the servers of its parent, it is delegated and is said not to be. *)
Theorem traceDelegation_of_walk `{D : Dpdomain} (hosts : string -> string -> bool) (domain : string)
    (zs : list dzone) (z0 z : dzone) (hops : list hop) (e : ending) (banner diags : list string)
    (trace : RunResult) (auth : string -> RunResult) :
  let fqdn := fqdnOf domain in
  chain_ok fqdn zs -> head zs = Some z0 -> dz_name z0 <> fqdn -> last zs = Some z ->
  (forall s, fqdnOf s ∈ dz_above z -> hosts s fqdn = true) ->
  (forall s, digAuthoritative (run_stdout (auth s)) = hosts s fqdn) ->
  Forall banner_ok banner -> Forall diag_ok diags -> run_stdout trace = print_trace banner hops diags ->
  walk hosts fqdn zs hops e ->
  let d := traced trace auth domain in
  status_of_walk z e (d_Status d) /\
  (e = FromChild -> dz_own z <> [] -> forall n,
     (n ∈ d_ParentOnly d <-> n ∈ dz_above z /\ n ∉ dz_own z) /\
     (n ∈ d_ChildOnly d <-> n ∈ dz_own z /\ n ∉ dz_above z)).
Proof. apply traced_walk. Qed.

(** *** A zone with a server its parent does not know *)

Definition dotted_dpdomain : Dpdomain :=
  Build_Dpdomain (fun s _ => let n := ToLower (TrimSuffix s ".") in inl (mkName n n KindName)) (fun n => ASCII n +:+ ".").

Definition sample_zones : list dzone :=
  [mkDZone "." [] [] "."; mkDZone "nl." ["ns1.dns.nl."] ["ns1.dns.nl."] ".";
   mkDZone "a.nl." ["ns1.a.nl."] ["ns1.a.nl."; "ns2.a.nl."] "."].

Definition sample_hosts (server zone : string) : bool :=
  member (@fqdnOf dotted_dpdomain server, zone)
    [("a.root-servers.net.", "."); ("ns1.dns.nl.", "nl."); ("ns1.a.nl.", "a.nl."); ("ns2.a.nl.", "a.nl.")].

Definition sample_hop (server : string) (l : rrs) : hop :=
  mkHop [] (map (fun r => mkPrinted r.1.1 3600 r.1.2 r.2) l) 93 "192.0.2.53" server 5.

Definition sample_walk : list hop :=
  [sample_hop "a.root-servers.net" (ns_rrs "nl." ["ns1.dns.nl."]); sample_hop "ns1.dns.nl" (ns_rrs "a.nl." ["ns1.a.nl."]);
   sample_hop "ns1.a.nl" (ns_rrs "a.nl." ["ns1.a.nl."; "ns2.a.nl."])].

Definition sample_auth (server : string) : RunResult :=
  mkRun (if sample_hosts server "a.nl." then "flags: qr aa" else "flags: qr") "" None None.

Lemma sample_printed server l :
  forallb (fun s => str_all (fun c => negb (is_space c)) s && negb (is_empty s)) (server :: map (fun r => r.1.1) l) &&
  forallb (fun r => String.eqb (ToLower r.1.1) r.1.1 && negb (HasPrefix r.1.1 ";")
      && member r.1.2 ["NS"; "SOA"] && negb (is_empty r.2) && str_all (fun c => negb (is_space c)) r.2) l = true ->
  printed_as (sample_hop server l) server l.
Proof.
  assert (Hword : forall s, str_all (fun c => negb (is_space c)) s && negb (is_empty s) = true -> word s).
  { intros s [H E]%andb_true_iff. split; [by apply is_empty_false, negb_true_iff|done]. }
  rewrite andb_true_iff, !forallb_elem. intros [H1 H2].
  assert (Hr : forall r, r ∈ l -> printed_ok (mkPrinted r.1.1 3600 r.1.2 r.2)).
  { intros r Hin. specialize (H2 r Hin). simp_bool.
    assert (word r.1.1) by (apply Hword, H1; right; by apply (list_elem_of_fmap_2 (fun r => r.1.1))).
    assert (word r.2) as Hw by (apply Hword; apply andb_true_iff; split; [done|by apply negb_true_iff]).
    assert (word r.1.2).
    { match goal with H : member r.1.2 _ = true |- _ => apply member_true in H end.
      apply Hword. repeat match goal with H : _ ∈ _ :: _ |- _ => apply elem_of_cons in H as [->|H] end; set_solver. }
    unfold printed_ok. cbn. split_and!; try done; [by apply String.eqb_eq|by apply Hw|by apply tight_word|by apply word_one_line]. }
  split_and!.
  - split_and!; [constructor| |by apply Hword|done|by apply Hword, H1; left].
    apply Forall_map, Forall_forall. exact Hr.
  - done.
  - unfold sample_hop. cbn. rewrite map_map. cbn. trans (map id l); [|apply map_id]. apply map_ext. by intros [[o t] d].
Qed.

Definition sample_zone : dzone := mkDZone "a.nl." ["ns1.a.nl."] ["ns1.a.nl."; "ns2.a.nl."] ".".

Definition sample_trace : RunResult := mkRun (print_trace [""] sample_walk []) "" None None.

Lemma sample_chain : @chain_ok dotted_dpdomain "a.nl." sample_zones.
Proof. split_and!; [done..|]. repeat constructor; vm_compute; discriminate. Qed.

Lemma sample_listed s : @fqdnOf dotted_dpdomain s ∈ dz_above sample_zone -> sample_hosts s "a.nl." = true.
Proof. intros E%list_elem_of_singleton. unfold sample_hosts. by rewrite E. Qed.

Lemma sample_asked s : digAuthoritative (run_stdout (sample_auth s)) = sample_hosts s "a.nl.".
Proof. unfold sample_auth. by destruct (sample_hosts s "a.nl."). Qed.

Lemma sample_walks : walk sample_hosts "a.nl." sample_zones sample_walk FromChild.
Proof.
  eapply (walk_follow _ _ _ "a.root-servers.net"); [reflexivity|done|apply sample_printed; reflexivity|].
  eapply (walk_follow _ _ _ "ns1.dns.nl"); [reflexivity|done|apply sample_printed; reflexivity|].
  replace FromChild with (ends "a.nl." [sample_zone] true) by (vm_compute; reflexivity).
  eapply (walk_answer _ _ [sample_zone] "ns1.a.nl"); [reflexivity|apply sample_printed; reflexivity].
Qed.

Lemma traceDelegation_of_walk_witness :
  let d := @traced dotted_dpdomain sample_trace sample_auth "a.nl" in
  d_Status d = DelegationMismatch /\ "ns2.a.nl." ∈ d_ChildOnly d.
Proof.
  cbv zeta. assert (Hb : Forall banner_ok [""]) by (repeat constructor).
  destruct (@traceDelegation_of_walk dotted_dpdomain sample_hosts "a.nl" sample_zones (mkDZone "." [] [] ".") sample_zone
    sample_walk FromChild [""] [] sample_trace sample_auth sample_chain eq_refl ltac:(discriminate) eq_refl
    sample_listed sample_asked Hb (Forall_nil_2 _) eq_refl sample_walks) as [Hs Hd].
  split; [rewrite (proj1 Hs) by (intros [? _]; discriminate); reflexivity|]. apply (Hd eq_refl ltac:(discriminate)). set_solver.
Defined.

(** ** A zone taken for none *)

(** The parent's server hosts the zone too, and the zone has no NS records:
    the answer carries the SOA of the domain itself, and the domain is said
    not to be delegated. *)
Lemma shared_zone_without_ns :
  let z := mkDZone "a.nl." ["ns1.dns.nl."] [] "." in
  let shared := sample_hop "ns1.dns.nl" [("a.nl.", "SOA", ".")] in
  @walk (fun _ _ => true) "a.nl." [mkDZone "nl." [] [] "."; z] [shared] FromBoth /\
  @hasSOAFor (block_of shared) "a.nl." = true /\
  d_Status (@compareDelegation dotted_dpdomain [block_of shared] [] "a.nl") = DelegationNotDelegated.
Proof.
  cbv zeta. split; [|by vm_compute].
  set (zs := [_; _]). replace FromBoth with (ends "a.nl." zs true) by (vm_compute; reflexivity).
  eapply (walk_answer _ _ zs "ns1.dns.nl"); [reflexivity|apply sample_printed; reflexivity].
Qed.

(** A server of the parent is listed for the zone and does not host it: it
    refers to itself, nobody else answers, and the report says that the
    parent's servers host the zone. *)
Lemma referral_taken_for_answer :
  let nl_only server zone := String.eqb zone "nl." in
  let zs := [mkDZone "nl." [] [] "."; mkDZone "a.nl." ["ns1.dns.nl."] ["ns1.a.nl."] "."] in
  let referral := sample_hop "ns1.dns.nl" (ns_rrs "a.nl." ["ns1.dns.nl."]) in
  @walk nl_only "a.nl." zs [referral] ChildSilent /\
  d_Status (@compareDelegation dotted_dpdomain [block_of referral] [] "a.nl") = DelegationSameServers.
Proof.
  cbv zeta. split; [|by vm_compute].
  eapply (walk_follow _ _ _ "ns1.dns.nl"); [reflexivity|done|apply sample_printed; reflexivity|].
  set (zs := [_]). replace ChildSilent with (ends "a.nl." zs false) by (vm_compute; reflexivity). apply walk_silent.
Qed.
