(* ===== verification/Dnssec.v ===== *)
(** * The DNSSEC verdict: dnssec.go *)

From S2P Require Import Prelude GoStrings Netip Records Runner Dog Trace.

Inductive DNSSECState :=
| DNSSECNone               (* the zero value of a report not filled *)
| DNSSECSecure | DNSSECInsecure | DNSSECIsland | DNSSECBogus | DNSSECServfail | DNSSECUnknown
| DNSSECNonexistent.

#[export] Instance DNSSECState_eq_dec : EqDecision DNSSECState.
Proof. solve_decision. Defined.

Record DNSSECReport := mkDNSSEC {
  s_State : DNSSECState;
  s_DS : bool;
  s_DNSKEY : bool;
  s_EDE : string;
  s_Detail : string;
}.

(** The callback run on a failed lookup: data with checking disabled, and
    the Extended DNS Error. *)
Definition bogusProbe : Type := string -> string -> bool * string.

(** Record types queried at the apex, and for www, in report order. *)
Definition apexTypes : list string := ["A"; "AAAA"; "MX"; "TXT"; "NS"].
Definition wwwTypes : list string := ["A"; "AAAA"].

Definition verdict (rep : DNSSECReport) (st : DNSSECState) (detail : string) : DNSSECReport :=
  mkDNSSEC st (s_DS rep) (s_DNSKEY rep) (s_EDE rep) detail.

Definition failedLookup (l : Lookup) : bool := bool_decide (l_Status l = StatusFailure).

Definition firstFailed (ds dnskey : Lookup) (apex : gmap string Lookup) : option Lookup :=
  head (base.filter (fun l => failedLookup l = true)
          (omap (fun qtype => apex !! qtype) apexTypes ++ [ds; dnskey])).

Definition unsignedDelegation (ds : Lookup) : bool := bool_decide (l_Status ds = StatusNXRRSet).

Definition classifyFailure (rep : DNSSECReport) (failed : Lookup) (probe : option bogusProbe)
    (unsigned : bool) : DNSSECReport :=
  match probe with
  | None => verdict rep DNSSECServfail (l_Error failed)
  | Some probe =>
      let '(hasData, ede) := probe (l_Name failed) (l_Type failed) in
      let rep := mkDNSSEC (s_State rep) (s_DS rep) (s_DNSKEY rep) ede (s_Detail rep) in
      if hasData && unsigned then
        verdict rep DNSSECServfail
          "resolver failed, then answered with checking disabled; the zone is unsigned, so this is not a validation failure"
      else if hasData then
        verdict rep DNSSECBogus "resolver fails validation but data exists with checking disabled"
      else verdict rep DNSSECServfail
             "resolver failed and returned no data even with checking disabled"
  end.

Definition nameDoesNotExist (apex : gmap string Lookup) : bool :=
  bool_decide (l_Status (lget apex "NS") = StatusNXDomain)
  || bool_decide (l_Status (lget apex "A") = StatusNXDomain).

Definition nonexistentState (rep : DNSSECReport) (ds : Lookup) : DNSSECReport :=
  if bool_decide (l_Trust ds = TrustSecure) then
    verdict rep DNSSECNonexistent
      "the name does not exist (NXDOMAIN); the parent's denial of existence was DNSSEC-validated"
  else verdict rep DNSSECNonexistent
         "the name does not exist (NXDOMAIN); the parent's denial of existence was not validated".

Definition signedState (rep : DNSSECReport) (trust : Trust) : DNSSECReport :=
  match trust with
  | TrustSecure => verdict rep DNSSECSecure (s_Detail rep)
  | TrustInsecure =>
      verdict rep DNSSECInsecure
        "DS and DNSKEY are published, but the validator treated the zone as unsigned"
  | _ =>
      verdict rep DNSSECUnknown
        "DS and DNSKEY are published, but the validator reported no validation status for the DNSKEY answer"
  end.

Definition classifyDNSSEC (ds dnskey : Lookup) (apex : gmap string Lookup) (probe : option bogusProbe)
    : DNSSECReport :=
  let rep := mkDNSSEC DNSSECNone (HasRecords ds) (HasRecords dnskey) "" "" in
  match firstFailed ds dnskey apex with
  | Some failed =>
      if l_unqueryable failed then verdict rep DNSSECUnknown (l_Error failed)
      else classifyFailure rep failed probe (unsignedDelegation ds)
  | None =>
      if negb (Answered ds) || negb (Answered dnskey) then
        verdict rep DNSSECUnknown "DS or DNSKEY lookup did not complete"
      else if nameDoesNotExist apex then nonexistentState rep ds
      else if s_DS rep && s_DNSKEY rep then signedState rep (l_Trust dnskey)
      else if s_DNSKEY rep then
        verdict rep DNSSECIsland "zone publishes DNSKEY but parent has no DS"
      else if s_DS rep then
        verdict rep DNSSECBogus "parent has DS but zone publishes no DNSKEY"
      else verdict rep DNSSECInsecure (s_Detail rep)
  end.

(** The counts of secure and of insecure answers; a fold over the map, whose
    order does not matter. *)
Definition trust_count (t : Trust) (apex : gmap string Lookup) : nat :=
  map_fold (fun _ l n => if Answered l && bool_decide (l_Trust l = t) then S n else n) 0%nat apex.

Definition classifyByTrust (apex : gmap string Lookup) : DNSSECReport :=
  let secure := trust_count TrustSecure apex in
  let insecure := trust_count TrustInsecure apex in
  mkDNSSEC (if (0 <? insecure)%nat then DNSSECInsecure
            else if (0 <? secure)%nat then DNSSECSecure
            else DNSSECUnknown) false false "" "not a zone apex; state taken from answer validation".

(** ** Reading dig's output with regular expressions *)

(** The text after the first match of (?m)^\s*KEY:\s* that is followed by a
    non-space: the value may stand on a later line. *)
Fixpoint yaml_value (key : string) (pending : bool) (lines : list string) : option string :=
  match lines with
  | [] => None
  | l :: lines =>
      let t := str_drop_while re_space l in
      let v := if pending then t
               else if HasPrefix t key then str_drop_while re_space (TrimPrefix t key) else "" in
      if is_empty v then yaml_value key (pending || HasPrefix t key) lines else Some v
  end.

(** digStatusRe: the first token of the value. *)
Definition dig_status (out : string) : option string :=
  str_take_while not_space <$> yaml_value "status:" false (Split out newline).

(** digAnswerRe: the digits that start a value; a value that starts with
    none is no match, and the search goes on behind it. *)
Fixpoint yaml_digits (key : string) (pending : bool) (lines : list string) : option string :=
  match lines with
  | [] => None
  | l :: lines =>
      let t := str_drop_while re_space l in
      let here := HasPrefix t key in
      let digits v := let d := str_take_while is_digit v in if is_empty d then None else Some d in
      match (if pending then digits t else None) with
      | Some d => Some d
      | None =>
          let v := str_drop_while re_space (TrimPrefix t key) in
          match (if here then digits v else None) with
          | Some d => Some d
          | None => yaml_digits key (if here then is_empty v else pending && is_empty t) lines
          end
      end
  end.

Definition dig_answer (out : string) : option string := yaml_digits "ANSWER:" false (Split out newline).

Definition digHasData (out : string) : bool :=
  match dig_status out, dig_answer out with
  | Some st, Some an =>
      if negb (String.eqb st "NOERROR") then false
      else match AtoiOk an with Some n => (0 <? n)%Z | None => false end
  | _, _ => false
  end.

(** *** The Extended DNS Error *)

Definition trim_right (s : string) : string := str_rev (str_drop_while re_space (str_rev s)).

Definition next_text (lines : list string) : option string :=
  head (base.filter (fun l => l <> "") (map (str_drop_while re_space) lines)).

(** digEDECode. When nothing but space follows the key, the value it finds is
    the last space that is no line end. *)
Fixpoint ede_code (lines : list string) : option string :=
  match lines with
  | [] => None
  | l :: lines =>
      let t := str_drop_while re_space l in
      if HasPrefix t "INFO-CODE:" then
        let after := TrimPrefix t "INFO-CODE:" in
        match next_text (after :: lines) with
        | Some v => Some (trim_right v)
        | None => (fun s => str_take 1 (str_rev s)) <$> last (base.filter (fun s => s <> "") (after :: lines))
        end
      else ede_code lines
  end.

(** A text in double quotes that reaches to the end of its line. *)
Definition quoted_text (v : string) : option string :=
  match trim_right v with
  | String c rest =>
      if Ascii.eqb c dquote && HasSuffix rest (byte_string dquote)
      then Some (TrimSuffix rest (byte_string dquote)) else None
  | "" => None
  end.

(** digEDEText. *)
Fixpoint ede_text (lines : list string) : option string :=
  match lines with
  | [] => None
  | l :: lines =>
      let t := str_drop_while re_space l in
      match (if HasPrefix t "EXTRA-TEXT:"
             then v ← next_text (TrimPrefix t "EXTRA-TEXT:" :: lines); quoted_text v else None) with
      | Some text => Some text
      | None => ede_text lines
      end
  end.

Definition digEDE (out : string) : string :=
  let lines := Split out newline in
  match ede_code lines with
  | None => ""
  | Some code =>
      match ede_text lines with
      | Some text => if String.eqb text "" then code else code +:+ ": " +:+ text
      | None => code
      end
  end.

Example digEDE_sample :
  digEDE ("   EDE:" +:+ byte_string newline +:+ "     INFO-CODE: 9 (DNSKEY Missing)" +:+ byte_string newline
          +:+ "     EXTRA-TEXT: " +:+ byte_string dquote +:+ "no key" +:+ byte_string dquote)
  = "9 (DNSKEY Missing): no key".
Proof. reflexivity. Qed.

(** [newBogusProbe], with what dig printed to the query with checking
    disabled and to the plain one. *)
Definition newBogusProbe (cdOut plainOut : string -> string -> string) : bogusProbe :=
  fun name qtype => (digHasData (cdOut name qtype), TrimSpace (digEDE (plainOut name qtype))).

(** The resolver given with @, rendered for dig. *)
Definition digArgs (resolverArgs : list string) (cd : bool) (timeoutSec : Z) (name qtype : string)
    : list string :=
  ["+yaml"; "+tries=1"; "+time=" +:+ Itoa (maxInt 1 timeoutSec)]
  ++ (if cd then ["+cd"] else []) ++ resolverArgs ++ [name; qtype].

(** ** Lemmas *)

Lemma firstFailed_Some ds dnskey apex l :
  firstFailed ds dnskey apex = Some l ->
  l_Status l = StatusFailure /\ (l = ds \/ l = dnskey \/ exists t, t ∈ apexTypes /\ apex !! t = Some l).
Proof.
  unfold firstFailed. intros H.
  assert (Hin : l ∈ base.filter (fun l => failedLookup l = true)
                 (omap (fun qtype => apex !! qtype) apexTypes ++ [ds; dnskey])).
  { destruct (base.filter _ _); [done|]. simpl in H. simplify_eq. set_solver. }
  apply list_elem_of_filter in Hin as [Hf Hin].
  unfold failedLookup in Hf. apply bool_decide_eq_true in Hf. split; [done|].
  apply elem_of_app in Hin as [(t & Ht & Hl)%list_elem_of_omap|Hin]; [|set_solver].
  right. right. eauto.
Qed.

Lemma firstFailed_None ds dnskey apex :
  firstFailed ds dnskey apex = None ->
  l_Status ds <> StatusFailure /\ l_Status dnskey <> StatusFailure.
Proof.
  unfold firstFailed. intros H.
  assert (Hf : base.filter (fun l => failedLookup l = true)
                 (omap (fun qtype => apex !! qtype) apexTypes ++ [ds; dnskey]) = [])
    by (by destruct (base.filter _ _)).
  assert (Hno : forall l, l ∈ [ds; dnskey] -> l_Status l <> StatusFailure).
  { intros l Hl E. assert (Hin : l ∈ base.filter (fun l => failedLookup l = true)
                 (omap (fun qtype => apex !! qtype) apexTypes ++ [ds; dnskey])).
    { apply list_elem_of_filter. unfold failedLookup. rewrite bool_decide_eq_true. set_solver. }
    rewrite Hf in Hin. by apply elem_of_nil in Hin. }
  split; apply Hno; set_solver.
Qed.

(** What the counts are for: some answered lookup carries the trust level. *)
Lemma trust_count_pos t apex :
  (0 <? trust_count t apex)%nat = true <->
  exists k l, apex !! k = Some l /\ Answered l = true /\ l_Trust l = t.
Proof.
  unfold trust_count. rewrite Nat.ltb_lt.
  induction apex as [|k l m Hk Hf IH] using map_first_key_ind.
  - rewrite map_fold_empty. split; [lia|]. intros (k & l & H & _). by rewrite lookup_empty in H.
  - rewrite map_fold_insert_first_key by done.
    destruct (Answered l && bool_decide (l_Trust l = t)) eqn:E.
    + split; [|lia]. intros _. simp_bool. exists k, l. by rewrite lookup_insert_eq.
    + rewrite IH. split; intros (k' & l' & H & Ha & Ht).
      * exists k', l'. rewrite lookup_insert_ne; [done|]. intros ->. congruence.
      * apply lookup_insert_Some in H as [[-> ->]|[_ H]]; [|eauto].
        simp_bool. destruct E as [E|E]; simp_bool; congruence.
Qed.

Lemma classifyFailure_state rep failed probe unsigned :
  s_State (classifyFailure rep failed probe unsigned) = DNSSECServfail \/
  s_State (classifyFailure rep failed probe unsigned) = DNSSECBogus /\ unsigned = false /\
  exists p, probe = Some p /\ fst (p (l_Name failed) (l_Type failed)) = true.
Proof.
  unfold classifyFailure. destruct probe as [p|]; [|auto].
  destruct (p _ _) as [hasData ede] eqn:E. destruct hasData, unsigned; simpl; auto.
  right. split_and!; try done. exists p. by rewrite E.
Qed.

Lemma verdict_state rep st d : s_State (verdict rep st d) = st.
Proof. done. Qed.

(** ** Properties *)

(** A zone is called secure exactly when no lookup failed, the DS and DNSKEY lookups were answered with records, the name exists and the validator marked the DNSKEY answer secure. It is called bogus only when the parent's DS has no DNSKEY to match, or when a failed lookup has data with checking disabled although the delegation is signed: an unsigned delegation is never bogus on a failure. *)
Theorem classifyDNSSEC_verdict (ds dnskey : Lookup) (apex : gmap string Lookup) (probe : option bogusProbe) :
  let rep := classifyDNSSEC ds dnskey apex probe in
  (s_State rep = DNSSECSecure <->
     firstFailed ds dnskey apex = None /\ nameDoesNotExist apex = false /\
     HasRecords ds = true /\ HasRecords dnskey = true /\ l_Trust dnskey = TrustSecure) /\
  (s_State rep = DNSSECBogus ->
     (firstFailed ds dnskey apex = None /\ HasRecords ds = true /\
      Answered dnskey = true /\ HasRecords dnskey = false) \/
     (exists failed p, firstFailed ds dnskey apex = Some failed /\ l_unqueryable failed = false /\
        probe = Some p /\ fst (p (l_Name failed) (l_Type failed)) = true /\
        l_Status ds <> StatusNXRRSet)) /\
  s_State rep <> DNSSECNone.
Proof.
  cbv zeta. unfold classifyDNSSEC. destruct (firstFailed ds dnskey apex) as [failed|] eqn:Ef.
  - destruct (l_unqueryable failed) eqn:Eu; [split_and!; [split; [done|by intros (? & _)]|done|done]|].
    pose proof (classifyFailure_state (mkDNSSEC DNSSECNone (HasRecords ds) (HasRecords dnskey) "" "")
      failed probe (unsignedDelegation ds)) as [->|(-> & Hu & p & -> & Hp)].
    + split_and!; [split; [done|by intros (? & _)]|done|done].
    + split_and!; [split; [done|by intros (? & _)]| |done]. intros _. right. exists failed, p.
      unfold unsignedDelegation in Hu. simp_bool. done.
  - destruct (Answered ds) eqn:Ea; [|split_and!; try done; split; [done|];
      intros (_ & _ & Hr%HasRecords_Answered & _); congruence].
    destruct (Answered dnskey) eqn:Eb; [|split_and!; try done; split; [done|];
      intros (_ & _ & _ & Hr%HasRecords_Answered & _); congruence].
    simpl. destruct (nameDoesNotExist apex) eqn:En.
    { unfold nonexistentState. destruct (bool_decide _); cbn [s_State verdict];
        (split_and!; [split; [done|by intros (_ & ? & _)]|done|done]). }
    destruct (HasRecords ds) eqn:E1, (HasRecords dnskey) eqn:E2; simpl;
      try (split_and!; [split; [done|naive_solver]|try done; tauto|done]).
    unfold signedState. destruct (l_Trust dnskey); simpl;
      (split_and!; [split; [done || (intros _; tauto)|naive_solver]|done|done]).
Qed.

(** A name that is no zone apex is judged by its answers alone: one answer the validator did not sign off makes it insecure, whatever the others say; secure needs an answer marked secure and none marked insecure; with neither the state stays unknown. The order in which the map is walked does not matter. *)
Theorem classifyByTrust_verdict (apex : gmap string Lookup) :
  let answered t := exists k l, apex !! k = Some l /\ Answered l = true /\ l_Trust l = t in
  let st := s_State (classifyByTrust apex) in
  (st = DNSSECInsecure <-> answered TrustInsecure) /\
  (st = DNSSECSecure <-> answered TrustSecure /\ ~ answered TrustInsecure) /\
  (st = DNSSECUnknown <-> ~ answered TrustSecure /\ ~ answered TrustInsecure).
Proof.
  cbv zeta. unfold classifyByTrust. cbn [s_State].
  rewrite <-!trust_count_pos.
  destruct (0 <? trust_count TrustInsecure apex)%nat, (0 <? trust_count TrustSecure apex)%nat;
    split_and!; split; naive_solver.
Qed.
