(* ===== verification/DnssecRef.v ===== *)
(** * What a zone's DNSSEC really is: a reference for Dnssec

    A zone with its delegation, the security RFC 4035 (4.3) gives it, and
    what a validating resolver may say of it. The theorem is that the verdict
    of [classifyDNSSEC] is that security. *)

From S2P Require Import Prelude GoStrings Records Dnssec.

(** The zone as it is. *)
Record signing := mkSigning {
  sg_exists : bool;
  sg_chain : bool;                (* the chain of trust reaches the parent *)
  sg_ds : bool;
  sg_supported : bool;            (* a DS the validator knows how to use *)
  sg_dnskey : bool;
  sg_valid : bool;                (* a key matches the DS, and the answers are signed *)
  sg_has : string -> bool;        (* the other record types at the apex *)
}.

Inductive security := Secure | Insecure | Bogus.

#[export] Instance security_eq_dec : EqDecision security.
Proof. solve_decision. Defined.

Definition security_of (z : signing) : security :=
  if sg_chain z && sg_ds z && sg_supported z
  then if sg_dnskey z && sg_valid z then Secure else Bogus
  else Insecure.

Definition holds (z : signing) (qtype : string) : bool :=
  if String.eqb qtype "DS" then sg_ds z else if String.eqb qtype "DNSKEY" then sg_dnskey z else sg_has z qtype.

(** Who signs: the DS records are the parent's, and authenticated as far as
    the chain of trust reaches, whatever the zone's own state; the rest is the
    zone's. *)
Definition signed_trust (z : signing) (qtype : string) : Trust :=
  if String.eqb qtype "DS" then if sg_chain z then TrustSecure else TrustInsecure
  else if bool_decide (security_of z = Secure) then TrustSecure else TrustInsecure.

(** A name that does not exist has no records. *)
Definition signing_ok (z : signing) : Prop := forall t, holds z t = true -> sg_exists z = true.

(** What a lookup may end with: cut short, refused before it was sent, failed,
    or answered with what is so. The DS records are the parent's, so they are
    answered whatever the zone's own state. A denial may have any trust: a
    parent with opt-out denies a DS without authenticating the denial. *)
Inductive resolves (z : signing) (qtype : string) (l : Lookup) : Prop :=
| r_cut : l_Status l = StatusTimeout \/ l_Status l = StatusNone -> resolves z qtype l
| r_unsent : l_Status l = StatusFailure -> l_unqueryable l = true -> resolves z qtype l
| r_fails : l_Status l = StatusFailure -> l_unqueryable l = false -> resolves z qtype l
| r_denied : sg_exists z = false -> l_Status l = StatusNXDomain -> resolves z qtype l
| r_answer :
    sg_exists z = true -> qtype = "DS" \/ security_of z <> Bogus ->
    l_Status l = (if holds z qtype then StatusOK else StatusNXRRSet) -> HasRecords l = holds z qtype ->
    (holds z qtype = true -> l_Trust l = signed_trust z qtype) ->
    resolves z qtype l.

(** The three kinds of lookup the verdict is made from. *)
Definition looked_up (z : signing) (ds dnskey : Lookup) (apex : gmap string Lookup) : Prop :=
  resolves z "DS" ds /\ resolves z "DNSKEY" dnskey /\
  forall t l, apex !! t = Some l -> resolves z t l /\ l_Type l = t.

(** A failure is a failed validation, but for an accident in a zone whose
    parent said that there is no DS. *)
Definition explained (z : signing) (ds dnskey : Lookup) (apex : gmap string Lookup) : Prop :=
  forall failed, firstFailed ds dnskey apex = Some failed -> l_unqueryable failed = false ->
  security_of z = Bogus \/ (sg_ds z = false /\ Answered ds = true).

(** The query with checking disabled finds only what is there. *)
Definition probe_sound (z : signing) (probe : bogusProbe) : Prop :=
  forall name qtype, (probe name qtype).1 = true -> sg_exists z = true.

(** No lookup was cut short, and validation fails exactly in a bogus zone. *)
Definition complete (z : signing) (qtype : string) (l : Lookup) : Prop :=
  Answered l = true \/
  (l_Status l = StatusFailure /\ l_unqueryable l = false /\ security_of z = Bogus /\ qtype <> "DS").

(** The state the report should give. *)
Definition true_state (z : signing) : DNSSECState :=
  if negb (sg_exists z) then DNSSECNonexistent
  else match security_of z with
       | Secure => DNSSECSecure
       | Bogus => DNSSECBogus
       | Insecure => if negb (sg_ds z) && sg_dnskey z then DNSSECIsland else DNSSECInsecure
       end.

(** A DS that means nothing, in front of a zone without keys. *)
Definition idle_ds (z : signing) : Prop :=
  security_of z = Insecure /\ sg_ds z = true /\ sg_dnskey z = false.

(** What a state says of the zone is so. *)
Definition so (z : signing) (st : DNSSECState) : Prop :=
  (st = DNSSECSecure -> security_of z = Secure) /\
  (st = DNSSECInsecure -> security_of z = Insecure) /\
  (st = DNSSECIsland -> security_of z = Insecure /\ sg_ds z = false /\ sg_dnskey z = true) /\
  (st = DNSSECNonexistent -> sg_exists z = false) /\
  (st = DNSSECBogus -> security_of z = Bogus \/ idle_ds z).

(** ** Lemmas *)

Section DnssecRef.
Variable z : signing.
Hypothesis Hz : signing_ok z.

Lemma answered_exists qtype l :
  resolves z qtype l -> Answered l = true ->
  (sg_exists z = false /\ l_Status l = StatusNXDomain) \/
  (sg_exists z = true /\ (qtype = "DS" \/ security_of z <> Bogus) /\
   l_Status l = (if holds z qtype then StatusOK else StatusNXRRSet) /\ HasRecords l = holds z qtype /\
   (holds z qtype = true -> l_Trust l = signed_trust z qtype)).
Proof.
  intros Hr Ha. destruct Hr as [[E|E]|E _|E _|H E|H1 H2 H3 H4 H5]; [..|by left|by right].
  all: apply Answered_spec in Ha; rewrite E in Ha; naive_solver.
Qed.

Lemma answered_records qtype l : resolves z qtype l -> Answered l = true -> HasRecords l = holds z qtype.
Proof.
  intros Hr Ha. destruct (answered_exists _ _ Hr Ha) as [[He E]|(_ & _ & _ & -> & _)]; [|done].
  assert (holds z qtype = false) as -> by (apply not_true_is_false; intros H%Hz; congruence).
  unfold HasRecords. by rewrite E.
Qed.

Lemma denied_nonexistent qtype l : resolves z qtype l -> l_Status l = StatusNXDomain -> sg_exists z = false.
Proof.
  intros Hr E. destruct (answered_exists _ _ Hr) as [[He _]|(_ & _ & E' & _)]; [|done|].
  - apply Answered_spec. auto.
  - rewrite E in E'. by destruct (holds z qtype).
Qed.

Lemma nameDoesNotExist_sound ds dnskey apex :
  looked_up z ds dnskey apex -> nameDoesNotExist apex = true -> sg_exists z = false.
Proof.
  intros (_ & _ & Ha). unfold nameDoesNotExist, lget, mget. intros H.
  assert (Hl : forall t, l_Status (default zeroLookup (apex !! t)) = StatusNXDomain -> sg_exists z = false).
  { intros t E. destruct (apex !! t) as [l|] eqn:El; [|done]. destruct (Ha _ _ El) as [Hr _].
    by eapply denied_nonexistent. }
  simp_bool. destruct H as [H|H]; simp_bool; by eapply Hl.
Qed.

Lemma insecure_without_ds : sg_ds z = false -> security_of z = Insecure.
Proof. unfold security_of. intros ->. by rewrite andb_false_r. Qed.

(** The zone has no more to hide once its keys were answered. *)
Lemma dnskey_answered dnskey :
  resolves z "DNSKEY" dnskey -> Answered dnskey = true -> sg_exists z = true ->
  security_of z <> Bogus /\ HasRecords dnskey = sg_dnskey z /\
  (sg_dnskey z = true -> l_Trust dnskey = signed_trust z "DNSKEY").
Proof.
  intros Hr Ha He. destruct (answered_exists _ _ Hr Ha) as [[? _]|(_ & [?|Hb] & _ & Hh & Ht)]; [congruence|done|].
  by split_and!.
Qed.

(** Every failed lookup is one of those the verdict is made from. *)
Lemma first_failed_resolves ds dnskey apex failed :
  looked_up z ds dnskey apex -> firstFailed ds dnskey apex = Some failed ->
  exists qtype, resolves z qtype failed.
Proof.
  intros (Hds & Hkey & Ha) (_ & [->|[->|(t & _ & Hl)]])%firstFailed_Some; [by exists "DS"|by exists "DNSKEY"|].
  exists t. by apply Ha.
Qed.

(** A failure is called bogus only in a bogus zone. *)
Lemma failure_sound ds dnskey apex failed probe rep :
  looked_up z ds dnskey apex -> explained z ds dnskey apex ->
  (forall p, probe = Some p -> probe_sound z p) ->
  firstFailed ds dnskey apex = Some failed -> l_unqueryable failed = false ->
  let st := s_State (classifyFailure rep failed probe (unsignedDelegation ds)) in
  st = DNSSECServfail \/ (st = DNSSECBogus /\ security_of z = Bogus).
Proof.
  intros (Hds & _) Hex Hp Hf Hu st.
  destruct (classifyFailure_state rep failed probe (unsignedDelegation ds)) as [E|(E & Hun & p & -> & Hd)]; [by left|].
  right. split; [exact E|]. destruct (Hex failed Hf Hu) as [H|[Hno Ha]]; [done|]. exfalso.
  apply (Hp p eq_refl) in Hd. unfold unsignedDelegation in Hun. simp_bool.
  destruct (answered_exists _ _ Hds Ha) as [[He _]|(_ & _ & E' & _)]; [congruence|].
  by rewrite (Hno : holds z "DS" = false) in E'.
Qed.

(** The verdict once DS and DNSKEY are answered and the name is there. *)
Lemma answered_state ds dnskey rep :
  resolves z "DS" ds -> resolves z "DNSKEY" dnskey -> Answered ds = true -> Answered dnskey = true ->
  s_DS rep = HasRecords ds -> s_DNSKEY rep = HasRecords dnskey -> sg_exists z = true ->
  let st := s_State (if s_DS rep && s_DNSKEY rep then signedState rep (l_Trust dnskey)
    else if s_DNSKEY rep then verdict rep DNSSECIsland "zone publishes DNSKEY but parent has no DS"
    else if s_DS rep then verdict rep DNSSECBogus "parent has DS but zone publishes no DNSKEY"
    else verdict rep DNSSECInsecure (s_Detail rep)) in
  (st = DNSSECBogus /\ idle_ds z) \/ (~ idle_ds z /\ st = true_state z).
Proof.
  intros Hds Hkey Ha1 Ha2 -> -> He. cbv zeta. rewrite (answered_records _ _ Hds Ha1).
  destruct (dnskey_answered _ Hkey Ha2 He) as (Hb & -> & Ht).
  change (holds z "DS") with (sg_ds z). unfold true_state, idle_ds. rewrite He. cbn [negb].
  assert (Hsec : security_of z = Secure -> sg_ds z = true /\ sg_dnskey z = true).
  { unfold security_of. by destruct (sg_chain z), (sg_ds z), (sg_supported z), (sg_dnskey z), (sg_valid z). }
  unfold signed_trust in Ht. cbn [String.eqb Ascii.eqb Bool.eqb] in Ht.
  destruct (security_of z) eqn:Es; [| |done].
  - destruct (Hsec eq_refl) as [Ed Ek]. rewrite Ed, Ek, (Ht Ek). right. by split; [intros []|].
  - destruct (sg_ds z) eqn:E1, (sg_dnskey z) eqn:E2; cbn; rewrite ?(Ht eq_refl); cbn;
      try (right; split; [by intros (_ & ? & ?)|done]). by left.
Qed.

(** What the verdict may be. *)
Lemma verdict_cases ds dnskey apex probe :
  looked_up z ds dnskey apex -> explained z ds dnskey apex -> (forall p, probe = Some p -> probe_sound z p) ->
  let st := s_State (classifyDNSSEC ds dnskey apex probe) in
  (st = DNSSECUnknown \/ st = DNSSECServfail) \/
  (st = DNSSECBogus /\ security_of z = Bogus) \/
  ((st = DNSSECNonexistent \/ st = DNSSECInsecure) /\ sg_exists z = false) \/
  (sg_exists z = true /\ ((st = DNSSECBogus /\ idle_ds z) \/ (~ idle_ds z /\ st = true_state z))).
Proof.
  intros Hl Hex Hp. cbv zeta. unfold classifyDNSSEC. destruct (firstFailed ds dnskey apex) as [failed|] eqn:Ef.
  { destruct (l_unqueryable failed) eqn:Eu; [by left; left|].
    destruct (failure_sound ds dnskey apex failed probe (mkDNSSEC DNSSECNone (HasRecords ds) (HasRecords dnskey) "" "")
      Hl Hex Hp Ef Eu) as [H|H]; [left; by right|right; by left]. }
  destruct (Answered ds) eqn:Ea1; [|by left; left]. destruct (Answered dnskey) eqn:Ea2; [|by left; left]. cbn [negb orb].
  destruct (nameDoesNotExist apex) eqn:En.
  { apply (nameDoesNotExist_sound _ _ _ Hl) in En. right; right; left. split; [|done].
    unfold nonexistentState. left. by destruct (bool_decide _). }
  destruct Hl as (Hds & Hkey & _). destruct (sg_exists z) eqn:He; right; right.
  - right. split; [done|]. by apply (answered_state ds dnskey (mkDNSSEC DNSSECNone (HasRecords ds) (HasRecords dnskey) "" "")).
  - left. split; [|done]. right. cbn [s_DS s_DNSKEY]. rewrite (answered_records _ _ Hds Ea1), (answered_records _ _ Hkey Ea2).
    assert (forall t, holds z t = false) as Hno by (intros t; apply not_true_is_false; intros H%Hz; congruence).
    by rewrite !Hno.
Qed.

Lemma verdict_so ds dnskey apex probe :
  looked_up z ds dnskey apex -> explained z ds dnskey apex -> (forall p, probe = Some p -> probe_sound z p) ->
  so z (s_State (classifyDNSSEC ds dnskey apex probe)).
Proof.
  intros Hl Hex Hp. pose proof (verdict_cases ds dnskey apex probe Hl Hex Hp) as Hc. cbv zeta in Hc.
  set (st := s_State _) in *. clearbody st.
  assert (Hs : st = DNSSECUnknown \/ st = DNSSECServfail \/ st = true_state z \/
    (st = DNSSECBogus /\ (security_of z = Bogus \/ idle_ds z)) \/
    ((st = DNSSECNonexistent \/ st = DNSSECInsecure) /\ sg_exists z = false)) by naive_solver.
  assert (Hno : sg_exists z = false -> security_of z = Insecure).
  { intros He. apply insecure_without_ds, not_true_is_false. intros H. specialize (Hz "DS" H). congruence. }
  assert (Ht : true_state z = match sg_exists z, security_of z with
    | false, _ => DNSSECNonexistent | _, Secure => DNSSECSecure | _, Bogus => DNSSECBogus
    | _, Insecure => if negb (sg_ds z) && sg_dnskey z then DNSSECIsland else DNSSECInsecure end)
    by (unfold true_state; by destruct (sg_exists z), (security_of z)).
  unfold so. split_and!.
  all: intros E; rewrite E in Hs; destruct Hs as [?|[?|[Hs|[[? ?]|[[?|?] ?]]]]]; try done; auto; rewrite Ht in Hs;
    destruct (sg_exists z), (security_of z), (sg_ds z), (sg_dnskey z); naive_solver.
Qed.

(** *** When every lookup completes *)

Lemma complete_answered qtype l : complete z qtype l -> security_of z <> Bogus -> Answered l = true.
Proof. intros [H|(_ & _ & H & _)] Hb; done. Qed.

Lemma complete_failed qtype l :
  resolves z qtype l -> complete z qtype l -> sg_exists z = true -> security_of z = Bogus -> qtype <> "DS" ->
  l_Status l = StatusFailure /\ l_unqueryable l = false.
Proof.
  intros Hr [Ha|(H1 & H2 & _)] He Hb Hq; [|done]. exfalso.
  destruct (answered_exists _ _ Hr Ha) as [[? _]|(_ & [?|?] & _)]; congruence.
Qed.

Lemma none_failed ds dnskey apex :
  Answered ds = true -> Answered dnskey = true -> (forall t l, t ∈ apexTypes -> apex !! t = Some l -> Answered l = true) ->
  firstFailed ds dnskey apex = None.
Proof.
  intros H1 H2 H3. destruct (firstFailed ds dnskey apex) as [l|] eqn:E; [|done].
  apply firstFailed_Some in E as (E & Hl). assert (Answered l = true) as Ha by naive_solver.
  apply Answered_spec in Ha. rewrite E in Ha. naive_solver.
Qed.

Lemma complete_bogus ds dnskey apex p a :
  looked_up z ds dnskey apex -> security_of z = Bogus -> complete z "DS" ds ->
  apex !! "A" = Some a -> complete z "A" a ->
  s_State (classifyDNSSEC ds dnskey apex (Some p)) = if (p (l_Name a) "A").1 then DNSSECBogus else DNSSECServfail.
Proof.
  intros (Hds & _ & Ha) Hb Hcd El Hca. destruct (Ha _ _ El) as [Hr Ht].
  assert (Hd : sg_ds z = true) by (destruct (sg_ds z) eqn:E; [done|apply insecure_without_ds in E; congruence]).
  assert (He : sg_exists z = true) by (by apply (Hz "DS")).
  destruct (complete_failed _ _ Hr Hca He Hb) as [Hf Hu]; [done|].
  assert (firstFailed ds dnskey apex = Some a) as Hfirst.
  { unfold firstFailed, apexTypes. cbn [omap list_omap]. rewrite El. cbn [app].
    rewrite filter_cons_True by (unfold failedLookup; by rewrite bool_decide_true). done. }
  assert (Hun : unsignedDelegation ds = false).
  { unfold unsignedDelegation. apply bool_decide_eq_false. destruct Hcd as [Hads|(_ & _ & _ & ?)]; [|done].
    destruct (answered_exists _ _ Hds Hads) as [[? _]|(_ & _ & -> & _)]; [congruence|].
    by rewrite (Hd : holds z "DS" = true). }
  unfold classifyDNSSEC. rewrite Hfirst, Hu, Hun. unfold classifyFailure. rewrite Ht.
  destruct (p (l_Name a) "A") as [[] ede]; done.
Qed.

Lemma complete_state ds dnskey apex probe :
  looked_up z ds dnskey apex -> (forall t, t ∈ apexTypes -> exists l, apex !! t = Some l /\ complete z t l) ->
  complete z "DS" ds -> complete z "DNSKEY" dnskey ->
  (security_of z = Bogus -> exists p, probe = Some p /\ forall name, (p name "A").1 = true) ->
  ~ idle_ds z -> s_State (classifyDNSSEC ds dnskey apex probe) = true_state z.
Proof.
  intros Hl Hca Hcd Hck Hp Hidle. destruct (Hca "A") as (a & El & Hcomp); [by left|].
  destruct (decide (security_of z = Bogus)) as [Hb|Hb].
  { destruct (Hp Hb) as (p & -> & Hpa). rewrite (complete_bogus _ _ _ _ _ Hl Hb Hcd El Hcomp), Hpa.
    unfold true_state. rewrite Hb. assert (sg_exists z = true) as ->; [|done].
    apply (Hz "DS"). change (holds z "DS") with (sg_ds z).
    destruct (sg_ds z) eqn:E; [done|]. apply insecure_without_ds in E. congruence. }
  pose proof (complete_answered _ _ Hcd Hb) as Ha1. pose proof (complete_answered _ _ Hck Hb) as Ha2.
  unfold classifyDNSSEC. rewrite none_failed; [|done..|].
  2:{ intros t l Ht Hlt. destruct (Hca t Ht) as (l' & E & Hc). assert (l' = l) as -> by congruence.
      by eapply complete_answered. }
  rewrite Ha1, Ha2. cbn [negb orb]. pose proof Hl as (Hds & Hkey & Hap). destruct (Hap _ _ El) as [Hra _].
  destruct (sg_exists z) eqn:He.
  - destruct (nameDoesNotExist apex) eqn:En; [apply (nameDoesNotExist_sound _ _ _ Hl) in En; congruence|].
    destruct (answered_state ds dnskey (mkDNSSEC DNSSECNone (HasRecords ds) (HasRecords dnskey) "" "")) as [[_ ?]|[_ ?]]; done.
  - assert (nameDoesNotExist apex = true) as ->.
    { unfold nameDoesNotExist. apply orb_true_iff. right. apply bool_decide_eq_true. unfold lget, mget. rewrite El. cbn.
      destruct (answered_exists _ _ Hra (complete_answered _ _ Hcomp Hb)) as [[_ ?]|(? & _)]; [done|congruence]. }
    unfold true_state, nonexistentState. rewrite He. by destruct (bool_decide _).
Qed.
End DnssecRef.

(** ** Properties *)

(** C22: The DNSSEC verdict is what the zone's DNSSEC is. Let a validating resolver answer only what is so, the DS authenticated as far as the chain of trust reaches its parent and the rest as the zone is signed, unless a lookup is cut short or refused before it is sent; let a failure be a failed validation, or any accident when the parent was heard to have no DS. Then secure, insecure, island and nonexistent are so; a zone called bogus is bogus, or it has no keys behind a DS that the validator has no use for; and when every lookup completes, a zone with an address that has no such DS gets the state it has. *)
Theorem classifyDNSSEC_true (z : signing) (ds dnskey : Lookup) (apex : gmap string Lookup) (probe : option bogusProbe) :
  signing_ok z -> looked_up z ds dnskey apex -> explained z ds dnskey apex ->
  (forall p, probe = Some p -> probe_sound z p) ->
  let st := s_State (classifyDNSSEC ds dnskey apex probe) in
  so z st /\
  ((forall t, t ∈ apexTypes -> exists l, apex !! t = Some l /\ complete z t l) ->
   complete z "DS" ds -> complete z "DNSKEY" dnskey ->
   (security_of z = Bogus -> exists p, probe = Some p /\ forall name, (p name "A").1 = true) ->
   ~ idle_ds z -> st = true_state z).
Proof.
  intros Hz Hl Hex Hp st. split; [by apply verdict_so|]. intros. by apply complete_state.
Qed.

(** *** A resolver that completes every lookup *)

Definition heard (z : signing) (qtype : string) : Lookup :=
  let say st trust recs := mkLookup "a.nl" qtype st trust recs [] "" 0 false [] in
  if negb (sg_exists z) then say StatusNXDomain TrustInsecure []
  else if bool_decide (security_of z = Bogus) && negb (String.eqb qtype "DS") then say StatusFailure TrustNone []
  else say (if holds z qtype then StatusOK else StatusNXRRSet)
         (signed_trust z qtype)
         (if holds z qtype then ["192.0.2.1"] else []).

Definition heard_apex (z : signing) : gmap string Lookup := list_to_map (map (fun t => (t, heard z t)) apexTypes).

(** Checking disabled, data comes if it is there. *)
Definition heard_cd (z : signing) : bogusProbe := fun _ qtype => (sg_exists z && holds z qtype, "").

Definition judged (z : signing) : DNSSECState :=
  s_State (classifyDNSSEC (heard z "DS") (heard z "DNSKEY") (heard_apex z) (Some (heard_cd z))).

Lemma heard_resolves z qtype : resolves z qtype (heard z qtype).
Proof.
  unfold heard. destruct (sg_exists z) eqn:He; cbn [negb]; [|by apply r_denied].
  destruct (bool_decide (security_of z = Bogus) && negb (String.eqb qtype "DS")) eqn:E; [by apply r_fails|].
  apply r_answer; [done| |done|..|done].
  - apply andb_false_iff in E as [E|E]; simp_bool; [by right|]. left. by apply String.eqb_eq.
  - unfold HasRecords. cbn. by destruct (holds z qtype).
Qed.

Lemma heard_complete z qtype : signing_ok z -> complete z qtype (heard z qtype).
Proof.
  intros Hz. unfold heard. destruct (sg_exists z) eqn:He; cbn [negb]; [|by left].
  destruct (bool_decide (security_of z = Bogus) && negb (String.eqb qtype "DS")) eqn:E.
  - right. simp_bool. split_and!; [done..|]. by apply String.eqb_neq.
  - left. by destruct (holds z qtype).
Qed.

Lemma heard_looked_up z : looked_up z (heard z "DS") (heard z "DNSKEY") (heard_apex z).
Proof.
  split_and!; [apply heard_resolves..|]. intros t l H. unfold heard_apex in H. rewrite lookup_tabulate in H.
  destruct (decide _); [|done]. injection H as <-. split; [apply heard_resolves|].
  unfold heard. cbv zeta. destruct (negb (sg_exists z)); [done|]. by destruct (bool_decide (security_of z = Bogus) && _).
Qed.

Lemma heard_explained z : signing_ok z -> explained z (heard z "DS") (heard z "DNSKEY") (heard_apex z).
Proof.
  intros Hz failed (E & Hf)%firstFailed_Some _. left.
  assert (Hall : exists t, failed = heard z t).
  { destruct Hf as [->|[->|(t & _ & Ht)]]; [by eexists..|]. unfold heard_apex in Ht. rewrite lookup_tabulate in Ht.
    destruct (decide _); [|done]. injection Ht as <-. by eexists. }
  destruct Hall as [t ->]. destruct (heard_complete z t Hz) as [Ha|(_ & _ & H & _)]; [|done].
  apply Answered_spec in Ha. rewrite E in Ha. naive_solver.
Qed.

(** A signed zone with one stale key, as dnssec-failed.org is: its parent's
    chain is whole and its DS authenticated, and it is bogus and said to be. *)
Definition stale_zone : signing := mkSigning true true true true true false (fun t => member t apexTypes).

Lemma classifyDNSSEC_true_witness :
  l_Trust (heard stale_zone "DS") = TrustSecure /\ judged stale_zone = DNSSECBogus /\ security_of stale_zone = Bogus.
Proof.
  assert (Hz : signing_ok stale_zone) by (intros t _; reflexivity).
  assert (Hp : forall p, Some (heard_cd stale_zone) = Some p -> probe_sound stale_zone p)
    by (intros p _ name qtype _; reflexivity).
  pose proof (classifyDNSSEC_true stale_zone (heard stale_zone "DS") (heard stale_zone "DNSKEY") (heard_apex stale_zone)
    (Some (heard_cd stale_zone)) Hz (heard_looked_up _) (heard_explained _ Hz) Hp) as (_ & H).
  split; [reflexivity|]. split; [|reflexivity]. apply H.
  - intros t Ht. exists (heard stale_zone t). split; [|by apply heard_complete].
    unfold heard_apex. rewrite lookup_tabulate. by rewrite decide_True.
  - by apply heard_complete.
  - by apply heard_complete.
  - intros _. eexists. split; [reflexivity|]. intros name. reflexivity.
  - intros (H1 & _). vm_compute in H1. discriminate H1.
Defined.

(** ** Two zones misjudged *)

(** A DS of an algorithm the validator does not know, and no keys: the
    validator treats the zone as unsigned, and marks its answers so. *)
Definition unsupported_zone : signing := mkSigning true true true false false false (fun t => member t apexTypes).

(** Without a key the zone is called bogus, with one insecure. *)
Lemma unsupported_ds_bogus :
  security_of unsupported_zone = Insecure /\ l_Trust (heard unsupported_zone "DNSKEY") = TrustInsecure /\
  judged unsupported_zone = DNSSECBogus /\
  judged (mkSigning true true true false true false (fun t => member t apexTypes)) = DNSSECInsecure.
Proof. by vm_compute. Qed.

(** A bogus zone that has mail and no address: the query with checking
    disabled is for the address alone. *)
Definition mail_only_zone : signing := mkSigning true true true true true false (fun t => member t ["MX"; "NS"; "TXT"]).

Lemma bogus_without_address_servfail :
  security_of mail_only_zone = Bogus /\ (heard_cd mail_only_zone "a.nl" "MX").1 = true /\
  judged mail_only_zone = DNSSECServfail.
Proof. by vm_compute. Qed.
