(* ===== verification/Wildcard.v ===== *)
(** * Wildcard detection: wildcard.go *)

From S2P Require Import Prelude GoStrings Netip Names Records Dnssec.

Inductive WildcardStatus := WildcardPresent | WildcardAbsent | WildcardUnknown.
Inductive probeOutcome := probeAnswered | probeDenied | probeUnresolved.

#[export] Instance WildcardStatus_eq_dec : EqDecision WildcardStatus.
Proof. solve_decision. Defined.
#[export] Instance probeOutcome_eq_dec : EqDecision probeOutcome.
Proof. solve_decision. Defined.

Definition wildcardProbeCount : nat := 3.
Definition wildcardLabelLen : nat := 12.

Record WildcardProbe := mkWP {
  wp_Label : string;
  wp_Status : probeOutcome;
  wp_Addresses : list string;
  wp_CNAME : string;
}.

Record WildcardReport := mkWR {
  w_Status : WildcardStatus;
  w_DeterminedBy : string;
  w_Probes : list WildcardProbe;
  w_Addresses : list string;
  w_Consistent : option bool;
  w_WWWViaWildcard : bool;
}.

Record wildProbe := mkProbe { p_label : string; p_a : Lookup; p_aaaa : Lookup }.

(** ** Labels *)

(** A random byte as a lower-case letter. *)
Definition label_byte (c : nat) : ascii := Ascii.ascii_of_nat (97 + c mod 26).

(** [randomLabel]: [None] is a failed read of the random source. *)
Definition randomLabel (bytes : option (list nat)) : string :=
  match bytes with
  | None => Join (replicate wildcardLabelLen "q") ""
  | Some bs => foldr (fun c s => String (label_byte c) s) "" bs
  end.

(** [randomLabels n]: draws from the stream of labels until [n] distinct ones
    are out. [None] when the stream given is too short. *)
Fixpoint randomLabels (n : nat) (out : list string) (stream : list string) : option (list string) :=
  if (n <=? length out)%nat then Some out
  else match stream with
       | [] => None
       | l :: stream =>
           if member l out then randomLabels n out stream else randomLabels n (out ++ [l]) stream
       end.

(** ** Verdicts *)

Definition wildcardSkipReason (apex www : gmap string Lookup) : string :=
  if bool_decide (l_Status (lget apex "A") = StatusNXDomain)
     && bool_decide (l_Status (lget apex "NS") = StatusNXDomain)
  then "the domain does not exist"
  else if bool_decide (l_Status (lget www "A") = StatusNXDomain)
  then "www is NXDOMAIN, so no wildcard could have answered for it"
  else "".

Definition nonempty {A} (l : list A) : bool := (0 <? length l)%nat.

Definition classifyProbe (p : wildProbe) : probeOutcome :=
  if nonempty (Addrs (p_a p)) || nonempty (Addrs (p_aaaa p))
     || nonempty (l_CNAME (p_a p)) || nonempty (l_CNAME (p_aaaa p))
  then probeAnswered
  else if bool_decide (l_Status (p_a p) = StatusNXDomain)
          || bool_decide (l_Status (p_aaaa p) = StatusNXDomain)
  then probeDenied
  else if Answered (p_a p) && Answered (p_aaaa p) then probeDenied
  else probeUnresolved.

Definition probeAddrs (p : wildProbe) : list Addr := Addrs (p_a p) ++ Addrs (p_aaaa p).

(** Addresses in a stable order. *)
Definition addrStrings (addrs : list Addr) : list string := sort_strings (map addr_string addrs).

Definition sameAddressSet (a b : list Addr) : bool :=
  if negb (length a =? length b)%nat then false
  else forallb (fun ip => member (Unmap ip) (map Unmap a)) b.

Definition unionAddrs (probes : list wildProbe) : list Addr :=
  dedupe_from [] (map Unmap (concat (map probeAddrs probes))).

Definition wwwIsWildcard (probes : list wildProbe) (www : list Addr) : bool :=
  if negb (nonempty www) then false
  else existsb (fun p => let addrs := probeAddrs p in
                         (length addrs =? length www)%nat && sameAddressSet www addrs) probes.

(** The first random name with the outcome, in the order of the probes. *)
Definition first_with (o : probeOutcome) (probes : list wildProbe) : option wildProbe :=
  head (base.filter (fun p => classifyProbe p = o) probes).

Section Wildcard.
Context `{D : Dpdomain}.

Definition probeCNAME (p : wildProbe) : string :=
  firstNonEmpty (map fqdnOf (l_CNAME (p_a p) ++ l_CNAME (p_aaaa p))).

Definition describeProbe (p : wildProbe) (outcome : probeOutcome) : WildcardProbe :=
  mkWP (p_label p) outcome (addrStrings (probeAddrs p)) (probeCNAME p).

Definition probesAgree (probes : list wildProbe) : bool :=
  match probes with
  | [] => true
  | p0 :: rest =>
      forallb (fun p =>
        String.eqb (probeCNAME p) (probeCNAME p0)
        && (length (probeAddrs p) =? length (probeAddrs p0))%nat
        && sameAddressSet (probeAddrs p) (probeAddrs p0)) rest
  end.

(** The verdict over at least one probe: Status, DeterminedBy, Addresses and
    Consistent; the boolean says that the zone answers every name. *)
Definition setWildcardVerdict (probes : list wildProbe)
    : WildcardStatus * string * list string * option bool * bool :=
  match first_with probeDenied probes with
  | Some p => (WildcardAbsent, "the random name " +:+ p_label p +:+ " is denied", [], None, false)
  | None =>
      match first_with probeUnresolved probes with
      | Some p => (WildcardUnknown,
                   "the lookup for the random name " +:+ p_label p +:+ " did not complete",
                   [], None, false)
      | None => (WildcardPresent, itoa (length probes) +:+ " random names all answer",
                 addrStrings (unionAddrs probes), boolPtr (probesAgree probes), true)
      end
  end.

Definition assessWildcard (probes : list wildProbe) (skip : string) (wwwA wwwAAAA : Lookup)
    : WildcardReport :=
  if negb (String.eqb skip "") then mkWR WildcardAbsent skip [] [] None false
  else match probes with
       | [] => mkWR WildcardUnknown "no probe was issued" [] [] None false
       | _ =>
           let described := map (fun p => describeProbe p (classifyProbe p)) probes in
           let '(st, by_, addrs, consistent, all) := setWildcardVerdict probes in
           mkWR st by_ described addrs consistent
             (all && wwwIsWildcard probes (Addrs wwwA ++ Addrs wwwAAAA))
       end.

(** ** Issuing the probes: [probeWildcard] and [runWildProbe] of run.go *)

Definition runWildProbe (get : string -> string -> Lookup) (domain label : string) : wildProbe :=
  let name := label +:+ "." +:+ domain in
  mkProbe label (get name "A") (get name "AAAA").

(** The skip reason and the probes made, for the labels drawn. *)
Definition probeWildcard (apex www : gmap string Lookup) (labels : list string)
    (get : string -> string -> Lookup) (domain : string) : string * list wildProbe :=
  let skip := wildcardSkipReason apex www in
  if negb (String.eqb skip "") then (skip, [])
  else match labels with
       | [] => (skip, [])
       | l0 :: rest =>
           let p0 := runWildProbe get domain l0 in
           if bool_decide (classifyProbe p0 = probeAnswered)
           then (skip, p0 :: map (runWildProbe get domain) rest)
           else (skip, [p0])
       end.

(** ** Lemmas *)

(** The labels drawn are distinct, and as many as asked for. *)
Lemma randomLabels_distinct n out stream labels :
  NoDup out -> (length out <= n)%nat -> randomLabels n out stream = Some labels ->
  NoDup labels /\ length labels = n.
Proof.
  revert out. induction stream as [|l stream IH]; intros out Hnd Hlen; cbn;
    (destruct (Nat.leb_spec n (length out)); [intros [= <-]; split; [done|lia]|]); [done|].
  destruct (member l out) eqn:Em; [by apply IH|]. apply member_false in Em. apply IH; [|rewrite length_app; cbn; lia].
  apply NoDup_app. split_and!; [done| |apply NoDup_singleton]. by intros x Hx ->%list_elem_of_singleton.
Qed.

(** When the random source fails, one label comes over and over: the loop for
    several labels never ends. *)
Lemma randomLabels_stuck n k :
  (2 <= n)%nat -> randomLabels n [] (replicate k (randomLabel None)) = None.
Proof.
  intros Hn. set (l := randomLabel None).
  assert (H : forall k, randomLabels n [l] (replicate k l) = None).
  { clear k. induction k as [|k IH]; cbn; (destruct (Nat.leb_spec n 1); [lia|]); [done|].
    rewrite (proj2 (member_true l [l])); [done|by left]. }
  destruct k as [|k]; cbn; (destruct (Nat.leb_spec n 0); [lia|]); [done|apply H].
Qed.

Lemma first_with_None o probes :
  first_with o probes = None <-> forall p, p ∈ probes -> classifyProbe p <> o.
Proof.
  unfold first_with. split.
  - intros H p Hp Hc.
    assert (Hin : p ∈ base.filter (fun p => classifyProbe p = o) probes)
      by (by apply list_elem_of_filter).
    destruct (base.filter _ _); [by apply elem_of_nil in Hin|done].
  - intros H. destruct (base.filter _ _) as [|p l] eqn:E; [done|].
    assert (Hin : p ∈ base.filter (fun p => classifyProbe p = o) probes)
      by (rewrite E; set_solver).
    apply list_elem_of_filter in Hin as [Hc Hp]. by destruct (H p Hp).
Qed.

Lemma first_with_Some o probes p :
  first_with o probes = Some p -> p ∈ probes /\ classifyProbe p = o.
Proof.
  unfold first_with. intros H.
  assert (Hin : p ∈ base.filter (fun p => classifyProbe p = o) probes).
  { destruct (base.filter _ _); [done|]. simpl in H. simplify_eq. set_solver. }
  apply list_elem_of_filter in Hin as [??]. done.
Qed.

End Wildcard.

(** A denied or unresolved outcome is never drawn from a lookup that carried
    an address or a CNAME. *)
Lemma classifyProbe_answered p :
  classifyProbe p = probeAnswered <->
  probeAddrs p <> [] \/ l_CNAME (p_a p) <> [] \/ l_CNAME (p_aaaa p) <> [].
Proof.
  unfold classifyProbe, probeAddrs, nonempty.
  destruct (Addrs (p_a p)), (Addrs (p_aaaa p)), (l_CNAME (p_a p)), (l_CNAME (p_aaaa p));
    simpl; repeat case_goal; simpl; split; intros H; try done; try tauto;
    first [by left | by right; left | by right; right | by destruct H as [H|[H|H]]].
Qed.

Lemma nonempty_true {A} (l : list A) : nonempty l = true <-> l <> [].
Proof. unfold nonempty. destruct l; simpl; split; try done; lia. Qed.

Lemma elem_of_unmapped a addrs : a ∈ map Unmap addrs <-> exists b, b ∈ addrs /\ Unmap b = a.
Proof. rewrite list_elem_of_fmap. naive_solver. Qed.

(** ** Properties *)

(** Of a list of distinct addresses, [sameAddressSet] decides whether another list holds the same addresses, IPv4-mapped forms taken as IPv4, in any order. *)
Theorem sameAddressSet_perm (a b : list Addr) :
  NoDup (map Unmap b) ->
  (sameAddressSet a b = true <-> map Unmap a ≡ₚ map Unmap b).
Proof.
  intros Hnd. unfold sameAddressSet. destruct (Nat.eqb_spec (length a) (length b)) as [Hl|Hl]; simpl.
  - rewrite forallb_elem. split.
    + intros H. symmetry. apply submseteq_length_Permutation.
      * apply NoDup_submseteq; [done|]. intros x (y & Hy & <-)%elem_of_unmapped.
        by apply member_true, H.
      * rewrite !length_map. lia.
    + intros Hp ip Hip. apply member_true. rewrite Hp. apply elem_of_unmapped. eauto.
  - split; [done|]. intros Hp%Permutation_length. by rewrite !length_map in Hp.
Qed.

Lemma sameAddressSet_perm_witness :
  map Unmap [V6 281470732337156 ""; V4 1] ≡ₚ map Unmap [V4 1; V4 50593796].
Proof.
  apply sameAddressSet_perm; [|reflexivity].
  apply (bool_decide_unpack _). reflexivity.
Defined.

(** A wildcard is reported present exactly when probes were made and every one of the random names answered with an address or a CNAME; one denied name is enough for absent, and an undecided lookup leaves it unknown only when no name was denied. The name www is attributed to the wildcard only when one is present and a random name resolves to exactly its addresses. *)
Theorem assessWildcard_verdict `{D : Dpdomain} (probes : list wildProbe) (wwwA wwwAAAA : Lookup) :
  let rep := assessWildcard probes "" wwwA wwwAAAA in
  (w_Status rep = WildcardPresent <->
     probes <> [] /\ forall p, p ∈ probes ->
       probeAddrs p <> [] \/ l_CNAME (p_a p) <> [] \/ l_CNAME (p_aaaa p) <> []) /\
  (w_Status rep = WildcardAbsent <-> exists p, p ∈ probes /\ classifyProbe p = probeDenied) /\
  (w_WWWViaWildcard rep = true ->
     w_Status rep = WildcardPresent /\
     exists p, p ∈ probes /\ probeAddrs p <> [] /\
       sameAddressSet (Addrs wwwA ++ Addrs wwwAAAA) (probeAddrs p) = true).
Proof.
  cbv zeta. unfold assessWildcard. simpl. destruct probes as [|p0 ps]; [cbn [w_Status w_WWWViaWildcard]|].
  { split_and!; [naive_solver| |done]. split; [done|]. intros (p & Hp & _). by apply elem_of_nil in Hp. }
  set (probes := p0 :: ps). assert (Hne : probes <> []) by done. clearbody probes.
  unfold setWildcardVerdict.
  destruct (first_with probeDenied probes) as [p|] eqn:Ed;
    [|destruct (first_with probeUnresolved probes) as [p|] eqn:Eu].
  - apply first_with_Some in Ed as [Hp Hc]. cbn [w_Status w_WWWViaWildcard]. split_and!; [|naive_solver|done].
    split; [done|]. intros [_ H]. specialize (H p Hp). apply classifyProbe_answered in H. congruence.
  - apply first_with_Some in Eu as [Hp Hc]. rewrite first_with_None in Ed.
    cbn [w_Status w_WWWViaWildcard]. split_and!; [|naive_solver|done].
    split; [done|]. intros [_ H]. specialize (H p Hp). apply classifyProbe_answered in H. congruence.
  - rewrite first_with_None in Ed. rewrite first_with_None in Eu.
    cbn [w_Status w_WWWViaWildcard]. split_and!; [|naive_solver|].
    + split; [|done]. intros _. split; [done|]. intros p Hp. apply classifyProbe_answered.
      specialize (Ed p Hp). specialize (Eu p Hp). by destruct (classifyProbe p).
    + simpl. unfold wwwIsWildcard. intros H. split; [done|].
      destruct (nonempty (Addrs wwwA ++ Addrs wwwAAAA)) eqn:En; [|done]. simpl in H.
      apply existsb_elem in H as (p & Hp & Hs). simp_bool. exists p. split_and!; [done| |done].
      apply nonempty_true in En. intros Hz. rewrite Hz in *.
      by destruct (Addrs wwwA ++ Addrs wwwAAAA).
Qed.

(** Probing for a wildcard costs nothing when a reason to skip it is known, and one random name otherwise; the remaining names are asked only when the first one answered. Every probe made is for a label drawn, under the domain. *)
Theorem probeWildcard_stages (apex www : gmap string Lookup) (labels : list string)
    (get : string -> string -> Lookup) (domain : string) :
  let '(skip, probes) := probeWildcard apex www labels get domain in
  skip = wildcardSkipReason apex www /\
  (skip <> "" -> probes = []) /\
  map p_label probes `prefix_of` labels /\
  ((1 < length probes)%nat ->
     map p_label probes = labels /\
     exists p, head probes = Some p /\ classifyProbe p = probeAnswered) /\
  (forall p, p ∈ probes -> p = runWildProbe get domain (p_label p)).
Proof.
  unfold probeWildcard. set (skip := wildcardSkipReason apex www). clearbody skip.
  destruct (String.eqb_spec skip "") as [->|Hs]; simpl.
  2: { split_and!; [done|done|apply prefix_nil|simpl; lia|]. intros p Hp. by apply elem_of_nil in Hp. }
  destruct labels as [|l0 rest].
  { split_and!; [done|done|apply prefix_nil|simpl; lia|]. intros p Hp. by apply elem_of_nil in Hp. }
  assert (Hmap : map p_label (map (runWildProbe get domain) rest) = rest).
  { rewrite map_map. by apply map_id. }
  destruct (bool_decide _) eqn:Ec; simp_bool.
  - split_and!; [done|done|simpl; rewrite Hmap; done| |].
    + intros _. simpl. rewrite Hmap. eauto.
    + intros p [->|(l & -> & _)%list_elem_of_fmap]%elem_of_cons; done.
  - split_and!; [done|done| |simpl; lia|].
    + apply prefix_cons, prefix_nil.
    + intros p ->%list_elem_of_singleton. done.
Qed.
