(* ===== verification/WildRef.v ===== *)
(** * Wildcard detection against the zone it probes (wildcard.go, run.go)

    [Wildcard] says what verdict the probes give. Here the probes are put to
    a zone: what its names own, what its wildcard owns (RFC 4592), and what a
    resolver can then say, which may be nothing, and may be only part of a
    rotating answer. The theorem is that the verdict is the zone's. *)

From S2P Require Import Prelude GoStrings Netip Names Records Wildcard.

(** ** The zone *)

(** What a name owns, as far as its addresses go. With an alias, they are the
    addresses of its target. *)
Record node := mkNode { n_alias : bool; n_a : list string; n_aaaa : list string }.

Record zone := mkZone {
  z_domain : string;
  z_names : gmap string node;
  z_wild : option node;
}.

(** Nothing is below a name that does not exist, and addresses are written so
    that they can be read. *)
Definition zone_ok (z : zone) : Prop :=
  (z_names z !! z_domain z = None -> z_wild z = None) /\
  (forall n, z_wild z = Some n -> Forall (fun r => is_Some (ParseAddr r)) (n_a n ++ n_aaaa n)).

(** A name other than the apex is answered by its own node or the wildcard. *)
Definition node_at (z : zone) (name : string) : option node :=
  match z_names z !! name with
  | Some n => Some n
  | None => if bool_decide (name = z_domain z) then None else z_wild z
  end.

Definition node_records (n : option node) (qtype : string) : list string :=
  match n with
  | Some n => if String.eqb qtype "A" then n_a n else if String.eqb qtype "AAAA" then n_aaaa n else []
  | None => []
  end.

Definition node_alias (n : option node) : bool :=
  match n with Some n => n_alias n | None => false end.

(** What a resolver that does not lie can say of a name's addresses. An
    answer may hold some of the records; only without any answer may it hold
    none of them. A name denied is not there, or an alias that leads nowhere. *)
Definition truthful (z : zone) (name qtype : string) (l : Lookup) : Prop :=
  let n := node_at z name in
  l_Records l ⊆ node_records n qtype /\
  (l_CNAME l <> [] -> node_alias n = true) /\
  (l_Status l = StatusNXDomain -> n = None \/ l_CNAME l <> []) /\
  (Answered l = true ->
     (node_records n qtype <> [] -> l_Records l <> []) /\ (node_alias n = true -> l_CNAME l <> [])).

(** The zone answers for every name: its wildcard has an address or an alias. *)
Definition catches (z : zone) : Prop :=
  exists n, z_wild z = Some n /\ (n_alias n = true \/ n_a n ++ n_aaaa n <> []).

(** ** Lemmas *)

Section WildRef.
Context `{D : Dpdomain}.
Variable z : zone.
Hypothesis Hz : zone_ok z.

(** A random name: not in the zone, and under its apex. *)
Definition fresh (label : string) : Prop :=
  z_names z !! (label +:+ "." +:+ z_domain z) = None.

Definition probe_true (p : wildProbe) : Prop :=
  fresh (p_label p) /\
  truthful z (p_label p +:+ "." +:+ z_domain z) "A" (p_a p) /\
  truthful z (p_label p +:+ "." +:+ z_domain z) "AAAA" (p_aaaa p).

Lemma longer_name label : label +:+ "." +:+ z_domain z <> z_domain z.
Proof. intros E. apply (f_equal String.length) in E. rewrite !length_app_str in E. cbn in E. lia. Qed.

Lemma fresh_node label : fresh label -> node_at z (label +:+ "." +:+ z_domain z) = z_wild z.
Proof. unfold fresh, node_at. intros ->. rewrite bool_decide_false; [done|]. apply longer_name. Qed.

Lemma Addrs_nonempty l : (exists r, r ∈ l_Records l /\ is_Some (ParseAddr r)) -> Addrs l <> [].
Proof.
  unfold Addrs. intros (r & Hr & [a Ha]) E. eapply elem_of_nil. rewrite <-E. apply list_elem_of_omap.
  exists r. split; [done|]. by rewrite Ha.
Qed.

Lemma Addrs_records l a : a ∈ Addrs l -> l_Records l <> [].
Proof. unfold Addrs. intros (r & Hr & _)%list_elem_of_omap E. rewrite E in Hr. by apply elem_of_nil in Hr. Qed.

(** What a random name answers with, the wildcard has. *)
Lemma answered_catches p : probe_true p -> classifyProbe p = probeAnswered -> catches z.
Proof.
  intros (Hf & (Ha & Hac & _) & (Hb & Hbc & _)) H. rewrite (fresh_node _ Hf) in *.
  assert (Hrec : forall l t, l_Records l ⊆ node_records (z_wild z) t -> Addrs l <> [] -> catches z).
  { intros l t Hs Hne. destruct (Addrs l) as [|a l'] eqn:E; [done|].
    assert (Hr : l_Records l <> []) by (apply (Addrs_records _ a); rewrite E; by left).
    destruct (l_Records l) as [|r rs]; [done|]. specialize (Hs r ltac:(by left)).
    unfold node_records in Hs. destruct (z_wild z) as [n|] eqn:Ew; [|by apply elem_of_nil in Hs].
    exists n. split; [done|]. right. intros Hnil. apply app_eq_nil in Hnil as [E1 E2]. rewrite E1, E2 in Hs.
    repeat case_match; by apply elem_of_nil in Hs. }
  assert (Hal : node_alias (z_wild z) = true -> catches z).
  { unfold node_alias. destruct (z_wild z) as [n|] eqn:Ew; [|done]. intros E. exists n. auto. }
  apply classifyProbe_answered in H as [H|[H|H]]; [|auto..]. unfold probeAddrs in H.
  destruct (Addrs (p_a p)) eqn:E; [|eapply (Hrec (p_a p)); [done|by rewrite E]].
  eapply (Hrec (p_aaaa p)); done.
Qed.

(** A random name that answered with nothing is no wildcard's. *)
Lemma quiet_catches p :
  probe_true p -> Answered (p_a p) = true -> Answered (p_aaaa p) = true -> catches z -> classifyProbe p = probeAnswered.
Proof.
  intros (Hf & (Ha & _ & _ & Hac) & (Hb & _ & _ & Hbc)) H1 H2 (n & Hn & Hdata).
  rewrite (fresh_node _ Hf), Hn in *. destruct (Hac H1) as [Ha1 Ha2], (Hbc H2) as [Hb1 Hb2].
  destruct Hz as [_ Hread]. specialize (Hread n Hn). rewrite Forall_app, !Forall_forall in Hread.
  destruct Hread as [Hra Hrb]. cbn in Ha1, Ha2, Hb1, Hb2, Ha, Hb. apply classifyProbe_answered. unfold probeAddrs.
  destruct Hdata as [Hal|Hne]; [by right; left; apply Ha2|left].
  assert (Hget : forall l rs, l_Records l ⊆ rs -> (rs <> [] -> l_Records l <> []) ->
            (forall r, r ∈ rs -> is_Some (ParseAddr r)) -> rs <> [] -> Addrs l <> []).
  { intros l rs Hs Hrs Hp Hn'. specialize (Hrs Hn'). apply Addrs_nonempty.
    destruct (l_Records l) as [|r l']; [done|]. exists r. split; [by left|]. apply Hp, Hs. by left. }
  intros [E1 E2]%app_eq_nil. destruct (decide (n_a n = [])) as [Ea|Ea]; [|by apply (Hget _ _ Ha Ha1 Hra Ea)].
  destruct (decide (n_aaaa n = [])) as [Eb|Eb]; [|by apply (Hget _ _ Hb Hb1 Hrb Eb)]. by rewrite Ea, Eb in Hne.
Qed.

(** A denial of a random name settles it. *)
Lemma denied_catches p : probe_true p -> classifyProbe p = probeDenied -> ~ catches z.
Proof.
  intros Hp Hc Hcat. pose proof Hp as (Hf & (_ & _ & Ha & _) & (_ & _ & Hb & _)).
  rewrite (fresh_node _ Hf) in *. assert (Hw : z_wild z <> None) by (intros E; destruct Hcat as (n & Hn & _); congruence).
  assert (Hq : l_CNAME (p_a p) = [] /\ l_CNAME (p_aaaa p) = []).
  { assert (~ classifyProbe p = probeAnswered) as Hna by congruence. rewrite classifyProbe_answered in Hna.
    destruct (l_CNAME (p_a p)); [|by destruct Hna; auto]. destruct (l_CNAME (p_aaaa p)); [done|by destruct Hna; auto]. }
  destruct Hq as [Eq1 Eq2].
  assert (Hans : Answered (p_a p) = true /\ Answered (p_aaaa p) = true).
  { unfold classifyProbe in Hc. destruct (_ || _); [done|]. destruct (bool_decide (l_Status (p_a p) = _)) eqn:E1.
    { apply bool_decide_eq_true in E1. by destruct (Ha E1). }
    destruct (bool_decide (l_Status (p_aaaa p) = _)) eqn:E2.
    { apply bool_decide_eq_true in E2. by destruct (Hb E2). }
    cbn in Hc. destruct (Answered (p_a p)), (Answered (p_aaaa p)); done. }
  rewrite (quiet_catches p) in Hc by (done || apply Hans). done.
Qed.

(** A name denied without an alias is not there. *)
Lemma denied_name name qtype l :
  truthful z name qtype l -> l_Status l = StatusNXDomain -> l_CNAME l = [] -> node_at z name = None.
Proof. intros (_ & _ & H & _) Hs Hc. by destruct (H Hs). Qed.

(** The verdicts that need no probe. *)
Lemma skip_sound apex www :
  truthful z (z_domain z) "A" (lget apex "A") -> truthful z ("www." +:+ z_domain z) "A" (lget www "A") ->
  (forall l, l ∈ [lget apex "A"; lget www "A"] -> l_Status l = StatusNXDomain -> l_CNAME l = []) ->
  wildcardSkipReason apex www <> "" -> ~ catches z.
Proof.
  intros Ha Hw Hal Hs (n & Hn & _). destruct Hz as [Hbelow _]. unfold wildcardSkipReason in Hs.
  destruct (bool_decide (l_Status (lget apex "A") = _) && _) eqn:E1.
  - simp_bool. rename H into Hd. pose proof (denied_name _ _ _ Ha Hd (Hal _ ltac:(by left) Hd)) as H.
    unfold node_at in H. destruct (z_names z !! z_domain z); [done|]. by rewrite Hbelow in Hn.
  - destruct (bool_decide (l_Status (lget www "A") = _)) eqn:E2; [|done]. apply bool_decide_eq_true in E2.
    pose proof (denied_name _ _ _ Hw E2 (Hal _ ltac:(right; by left) E2)) as H.
    unfold node_at in H. destruct (z_names z !! ("www." +:+ z_domain z)); [done|].
    rewrite bool_decide_false in H by apply (longer_name "www"). congruence.
Qed.

Lemma unresolved_unanswered p :
  classifyProbe p = probeUnresolved -> Answered (p_a p) = true -> Answered (p_aaaa p) = true -> False.
Proof. unfold classifyProbe. intros H E1 E2. rewrite E1, E2 in H. by repeat case_match. Qed.
End WildRef.

Lemma wildcard_sound `{D : Dpdomain} (z : zone) (apex www : gmap string Lookup) (labels : list string)
    (get : string -> string -> Lookup) (wwwA wwwAAAA : Lookup) :
  zone_ok z ->
  (forall label, label ∈ labels -> fresh z label) ->
  (forall label qtype, label ∈ labels -> qtype ∈ ["A"; "AAAA"] ->
     truthful z (label +:+ "." +:+ z_domain z) qtype (get (label +:+ "." +:+ z_domain z) qtype)) ->
  truthful z (z_domain z) "A" (lget apex "A") ->
  truthful z ("www." +:+ z_domain z) "A" (lget www "A") ->
  (forall l, l ∈ [lget apex "A"; lget www "A"] -> l_Status l = StatusNXDomain -> l_CNAME l = []) ->
  let '(skip, probes) := probeWildcard apex www labels get (z_domain z) in
  let rep := assessWildcard probes skip wwwA wwwAAAA in
  (w_Status rep = WildcardPresent -> catches z) /\
  (w_Status rep = WildcardAbsent -> ~ catches z) /\
  (labels <> [] ->
   (forall label qtype, label ∈ labels -> qtype ∈ ["A"; "AAAA"] ->
      Answered (get (label +:+ "." +:+ z_domain z) qtype) = true) ->
   w_Status rep <> WildcardUnknown).
Proof.
  intros Hz Hfresh Hget Hapex Hwww Halias.
  pose proof (probeWildcard_stages apex www labels get (z_domain z)) as Hst.
  destruct (probeWildcard apex www labels get (z_domain z)) as [skip probes] eqn:Epw.
  destruct Hst as (Hskip & Hnone & Hpre & _ & Hmade).
  destruct (decide (skip = "")) as [->|Hne].
  - assert (Htrue : forall p, p ∈ probes -> probe_true z p /\ p_label p ∈ labels).
    { intros p Hp. assert (Hl : p_label p ∈ labels).
      { destruct Hpre as [k ->]. rewrite elem_of_app. left. by apply list_elem_of_fmap_2. }
      split; [|done]. rewrite (Hmade p Hp). unfold probe_true, runWildProbe. cbn.
      split_and!; [by apply Hfresh|apply Hget; [done|set_solver]|apply Hget; [done|set_solver]]. }
    destruct (assessWildcard_verdict probes wwwA wwwAAAA) as (Hpres & Habs & _). cbv zeta in *.
    split_and!.
    + intros H. apply Hpres in H as [Hne H]. destruct probes as [|p ps]; [done|].
      eapply (answered_catches z p); [by apply Htrue; left|]. apply classifyProbe_answered, H. by left.
    + intros H. apply Habs in H as (p & Hp & Hc). eapply denied_catches; [done|by apply Htrue|done].
    + intros Hl Hans Hunk. assert (Hno : forall p, p ∈ probes -> classifyProbe p = probeAnswered).
      { intros p Hp. destruct (classifyProbe p) eqn:Ec; [done| |].
        - assert (w_Status (assessWildcard probes "" wwwA wwwAAAA) = WildcardAbsent) by (apply Habs; eauto). congruence.
        - exfalso. destruct (Htrue p Hp) as [_ Hlab]. rewrite (Hmade p Hp) in Ec.
          apply unresolved_unanswered in Ec; [done|apply Hans; [done|set_solver]..]. }
      rewrite (proj2 Hpres) in Hunk; [done|]. split; [|intros p Hp; by apply classifyProbe_answered, Hno].
      unfold probeWildcard in Epw. rewrite <-Hskip in Epw. cbn in Epw. destruct labels as [|l0 rest]; [done|].
      intros ->. by destruct (bool_decide _).
  - rewrite (Hnone Hne). unfold assessWildcard. rewrite (proj2 (String.eqb_neq skip "") Hne). cbn.
    split_and!; [done| |done]. intros _. rewrite Hskip in Hne. by apply (skip_sound z Hz apex www).
Qed.

(** ** Properties *)

(** C31: The wildcard verdict is the zone's. Let a resolver say only what is so
    of a zone's names, fail to answer when it will, and give any part of a
    rotating answer; let the labels be names the zone does not have, and let
    neither the domain nor www be an alias that leads nowhere. Then a
    wildcard reported present is there and answers with an address or an
    alias, one reported absent, the verdicts without a probe included, is not
    there, and when every lookup of a random name was answered the verdict is
    one of the two. *)
Theorem wildcard_of_zone `{D : Dpdomain} (z : zone) (apex www : gmap string Lookup) (labels : list string)
    (get : string -> string -> Lookup) (wwwA wwwAAAA : Lookup) :
  zone_ok z ->
  (forall label, label ∈ labels -> fresh z label) ->
  (forall label qtype, label ∈ labels -> qtype ∈ ["A"; "AAAA"] ->
     truthful z (label +:+ "." +:+ z_domain z) qtype (get (label +:+ "." +:+ z_domain z) qtype)) ->
  truthful z (z_domain z) "A" (lget apex "A") ->
  truthful z ("www." +:+ z_domain z) "A" (lget www "A") ->
  (forall l, l ∈ [lget apex "A"; lget www "A"] -> l_Status l = StatusNXDomain -> l_CNAME l = []) ->
  let '(skip, probes) := probeWildcard apex www labels get (z_domain z) in
  let rep := assessWildcard probes skip wwwA wwwAAAA in
  (w_Status rep = WildcardPresent -> catches z) /\
  (w_Status rep = WildcardAbsent -> ~ catches z) /\
  (labels <> [] ->
   (forall label qtype, label ∈ labels -> qtype ∈ ["A"; "AAAA"] ->
      Answered (get (label +:+ "." +:+ z_domain z) qtype) = true) ->
   w_Status rep <> WildcardUnknown).
Proof. apply wildcard_sound. Qed.

(** A rotating wildcard, and a resolver that tells one address at a time. *)
Definition wild_zone : zone :=
  mkZone "a.nl" {[ "a.nl" := mkNode false ["192.0.2.1"] [] ]} (Some (mkNode false ["192.0.2.7"; "192.0.2.8"] [])).

Definition wild_answer (name qtype : string) : Lookup :=
  match node_records (node_at wild_zone name) qtype with
  | r :: _ => mkLookup name qtype StatusOK TrustNone [r] [] "" 0 false []
  | [] => mkLookup name qtype StatusNXRRSet TrustNone [] [] "" 0 false []
  end.

Lemma wild_answer_truthful name qtype : qtype ∈ ["A"; "AAAA"] -> truthful wild_zone name qtype (wild_answer name qtype).
Proof.
  intros Hq. assert (Hal : node_alias (node_at wild_zone name) = false).
  { unfold node_at. cbn [z_names z_wild wild_zone z_domain]. destruct (_ !! _) as [n|] eqn:E.
    - apply lookup_singleton_Some in E as [_ <-]. done.
    - by destruct (bool_decide _). }
  unfold truthful. rewrite Hal. unfold wild_answer.
  destruct (node_records _ _) as [|r rs] eqn:E; cbn; split_and!; try done; set_solver.
Qed.

Lemma wild_zone_ok : zone_ok wild_zone.
Proof. split; [done|]. intros n [= <-]. repeat constructor; eexists; vm_compute; reflexivity. Qed.

Lemma wildcard_of_zone_witness : catches wild_zone.
Proof.
  assert (Hl : forall label, label ∈ ["qx"; "qy"] -> fresh wild_zone label).
  { intros label [->| ->%list_elem_of_singleton]%elem_of_cons; reflexivity. }
  assert (Ha : forall l, l ∈ [wild_answer "a.nl" "A"; wild_answer "www.a.nl" "A"] ->
            l_Status l = StatusNXDomain -> l_CNAME l = []).
  { intros l [->| ->%list_elem_of_singleton]%elem_of_cons _; reflexivity. }
  pose proof (wildcard_of_zone (D := lower_dpdomain) wild_zone
    {[ "A" := wild_answer "a.nl" "A" ]} {[ "A" := wild_answer "www.a.nl" "A" ]} ["qx"; "qy"] wild_answer zeroLookup zeroLookup
    wild_zone_ok Hl (fun label => fun qtype => fun _ => wild_answer_truthful _ qtype) (wild_answer_truthful "a.nl" "A" ltac:(by left))
    (wild_answer_truthful "www.a.nl" "A" ltac:(by left)) Ha) as H.
  lazymatch type of H with context [probeWildcard ?a ?b ?c ?d ?e] =>
    let v := eval vm_compute in (probeWildcard a b c d e) in
    change (probeWildcard a b c d e) with v in H end.
  destruct H as [H _]. apply H. vm_compute. reflexivity.
Defined.

(** The alias that leads nowhere: *.a.nl is one, so www is answered with it and
    denied, and the wildcard is said to be absent. *)
Definition dangling_zone : zone := mkZone "a.nl" {[ "a.nl" := mkNode false [] [] ]} (Some (mkNode true [] [])).

Definition dangling_answer : Lookup :=
  mkLookup "www.a.nl" "A" StatusNXDomain TrustNone [] ["gone.nl."] "" 0 false [].

Lemma dangling_www_misread `{D : Dpdomain} (apex : gmap string Lookup) (labels : list string) get wwwA wwwAAAA :
  truthful dangling_zone "www.a.nl" "A" dangling_answer /\ catches dangling_zone /\
  let '(skip, probes) := probeWildcard apex {[ "A" := dangling_answer ]} labels get "a.nl" in
  w_Status (assessWildcard probes skip wwwA wwwAAAA) = WildcardAbsent.
Proof.
  split_and!.
  - unfold truthful. cbn. split_and!; [set_solver|done|by right|done].
  - eexists. split; [reflexivity|]. by left.
  - unfold probeWildcard, wildcardSkipReason. destruct (_ && _); done.
Qed.
