(* ===== verification/Caa.v ===== *)
(** * CAA policies: caa.go *)

From S2P Require Import Prelude GoStrings Netip Records.

Record caaRecord := mkCAA { c_Flags : Z; c_Tag : string; c_Value : string }.

#[export] Instance caaRecord_eq_dec : EqDecision caaRecord.
Proof. solve_decision. Defined.

Definition parseCAA1 (r : string) : option caaRecord :=
  match Fields r with
  | f0 :: f1 :: f2 :: rest =>
      Some (mkCAA (fst (Atoi f0)) (ToLower f1)
              (TrimFunc (Ascii.eqb dquote) (Join (f2 :: rest) " ")))
  | _ => None
  end.

Definition parseCAA (records : list string) : list caaRecord := omap parseCAA1 records.

Definition caaIssuers : list (string * list string) :=
  [ ("let's encrypt", ["letsencrypt.org"]);
    ("internet security research group", ["letsencrypt.org"]);
    ("digicert", ["digicert.com"; "digicert.ne.jp"; "geotrust.com"; "rapidssl.com"; "symantec.com"; "thawte.com"]);
    ("geotrust", ["geotrust.com"; "digicert.com"]);
    ("thawte", ["thawte.com"; "digicert.com"]);
    ("rapidssl", ["rapidssl.com"; "digicert.com"]);
    ("sectigo", ["sectigo.com"; "comodoca.com"]);
    ("comodo", ["sectigo.com"; "comodoca.com"]);
    ("zerossl", ["sectigo.com"; "comodoca.com"]);
    ("globalsign", ["globalsign.com"]);
    ("google trust services", ["pki.goog"]);
    ("amazon", ["amazon.com"; "amazontrust.com"; "awstrust.com"; "amazonaws.com"]);
    ("godaddy", ["godaddy.com"]);
    ("starfield", ["godaddy.com"; "starfieldtech.com"]);
    ("entrust", ["entrust.net"]);
    ("identrust", ["identrust.com"]);
    ("ssl.com", ["ssl.com"]);
    ("ssl corporation", ["ssl.com"]);
    ("buypass", ["buypass.com"]);
    ("actalis", ["actalis.it"]);
    ("microsoft", ["microsoft.com"]);
    ("cloudflare", ["pki.goog"; "letsencrypt.org"; "digicert.com"; "sectigo.com"]) ].

Definition org_byte (c : ascii) : ascii :=
  if member c ["."; ","; "-"]%char then " "%char else c.

Definition normalizeOrg (s : string) : string :=
  Join (Fields (str_map org_byte (ToLower s))) " ".

Definition org_matches (org : string) (e : string * list string) : bool :=
  Contains (" " +:+ normalizeOrg org +:+ " ") (" " +:+ normalizeOrg (fst e) +:+ " ").

(** [None] is the nil slice: the issuer is not in the table. *)
Definition caaIDsFor (issuerOrg : string) : option (list string) :=
  snd <$> head (base.filter (fun e => org_matches issuerOrg e = true) caaIssuers).

Record CAAVerdict := mkVerdict {
  v_Published : list string;
  v_Effective : list string;
  v_Issuer : string;
  v_Permitted : option bool;
  v_Note : string;
}.

Record CAAReport := mkCAAReport { caa_Hosts : gmap string CAAVerdict; caa_absent : bool }.

Definition hasTag (records : list caaRecord) (tag : string) : bool :=
  existsb (fun r => String.eqb (c_Tag r) tag) records.

(** The issuer domain of an issue or issuewild value. *)
Definition issue_domain (value : string) : string :=
  TrimSpace (match cut_byte ";"%char value with Some (x, _) => x | None => value end).

(** One record of the permit loop: (allowed, seenTag). *)
Definition permit_step (tag : string) (ids : list string) (st : bool * bool) (r : caaRecord)
    : bool * bool :=
  let '(allowed, seenTag) := st in
  if negb (String.eqb (c_Tag r) tag) then st
  else
    let domain := issue_domain (c_Value r) in
    if String.eqb domain "" then (allowed, true)
    else (allowed || existsb (EqualFold domain) ids, true).

Definition issue_tag (records : list caaRecord) (wildcard : bool) : string :=
  if wildcard && hasTag records "issuewild" then "issuewild" else "issue".

Definition caaPermits (records : list caaRecord) (ids : list string) (wildcard : bool) : bool :=
  let '(allowed, seenTag) := foldl (permit_step (issue_tag records wildcard) ids) (false, false) records in
  if negb seenTag then true else allowed.

(** The zero value means no certificate. *)
Record servedCert := mkServed { issuer : string; wildcard : bool }.
Definition noCert : servedCert := mkServed "" false.

Definition knownCAATags : list string :=
  ["issue"; "issuewild"; "iodef"; "contactemail"; "contactphone"; "issuemail"; "issuevmc"].

Definition critical_unknown (r : caaRecord) : bool :=
  negb (Z.land (c_Flags r) 128 =? 0)%Z && negb (member (c_Tag r) knownCAATags).

Definition criticalUnknownTag (records : list caaRecord) : string :=
  match head (base.filter (fun r => critical_unknown r = true) records) with
  | Some r => c_Tag r
  | None => ""
  end.

Definition unknownCAANote (rec : Lookup) : string :=
  if Answered rec
  then "no CAA records here, and the apex CAA lookup did not complete, so no restriction can be ruled out"
  else "the CAA lookup did not complete, so no restriction can be ruled out".

Definition caaVerdict (rec : Lookup) (effective : list string) (known : bool) (cert : servedCert)
    : CAAVerdict :=
  let v permitted note := mkVerdict (l_Records rec) effective (issuer cert) permitted note in
  let parsed := parseCAA effective in
  if negb known then v None (unknownCAANote rec)
  else if String.eqb (issuer cert) "" then v None "no certificate observed"
  else if (length parsed =? 0)%nat then v (boolPtr true) "no CAA records; any CA may issue"
  else if negb (String.eqb (criticalUnknownTag parsed) "") then
    v (boolPtr false) ("critical CAA property " +:+ criticalUnknownTag parsed
                       +:+ " is not one any CA understands, so none may issue")
  else match caaIDsFor (issuer cert) with
       | None => v None "issuer not in the CAA mapping table"
       | Some ids => v (boolPtr (caaPermits parsed ids (wildcard cert))) ""
       end.

(** The set that governs www and whether it is known: its own, or the apex's
    when www answered that it publishes none. *)
Definition wwwEffective (apexRec wwwRec : Lookup) : list string * bool :=
  if (length (l_Records wwwRec) =? 0)%nat && Answered wwwRec
  then (l_Records apexRec, Answered apexRec)
  else (l_Records wwwRec, HasRecords wwwRec).

Definition wwwVerdict (apexRec wwwRec : Lookup) (wwwCert : servedCert) : CAAVerdict :=
  let '(effective, known) := wwwEffective apexRec wwwRec in
  caaVerdict wwwRec effective known wwwCert.

Definition assessCAA (apexRec wwwRec : Lookup) (apexCert wwwCert : servedCert) (wwwProbed : bool)
    : CAAReport :=
  let hosts := {[ "apex" := caaVerdict apexRec (l_Records apexRec) (Answered apexRec) apexCert ]} in
  mkCAAReport (if wwwProbed then <["www" := wwwVerdict apexRec wwwRec wwwCert]> hosts else hosts)
    (Answered apexRec && negb (HasRecords apexRec)).

(** ** Lemmas *)

(** What a single issue property says about a set of CA identifiers. *)
Definition grants (ids : list string) (r : caaRecord) : bool :=
  negb (String.eqb (issue_domain (c_Value r)) "")
  && existsb (EqualFold (issue_domain (c_Value r))) ids.

Lemma permit_fold tag ids records st :
  foldl (permit_step tag ids) st records =
  (fst st || existsb (fun r => String.eqb (c_Tag r) tag && grants ids r) records,
   snd st || existsb (fun r => String.eqb (c_Tag r) tag) records).
Proof.
  revert st. induction records as [|r records IH]; intros [allowed seen]; simpl.
  { by rewrite !orb_false_r. }
  rewrite IH. unfold permit_step, grants.
  destruct (String.eqb (c_Tag r) tag); simpl; [|done].
  destruct (String.eqb (issue_domain (c_Value r)) ""); simpl.
  - by rewrite orb_true_r.
  - by rewrite orb_true_r, orb_assoc.
Qed.

(** The permit loop decided at once. *)
Lemma caaPermits_eq records ids wild :
  caaPermits records ids wild =
  negb (hasTag records (issue_tag records wild))
  || existsb (fun r => String.eqb (c_Tag r) (issue_tag records wild) && grants ids r) records.
Proof.
  unfold caaPermits. rewrite permit_fold. simpl. unfold hasTag.
  by destruct (existsb (fun r => String.eqb (c_Tag r) (issue_tag records wild)) records).
Qed.

Lemma criticalUnknownTag_spec records :
  criticalUnknownTag records <> "" ->
  exists r, r ∈ records /\ critical_unknown r = true /\ c_Tag r = criticalUnknownTag records.
Proof.
  unfold criticalUnknownTag. intros H.
  destruct (base.filter _ _) as [|r l] eqn:E; [done|]. simpl in *.
  assert (Hin : r ∈ base.filter (fun r => critical_unknown r = true) records)
    by (rewrite E; set_solver).
  apply list_elem_of_filter in Hin as [??]. eauto.
Qed.

Lemma existsb_tag tag records :
  existsb (fun r => String.eqb (c_Tag r) tag) records = true <-> exists r, r ∈ records /\ c_Tag r = tag.
Proof. rewrite existsb_elem. by setoid_rewrite String.eqb_eq. Qed.

(** ** Properties *)

(** A CA may issue exactly when no issue property governs the certificate, or when some governing property names, case aside, one of the CA's identifiers in front of its parameters; an empty issuer grants nobody. The properties with the tag issuewild govern a wildcard certificate when there are any, and those with the tag issue everything else. *)
Theorem caaPermits_spec (records : list caaRecord) (ids : list string) (wild : bool) :
  let tag := issue_tag records wild in
  (caaPermits records ids wild = true <->
     (forall r, r ∈ records -> c_Tag r <> tag) \/
     exists r id, r ∈ records /\ c_Tag r = tag /\ id ∈ ids /\
       issue_domain (c_Value r) <> "" /\ ToLower (issue_domain (c_Value r)) = ToLower id) /\
  (tag = "issuewild" <-> wild = true /\ exists r, r ∈ records /\ c_Tag r = "issuewild") /\
  (tag = "issue" \/ tag = "issuewild").
Proof.
  cbv zeta. split_and!.
  - rewrite caaPermits_eq. set (tag := issue_tag records wild).
    rewrite orb_true_iff, negb_true_iff, existsb_elem. unfold hasTag. rewrite existsb_elem_false.
    setoid_rewrite String.eqb_neq. unfold grants, EqualFold.
    split; (intros [H|H]; [by left|right]).
    + destruct H as (r & Hr & H). simp_bool. apply existsb_elem in H1 as (id & Hid & He).
      apply String.eqb_eq in H, He. apply String.eqb_neq in H0. exists r, id. done.
    + destruct H as (r & id & Hr & Ht & Hid & Hne & He). exists r. split; [done|].
      apply String.eqb_neq in Hne. rewrite Hne, Ht, String.eqb_refl. simpl.
      apply existsb_elem. exists id. by rewrite He, String.eqb_refl.
  - unfold issue_tag, hasTag. rewrite <-existsb_tag.
    destruct wild, (existsb _ records); simpl; split; naive_solver.
  - unfold issue_tag. destruct (wild && _); auto.
Qed.

Lemma caaVerdict_true rec effective known cert :
  v_Permitted (caaVerdict rec effective known cert) = Some true ->
  known = true /\ issuer cert <> "" /\
  (parseCAA effective = [] \/
   criticalUnknownTag (parseCAA effective) = "" /\
   exists ids, caaIDsFor (issuer cert) = Some ids /\
     caaPermits (parseCAA effective) ids (wildcard cert) = true).
Proof.
  unfold caaVerdict. destruct known; simpl; [|done].
  destruct (String.eqb_spec (issuer cert) ""); simpl; [done|].
  destruct (Nat.eqb_spec (length (parseCAA effective)) 0) as [Hl|Hl]; simpl.
  { intros _. apply nil_length_inv in Hl. auto. }
  destruct (String.eqb_spec (criticalUnknownTag (parseCAA effective)) ""); simpl; [|done].
  destruct (caaIDsFor (issuer cert)) as [ids|]; simpl; [|done].
  intros [= H]. split_and!; [done..|]. right. eauto.
Qed.

Lemma caaVerdict_none rec effective known cert :
  issuer cert = "" \/ known = false -> v_Permitted (caaVerdict rec effective known cert) = None.
Proof. unfold caaVerdict. intros [E| ->]; [|done]. rewrite E. by destruct known. Qed.

Lemma wwwVerdict_none apexRec wwwRec cert :
  issuer cert = "" \/
  (HasRecords wwwRec = false /\ ~ (l_Records wwwRec = [] /\ Answered wwwRec = true /\ Answered apexRec = true)) ->
  v_Permitted (wwwVerdict apexRec wwwRec cert) = None.
Proof.
  intros H. unfold wwwVerdict, wwwEffective.
  destruct (_ && Answered wwwRec) eqn:E; apply caaVerdict_none; [|tauto].
  apply andb_true_iff in E as [El%Nat.eqb_eq%nil_length_inv Ea]. destruct H as [H|[_ H]]; [by left|right].
  apply not_true_is_false. intros Hap. by destruct H.
Qed.

(** C32: The report says that a host's CAA policy permits its certificate only when the governing set is known: the apex lookup was answered, or www publishes records of its own. With no certificate seen, or the set unknown, there is no verdict on either host; www without records of its own is judged by the apex's set. *)
Theorem assessCAA_permitted_known (apexRec wwwRec : Lookup) (apexCert wwwCert : servedCert)
    (wwwProbed : bool) (host : string) (v : CAAVerdict) :
  caa_Hosts (assessCAA apexRec wwwRec apexCert wwwCert wwwProbed) !! host = Some v ->
  (host = "apex" \/ (host = "www" /\ wwwProbed = true)) /\
  (v_Permitted v = Some true ->
     v_Issuer v <> "" /\
     (host = "apex" -> Answered apexRec = true /\ v_Effective v = l_Records apexRec) /\
     (host = "www" ->
        (HasRecords wwwRec = true /\ v_Effective v = l_Records wwwRec) \/
        (l_Records wwwRec = [] /\ Answered wwwRec = true /\ Answered apexRec = true /\
         v_Effective v = l_Records apexRec))) /\
  (host = "apex" -> issuer apexCert = "" \/ Answered apexRec = false -> v_Permitted v = None) /\
  (host = "www" ->
     issuer wwwCert = "" \/
     (HasRecords wwwRec = false /\
      ~ (l_Records wwwRec = [] /\ Answered wwwRec = true /\ Answered apexRec = true)) ->
     v_Permitted v = None).
Proof.
  unfold assessCAA. cbn [caa_Hosts]. intros H.
  assert (Hcase : (host = "apex" /\ v = caaVerdict apexRec (l_Records apexRec) (Answered apexRec) apexCert) \/
                  (host = "www" /\ wwwProbed = true /\ v = wwwVerdict apexRec wwwRec wwwCert)).
  { destruct wwwProbed.
    - apply lookup_insert_Some in H as [[<- <-]|[_ H]]; [by right|].
      apply lookup_singleton_Some in H as [<- <-]. by left.
    - apply lookup_singleton_Some in H as [<- <-]. by left. }
  clear H. destruct Hcase as [[-> ->]|(-> & -> & ->)].
  - split_and!; [by left| | |done].
    + intros Hp. pose proof (caaVerdict_true _ _ _ _ Hp) as (Hk & Hi & _).
      split_and!; [|intros _; split; [done|]|done];
        unfold caaVerdict in *; rewrite Hk in *; simpl; repeat case_goal; done.
    + intros _ Ha. apply caaVerdict_none. tauto.
  - assert (Hcert : "www" = "www" ->
      issuer wwwCert = "" \/ (HasRecords wwwRec = false /\
        ~ (l_Records wwwRec = [] /\ Answered wwwRec = true /\ Answered apexRec = true)) ->
      v_Permitted (wwwVerdict apexRec wwwRec wwwCert) = None) by (intros _; apply wwwVerdict_none).
    split_and!; [by right| |done|exact Hcert]. clear Hcert. unfold wwwVerdict.
    destruct (wwwEffective apexRec wwwRec) as [effective known] eqn:Ew.
    intros Hp. pose proof (caaVerdict_true _ _ _ _ Hp) as (-> & Hi & _).
    assert (Hv : v_Issuer (caaVerdict wwwRec effective true wwwCert) = issuer wwwCert /\
                 v_Effective (caaVerdict wwwRec effective true wwwCert) = effective)
      by (unfold caaVerdict; simpl; repeat case_goal; done).
    destruct Hv as [-> ->]. split_and!; [done|done|]. intros _. unfold wwwEffective in Ew.
    destruct (Nat.eqb_spec (length (l_Records wwwRec)) 0) as [Hl|Hl]; simpl in Ew.
    + apply nil_length_inv in Hl. destruct (Answered wwwRec) eqn:Ea; simplify_eq.
      * right. auto.
      * left. auto.
    + left. injection Ew as <- <-. auto.
Qed.

Definition oneRecord (name qtype r : string) : Lookup :=
  mkLookup name qtype StatusOK TrustSecure [r] [] "" 0 false [].

Lemma assessCAA_permitted_known_witness :
  v_Permitted <$> caa_Hosts (assessCAA (oneRecord "a.nl" "CAA" "0 issue letsencrypt.org")
      (oneRecord "www.a.nl" "CAA" "0 issue digicert.com") (mkServed "Let's Encrypt" false)
      (mkServed "Let's Encrypt" false) true) !! "apex" = Some (Some true) /\
  (("apex" = "apex" \/ ("apex" = "www" /\ true = true))).
Proof.
  split; [vm_compute; reflexivity|].
  eapply (assessCAA_permitted_known (oneRecord "a.nl" "CAA" "0 issue letsencrypt.org")
      (oneRecord "www.a.nl" "CAA" "0 issue digicert.com") (mkServed "Let's Encrypt" false)
      (mkServed "Let's Encrypt" false) true "apex").
  vm_compute. reflexivity.
Defined.
