(* ===== verification/Tlsa.v ===== *)
(** * TLSA records: tlsa.go and the TLSA section of run.go

    The digests are crypto/sha256 and crypto/sha512, parameters here. *)

From S2P Require Import Prelude GoStrings Netip Records.

Inductive TLSAResult := TLSANone | TLSAUnknown | TLSAMatch | TLSAMismatch | TLSAUnverified.

#[export] Instance TLSAResult_eq_dec : EqDecision TLSAResult.
Proof. solve_decision. Defined.

Record tlsaRecord := mkTLSA { t_Usage : Z; t_Selector : Z; t_Matching : Z; t_Data : string }.

#[export] Instance tlsaRecord_eq_dec : EqDecision tlsaRecord.
Proof. solve_decision. Defined.

(** ** hex.DecodeString *)

Fixpoint hex_decode (s : string) : option string :=
  match s with
  | "" => Some ""
  | String _ "" => None
  | String a (String b s) =>
      x ← hex_val a; y ← hex_val b; rest ← hex_decode s;
      Some (String (Ascii.ascii_of_N (x * 16 + y)) rest)
  end.

(** A field of a TLSA record: a number with an upper bound. The lower bound
    is not checked by the code. *)
Definition tlsa_field (s : string) (hi : Z) : option Z :=
  n ← AtoiOk s; if (n >? hi)%Z then None else Some n.

Definition parseTLSA (rdata : string) : option tlsaRecord :=
  match Fields rdata with
  | f0 :: f1 :: f2 :: f3 :: rest =>
      usage ← tlsa_field f0 3; selector ← tlsa_field f1 1; matching ← tlsa_field f2 2;
      data ← hex_decode (Join (f3 :: rest) "");
      if is_empty data then None else Some (mkTLSA usage selector matching data)
  | _ => None
  end.

Definition parseTLSARecords (records : list string) : list tlsaRecord := omap parseTLSA records.

(** ** Matching a chain *)

(** The parts of an x509.Certificate the check reads. *)
Record cert := mkCert { Raw : string; RawSPKI : string }.

Section Tlsa.
Variables sha256 sha512 : string -> string.

Definition tlsaDigest (c : cert) (selector matching : Z) : string :=
  let data := if (selector =? 1)%Z then RawSPKI c else Raw c in
  if (matching =? 1)%Z then sha256 data
  else if (matching =? 2)%Z then sha512 data
  else data.

Definition tlsaMatches (rec : tlsaRecord) (chain : list cert) (pkixValid : bool) : bool :=
  if (length chain =? 0)%nat then false
  else if ((t_Usage rec =? 0)%Z || (t_Usage rec =? 1)%Z) && negb pkixValid then false
  else
    let candidates := if (t_Usage rec =? 0)%Z || (t_Usage rec =? 2)%Z then chain else take 1 chain in
    existsb (fun c => String.eqb (tlsaDigest c (t_Selector rec) (t_Matching rec)) (t_Data rec)) candidates.

Definition matchTLSA (records : list tlsaRecord) (chain : list cert) (pkixValid : bool) : TLSAResult :=
  if (length records =? 0)%nat then TLSANone
  else if existsb (fun rec => tlsaMatches rec chain pkixValid) records then TLSAMatch
  else TLSAMismatch.

End Tlsa.

(** ** The report section: [assessTLSA] of run.go *)

Record TLSAReport := mkTLSAReport {
  ts_Apex : list string;
  ts_WWW : option (list string);
  ts_Signed : bool;
  ts_Result : TLSAResult;
}.

Definition tlsaResult (anyMatch anyChecked : bool) : TLSAResult :=
  if negb anyChecked then TLSAUnverified else if anyMatch then TLSAMatch else TLSAMismatch.

Definition tlsaSigned (l : Lookup) : bool := bool_decide (l_Trust l = TrustSecure).

Definition wwwRecords (www : option (list string)) : list string := default [] www.

(** [stamp] is what stamping the hosts with the records gave: whether any
    address matched, and whether any could be checked. *)
Definition assessTLSA (apexRec wwwRec : Lookup) (stamp : Lookup -> Lookup -> bool * bool)
    (wwwProbed : bool) : TLSAReport :=
  let www := if wwwProbed then Some (l_Records wwwRec) else None in
  let rec2 := if wwwProbed then wwwRec else apexRec in
  let signed := tlsaSigned apexRec && tlsaSigned rec2 in
  if (length (l_Records apexRec) + length (wwwRecords www) =? 0)%nat then
    if negb (Answered apexRec) || negb (Answered rec2)
    then mkTLSAReport (l_Records apexRec) www false TLSAUnknown
    else mkTLSAReport (l_Records apexRec) www signed TLSANone
  else
    let '(anyMatch, anyChecked) := stamp apexRec (if wwwProbed then wwwRec else zeroLookup) in
    mkTLSAReport (l_Records apexRec) www signed (tlsaResult anyMatch anyChecked).

(** ** Lemmas *)

Lemma tlsaMatches_spec sha256 sha512 rec chain pkix :
  tlsaMatches sha256 sha512 rec chain pkix = true <->
  ((t_Usage rec = 0 \/ t_Usage rec = 1)%Z -> pkix = true) /\
  exists c i, chain !! i = Some c /\
    (i = 0%nat \/ t_Usage rec = 0%Z \/ t_Usage rec = 2%Z) /\
    tlsaDigest sha256 sha512 c (t_Selector rec) (t_Matching rec) = t_Data rec.
Proof.
  unfold tlsaMatches. destruct chain as [|c0 chain]; simpl.
  { split; [done|]. intros (_ & c & i & Hi & _). by rewrite lookup_nil in Hi. }
  destruct (Z.eqb_spec (t_Usage rec) 0) as [U0|U0]; destruct (Z.eqb_spec (t_Usage rec) 1) as [U1|U1];
    destruct (Z.eqb_spec (t_Usage rec) 2) as [U2|U2]; destruct pkix; try lia; cbn [orb andb negb].
  all: try (split; [done|]; intros [Hp _]; discriminate (Hp ltac:(tauto))).
  all: rewrite existsb_elem; split.
  all: try (intros (c & Hc & He%String.eqb_eq); split; [done || lia|]).
  all: try (apply list_elem_of_lookup in Hc as [i Hi]; exists c, i; tauto).
  all: try (apply list_elem_of_singleton in Hc as ->; exists c0, 0%nat; tauto).
  all: intros (_ & c & i & Hi & Hu & He); exists c; split; [|by apply String.eqb_eq].
  all: try (apply list_elem_of_lookup; eauto; fail).
  all: destruct Hu as [->|[?|?]]; [|lia|lia]; simpl in Hi; simplify_eq; set_solver.
Qed.

(** ** Properties *)

(** C33: The chain a host serves matches its TLSA records exactly when some record's data is the digest of the leaf, or, for the usages of an authority (0 and 2), of any certificate of the chain; the two PKIX usages (0 and 1) count only for a chain that validates. With records and no such certificate the result is a mismatch, and no result but none is given when there are no records. *)
Theorem matchTLSA_spec (sha256 sha512 : string -> string) (records : list tlsaRecord)
    (chain : list cert) (pkixValid : bool) :
  let result := matchTLSA sha256 sha512 records chain pkixValid in
  (result = TLSAMatch <->
     exists rec c i, rec ∈ records /\ chain !! i = Some c /\
       ((t_Usage rec = 0 \/ t_Usage rec = 1)%Z -> pkixValid = true) /\
       (i = 0%nat \/ t_Usage rec = 0%Z \/ t_Usage rec = 2%Z) /\
       tlsaDigest sha256 sha512 c (t_Selector rec) (t_Matching rec) = t_Data rec) /\
  (result = TLSANone <-> records = []) /\
  (result = TLSAMismatch <-> records <> [] /\ result <> TLSAMatch).
Proof.
  cbv zeta. unfold matchTLSA. destruct (Nat.eqb_spec (length records) 0) as [Hl|Hl].
  { apply nil_length_inv in Hl as ->. split_and!; [|done|split; [done|by intros [? _]]].
    split; [done|]. intros (rec & c & i & Hr & _). by apply elem_of_nil in Hr. }
  assert (Hne : records <> []) by (by intros ->).
  destruct (existsb _ records) eqn:E; (split_and!; [|split; done|split; [done|tauto]]).
  - split; [|done]. intros _. apply existsb_elem in E as (rec & Hr & Hm).
    apply tlsaMatches_spec in Hm as (Hp & c & i & Hi & Hu & Hd). eauto 10.
  - split; [done|]. intros (rec & c & i & Hr & Hi & Hp & Hu & Hd). exfalso.
    rewrite existsb_elem_false in E. specialize (E rec Hr). apply not_true_iff_false in E. apply E.
    apply tlsaMatches_spec. eauto 10.
Qed.

(** The TLSA section says none only when every lookup it rests on was answered and returned no record, says signed only when every one of them was validated, and says match or mismatch only when records exist and some address could be checked. *)
Theorem assessTLSA_verdict (apexRec wwwRec : Lookup) (stamp : Lookup -> Lookup -> bool * bool)
    (wwwProbed : bool) :
  let rep := assessTLSA apexRec wwwRec stamp wwwProbed in
  let www := if wwwProbed then wwwRec else apexRec in
  let empty := l_Records apexRec = [] /\ (wwwProbed = true -> l_Records wwwRec = []) in
  (ts_Result rep = TLSANone <-> empty /\ Answered apexRec = true /\ Answered www = true) /\
  (ts_Result rep = TLSAUnknown <-> empty /\ ~ (Answered apexRec = true /\ Answered www = true)) /\
  (ts_Signed rep = true -> l_Trust apexRec = TrustSecure /\ l_Trust www = TrustSecure) /\
  ((ts_Result rep = TLSAMatch \/ ts_Result rep = TLSAMismatch) -> ~ empty /\
     snd (stamp apexRec (if wwwProbed then wwwRec else zeroLookup)) = true).
Proof.
  cbv zeta. unfold assessTLSA, wwwRecords.
  set (www := if wwwProbed then Some (l_Records wwwRec) else None).
  set (rec2 := if wwwProbed then wwwRec else apexRec).
  assert (Hs : tlsaSigned apexRec && tlsaSigned rec2 = true ->
    l_Trust apexRec = TrustSecure /\ l_Trust rec2 = TrustSecure)
    by (unfold tlsaSigned; intros H; by simp_bool).
  assert (He : (length (l_Records apexRec) + length (default [] www) = 0)%nat <->
    l_Records apexRec = [] /\ (wwwProbed = true -> l_Records wwwRec = [])).
  { rewrite Nat.eq_add_0, !length_zero_iff_nil. unfold www. destruct wwwProbed; simpl; naive_solver. }
  destruct (Nat.eqb_spec (length (l_Records apexRec) + length (default [] www)) 0) as [Hl|Hl].
  - apply He in Hl. destruct (Answered apexRec), (Answered rec2); cbn [negb orb ts_Result ts_Signed];
      split_and!; try done; try (split; naive_solver); try tauto; intros [?|?]; done.
  - assert (Hn : ~ (l_Records apexRec = [] /\ (wwwProbed = true -> l_Records wwwRec = [])))
      by (by rewrite <-He).
    destruct (stamp _ _) as [anyMatch anyChecked]. unfold tlsaResult.
    destruct anyChecked, anyMatch; cbn [negb ts_Result ts_Signed snd];
      split_and!; try done; try (split; [done|tauto]); try tauto; intros [?|?]; done.
Qed.
