(* ===== verification/Spf.v ===== *)
(** * SPF: the evaluator of mail.go

    [evaluateSPF] walks a tree of includes and redirects through a lookup
    function. The evaluator's fields are the state of a small monad whose
    failure is the end of the fuel; the depth of the walk is bounded by the
    code, so the fuel [spfFuel] is never used up (theorem [evaluateSPF_total]).
    [e_fetched] is a ghost field: the targets whose TXT records were asked. *)

From S2P Require Import Prelude GoStrings Netip Names Records.

Definition lookupFn : Type := string -> string -> Lookup.

(** ** Constants and notes *)

Definition spfLookupLimit : nat := 10.
Definition spfVoidLimit : nat := 2.
Definition spfAnswerLimit : nat := 512.
Definition spfAnswerWarn : nat := 450.
Definition ednsBuffer : nat := 1232.

Definition ednsNote (octets : nat) : string :=
  if (octets <=? ednsBuffer)%nat then ""
  else "; it also exceeds the " +:+ itoa ednsBuffer
       +:+ "-octet EDNS buffer resolvers commonly use, so nearly every lookup needs TCP".

Record SPFResult := mkSPF {
  spf_Records : nat;
  spf_Lookups : nat;
  spf_VoidLookups : nat;
  spf_AnswerOctets : nat;
  spf_All : string;
  spf_Includes : list string;
  spf_Problems : list string;
}.

(** ** Reading a record *)

Definition isSPFRecord (r : string) : bool :=
  let s := ToLower (TrimSpace r) in
  String.eqb s "v=spf1" || HasPrefix s "v=spf1 ".

Definition spfRecords (txt : list string) : list string :=
  map TrimSpace (base.filter (fun r => isSPFRecord r = true) txt).

Record spfTerm := mkTerm { qualifier : string; name : string; arg : string; modifier : bool }.

#[export] Instance spfTerm_eq_dec : EqDecision spfTerm.
Proof. solve_decision. Defined.

Definition split_name (q f : string) : spfTerm :=
  let x := str_take_while (fun c => negb (ContainsByte ":/" c)) f in
  if negb (is_empty x) && negb (String.eqb x f)
  then mkTerm q (ToLower x) (str_drop (String.length x) f) false
  else mkTerm q (ToLower f) "" false.

Definition parseSPFTerm (f : string) : spfTerm :=
  let '(q, f) := if ContainsAny (str_take 1 f) "+-~?" then (str_take 1 f, str_drop 1 f) else ("+", f) in
  match cut_byte "="%char f with
  | Some (x, y) =>
      if negb (is_empty x) && negb (ContainsByte x ":"%char) then mkTerm q (ToLower x) y true
      else split_name q f
  | None => split_name q f
  end.

Definition parseSPFTerms (record : string) : list spfTerm := map parseSPFTerm (drop 1 (Fields record)).

Definition recordAll (terms : list spfTerm) : string :=
  match head (base.filter (fun t => String.eqb (name t) "all" && negb (modifier t) = true) terms) with
  | Some t => qualifier t +:+ "all"
  | None => ""
  end.

Definition spfTarget (t : spfTerm) : string := TrimPrefix (arg t) ":".

(** ** Prefixes that cover one another *)

Record spfPrefix := mkSpfPrefix { p_text : string; p_qualifier : string; p_prefix : Prefix }.

Definition prefix_or_addr (a : string) : option Prefix :=
  match ParsePrefix a with
  | Some p => Some p
  | None => (fun addr => PrefixFrom addr (BitLen addr)) <$> ParseAddr a
  end.

Definition spfPrefix1 (t : spfTerm) : option spfPrefix :=
  if modifier t || negb (member (name t) ["ip4"; "ip6"]) then None
  else
    let a := TrimPrefix (arg t) ":" in
    p ← prefix_or_addr a;
    m ← Masked p;   (* the prefix of a valid prefix: always there *)
    Some (mkSpfPrefix (name t +:+ ":" +:+ a) (firstNonEmpty [qualifier t; "+"]) m).

Definition spfPrefixes (terms : list spfTerm) : list spfPrefix := omap spfPrefix1 terms.

(** Prefix [j] makes prefix [i] redundant; of two equal ones the later is. *)
Definition covered_by (i j : nat) (p q : spfPrefix) : bool :=
  negb (i =? j)%nat && String.eqb (p_qualifier p) (p_qualifier q)
  && (pfx_bits (p_prefix q) <=? pfx_bits (p_prefix p))%Z
  && pfx_Contains (p_prefix q) (pfx_addr (p_prefix p))
  && negb (bool_decide (p_prefix q = p_prefix p) && (i <? j)%nat).

Definition first_cover (prefixes : list spfPrefix) (i : nat) (p : spfPrefix) : option spfPrefix :=
  head (omap (fun '(j, q) => if covered_by i j p q then Some q else None)
          (zip (seq 0 (length prefixes)) prefixes)).

Definition redundantIPs (terms : list spfTerm) (domain : string) : list string :=
  let prefixes := spfPrefixes terms in
  omap (fun '(i, p) =>
          match first_cover prefixes i p with
          | Some q => Some (p_text p +:+ " is already covered by " +:+ p_text q +:+ " in " +:+ domain)
          | None => None
          end)
    (zip (seq 0 (length prefixes)) prefixes).

(** ** The evaluator's state *)

Record spfEvaluator := mkEval {
  e_lookups : nat;
  e_void : nat;
  e_includes : list string;
  e_problems : list string;
  e_fetched : list string;
}.

Definition SpfM (A : Type) : Type := spfEvaluator -> option (A * spfEvaluator).

#[export] Instance SpfM_ret : MRet SpfM := fun A a e => Some (a, e).
#[export] Instance SpfM_bind : MBind SpfM := fun A B k m e =>
  match m e with
  | Some (a, e) => k a e
  | None => None
  end.

Definition modify (f : spfEvaluator -> spfEvaluator) : SpfM unit := fun e => Some (tt, f e).
Definition get_state : SpfM spfEvaluator := fun e => Some (e, e).

Definition problem (p : string) : SpfM unit :=
  modify (fun e => if member p (e_problems e) then e
                   else mkEval (e_lookups e) (e_void e) (e_includes e) (e_problems e ++ [p]) (e_fetched e)).

Definition noteInclude (target : string) : SpfM unit :=
  modify (fun e => if member target (e_includes e) then e
                   else mkEval (e_lookups e) (e_void e) (e_includes e ++ [target]) (e_problems e)
                          (e_fetched e)).

Definition count_lookup : SpfM unit :=
  modify (fun e => mkEval (S (e_lookups e)) (e_void e) (e_includes e) (e_problems e) (e_fetched e)).

Definition count_void : SpfM unit :=
  modify (fun e => mkEval (e_lookups e) (S (e_void e)) (e_includes e) (e_problems e) (e_fetched e)).

Definition noteAll (q via : string) : SpfM unit :=
  let suffix := if String.eqb via "" then "" else ", reached through " +:+ via in
  if String.eqb q "+" then problem ("+all authorises every sender (no protection)" +:+ suffix)
  else if String.eqb q "?" then problem ("?all is neutral (no protection)" +:+ suffix)
  else mret tt.

Definition apexSize (octets : nat) : SpfM unit :=
  if (spfAnswerLimit <? octets)%nat then
    problem ("apex TXT answer is " +:+ itoa octets +:+ " octets, over the " +:+ itoa spfAnswerLimit
             +:+ "-octet UDP limit (RFC 7208 §3.4): resolvers without EDNS get a truncated reply and must retry over TCP"
             +:+ ednsNote octets)
  else if (spfAnswerWarn <? octets)%nat then
    problem ("apex TXT answer is " +:+ itoa octets +:+ " octets, close to the " +:+ itoa spfAnswerLimit
             +:+ "-octet UDP limit (RFC 7208 §3.4): one more TXT record may push it over")
  else mret tt.

Definition includeSize (target : string) (l : Lookup) : SpfM unit :=
  let octets := udpAnswerOctets l in
  if (spfAnswerLimit <? octets)%nat then
    problem ("include:" +:+ target +:+ " TXT answer is " +:+ itoa octets +:+ " octets, over the "
             +:+ itoa spfAnswerLimit +:+ "-octet UDP limit (RFC 7208 §3.4)" +:+ ednsNote octets)
  else mret tt.

Definition term (t : spfTerm) (domain : string) : SpfM unit :=
  if member (name t) ["a"; "mx"; "exists"] then count_lookup
  else if String.eqb (name t) "ptr" then
    (count_lookup;; problem "ptr mechanism is deprecated (RFC 7208 §5.5)")
  else if member (name t) ["ip4"; "ip6"] || modifier t then mret tt
  else problem ("unknown mechanism " +:+ name t +:+ " in " +:+ domain).

(** ** The walk

    [descend] is the walk's only recursive call; the definitions before it
    take it as an argument, the evaluation one level down. *)

Section Walk.
Context `{D : Dpdomain}.
Variable lookup : lookupFn.

Section Level.
Variable descend : string -> list string -> SpfM string.

Definition last_of (path : list string) : string := default "" (last path).

(** The all mechanism, and the redirect that led to it. *)
Definition redirect (t : spfTerm) (path : list string) : SpfM (string * string) :=
  let target := spfTarget t in
  count_lookup;;
  a ← descend target path;
  mret (if negb (String.eqb a "") then (a, "redirect=" +:+ target) else ("", "")).

Definition mechanism (t : spfTerm) (path : list string) : SpfM unit :=
  if String.eqb (name t) "include" && negb (modifier t) then
    let target := spfTarget t in
    count_lookup;;
    a ← descend target path;
    if String.eqb a "+all" then noteAll "+" ("include:" +:+ target) else mret tt
  else if String.eqb (name t) "all" && negb (modifier t) then mret tt
  else term t (last_of path).

Definition is_redirect (t : spfTerm) : bool := String.eqb (name t) "redirect" && modifier t.

(** The loop over the terms; [res] is (all, via) so far. *)
Fixpoint walk_terms (own : string) (path : list string) (terms : list spfTerm)
    (res : string * string) : SpfM (string * string) :=
  match terms with
  | [] => mret res
  | t :: terms =>
      if negb (is_redirect t) then
        mechanism t path;; walk_terms own path terms res
      else if String.eqb own "" then
        res ← redirect t path; walk_terms own path terms res
      else walk_terms own path terms res
  end.

Fixpoint all_problems (ps : list string) : SpfM unit :=
  match ps with
  | [] => mret tt
  | p :: ps => problem p;; all_problems ps
  end.

Definition walk (record : string) (path : list string) : SpfM (string * string) :=
  let terms := parseSPFTerms record in
  all_problems (redundantIPs terms (last_of path));;
  let own := recordAll terms in
  res ← walk_terms own path terms (own, "");
  (if (length path =? 1)%nat && String.eqb own "" && negb (existsb is_redirect terms)
   then problem "record has no all mechanism or redirect (default neutral)"
   else mret tt);;
  mret res.

(** What [descend] does with a valid target that is not on the path. *)
Definition fetch (target : string) (path : list string) : SpfM string :=
  noteInclude target;;
  e ← get_state;
  if (spfLookupLimit * 3 <? e_lookups e)%nat || (20 <? length path)%nat then mret ""
  else
    modify (fun e => mkEval (e_lookups e) (e_void e) (e_includes e) (e_problems e)
                       (e_fetched e ++ [target]));;
    let l := lookup target "TXT" in
    if negb (Answered l) then
      problem ("include:" +:+ target +:+ " could not be checked: its TXT lookup did not complete");;
      mret ""
    else if negb (HasRecords l) then
      count_void;; problem ("include:" +:+ target +:+ " has no SPF record");; mret ""
    else match spfRecords (l_Records l) with
         | [] => problem ("include:" +:+ target +:+ " has no SPF record");; mret ""
         | rec :: _ =>
             includeSize target l;;
             res ← walk rec (path ++ [target]);
             mret (fst res)
         end.

End Level.

Fixpoint descend (fuel : nat) (target : string) (path : list string) : SpfM string :=
  match fuel with
  | O => fun _ => None
  | S fuel =>
      if Contains target "%" || String.eqb target "" then mret ""
      else match dnsName target with
           | inr err =>
               problem ("include:" +:+ target +:+ " is not a valid domain name (" +:+ err +:+ ")");;
               mret ""
           | inl n =>
               let target := ASCII n in
               if member target path then
                 problem ("include loop " +:+ Join path " -> " +:+ " -> " +:+ target
                          +:+ " (permerror: SPF fails entirely)");;
                 mret ""
               else fetch (descend fuel) target path
           end
  end.

(** A path longer than 20 is not followed. *)
Definition spfFuel : nat := 21.

Definition eval_init : spfEvaluator := mkEval 0 0 [] [] [].

Definition over_limit (n : nat) : string :=
  itoa n +:+ " DNS lookups exceed the limit of " +:+ itoa spfLookupLimit
  +:+ " (permerror: SPF fails entirely)".

(** The two limits, checked on the counts at the end. *)
Definition limits : SpfM unit :=
  e ← get_state;
  (if (spfLookupLimit <? e_lookups e)%nat then
     problem (over_limit (e_lookups e))
   else mret tt);;
  (if (spfVoidLimit <? e_void e)%nat then
     problem (itoa (e_void e) +:+ " void lookups exceed the limit of " +:+ itoa spfVoidLimit)
   else mret tt).

(** The result, and the evaluator it was read from. *)
Definition runSPF (domain : string) (txt : Lookup) (record : string) (more : bool)
    : option (SPFResult * spfEvaluator) :=
  let octets := udpAnswerOctets txt in
  let run : SpfM (string * nat * nat * list string) :=
    (if more then problem "multiple SPF records (permerror: SPF fails entirely)" else mret tt);;
    apexSize octets;;
    res ← walk (descend spfFuel) record [bareName domain];
    let '(all, via) := res in
    (if negb (String.eqb all "") then noteAll (str_take 1 all) via else mret tt);;
    e ← get_state;
    limits;;
    mret (all, e_lookups e, e_void e, e_includes e) in
  match run eval_init with
  | None => None
  | Some ((all, lookups, void, includes), e) =>
      Some (mkSPF (length (spfRecords (l_Records txt))) lookups void octets all includes (e_problems e), e)
  end.

Definition evaluateSPF_state (domain : string) (txt : Lookup) : option (SPFResult * spfEvaluator) :=
  match spfRecords (l_Records txt) with
  | [] => Some (mkSPF 0 0 0 0 "" [] [], eval_init)
  | record :: more => runSPF domain txt record (match more with [] => false | _ => true end)
  end.

Definition evaluateSPF (domain : string) (txt : Lookup) : option SPFResult :=
  fst <$> evaluateSPF_state domain txt.

End Walk.

(** ** A total program logic for the evaluator *)

(** From a state with [P] the computation has a result, and [Q] holds of it. *)
Definition triple {A} (P : spfEvaluator -> Prop) (m : SpfM A) (Q : A -> spfEvaluator -> Prop) : Prop :=
  forall e, P e -> exists a e', m e = Some (a, e') /\ Q a e'.

Lemma triple_ret {A} (P : spfEvaluator -> Prop) (a : A) (Q : A -> spfEvaluator -> Prop) :
  (forall e, P e -> Q a e) -> triple P (mret a) Q.
Proof. intros H e HP. exists a, e. split; [done|auto]. Qed.

Lemma triple_bind {A B} P (m : SpfM A) R (k : A -> SpfM B) Q :
  triple P m R -> (forall a, triple (R a) (k a) Q) -> triple P (m ≫= k) Q.
Proof.
  intros Hm Hk e HP. destruct (Hm e HP) as (a & e' & He & HR).
  destruct (Hk a e' HR) as (b & e'' & He' & HQ). exists b, e''. split; [|done].
  unfold mbind, SpfM_bind. by rewrite He.
Qed.

Lemma triple_conseq {A} P P' (m : SpfM A) Q Q' :
  triple P m Q -> (forall e, P' e -> P e) -> (forall a e, Q a e -> Q' a e) -> triple P' m Q'.
Proof. intros H HP HQ e He. destruct (H e (HP e He)) as (a & e' & ? & ?). eauto. Qed.

Lemma triple_modify P f Q : (forall e, P e -> Q tt (f e)) -> triple P (modify f) Q.
Proof. intros H e HP. exists tt, (f e). auto. Qed.

(** The state reached: [k] counted lookups are not fetched yet, [v] fetches
    are not counted as void yet. *)
Definition spf_ok (k v : nat) (e : spfEvaluator) : Prop :=
  (length (e_fetched e) + k <= e_lookups e)%nat /\
  (length (e_fetched e) <= spfLookupLimit * 3)%nat /\
  (e_void e + v <= length (e_fetched e))%nat /\
  NoDup (e_includes e) /\ NoDup (e_problems e).

Lemma spf_ok_weaken k v k' v' e : spf_ok k v e -> (k' <= k)%nat -> (v' <= v)%nat -> spf_ok k' v' e.
Proof. unfold spf_ok. intros (? & ? & ? & ? & ?) Hk Hv. split_and!; try done; lia. Qed.

Lemma NoDup_snoc {A} (x : A) l : NoDup l -> x ∉ l -> NoDup (l ++ [x]).
Proof. intros Hl Hx. apply NoDup_app. split_and!; [done|set_solver|apply NoDup_singleton]. Qed.

(** The two notes add at most one entry, and touch nothing else. *)
Lemma problem_ok k v p : triple (spf_ok k v) (problem p) (fun _ => spf_ok k v).
Proof.
  apply triple_modify. intros e (H1 & H2 & H3 & H4 & H5).
  destruct (member p (e_problems e)) eqn:E; [by split_and!|]. apply member_false in E.
  split_and!; simpl; auto using NoDup_snoc.
Qed.

Lemma noteInclude_ok k v p : triple (spf_ok k v) (noteInclude p) (fun _ => spf_ok k v).
Proof.
  apply triple_modify. intros e (H1 & H2 & H3 & H4 & H5).
  destruct (member p (e_includes e)) eqn:E; [by split_and!|]. apply member_false in E.
  split_and!; simpl; auto using NoDup_snoc.
Qed.

Lemma count_lookup_ok k v : triple (spf_ok k v) count_lookup (fun _ => spf_ok (S k) v).
Proof. apply triple_modify. intros e (H1 & H2 & H3 & H4 & H5). split_and!; simpl; try done; lia. Qed.

Lemma count_void_ok k v : triple (spf_ok k (S v)) count_void (fun _ => spf_ok k v).
Proof. apply triple_modify. intros e (H1 & H2 & H3 & H4 & H5). split_and!; simpl; try done; lia. Qed.

Lemma ret_ok {A} k v (a : A) : triple (spf_ok k v) (mret a) (fun _ => spf_ok k v).
Proof. by apply triple_ret. Qed.

Create HintDb spf discriminated.
#[export] Hint Resolve problem_ok noteInclude_ok count_lookup_ok count_void_ok ret_ok : spf.

Ltac spf_step := eapply triple_bind; [eauto with spf|intros []; cbv beta].

Lemma noteAll_ok k v q via : triple (spf_ok k v) (noteAll q via) (fun _ => spf_ok k v).
Proof. unfold noteAll. repeat case_match; auto with spf. Qed.

Lemma apexSize_ok k v n : triple (spf_ok k v) (apexSize n) (fun _ => spf_ok k v).
Proof. unfold apexSize. repeat case_match; auto with spf. Qed.

Lemma includeSize_ok k v t l : triple (spf_ok k v) (includeSize t l) (fun _ => spf_ok k v).
Proof. unfold includeSize. repeat case_match; auto with spf. Qed.

Lemma all_problems_ok k v ps : triple (spf_ok k v) (all_problems ps) (fun _ => spf_ok k v).
Proof. induction ps as [|p ps IH]; simpl; [auto with spf|]. by spf_step. Qed.

Lemma weaken_ok {A} (m : SpfM A) P k v k' v' :
  triple P m (fun _ => spf_ok k v) -> (k' <= k)%nat -> (v' <= v)%nat ->
  triple P m (fun _ => spf_ok k' v').
Proof. intros H Hk Hv. eapply triple_conseq; [exact H|done|]. intros a e He. exact (spf_ok_weaken _ _ _ _ _ He Hk Hv). Qed.

Lemma strengthen_ok {A} (m : SpfM A) Q k v k' v' :
  triple (spf_ok k v) m Q -> (k <= k')%nat -> (v <= v')%nat -> triple (spf_ok k' v') m Q.
Proof. intros H Hk Hv. eapply triple_conseq; [exact H| |done]. intros e He. exact (spf_ok_weaken _ _ _ _ _ He Hk Hv). Qed.

Lemma term_ok t d : triple (spf_ok 0 0) (term t d) (fun _ => spf_ok 0 0).
Proof.
  unfold term. destruct (member _ _).
  { eapply weaken_ok; [apply count_lookup_ok|lia|lia]. }
  destruct (String.eqb _ _).
  { spf_step. eapply strengthen_ok; [apply problem_ok|lia|lia]. }
  destruct (_ || _); auto with spf.
Qed.

#[export] Hint Resolve noteAll_ok apexSize_ok includeSize_ok all_problems_ok term_ok : spf.

Section Bounds.
Context `{D : Dpdomain}.
Variable lookup : lookupFn.

(** What one level of the walk promises for the paths of length [n]. *)
Definition descend_ok (desc : string -> list string -> SpfM string) (n : nat) : Prop :=
  forall target path, length path = n ->
    triple (spf_ok 1 0) (desc target path) (fun _ => spf_ok 0 0).

Lemma redirect_ok desc t path :
  descend_ok desc (length path) -> triple (spf_ok 0 0) (redirect desc t path) (fun _ => spf_ok 0 0).
Proof.
  intros Hd. unfold redirect. spf_step.
  eapply triple_bind; [by apply Hd|intros a; cbv beta]. auto with spf.
Qed.

Lemma mechanism_ok desc t path :
  descend_ok desc (length path) -> triple (spf_ok 0 0) (mechanism desc t path) (fun _ => spf_ok 0 0).
Proof.
  intros Hd. unfold mechanism. destruct (_ && _).
  { spf_step. eapply triple_bind; [by apply Hd|intros a; cbv beta]. destruct (String.eqb _ _); auto with spf. }
  destruct (_ && _); auto with spf.
Qed.

Lemma walk_terms_ok desc own path terms res :
  descend_ok desc (length path) ->
  triple (spf_ok 0 0) (walk_terms desc own path terms res) (fun _ => spf_ok 0 0).
Proof.
  intros Hd. revert res. induction terms as [|t terms IH]; intros res; simpl; [auto with spf|].
  destruct (negb _).
  { eapply triple_bind; [by apply mechanism_ok|intros []; cbv beta; apply IH]. }
  destruct (String.eqb own ""); [|apply IH].
  eapply triple_bind; [by apply redirect_ok|intros r; cbv beta; apply IH].
Qed.

Lemma walk_ok desc record path :
  descend_ok desc (length path) ->
  triple (spf_ok 0 0) (walk desc record path) (fun _ => spf_ok 0 0).
Proof.
  intros Hd. unfold walk. spf_step.
  eapply triple_bind; [by apply walk_terms_ok|intros res; cbv beta].
  eapply (triple_bind _ _ (fun _ => spf_ok 0 0)); [|intros []; auto with spf].
  destruct (_ && _); auto with spf.
Qed.

Lemma fetch_ok desc target path :
  ((length path <= 20)%nat -> descend_ok desc (S (length path))) ->
  triple (spf_ok 1 0) (fetch lookup desc target path) (fun _ => spf_ok 0 0).
Proof.
  intros Hd. unfold fetch. spf_step.
  intros e He. unfold mbind at 1, SpfM_bind at 1, get_state at 1.
  destruct (Nat.ltb_spec (spfLookupLimit * 3) (e_lookups e)); simpl orb.
  { eexists _, _. split; [done|]. eapply spf_ok_weaken; [done|lia|lia]. }
  destruct (Nat.ltb_spec 20 (length path)).
  { eexists _, _. split; [done|]. eapply spf_ok_weaken; [done|lia|lia]. }
  match goal with |- exists a e', ?m e = _ /\ _ =>
    enough (Ht : triple (fun e => spf_ok 1 0 e /\ (e_lookups e <= spfLookupLimit * 3)%nat) m
             (fun _ => spf_ok 0 0)) by (apply Ht; split; [done|lia]) end.
  eapply (triple_bind _ _ (fun _ => spf_ok 0 1)).
  { apply triple_modify. intros e' [(H1 & H2 & H3 & H4 & H5) H6].
    unfold spf_ok, spfLookupLimit in *. cbn [e_lookups e_void e_includes e_problems e_fetched].
    rewrite length_app. cbn [length]. split_and!; try done; lia. }
  intros _. cbv beta zeta.
  destruct (negb (Answered _)).
  { spf_step. eapply weaken_ok; [apply ret_ok|lia|lia]. }
  destruct (negb (HasRecords _)).
  { spf_step. spf_step. apply ret_ok. }
  destruct (spfRecords _) as [|rec recs].
  { spf_step. eapply weaken_ok; [apply ret_ok|lia|lia]. }
  spf_step. eapply triple_bind.
  { eapply strengthen_ok; [apply (walk_ok desc rec (path ++ [target]))|lia|lia].
    rewrite length_app. simpl. rewrite Nat.add_1_r. apply Hd. lia. }
  intros res. cbv beta. apply ret_ok.
Qed.

(** Fuel for the rest of the 21 levels is enough. *)
Lemma descend_ok_fuel fuel n :
  (22 <= fuel + n)%nat -> (1 <= fuel)%nat -> descend_ok (descend lookup fuel) n.
Proof.
  revert n. induction fuel as [|fuel IH]; intros n Hf H1 target path Hp; [lia|].
  cbn [descend]. assert (Hw : forall s : string, triple (spf_ok 1 0) (mret s) (fun _ => spf_ok 0 0)).
  { intros s. eapply weaken_ok; [apply ret_ok|lia|lia]. }
  destruct (_ || _); [done|].
  destruct (dnsName target) as [nm|err]; [|spf_step; done].
  destruct (member _ _); [spf_step; done|].
  apply fetch_ok. intros Hl. rewrite Hp. apply IH; lia.
Qed.
End Bounds.

Lemma bind_Some {A B} (m : SpfM A) (k : A -> SpfM B) e a e' r :
  m e = Some (a, e') -> k a e' = r -> (m ≫= k) e = r.
Proof. intros Hm Hk. unfold mbind, SpfM_bind. by rewrite Hm. Qed.

(** A problem, once noted, stays noted. *)
Definition same_counts (e e' : spfEvaluator) : Prop :=
  e_lookups e' = e_lookups e /\ e_void e' = e_void e /\ e_includes e' = e_includes e /\
  e_problems e ⊆ e_problems e'.

Lemma problem_post p e : exists e', problem p e = Some (tt, e') /\ same_counts e e' /\ p ∈ e_problems e'.
Proof.
  unfold problem, modify. eexists. split; [done|].
  destruct (member p (e_problems e)) eqn:E; unfold same_counts; simpl.
  - apply member_true in E. done.
  - split_and!; try done; set_solver.
Qed.

Lemma ret_post e : exists e', (mret tt : SpfM unit) e = Some (tt, e') /\ same_counts e e'.
Proof. exists e. unfold same_counts. done. Qed.

(** The limits note what they must and leave the counts alone. *)
Lemma limits_post e : exists e', limits e = Some (tt, e') /\ same_counts e e' /\
  ((10 < e_lookups e)%nat -> over_limit (e_lookups e) ∈ e_problems e').
Proof.
  assert (H1 : exists e1, (if (spfLookupLimit <? e_lookups e)%nat then problem (over_limit (e_lookups e))
                 else mret tt) e = Some (tt, e1) /\ same_counts e e1 /\
               ((10 < e_lookups e)%nat -> over_limit (e_lookups e) ∈ e_problems e1)).
  { destruct (Nat.ltb_spec spfLookupLimit (e_lookups e)).
    - destruct (problem_post (over_limit (e_lookups e)) e) as (e1 & -> & ? & ?). eauto.
    - destruct (ret_post e) as (e1 & -> & ?). exists e1. split_and!; [done..|].
      unfold spfLookupLimit in *. lia. }
  destruct H1 as (e1 & H1 & (E1 & E2 & E3 & E4) & Hin).
  assert (H2 : forall p, exists e2, (if (spfVoidLimit <? e_void e)%nat then problem p
                 else mret tt) e1 = Some (tt, e2) /\ same_counts e1 e2).
  { intros p. destruct (spfVoidLimit <? e_void e)%nat.
    - destruct (problem_post p e1) as (e2 & -> & ? & ?). eauto.
    - apply ret_post. }
  edestruct H2 as (e2 & H3 & (F1 & F2 & F3 & F4)). exists e2. split.
  - unfold limits. eapply bind_Some; [reflexivity|]. eapply bind_Some; [exact H1|exact H3].
  - unfold same_counts. split_and!; try congruence; set_solver.
Qed.

Lemma limits_ok : triple (spf_ok 0 0) limits (fun _ => spf_ok 0 0).
Proof.
  unfold limits. eapply (triple_bind _ _ (fun _ => spf_ok 0 0)).
  { intros e He. exists e, e. done. }
  intros e. eapply (triple_bind _ _ (fun _ => spf_ok 0 0)); [|intros _];
    (match goal with |- context [if ?b then _ else _] => destruct b end; auto with spf).
Qed.

(** The computation inside [runSPF]. *)
Lemma runSPF_triple `{D : Dpdomain} lookup domain octets record (more : bool) :
  triple (spf_ok 0 0)
    ((if more then problem "multiple SPF records (permerror: SPF fails entirely)" else mret tt);;
     apexSize octets;;
     res ← walk (descend lookup spfFuel) record [bareName domain];
     let '(all, via) := res in
     (if negb (String.eqb all "") then noteAll (str_take 1 all) via else mret tt);;
     e ← get_state;
     limits;;
     mret (all, e_lookups e, e_void e, e_includes e))
    (fun '(all, l, v, inc) e => spf_ok 0 0 e /\ l = e_lookups e /\ v = e_void e /\ inc = e_includes e /\
       ((10 < e_lookups e)%nat -> over_limit (e_lookups e) ∈ e_problems e)).
Proof.
  eapply (triple_bind _ _ (fun _ => spf_ok 0 0)); [destruct more; auto with spf|intros _].
  eapply (triple_bind _ _ (fun _ => spf_ok 0 0)); [auto with spf|intros _].
  eapply (triple_bind _ _ (fun _ => spf_ok 0 0)).
  { apply walk_ok, descend_ok_fuel; simpl; unfold spfFuel; lia. }
  intros [all via]. eapply (triple_bind _ _ (fun _ => spf_ok 0 0)).
  { destruct (negb _); auto with spf. }
  intros _ e He. destruct (limits_post e) as (e' & Hl & (E1 & E2 & E3 & E4) & Hin).
  destruct (limits_ok e He) as ([] & e2 & Hl2 & Hok). rewrite Hl in Hl2. simplify_eq.
  eexists _, _. split.
  { eapply bind_Some; [reflexivity|]. eapply bind_Some; [exact Hl|reflexivity]. }
  cbv beta iota. rewrite E1. split_and!; try done; congruence.
Qed.

(** Fewer kept bits see fewer differences. *)
Lemma mask_top_coarser w b1 b2 m n :
  (b2 <= b1 <= w)%Z -> mask_top w b1 m = mask_top w b1 n -> mask_top w b2 m = mask_top w b2 n.
Proof.
  unfold mask_top. intros Hb H.
  assert (Hs : forall x y k, N.shiftl x k = N.shiftl y k -> x = y).
  { intros x y k. rewrite !N.shiftl_mul_pow2. apply N.mul_cancel_r, N.pow_nonzero. lia. }
  apply Hs in H. replace (Z.to_N (w - b2)) with (Z.to_N (w - b1) + Z.to_N (b1 - b2))%N by lia.
  rewrite <-!(N.shiftr_shiftr _ (Z.to_N (w - b1))). by rewrite H.
Qed.

(** A prefix that holds the address of a longer one holds all it holds. *)
Lemma pfx_Contains_coarser p q a :
  (pfx_bits p <= BitLen (pfx_addr p))%Z -> (pfx_bits q <= pfx_bits p)%Z ->
  pfx_Contains q (pfx_addr p) = true -> pfx_Contains p a = true -> pfx_Contains q a = true.
Proof.
  unfold pfx_Contains. intros Hp Hb Hq Ha.
  destruct ((pfx_bits q <? 0)%Z || hasZone (pfx_addr p))%bool eqn:E1; [done|].
  destruct ((pfx_bits p <? 0)%Z || hasZone a)%bool eqn:E2; [done|].
  destruct (negb (BitLen (pfx_addr q) =? BitLen (pfx_addr p))%Z) eqn:E3; [done|].
  destruct (negb (BitLen (pfx_addr p) =? BitLen a)%Z) eqn:E4; [done|].
  simp_bool. rewrite (proj2 (Z.ltb_ge _ _) H1), H0. simpl.
  rewrite E3, E4, Z.eqb_refl. simpl. apply N.eqb_eq in Hq, Ha. apply N.eqb_eq.
  rewrite <-E4, Hq. rewrite <-E4 in Ha.
  apply (mask_top_coarser _ (pfx_bits p)); [lia|done].
Qed.

Lemma spfPrefix1_bits t p : spfPrefix1 t = Some p ->
  (pfx_bits (p_prefix p) <= BitLen (pfx_addr (p_prefix p)))%Z.
Proof.
  unfold spfPrefix1. destruct (_ || _); [done|].
  destruct (prefix_or_addr _) as [r|]; simpl; [|done].
  destruct (Masked r) as [m|] eqn:E; simpl; [|done]. intros [= <-]. simpl.
  unfold Masked, addr_Prefix in E.
  destruct ((pfx_bits r <? 0) || (BitLen (pfx_addr r) <? pfx_bits r))%Z eqn:Eb; [done|].
  apply orb_false_iff in Eb as [_ Eb]. apply Z.ltb_ge in Eb.
  injection E as <-. simpl. by destruct (pfx_addr r).
Qed.

Lemma first_cover_Some prefixes i p q : first_cover prefixes i p = Some q ->
  exists j, prefixes !! j = Some q /\ covered_by i j p q = true.
Proof.
  unfold first_cover. intros H.
  assert (Hin : q ∈ omap (fun '(j, q) => if covered_by i j p q then Some q else None)
                     (zip (seq 0 (length prefixes)) prefixes)).
  { destruct (omap _ _); simplify_eq/=. set_solver. }
  apply list_elem_of_omap in Hin as ([j q'] & Hj & Hc).
  destruct (covered_by i j p q') eqn:E; simplify_eq.
  apply list_elem_of_lookup in Hj as [k Hk]. apply lookup_zip_Some in Hk as [Hs Hq].
  apply lookup_seq in Hs as [-> _]. simpl in E. eauto.
Qed.

(** The evaluation has a result. *)
Lemma evaluateSPF_Some `{D : Dpdomain} (lookup : lookupFn) (domain : string) (txt : Lookup) :
  is_Some (evaluateSPF lookup domain txt).
Proof.
  unfold evaluateSPF, evaluateSPF_state. destruct (spfRecords (l_Records txt)) as [|record more]; [done|].
  unfold runSPF.
  destruct (runSPF_triple lookup domain (udpAnswerOctets txt) record
      (match more with [] => false | _ => true end) eval_init)
      as ((((all & l) & v) & inc) & e & Hrun & _).
  { unfold spf_ok. simpl. split_and!; try lia; constructor. }
  rewrite Hrun. eauto.
Qed.

(** ** Properties *)

(** C19: Whatever the DNS answers, evaluating an SPF policy ends: the fuel of 21 levels is never used up. It fetches at most 30 included or redirected-to records, never more than the terms it counted against the limit of 10; a void answer is counted only for a record fetched; no include and no problem is listed twice; and a count over the limit is always reported as the error it is. *)
Theorem evaluateSPF_total `{D : Dpdomain} (lookup : lookupFn) (domain : string) (txt : Lookup) :
  exists res e,
    evaluateSPF_state lookup domain txt = Some (res, e) /\
    (length (e_fetched e) <= 30)%nat /\
    (length (e_fetched e) <= spf_Lookups res)%nat /\
    (spf_VoidLookups res <= length (e_fetched e))%nat /\
    NoDup (spf_Includes res) /\ NoDup (spf_Problems res) /\
    ((10 < spf_Lookups res)%nat ->
       over_limit (spf_Lookups res) ∈ spf_Problems res).
Proof.
  unfold evaluateSPF_state. destruct (spfRecords (l_Records txt)) as [|record more].
  { exists (mkSPF 0 0 0 0 "" [] []), eval_init. simpl. split_and!; try done; try lia; constructor. }
  unfold runSPF.
  destruct (runSPF_triple lookup domain (udpAnswerOctets txt) record
      (match more with [] => false | _ => true end) eval_init)
      as ((((all & l) & v) & inc) & e & Hrun & Hok & -> & -> & -> & Hlim).
  { unfold spf_ok. simpl. split_and!; try lia; constructor. }
  rewrite Hrun. destruct Hok as (H1 & H2 & H3 & H4 & H5). eexists _, e. split; [done|].
  cbn [spf_Lookups spf_VoidLookups spf_Includes spf_Problems].
  split_and!; try done; unfold spfLookupLimit in *; lia.
Qed.

(** A mechanism is named redundant only when it is: the line names an ip4 or ip6 prefix of the record and another one, at another position and with the same qualifier, that holds every address the first holds; of two equal prefixes only the later copy is named. *)
Theorem redundantIPs_sound (terms : list spfTerm) (domain msg : string) :
  msg ∈ redundantIPs terms domain ->
  exists i j p q, spfPrefixes terms !! i = Some p /\ spfPrefixes terms !! j = Some q /\ i <> j /\
    msg = p_text p +:+ " is already covered by " +:+ p_text q +:+ " in " +:+ domain /\
    p_qualifier p = p_qualifier q /\
    (forall a, pfx_Contains (p_prefix p) a = true -> pfx_Contains (p_prefix q) a = true) /\
    (p_prefix q = p_prefix p -> (j < i)%nat).
Proof.
  unfold redundantIPs. intros ([i p] & Hin & Hc)%list_elem_of_omap.
  apply list_elem_of_lookup in Hin as [k Hk]. apply lookup_zip_Some in Hk as [Hs Hp].
  apply lookup_seq in Hs as [-> _]. simpl in Hc.
  destruct (first_cover _ k p) as [q|] eqn:E; [|done]. injection Hc as <-.
  apply first_cover_Some in E as (j & Hq & Hcov). unfold covered_by in Hcov. simp_bool.
  exists k, j, p, q. split_and!; try done.
  - by apply String.eqb_eq.
  - intros a. apply pfx_Contains_coarser; try done.
    apply list_elem_of_lookup_2 in Hp. apply list_elem_of_omap in Hp as (t & _ & Ht).
    by eapply spfPrefix1_bits.
  - intros He. rewrite (bool_decide_eq_true_2 _ He) in H0. destruct H0 as [H0|H0]; [done|].
    apply Nat.ltb_ge in H0. lia.
Qed.

Lemma redundantIPs_sound_witness :
  exists i, spfPrefixes (parseSPFTerms "v=spf1 ip4:10.1.2.3 ip4:10.0.0.0/8 -all") !! i
            = Some (mkSpfPrefix "ip4:10.1.2.3" "+" (mkPrefix (V4 167838211) 32)).
Proof.
  destruct (redundantIPs_sound (parseSPFTerms "v=spf1 ip4:10.1.2.3 ip4:10.0.0.0/8 -all") "a.nl"
    "ip4:10.1.2.3 is already covered by ip4:10.0.0.0/8 in a.nl") as (i & j & p & q & Hp & Hq & Hne & _).
  - apply (bool_decide_unpack _). vm_compute. reflexivity.
  - destruct i as [|[|i]]; [exists 0%nat; reflexivity|exists 0%nat; reflexivity|].
    exists 0%nat. vm_compute. reflexivity.
Defined.
