(* ===== verification/SpfRef.v ===== *)
(** * What walking an SPF policy costs (mail.go)

    The evaluator of [Spf] counts as it walks, in a state, and gives up on a
    tree that is too large. Here is what it walks, as a recursion with no
    state that gives up on nothing: the cost of a policy, whether it holds a
    loop, and how it ends. The evaluator's counts are shown to be this cost
    for every policy near the limit; [SpfRfc] compares the cost with what RFC
    7208 counts. *)

From S2P Require Import Prelude GoStrings Netip Names Records Spf.

(** Terms counted, targets found without records, and whether a target was on
    the path that led to it. *)
Record cost := mkCost { c_lookups : nat; c_void : nat; c_loop : bool }.

Definition free : cost := mkCost 0 0 false.
Definition one_lookup : cost := mkCost 1 0 false.
Definition one_void : cost := mkCost 0 1 false.
Definition one_loop : cost := mkCost 0 0 true.

Definition plus (a b : cost) : cost :=
  mkCost (c_lookups a + c_lookups b) (c_void a + c_void b) (c_loop a || c_loop b).

Fixpoint total {A} (f : A -> cost) (l : list A) : cost :=
  match l with
  | [] => free
  | x :: l => plus (f x) (total f l)
  end.

Section Reference.
Context `{D : Dpdomain}.
Variable lookup : lookupFn.

Section Level.
(** What following a target costs, and the all it ends in, one level down. *)
Variable below : string -> list string -> cost * string.

Definition follows (t : spfTerm) (path : list string) : cost * string :=
  let '(c, all) := below (spfTarget t) path in (plus one_lookup c, all).

(** What a term of a record with the all mechanism [own] costs. *)
Definition term_cost (own : string) (path : list string) (t : spfTerm) : cost :=
  if is_redirect t then if String.eqb own "" then (follows t path).1 else free
  else if negb (modifier t) && String.eqb (name t) "include" then (follows t path).1
  else if negb (modifier t) && String.eqb (name t) "all" then free
  else if member (name t) ["a"; "mx"; "exists"; "ptr"] then one_lookup
  else free.

(** A record's all is its own or, without one, that of its last redirect. *)
Definition record_end (own : string) (path : list string) (terms : list spfTerm) : string :=
  if String.eqb own "" then
    match last (base.filter (fun t => is_redirect t = true) terms) with
    | Some t => (follows t path).2
    | None => ""
    end
  else own.

Definition record_ref (record : string) (path : list string) : cost * string :=
  let terms := parseSPFTerms record in
  let own := recordAll terms in
  (total (term_cost own path) terms, record_end own path terms).
End Level.

(** What a target that is a name not on the path costs, and ends in. *)
Definition fetch_ref (below : string -> list string -> cost * string) (target : string) (path : list string)
    : cost * string :=
  let l := lookup target "TXT" in
  if negb (Answered l) then (free, "")
  else if negb (HasRecords l) then (one_void, "")
  else match spfRecords (l_Records l) with
       | [] => (free, "")
       | record :: _ => record_ref below record (path ++ [target])
       end.

(** Following a target to the depth [d]; one on the path is not followed. *)
Fixpoint target_ref (d : nat) (target : string) (path : list string) : cost * string :=
  if Contains target "%" || String.eqb target "" then (free, "")
  else match dnsName target with
       | inr _ => (free, "")
       | inl n =>
           if member (ASCII n) path then (one_loop, "")
           else match d with
                | O => (free, "")
                | S d => fetch_ref (target_ref d) (ASCII n) path
                end
       end.

Definition policy_ref (d : nat) (domain record : string) : cost * string :=
  record_ref (target_ref d) record [bareName domain].

End Reference.

(** ** Lemmas *)

(** The depth up to which the evaluator follows a path. *)
Definition deep : nat := 20.

(** A loop was reported: the problem that report.go takes for one. *)
Definition loop_text (p : string) : bool := HasPrefix p "include loop ".

Definition looped (e : spfEvaluator) : Prop := exists p, p ∈ e_problems e /\ loop_text p = true.

(** The evaluator has gone from [e] to [e'] on what costs [c]: never more than
    that, and exactly that while few terms were counted. *)
Definition spent (c : cost) (e e' : spfEvaluator) : Prop :=
  (e_lookups e <= e_lookups e' <= e_lookups e + c_lookups c)%nat /\
  (e_void e <= e_void e' <= e_void e + c_void c)%nat /\
  (looped e' -> looped e \/ c_loop c = true) /\
  ((e_lookups e' <= deep)%nat ->
     e_lookups e' = (e_lookups e + c_lookups c)%nat /\ e_void e' = (e_void e + c_void c)%nat /\
     (looped e \/ c_loop c = true -> looped e')).

(** A computation costs [c] and ends in an [a] that satisfies [Q], unless too
    much was counted; started with [p] terms counted at least. *)
Definition costs {A} (p : nat) (c : cost) (Q : A -> Prop) (m : SpfM A) : Prop :=
  forall e a e', (p <= e_lookups e)%nat -> m e = Some (a, e') ->
    spent c e e' /\ ((e_lookups e' <= deep)%nat -> Q a).

Lemma spent_plus c1 c2 e e1 e2 : spent c1 e e1 -> spent c2 e1 e2 -> spent (plus c1 c2) e e2.
Proof.
  unfold spent, plus. cbn. rewrite orb_true_iff. intros (H1 & H2 & H3 & H4) (H5 & H6 & H7 & H8).
  split_and!; try lia; [tauto|]. intros Hd. destruct (H8 Hd) as (E1 & E2 & Hl). destruct H4 as (E3 & E4 & Hl'); [lia|].
  split_and!; [lia|lia|tauto].
Qed.

Lemma spent_free e : spent free e e.
Proof. unfold spent. cbn. split_and!; try lia; [by left|]. intros _. split_and!; [lia|lia|]. by intros [?|?]. Qed.

Lemma costs_ret {A} p (a : A) (Q : A -> Prop) : Q a -> costs p free Q (mret a).
Proof. intros H e x e' _ [= <- <-]. by split; [apply spent_free|]. Qed.

Lemma costs_bind {A B} p c1 c2 (Q : A -> Prop) (R : B -> Prop) (m : SpfM A) (k : A -> SpfM B) :
  costs p c1 Q m -> (forall a, costs p c2 (fun b => Q a -> R b) (k a)) -> costs p (plus c1 c2) R (m ≫= k).
Proof.
  intros Hm Hk e b e' Hp. unfold mbind, SpfM_bind. destruct (m e) as [[a e1]|] eqn:E1; [|done].
  destruct (Hm e a e1 Hp E1) as [H1 HQ]. intros E2.
  assert (p <= e_lookups e1)%nat as Hp1 by (unfold spent in H1; lia).
  destruct (Hk a e1 b e' Hp1 E2) as [H2 HR]. split; [by eapply spent_plus|].
  intros H. apply HR; [done|]. apply HQ. unfold spent in H2. lia.
Qed.

Lemma costs_conseq {A} p p' c c' (Q Q' : A -> Prop) (m : SpfM A) :
  costs p c Q m -> (p <= p')%nat -> c = c' -> (forall a, Q a -> Q' a) -> costs p' c' Q' m.
Proof. intros H Hp <- HQ e a e' He E. destruct (H e a e') as [H1 H2]; [lia|done|]. auto. Qed.

Lemma plus_free_l c : plus free c = c.
Proof. by destruct c. Qed.

Lemma plus_free_r c : plus c free = c.
Proof. destruct c. unfold plus, free. cbn. by rewrite !Nat.add_0_r, orb_false_r. Qed.

(** A computation that costs nothing, then one that does, and the reverse. *)
Lemma costs_then {A} p c (R : A -> Prop) (m : SpfM unit) (k : SpfM A) :
  costs p free (fun _ => True) m -> costs p c R k -> costs p c R (m;; k).
Proof.
  intros Hm Hk. rewrite <-(plus_free_l c). eapply costs_bind; [exact Hm|]. intros [].
  eapply costs_conseq; [exact Hk|done|done|auto].
Qed.

Lemma costs_modify p f (c : cost) :
  (forall e, e_lookups (f e) = (e_lookups e + c_lookups c)%nat /\ e_void (f e) = (e_void e + c_void c)%nat /\
     (looped (f e) <-> looped e \/ c_loop c = true)) ->
  costs p c (fun _ => True) (modify f).
Proof.
  intros Hf e a e' _ [= _ <-]. destruct (Hf e) as (H1 & H2 & H3). unfold spent. rewrite H1, H2. intuition lia.
Qed.

Lemma costs_silent p f (c : cost) :
  (forall e, e_lookups (f e) = (e_lookups e + c_lookups c)%nat /\ e_void (f e) = (e_void e + c_void c)%nat /\
     e_problems (f e) = e_problems e) ->
  c_loop c = false -> costs p c (fun _ => True) (modify f).
Proof.
  intros Hf Hc. apply costs_modify. intros e. destruct (Hf e) as (-> & -> & E). unfold looped. rewrite E, Hc.
  split_and!; [done..|]. split; [by left|]. by intros [?|?].
Qed.

Lemma costs_problem_is p s c :
  c_lookups c = 0%nat -> c_void c = 0%nat -> loop_text s = c_loop c -> costs p c (fun _ => True) (problem s).
Proof.
  intros H1 H2 Hs. apply costs_modify. intros e. rewrite H1, H2, !Nat.add_0_r, <-Hs.
  destruct (member s (e_problems e)) eqn:Em; cbn [e_lookups e_void]; split_and!; try done; split.
  - by left.
  - intros [?|Hl]; [done|]. exists s. by apply member_true in Em.
  - intros (q & [Hq| ->%list_elem_of_singleton]%elem_of_app & Hl); [left; by exists q|by right].
  - intros [(q & Hq & Hl)|Hl]; [exists q|exists s]; cbn; set_solver.
Qed.

Lemma costs_problem p s : loop_text s = false -> costs p free (fun _ => True) (problem s).
Proof. intros H. by apply costs_problem_is. Qed.

Lemma costs_loop p s : costs p one_loop (fun _ => True) (problem ("include loop " +:+ s)).
Proof. by apply costs_problem_is; [..|apply HasPrefix_app]. Qed.

Lemma costs_noteInclude p s : costs p free (fun _ => True) (noteInclude s).
Proof. apply costs_silent; [|done]. intros e. destruct (member _ _); cbn; auto with lia. Qed.

Lemma costs_count_lookup p : costs p one_lookup (fun _ => True) count_lookup.
Proof. apply costs_silent; [|done]. intros e. cbn. auto with lia. Qed.

Lemma costs_count_void p : costs p one_void (fun _ => True) count_void.
Proof. apply costs_silent; [|done]. intros e. cbn. auto with lia. Qed.

Lemma costs_get_state p : costs p free (fun _ => True) get_state.
Proof. intros e a e' _ [= _ <-]. by split; [apply spent_free|]. Qed.

Lemma costs_unit p : costs p free (fun _ => True) (mret tt).
Proof. by apply costs_ret. Qed.

(** A problem that starts with a number speaks of no loop. *)
Lemma number_no_loop n s : loop_text (itoa n +:+ s) = false.
Proof.
  unfold itoa. destruct (pretty_N_digits (N.of_nat n)) as (Hd & _ & Hne).
  change (pretty n) with (pretty (N.of_nat n)). destruct (pretty (N.of_nat n)) as [|c t]; [done|].
  apply andb_prop in Hd as [Hd _]. unfold loop_text.
  change (HasPrefix (String c t +:+ s) "include loop ") with (Ascii.eqb "i"%char c && HasPrefix (t +:+ s) "nclude loop ").
  destruct (Ascii.eqb_spec "i"%char c) as [<-|]; [discriminate Hd|done].
Qed.

#[local] Hint Extern 1 (loop_text _ = false) => reflexivity : costs.
#[local] Hint Resolve costs_problem costs_loop costs_noteInclude costs_count_lookup costs_count_void costs_unit
  number_no_loop : costs.

(** The target of a counted term is followed with one more term counted. *)
Lemma costs_counted {A} p c (R : A -> Prop) (k : SpfM A) :
  costs (S p) c R k -> costs p (plus one_lookup c) R (count_lookup;; k).
Proof.
  intros Hk e a e' Hp. unfold count_lookup, modify, mbind, SpfM_bind. intros E.
  apply Hk in E as [H1 H2]; [|cbn; lia]. split; [|exact H2].
  apply (spent_plus _ _ _ (mkEval (S (e_lookups e)) (e_void e) (e_includes e) (e_problems e) (e_fetched e))); [|exact H1].
  unfold spent, looped. cbn. split_and!; try lia; [by left|]. intros _. split_and!; [lia|lia|]. by intros [?|?].
Qed.

Lemma costs_noteAll p q via : costs p free (fun _ => True) (noteAll q via).
Proof. unfold noteAll. repeat case_match; auto with costs. Qed.

Lemma costs_apexSize p n : costs p free (fun _ => True) (apexSize n).
Proof. unfold apexSize. repeat case_match; auto with costs. Qed.

Lemma costs_includeSize p s l : costs p free (fun _ => True) (includeSize s l).
Proof. unfold includeSize. repeat case_match; auto with costs. Qed.

Lemma costs_all_problems p ps :
  Forall (fun q => loop_text q = false) ps -> costs p free (fun _ => True) (all_problems ps).
Proof. induction 1 as [|q ps Hq _ IH]; cbn; [auto with costs|]. by apply costs_then; auto with costs. Qed.

(** A redundant prefix is reported with its name first. *)
Lemma redundant_no_loop terms d : Forall (fun q => loop_text q = false) (redundantIPs terms d).
Proof.
  apply Forall_forall. intros q Hq. unfold redundantIPs in Hq. apply list_elem_of_omap in Hq as ([i p] & Hin & Hp).
  assert (p ∈ spfPrefixes terms) as Hpre by (by eapply elem_of_zip_r).
  apply list_elem_of_omap in Hpre as (t & _ & Ht). unfold spfPrefix1 in Ht.
  destruct (modifier t || negb (member (name t) ["ip4"; "ip6"])) eqn:Em; [done|].
  apply orb_false_iff in Em as [_ Em]. apply negb_false_iff, member_true in Em.
  destruct (prefix_or_addr _) as [pre|]; [|done]. cbn in Ht. destruct (Masked pre) as [m|]; [|done]. injection Ht as <-.
  destruct (first_cover _ _ _); [|done]. injection Hp as <-. cbn [p_text].
  by apply elem_of_cons in Em as [->| ->%list_elem_of_singleton].
Qed.

#[local] Hint Resolve costs_noteAll costs_apexSize costs_includeSize costs_all_problems redundant_no_loop : costs.

(** ** The levels *)

Section Levels.
Context `{D : Dpdomain}.
Variable lookup : lookupFn.

(** The evaluator follows the targets of a path as the reference does. *)
Definition follows_ref (desc : string -> list string -> SpfM string)
    (below : string -> list string -> cost * string) (path : list string) : Prop :=
  forall target, costs (length path) (below target path).1 (fun a => a = (below target path).2) (desc target path).

Lemma redirect_costs desc below t path p :
  follows_ref desc below path -> (length path <= S p)%nat ->
  costs p (follows below t path).1 (fun r => r.1 = (follows below t path).2) (redirect desc t path).
Proof.
  intros Hd Hp. unfold redirect, follows. specialize (Hd (spfTarget t)).
  destruct (below (spfTarget t) path) as [c all]. cbn [fst snd] in *.
  apply costs_counted. rewrite <-(plus_free_r c). eapply costs_bind; [eapply costs_conseq; [exact Hd|lia|done|]|].
  { intros a H. exact H. }
  intros a. cbv beta. apply costs_ret. intros ->. destruct (String.eqb_spec all ""); cbn; congruence.
Qed.

Lemma term_costs t d p :
  negb (modifier t) && String.eqb (name t) "include" = false -> negb (modifier t) && String.eqb (name t) "all" = false ->
  is_redirect t = false ->
  costs p (if member (name t) ["a"; "mx"; "exists"; "ptr"] then one_lookup else free) (fun _ => True) (term t d).
Proof.
  intros _ _ _. unfold term. destruct (member (name t) ["a"; "mx"; "exists"]) eqn:E1.
  - assert (member (name t) ["a"; "mx"; "exists"; "ptr"] = true) as -> by (apply member_true in E1; apply member_true; set_solver).
    auto with costs.
  - apply member_false in E1. destruct (String.eqb_spec (name t) "ptr") as [E2|E2].
    + rewrite E2. change (member "ptr" _) with true. cbn. rewrite <-(plus_free_r one_lookup).
      eapply costs_bind; [apply costs_count_lookup|]. intros []. eapply costs_conseq; [by apply costs_problem|done|done|auto].
    + assert (member (name t) ["a"; "mx"; "exists"; "ptr"] = false) as -> by (apply member_false; set_solver).
      destruct (_ || _); auto with costs.
Qed.

Lemma mechanism_costs desc below own t path p :
  follows_ref desc below path -> (length path <= S p)%nat -> is_redirect t = false ->
  costs p (term_cost below own path t) (fun _ => True) (mechanism desc t path).
Proof.
  intros Hd Hp Hr. unfold mechanism, term_cost. rewrite Hr, !(andb_comm (negb (modifier t))).
  destruct (String.eqb (name t) "include" && negb (modifier t)) eqn:Ei.
  - unfold follows. specialize (Hd (spfTarget t)). destruct (below (spfTarget t) path) as [c all]. cbn [fst] in *.
    apply costs_counted. rewrite <-(plus_free_r c). apply (costs_bind _ _ _ (fun _ => True)); [eapply costs_conseq; [exact Hd|lia|done|auto]|].
    intros a. apply (costs_conseq (S p) (S p) free free (fun _ => True)); [|done|done|auto]. destruct (String.eqb a "+all"); auto with costs.
  - destruct (String.eqb (name t) "all" && negb (modifier t)) eqn:Ea; [auto with costs|].
    apply term_costs; [by rewrite andb_comm|by rewrite andb_comm|done].
Qed.

Lemma walk_terms_costs desc below own path terms res p :
  follows_ref desc below path -> (length path <= S p)%nat ->
  costs p (total (term_cost below own path) terms)
    (fun r => r.1 = if String.eqb own "" then
                      match last (base.filter (fun t => is_redirect t = true) terms) with
                      | Some t => (follows below t path).2
                      | None => res.1
                      end
                    else res.1) (walk_terms desc own path terms res).
Proof.
  intros Hd Hp. revert res. induction terms as [|t terms IH]; intros res; cbn [walk_terms total].
  { apply costs_ret. by destruct (String.eqb own ""). }
  rewrite filter_cons. destruct (is_redirect t) eqn:Er; cbn [negb].
  - unfold term_cost at 1. rewrite Er. rewrite decide_True by done. destruct (String.eqb own "") eqn:Eo.
    + eapply costs_bind; [by apply redirect_costs|]. intros r. cbv beta.
      eapply costs_conseq; [apply (IH r)|done|done|]. intros a -> Hr. cbn beta. rewrite last_cons.
      destruct (last _); [done|exact Hr].
    + rewrite plus_free_l. eapply costs_conseq; [apply (IH res)|done|done|auto].
  - rewrite decide_False by (by rewrite Er || done). eapply costs_bind; [by apply mechanism_costs|].
    intros []. eapply costs_conseq; [apply (IH res)|done|done|auto].
Qed.

Lemma walk_costs desc below record path p :
  follows_ref desc below path -> (length path <= S p)%nat ->
  costs p (record_ref below record path).1 (fun r => r.1 = (record_ref below record path).2) (walk desc record path).
Proof.
  intros Hd Hp. unfold walk, record_ref. cbn [fst snd]. apply costs_then; [auto with costs|].
  rewrite <-(plus_free_r (total _ _)).
  eapply costs_bind; [by apply (walk_terms_costs _ below)|]. intros r. cbv beta.
  apply costs_then; [destruct (_ && _); auto with costs|].
  apply costs_ret. intros ->. unfold record_end.
  destruct (String.eqb_spec (recordAll (parseSPFTerms record)) "") as [E|E]; [|done].
  by destruct (last _).
Qed.

(** Stopping with too much counted costs whatever is claimed. *)
Lemma costs_stop {A} c (Q : A -> Prop) (a b : A) e e' :
  (deep < e_lookups e)%nat -> (mret a : SpfM A) e = Some (b, e') -> spent c e e' /\ ((e_lookups e' <= deep)%nat -> Q b).
Proof. intros H [= <- <-]. unfold spent. split_and!; try lia. by left. Qed.

(** The part of [fetch] after the check of the two bounds on the walk. *)
Lemma asked_costs desc below target path :
  follows_ref desc below (path ++ [target]) ->
  costs (length path) (fetch_ref lookup below target path).1 (fun a => a = (fetch_ref lookup below target path).2)
    (modify (fun e => mkEval (e_lookups e) (e_void e) (e_includes e) (e_problems e) (e_fetched e ++ [target]));;
     let l := lookup target "TXT" in
     if negb (Answered l) then
       problem ("include:" +:+ target +:+ " could not be checked: its TXT lookup did not complete");; mret ""
     else if negb (HasRecords l) then
       count_void;; problem ("include:" +:+ target +:+ " has no SPF record");; mret ""
     else match spfRecords (l_Records l) with
          | [] => problem ("include:" +:+ target +:+ " has no SPF record");; mret ""
          | rec :: _ => includeSize target l;; res ← walk desc rec (path ++ [target]); mret (fst res)
          end).
Proof.
  intros Hd. apply costs_then; [apply costs_silent; [intros e; cbn; auto with lia|done]|]. unfold fetch_ref. cbv zeta.
  destruct (negb (Answered _)); [apply costs_then; [auto with costs|by apply costs_ret]|].
  destruct (negb (HasRecords _)).
  { rewrite <-(plus_free_r one_void). eapply costs_bind; [apply costs_count_void|]. intros [].
    apply costs_then; [auto with costs|by apply costs_ret]. }
  destruct (spfRecords _) as [|record more]; [apply costs_then; [auto with costs|by apply costs_ret]|].
  apply costs_then; [auto with costs|]. rewrite <-(plus_free_r (record_ref _ _ _).1).
  eapply costs_bind; [apply (walk_costs _ below); [done|rewrite length_app; cbn; lia]|].
  intros r. cbv beta. by apply costs_ret.
Qed.

Lemma fetch_over desc target path c (Q : string -> Prop) :
  (20 < length path)%nat -> costs (length path) c Q (fetch lookup desc target path).
Proof.
  intros Hp. unfold fetch. apply costs_then; [auto with costs|].
  intros e a e' He. unfold mbind at 1, SpfM_bind at 1, get_state at 1.
  rewrite (proj2 (Nat.ltb_lt _ _) Hp), orb_true_r. apply costs_stop. unfold deep. lia.
Qed.

Lemma fetch_costs desc below target path :
  ((length path <= 20)%nat -> follows_ref desc below (path ++ [target])) ->
  costs (length path) (fetch_ref lookup below target path).1
    (fun a => a = (fetch_ref lookup below target path).2) (fetch lookup desc target path).
Proof.
  destruct (Nat.ltb_spec 20 (length path)); [intros _; by apply fetch_over|]. intros Hd.
  unfold fetch. apply costs_then; [auto with costs|].
  intros e a e' He. unfold mbind at 1, SpfM_bind at 1, get_state at 1.
  destruct (Nat.ltb_spec (spfLookupLimit * 3) (e_lookups e)) as [Hl|_]; cbn [orb].
  { apply (costs_stop _ (fun a => a = (fetch_ref lookup below target path).2)).
    unfold spfLookupLimit, deep in *. lia. }
  destruct (Nat.ltb_spec 20 (length path)); [lia|]. apply asked_costs; [by apply Hd|done].
Qed.

(** A target is followed as the reference does, the depth left being what the
    code's bound on the path leaves. *)
Lemma descend_costs fuel d path :
  (21 <= d + length path)%nat -> follows_ref (descend lookup fuel) (target_ref lookup d) path.
Proof.
  revert d path. induction fuel as [|fuel IH]; intros d path Hd target; [intros e a e' _; discriminate|].
  cbn [descend].
  assert (E : target_ref lookup d target path =
    if Contains target "%" || String.eqb target "" then (free, "")
    else match dnsName target with
         | inr _ => (free, "")
         | inl n => if member (ASCII n) path then (one_loop, "")
                    else match d with O => (free, "") | S d => fetch_ref lookup (target_ref lookup d) (ASCII n) path end
         end) by by destruct d.
  rewrite E. clear E. destruct (_ || _); [by apply costs_ret|].
  destruct (dnsName target) as [n|err]; [|apply costs_then; [auto with costs|by apply costs_ret]].
  destruct (member (ASCII n) path).
  { rewrite <-(plus_free_r one_loop). eapply costs_bind; [apply costs_loop|]. intros []. by apply costs_ret. }
  destruct d as [|d]; [apply fetch_over; lia|].
  apply fetch_costs. intros _. apply IH. rewrite length_app. cbn. lia.
Qed.

(** What [runSPF] does around the walk costs nothing. *)
Lemma limits_costs p : costs p free (fun _ => True) limits.
Proof.
  unfold limits. rewrite <-(plus_free_l free). eapply costs_bind; [apply costs_get_state|]. intros e0.
  eapply costs_conseq; [|done|done|auto].
  apply costs_then; [unfold over_limit|]; case_goal; auto with costs.
Qed.
End Levels.

(** What [runSPF] computes costs what its walk does. *)
Lemma run_costs `{D : Dpdomain} lookup domain octets record (m : bool) c all :
  costs 0 c (fun r : string * string => r.1 = all) (walk (descend lookup spfFuel) record [bareName domain]) ->
  costs 0 c (fun x : string * nat * nat * list string => x.1.1.1 = all)
    ((if m then problem "multiple SPF records (permerror: SPF fails entirely)" else mret tt);;
     apexSize octets;;
     res ← walk (descend lookup spfFuel) record [bareName domain];
     let '(all, via) := res in
     (if negb (String.eqb all "") then noteAll (str_take 1 all) via else mret tt);;
     e ← get_state;
     limits;;
     mret (all, e_lookups e, e_void e, e_includes e)).
Proof.
  intros Hw. apply costs_then; [destruct m; auto with costs|]. apply costs_then; [auto with costs|].
  rewrite <-(plus_free_r c). eapply costs_bind; [exact Hw|]. intros [a via]. cbn [fst].
  apply costs_then; [destruct (negb _); auto with costs|].
  intros e x e' He. unfold mbind at 1, SpfM_bind at 1, get_state at 1.
  apply (costs_then 0 free (fun x => a = all -> x.1.1.1 = all) limits (mret (a, e_lookups e, e_void e, e_includes e)));
    [apply limits_costs|by apply costs_ret|done].
Qed.

(** The problems of a result name a loop. *)
Definition reports_loop (res : SPFResult) : Prop := exists p, p ∈ spf_Problems res /\ loop_text p = true.

(** ** The evaluator's counts *)

(** The evaluator counts no more terms and void targets than the walk costs,
    and reports no other loop; while it counts at most 20 terms, so for every
    policy near the limit, it counts exactly as many, ends in the same all
    mechanism and reports the loops there are. What it gives up on, a path of
    more than 20 names or 30 terms counted, is over the limit already. *)
Lemma evaluateSPF_counts `{D : Dpdomain} (lookup : lookupFn) (domain record : string) (txt : Lookup)
    (more : list string) (d : nat) (res : SPFResult) :
  spfRecords (l_Records txt) = record :: more -> (20 <= d)%nat -> evaluateSPF lookup domain txt = Some res ->
  let '(c, all) := policy_ref lookup d domain record in
  ((spf_Lookups res <= c_lookups c)%nat /\ (spf_VoidLookups res <= c_void c)%nat /\
   (reports_loop res -> c_loop c = true)) /\
  ((spf_Lookups res <= 20)%nat ->
     spf_Lookups res = c_lookups c /\ spf_VoidLookups res = c_void c /\ spf_All res = all /\
     (c_loop c = true -> reports_loop res)) /\
  ((10 < spf_Lookups res)%nat <-> (10 < c_lookups c)%nat) /\
  ((10 < spf_Lookups res)%nat -> over_limit (spf_Lookups res) ∈ spf_Problems res).
Proof.
  intros Hr Hd. unfold evaluateSPF, evaluateSPF_state, runSPF. rewrite Hr.
  set (m := match more with [] => false | _ => true end).
  pose proof (walk_costs (descend lookup spfFuel) (target_ref lookup d) record [bareName domain] 0
    (descend_costs lookup spfFuel d [bareName domain] ltac:(cbn; lia)) ltac:(cbn; lia)) as Hw.
  unfold policy_ref. destruct (record_ref _ record _) as [c all]. cbn [fst snd] in Hw.
  destruct (runSPF_triple lookup domain (udpAnswerOctets txt) record m eval_init)
    as ((((a & l) & v) & inc) & e & Hrun & _ & -> & -> & -> & Hlim).
  { unfold spf_ok. cbn. split_and!; try lia; constructor. }
  rewrite Hrun. intros [= <-]. unfold reports_loop. cbn [spf_Lookups spf_VoidLookups spf_All spf_Problems].
  eapply (run_costs lookup domain (udpAnswerOctets txt) record m c all) in Hrun as [H1 H2]; [|exact Hw|cbn; lia].
  unfold spent, deep in *. cbn [e_lookups e_void fst eval_init] in *. destruct H1 as (H1 & H3 & H4 & H5).
  assert (Hno : ~ looped eval_init) by (intros (p & Hp & _); cbn in Hp; set_solver).
  assert (Hc : (e_lookups e <= 20)%nat -> e_lookups e = c_lookups c) by (intros H; by destruct (H5 H)).
  split_and!; [lia|lia|by intros [?|?]%H4| |lia|exact Hlim].
  intros H. specialize (H2 H). destruct (H5 H) as (E1 & E2 & Hl). split_and!; [lia|lia|done|intros Hc'; apply Hl; by right].
Qed.
