(* ===== verification/SpfRfc.v ===== *)
(** * The lookup limit of RFC 7208: a reference for Spf

    What RFC 7208 (4.6.4) counts, for a sender that no mechanism but all
    matches: include, a, mx, ptr and exists up to the first all, the redirect
    of a record without all, and the same of every policy these lead to. It
    knows no path and cuts no loop: a policy that leads back to itself costs
    more the deeper one looks. A policy that cannot be had, for want of an
    answer or of exactly one record, costs nothing below it, and the count
    goes on behind it, where the RFC ends in an error. A target that is a
    macro is the one lookup it is: what it leads to depends on the message.
    The void lookups are those of the targets' policies: like mail.go, the
    reference asks for no addresses. *)

From S2P Require Import Prelude GoStrings Netip Names Records Spf SpfRef.

(** ** The reference *)

Definition is_all (t : spfTerm) : bool := String.eqb (name t) "all" && negb (modifier t).

Definition is_include (t : spfTerm) : bool := String.eqb (name t) "include" && negb (modifier t).

(** What is tested: all always matches, so nothing behind it is (5.1). *)
Fixpoint before_all (terms : list spfTerm) : list spfTerm :=
  match terms with
  | [] => []
  | t :: terms => if is_all t then [] else t :: before_all terms
  end.

Fixpoint after_all (terms : list spfTerm) : list spfTerm :=
  match terms with
  | [] => []
  | t :: terms => if is_all t then terms else after_all terms
  end.

Section Rfc.
Context `{D : Dpdomain}.
Variable lookup : lookupFn.

(** The name a target is, when it can be known without a message. *)
Definition known_name (target : string) : option string :=
  if Contains target "%" || String.eqb target "" then None
  else match dnsName target with
       | inl n => Some (ASCII n)
       | inr _ => None
       end.

(** The policy a name publishes: exactly one record (4.5). *)
Definition policy_of (n : string) : option string :=
  let l := lookup n "TXT" in
  if Answered l && HasRecords l
  then match spfRecords (l_Records l) with
       | [record] => Some record
       | _ => None
       end
  else None.

Section Level.
Variable below : string -> cost * string.

Definition rfc_mechanism (t : spfTerm) : cost :=
  if modifier t then free
  else if String.eqb (name t) "include" then plus one_lookup (below (spfTarget t)).1
  else if member (name t) ["a"; "mx"; "ptr"; "exists"] then one_lookup
  else free.

Definition rfc_redirect (terms : list spfTerm) : cost * string :=
  match List.find is_redirect terms with
  | Some t => let b := below (spfTarget t) in (plus one_lookup b.1, b.2)
  | None => (free, "")
  end.

Definition rfc_record (record : string) : cost * string :=
  let terms := parseSPFTerms record in
  let c := total rfc_mechanism (before_all terms) in
  match List.find is_all terms with
  | Some t => (c, qualifier t +:+ "all")
  | None => let r := rfc_redirect terms in (plus c r.1, r.2)
  end.
End Level.

Fixpoint rfc_name (d : nat) (n : string) : cost * string :=
  match d with
  | O => (free, "")
  | S d =>
      match policy_of n with
      | Some record =>
          rfc_record (fun target => match known_name target with Some m => rfc_name d m | None => (free, "") end) record
      | None => let l := lookup n "TXT" in (if Answered l && negb (HasRecords l) then one_void else free, "")
      end
  end.

Definition rfc_target (d : nat) (target : string) : cost * string :=
  match known_name target with Some m => rfc_name d m | None => (free, "") end.

(** A policy and those it leads to, [d] levels of them. *)
Definition rfc_policy (d : nat) (record : string) : cost * string := rfc_record (rfc_target d) record.

(** ** Policies written as intended *)

(** No modifier with the name of a mechanism that asks the DNS, one redirect
    at most, and nothing but modifiers behind the all. *)
Definition tidy_terms (terms : list spfTerm) : bool :=
  forallb (fun t => negb (modifier t && member (name t) ["a"; "mx"; "exists"; "ptr"])) terms &&
  (length (base.filter (fun t => is_redirect t = true) terms) <=? 1)%nat &&
  forallb modifier (after_all terms).

Definition tidy_record (below : string -> bool) (record : string) : bool :=
  let terms := parseSPFTerms record in
  tidy_terms terms && forallb (fun t => negb (is_include t || is_redirect t) || below (spfTarget t)) terms.

Fixpoint tidy_name (d : nat) (n : string) : bool :=
  match d with
  | O => true
  | S d =>
      (length (spfRecords (l_Records (lookup n "TXT"))) <=? 1)%nat &&
      match policy_of n with
      | Some record => tidy_record (fun target => match known_name target with Some m => tidy_name d m | None => true end) record
      | None => true
      end
  end.

Definition tidy_target (d : nat) (target : string) : bool :=
  match known_name target with Some m => tidy_name d m | None => true end.

Definition tidy_policy (d : nat) (record : string) : bool := tidy_record (tidy_target d) record.
End Rfc.

(** ** Lemmas *)

Lemma recordAll_find terms :
  recordAll terms = match List.find is_all terms with Some t => qualifier t +:+ "all" | None => "" end.
Proof.
  unfold recordAll. induction terms as [|t terms IH]; [done|]. cbn [List.find]. destruct (is_all t) eqn:E.
  - by rewrite filter_cons_True by exact E.
  - rewrite filter_cons_False by (unfold is_all in E; by rewrite E). exact IH.
Qed.

Lemma all_nonempty q : String.eqb (q +:+ "all") "" = false.
Proof. by destruct q. Qed.

Lemma recordAll_own terms :
  String.eqb (recordAll terms) "" = match List.find is_all terms with Some _ => false | None => true end.
Proof. rewrite recordAll_find. destruct (List.find _ _); [apply all_nonempty|done]. Qed.

Lemma before_all_whole terms : List.find is_all terms = None -> before_all terms = terms.
Proof. induction terms as [|t terms IH]; [done|]. cbn. destruct (is_all t); [done|]. intros H. by rewrite IH. Qed.

Definition cost_le (a b : cost) : Prop := (c_lookups a <= c_lookups b)%nat /\ (c_void a <= c_void b)%nat.

Lemma cost_le_refl a : cost_le a a.
Proof. done. Qed.

Lemma cost_le_free a : cost_le free a.
Proof. unfold cost_le. cbn. lia. Qed.

Lemma cost_le_plus a b a' b' : cost_le a a' -> cost_le b b' -> cost_le (plus a b) (plus a' b').
Proof. unfold cost_le. cbn. lia. Qed.

Lemma cost_le_mid a b c x y :
  cost_le b y -> cost_le (plus a c) x -> cost_le (plus (plus b a) c) (plus y x).
Proof. unfold cost_le. cbn. lia. Qed.

#[local] Hint Resolve cost_le_refl cost_le_free cost_le_plus : core.

Lemma plus_loop a b : c_loop (plus a b) = false <-> c_loop a = false /\ c_loop b = false.
Proof. apply orb_false_iff. Qed.

(** What the walk costs against what is counted: no less without a loop; and
    for tidy policies no more, with the same end when there is no loop. *)
Definition agrees (tidy : bool) (x y : cost * string) : Prop :=
  (c_loop x.1 = false -> cost_le y.1 x.1) /\
  (tidy = true -> cost_le x.1 y.1 /\ (c_loop x.1 = false -> x.2 = y.2)).

Section Record.
Variable code : string -> list string -> cost * string.
Variable rfc : string -> cost * string.
Variable tidy : string -> bool.
Variable path : list string.
Hypothesis below : forall target, agrees (tidy target) (code target path) (rfc target).

Local Notation counted own := (total (term_cost code own path)).
Local Notation tested := (total (rfc_mechanism rfc)).

Lemma follows_cost t : (follows code t path).1 = plus one_lookup (code (spfTarget t) path).1.
Proof. unfold follows. by destruct (code _ _). Qed.

Lemma follows_end t : (follows code t path).2 = (code (spfTarget t) path).2.
Proof. unfold follows. by destruct (code _ _). Qed.

(** *** No less is counted *)

Lemma term_no_less own t : c_loop (term_cost code own path t) = false -> cost_le (rfc_mechanism rfc t) (term_cost code own path t).
Proof.
  unfold rfc_mechanism, term_cost, is_redirect. destruct (modifier t); [auto|]. rewrite andb_false_r. cbn [negb andb].
  destruct (String.eqb_spec (name t) "include") as [Hi|Hi].
  - rewrite follows_cost, plus_loop. intros [_ H]. apply cost_le_plus; [done|]. by apply below.
  - destruct (String.eqb_spec (name t) "all") as [Ha|Ha]; [rewrite Ha; auto|]. intros _.
    destruct (member (name t) ["a"; "mx"; "ptr"; "exists"]) eqn:E; [|auto].
    apply member_true in E.
    assert (member (name t) ["a"; "mx"; "exists"; "ptr"] = true) as -> by (apply member_true; set_solver). done.
Qed.

Lemma terms_no_less own terms :
  c_loop (counted own terms) = false -> cost_le (tested (before_all terms)) (counted own terms).
Proof.
  induction terms as [|t terms IH]; cbn [total before_all]; [done|]. rewrite plus_loop. intros [H1 H2].
  destruct (is_all t); [auto|]. cbn [total]. apply cost_le_plus; [by apply term_no_less|by apply IH].
Qed.

Lemma redirects_no_less terms :
  List.find is_all terms = None -> c_loop (counted "" terms) = false ->
  cost_le (plus (tested terms) (rfc_redirect rfc terms).1) (counted "" terms).
Proof.
  induction terms as [|t terms IH]; cbn [total List.find]; [auto|]. destruct (is_all t); [done|].
  rewrite plus_loop. intros Ha [H1 H2]. unfold rfc_redirect. cbn [List.find]. destruct (is_redirect t) eqn:Er.
  - cbn [fst]. pose proof (terms_no_less "" terms H2) as Hle. rewrite before_all_whole in Hle by done.
    assert (rfc_mechanism rfc t = free) as ->.
    { unfold is_redirect in Er. apply andb_true_iff in Er as [_ E]. unfold rfc_mechanism. by rewrite E. }
    rewrite plus_free_l. assert (Et : term_cost code "" path t = plus one_lookup (code (spfTarget t) path).1)
      by (unfold term_cost; rewrite Er; apply follows_cost).
    rewrite Et in *. apply plus_loop in H1 as [_ H1]. specialize (below (spfTarget t)) as [Hb _].
    specialize (Hb H1). unfold cost_le in *. cbn in *. lia.
  - fold (rfc_redirect rfc terms). specialize (IH Ha H2). pose proof (term_no_less "" t H1). unfold cost_le in *. cbn in *. lia.
Qed.

(** *** For tidy policies, no more is *)

Definition tidy_term (t : spfTerm) : bool :=
  negb (modifier t && member (name t) ["a"; "mx"; "exists"; "ptr"]) &&
  (negb (is_include t || is_redirect t) || tidy (spfTarget t)).

Lemma term_no_more own t :
  tidy_term t = true -> is_redirect t = false \/ own <> "" -> cost_le (term_cost code own path t) (rfc_mechanism rfc t).
Proof.
  unfold tidy_term, rfc_mechanism, term_cost. rewrite andb_true_iff. intros [Hm Ht] Hr.
  destruct (is_redirect t) eqn:Er.
  { destruct Hr as [|Ho]; [done|]. rewrite (proj2 (String.eqb_neq _ _) Ho). auto. }
  unfold is_include in Ht. destruct (modifier t); cbn [negb andb] in *.
  { apply negb_true_iff in Hm. rewrite Hm. auto. }
  rewrite andb_true_r in Ht. destruct (String.eqb_spec (name t) "include") as [Hi|Hi].
  - rewrite follows_cost. cbn [negb orb] in Ht. apply cost_le_plus; [done|]. by apply below.
  - destruct (String.eqb_spec (name t) "all") as [Ha|Ha]; [rewrite Ha; auto|].
    destruct (member (name t) ["a"; "mx"; "exists"; "ptr"]) eqn:E; [|auto].
    apply member_true in E.
    assert (member (name t) ["a"; "mx"; "ptr"; "exists"] = true) as -> by (apply member_true; set_solver). done.
Qed.

Lemma modifiers_free own terms :
  own <> "" -> forallb tidy_term terms = true -> forallb modifier terms = true -> cost_le (counted own terms) free.
Proof.
  intros Ho. induction terms as [|t terms IH]; cbn [forallb total]; [done|]. rewrite !andb_true_iff. intros [H1 H2] [H3 H4].
  pose proof (term_no_more own t H1 (or_intror Ho)) as Hle. unfold rfc_mechanism in Hle. rewrite H3 in Hle.
  specialize (IH H2 H4). unfold cost_le in *. cbn in *. lia.
Qed.

Lemma terms_no_more own terms :
  own <> "" -> forallb tidy_term terms = true -> forallb modifier (after_all terms) = true ->
  cost_le (counted own terms) (tested (before_all terms)).
Proof.
  intros Ho. induction terms as [|t terms IH]; cbn [forallb total before_all after_all]; [done|]. rewrite andb_true_iff.
  intros [H1 H2] Hm. destruct (is_all t) eqn:Ea.
  - pose proof (modifiers_free own terms Ho H2 Hm) as Hle. assert (term_cost code own path t = free) as ->; [|by rewrite plus_free_l].
    unfold is_all in Ea. apply andb_true_iff in Ea as [En%String.eqb_eq Hn]. apply negb_true_iff in Hn.
    unfold term_cost, is_redirect. by rewrite En, Hn.
  - cbn [total]. apply cost_le_plus; [apply term_no_more; auto|by apply IH].
Qed.

Lemma redirects_no_more terms :
  List.find is_all terms = None -> forallb tidy_term terms = true ->
  (length (base.filter (fun t => is_redirect t = true) terms) <= 1)%nat ->
  cost_le (counted "" terms) (plus (tested terms) (rfc_redirect rfc terms).1).
Proof.
  assert (Hnone : forall terms, base.filter (fun t => is_redirect t = true) terms = [] ->
    forallb tidy_term terms = true -> cost_le (counted "" terms) (tested terms)).
  { clear terms. induction terms as [|t terms IH]; cbn [forallb total]; [done|]. rewrite filter_cons, andb_true_iff.
    case_decide as Hr; [done|]. intros Hf [H1 H2]. apply not_true_is_false in Hr.
    apply cost_le_plus; [apply term_no_more; auto|by apply IH]. }
  induction terms as [|t terms IH]; cbn [total List.find forallb]; [done|]. destruct (is_all t); [done|].
  rewrite filter_cons, andb_true_iff. intros Ha [H1 H2] Hl. unfold rfc_redirect. cbn [List.find].
  destruct (is_redirect t) eqn:Er; case_decide; try done.
  - cbn [fst length] in *. assert (Hle : cost_le (counted "" terms) (tested terms)).
    { apply Hnone; [|done]. apply nil_length_inv. lia. }
    assert (Hb : cost_le (code (spfTarget t) path).1 (rfc (spfTarget t)).1).
    { apply below. unfold tidy_term in H1. rewrite Er, orb_true_r in H1. apply andb_true_iff in H1. tauto. }
    unfold term_cost at 1. rewrite Er. cbn [String.eqb]. rewrite follows_cost. unfold cost_le in *. cbn in *. lia.
  - fold (rfc_redirect rfc terms). specialize (IH Ha H2 Hl). pose proof (term_no_more "" t H1 (or_introl Er)).
    unfold cost_le in *. cbn in *. lia.
Qed.

(** *** And the end is the same *)

Lemma one_redirect terms :
  (length (base.filter (fun t => is_redirect t = true) terms) <= 1)%nat ->
  last (base.filter (fun t => is_redirect t = true) terms) = List.find is_redirect terms.
Proof.
  induction terms as [|t terms IH]; [done|]. rewrite filter_cons. cbn [List.find].
  destruct (is_redirect t) eqn:E; case_decide; try done. cbn [length]. intros Hl.
  destruct (base.filter _ terms); [done|cbn in Hl; lia].
Qed.

Lemma counted_loop own t terms : t ∈ terms -> c_loop (counted own terms) = false -> c_loop (term_cost code own path t) = false.
Proof.
  induction terms as [|t' terms IH]; [by intros ?%elem_of_nil|]. cbn [total]. rewrite plus_loop.
  intros [->|Hin]%elem_of_cons [H1 H2]; auto.
Qed.

Lemma record_agrees record : agrees (tidy_record tidy record) (record_ref code record path) (rfc_record rfc record).
Proof.
  unfold agrees, record_ref, rfc_record, record_end. cbn [fst snd]. set (terms := parseSPFTerms record).
  pose proof (recordAll_own terms) as Hown. pose proof (recordAll_find terms) as Hall.
  assert (Htidy : tidy_record tidy record = true -> forallb tidy_term terms = true /\
    (length (base.filter (fun t => is_redirect t = true) terms) <= 1)%nat /\ forallb modifier (after_all terms) = true).
  { unfold tidy_record, tidy_terms. fold terms. rewrite !andb_true_iff, Nat.leb_le. intros [[[H1 H2] H3] H4].
    split_and!; [|done|done]. apply forallb_forall. intros t Hin. unfold tidy_term. rewrite forallb_forall in H1, H4.
    by rewrite (H1 t Hin), (H4 t Hin). }
  rewrite Hown. destruct (List.find is_all terms) as [ta|] eqn:Ea.
  - split; [cbn [fst]; apply terms_no_less|]. intros (H1 & _ & H3)%Htidy. split; [|by intros _].
    apply terms_no_more; [|done|done]. rewrite Hall. apply String.eqb_neq, all_nonempty.
  - rewrite Hall. split; cbn [fst snd].
    + rewrite before_all_whole by done. by apply redirects_no_less.
    + intros (H1 & H2 & _)%Htidy. rewrite before_all_whole by done. split; [by apply redirects_no_more|].
      rewrite one_redirect by done. unfold rfc_redirect. intros Hl. destruct (List.find is_redirect terms) as [t|] eqn:Er; [|done].
      apply List.find_some in Er as [Hin Er]. rewrite follows_end. rewrite forallb_forall in H1. specialize (H1 t Hin).
      unfold tidy_term in H1. rewrite Er, orb_true_r in H1. apply andb_true_iff in H1 as [_ H1].
      apply list_elem_of_In in Hin. apply (counted_loop _ _ _ Hin) in Hl. unfold term_cost in Hl. rewrite Er in Hl.
      cbn [String.eqb] in Hl. rewrite follows_cost, plus_loop in Hl.
      destruct (below (spfTarget t)) as [_ Hb]. destruct (Hb H1) as [_ He]. apply He, Hl.
Qed.
End Record.

Section Levels.
Context `{D : Dpdomain}.
Variable lookup : lookupFn.

Lemma rfc_name_S d n :
  rfc_name lookup (S d) n =
  match policy_of lookup n with
  | Some record => rfc_record (rfc_target lookup d) record
  | None => let l := lookup n "TXT" in (if Answered l && negb (HasRecords l) then one_void else free, "")
  end.
Proof. done. Qed.

Lemma tidy_name_S d n :
  tidy_name lookup (S d) n =
  (length (spfRecords (l_Records (lookup n "TXT"))) <=? 1)%nat &&
  match policy_of lookup n with Some record => tidy_record (tidy_target lookup d) record | None => true end.
Proof. done. Qed.

Lemma target_ref_known d target path :
  target_ref lookup d target path =
  match known_name target with
  | None => (free, "")
  | Some n =>
      if member n path then (one_loop, "")
      else match d with
           | O => (free, "")
           | S d => fetch_ref lookup (target_ref lookup d) n path
           end
  end.
Proof. destruct d; cbn [target_ref]; unfold known_name; (destruct (_ || _); [done|]); by destruct (dnsName target). Qed.

(** A name with one policy is walked as that policy. *)
Lemma fetch_policy below n path :
  (length (spfRecords (l_Records (lookup n "TXT"))) <=? 1)%nat = true ->
  fetch_ref lookup below n path =
  match policy_of lookup n with
  | Some record => record_ref below record (path ++ [n])
  | None => let l := lookup n "TXT" in (if Answered l && negb (HasRecords l) then one_void else free, "")
  end.
Proof.
  unfold fetch_ref, policy_of. cbv zeta. destruct (Answered _), (HasRecords _); try done. cbn [negb andb].
  by destruct (spfRecords _) as [|? []].
Qed.

(** The walk to the depth [d] against what is counted to that depth. *)
Lemma target_agrees d target path :
  agrees (tidy_target lookup d target) (target_ref lookup d target path) (rfc_target lookup d target).
Proof.
  revert target path. induction d as [|d IH]; intros target path; rewrite target_ref_known;
    unfold rfc_target, tidy_target; (destruct (known_name target) as [n|]; [|done]).
  { destruct (member n path); [|done]. split; [done|]. intros _. by split; [apply cost_le_free|]. }
  destruct (member n path). { split; [done|]. intros _. by split; [apply cost_le_free|]. }
  rewrite rfc_name_S, tidy_name_S. unfold fetch_ref, policy_of. set (l := lookup n "TXT").
  destruct (Answered l); cbn [negb andb]; [|done]. destruct (HasRecords l); cbn [negb]; [|done].
  destruct (spfRecords (l_Records l)) as [|record [|other more]]; [done| |].
  - cbn [length Nat.leb andb]. apply record_agrees. intros t. apply IH.
  - cbn [length Nat.leb andb]. split; [intros _; apply cost_le_free|done].
Qed.

Lemma policy_agrees d domain record :
  agrees (tidy_policy lookup d record) (policy_ref lookup d domain record) (rfc_policy lookup d record).
Proof. apply record_agrees. intros t. apply target_agrees. Qed.

(** ** Loops *)

(** A term that is evaluated and leads to another policy. *)
Definition leads (terms : list spfTerm) (t : spfTerm) : Prop :=
  (t ∈ before_all terms /\ is_include t = true) \/
  (List.find is_all terms = None /\ List.find is_redirect terms = Some t).

(** The policy of [a] leads to the name [b]. *)
Definition links (a b : string) : Prop :=
  exists record t, policy_of lookup a = Some record /\ leads (parseSPFTerms record) t /\ known_name (spfTarget t) = Some b.

Lemma total_elem (f : spfTerm -> cost) t terms : t ∈ terms -> (c_lookups (f t) <= c_lookups (total f terms))%nat.
Proof.
  induction terms as [|t' terms IH]; [by intros ?%elem_of_nil|]. intros [->|H]%elem_of_cons; cbn; [lia|].
  specialize (IH H). lia.
Qed.

Lemma links_cost d a b :
  links a b -> (S (c_lookups (rfc_name lookup d b).1) <= c_lookups (rfc_name lookup (S d) a).1)%nat.
Proof.
  intros (record & t & Hp & Hl & Hk). rewrite rfc_name_S, Hp. unfold rfc_record. set (terms := parseSPFTerms record) in *.
  assert (Hb : rfc_name lookup d b = rfc_target lookup d (spfTarget t)) by (unfold rfc_target; by rewrite Hk).
  rewrite Hb. destruct Hl as [[Hin Hi]|[Ha Hr]].
  - pose proof (total_elem (rfc_mechanism (rfc_target lookup d)) t _ Hin) as Hle.
    unfold is_include in Hi. apply andb_true_iff in Hi as [Hn Hm]. apply negb_true_iff in Hm.
    unfold rfc_mechanism at 1 in Hle. rewrite Hm, Hn in Hle. cbn in Hle. destruct (List.find is_all terms); cbn; lia.
  - rewrite Ha. unfold rfc_redirect. rewrite Hr. cbn. lia.
Qed.

Lemma tc_first {A} (R : relation A) x y : tc R x y -> exists z, R x z /\ rtc R z y.
Proof. destruct 1; eauto using tc_rtc, rtc_refl. Qed.

(** A name that leads to a loop costs as much as one cares to look. *)
Lemma chain_cost k a d :
  (exists b, rtc links a b /\ tc links b b) -> (k <= d)%nat -> (k <= c_lookups (rfc_name lookup d a).1)%nat.
Proof.
  revert a d. induction k as [|k IH]; intros a d Hloop Hd; [lia|]. destruct d as [|d]; [lia|].
  assert (exists a', links a a' /\ exists b, rtc links a' b /\ tc links b b) as (a' & Hl & Hb).
  { destruct Hloop as (b & Hr & Ht). inversion Hr as [|x a' y Hl Hr']; subst.
    - destruct (tc_first _ _ _ Ht) as (a' & Hl & Hr'). eauto.
    - exists a'. eauto. }
  pose proof (links_cost d _ _ Hl). specialize (IH a' d Hb ltac:(lia)). lia.
Qed.

(** The path so far: each of its names is reached from the first one, and
    leads to the last one. *)
Definition trail (first : string) (path : list string) (here : string) : Prop :=
  forall a, a ∈ path -> rtc links first a /\ rtc links a here.

Lemma trail_next first path here n :
  here ∈ path -> trail first path here -> links here n -> trail first (path ++ [n]) n.
Proof.
  intros Hin Ht Hl a [Ha| ->%list_elem_of_singleton]%elem_of_app.
  - destruct (Ht a Ha) as [H1 H2]. split; [done|]. by eapply rtc_r.
  - split; [|done]. destruct (Ht here Hin) as [H1 _]. by eapply rtc_r.
Qed.

Lemma total_loop (f : spfTerm -> cost) terms : c_loop (total f terms) = true -> exists t, t ∈ terms /\ c_loop (f t) = true.
Proof.
  induction terms as [|t terms IH]; [done|]. cbn. intros [H|H]%orb_true_iff; [exists t; split; [by left|done]|].
  destruct (IH H) as (t' & Hin & Hl). exists t'. split; [by right|done].
Qed.

Lemma split_all terms t : t ∈ terms -> is_all t = false -> t ∈ before_all terms \/ t ∈ after_all terms.
Proof.
  induction terms as [|t' terms IH]; [by intros ?%elem_of_nil|]. cbn. intros [<-|H]%elem_of_cons Ha.
  - rewrite Ha. left. by left.
  - destruct (is_all t'); [by right|]. destruct (IH H Ha); [left; by right|by right].
Qed.

(** A loop in what a tidy record costs is behind a term that is evaluated. *)
Lemma record_loop code path record :
  tidy_terms (parseSPFTerms record) = true -> c_loop (record_ref code record path).1 = true ->
  exists t, t ∈ parseSPFTerms record /\ leads (parseSPFTerms record) t /\ is_include t || is_redirect t = true /\
    c_loop (code (spfTarget t) path).1 = true.
Proof.
  unfold tidy_terms, record_ref. cbn [fst]. set (terms := parseSPFTerms record). rewrite !andb_true_iff, Nat.leb_le.
  intros [[_ Hone] Hafter] (t & Hin & Hl)%total_loop. exists t. split; [done|]. unfold term_cost in Hl.
  pose proof (recordAll_own terms) as Hown. destruct (is_redirect t) eqn:Er.
  - rewrite Hown in Hl. destruct (List.find is_all terms) eqn:Ea; [done|]. rewrite follows_cost in Hl.
    split_and!; [|by rewrite orb_true_r|exact Hl]. right. split; [done|].
    rewrite <-(one_redirect terms Hone). assert (t ∈ base.filter (fun t => is_redirect t = true) terms) as Hf
      by (by apply list_elem_of_filter).
    destruct (base.filter _ terms) as [|t1 [|t2 rest]]; [by apply elem_of_nil in Hf| |cbn in Hone; lia].
    by apply list_elem_of_singleton in Hf as ->.
  - destruct (negb (modifier t) && String.eqb (name t) "include") eqn:Ei.
    + rewrite follows_cost in Hl. assert (is_include t = true) as Hi by (unfold is_include; by rewrite andb_comm).
      split_and!; [|by rewrite Hi|exact Hl]. left. split; [|done].
      destruct (split_all terms t Hin) as [?|Ha]; [|done|].
      * unfold is_all. apply andb_true_iff in Ei as [_ E%String.eqb_eq]. by rewrite E.
      * rewrite forallb_forall in Hafter. apply list_elem_of_In, Hafter in Ha. by rewrite Ha in Ei.
    + destruct (negb (modifier t) && String.eqb (name t) "all"); [done|]. by destruct (member _ _).
Qed.

Lemma target_loop first d target path here :
  here ∈ path -> trail first path here -> (forall n, known_name target = Some n -> links here n) ->
  tidy_target lookup d target = true -> c_loop (target_ref lookup d target path).1 = true ->
  exists b, rtc links first b /\ tc links b b.
Proof.
  revert target path here. induction d as [|d IH]; intros target path here Hin Ht Hlink; rewrite target_ref_known; unfold tidy_target;
    (destruct (known_name target) as [n|]; [|done]); specialize (Hlink n eq_refl);
    (destruct (member n path) eqn:Em; [intros _ _; apply member_true in Em; destruct (Ht n Em) as [H1 H2];
       exists n; split; [done|]; by eapply tc_rtc_l; [|apply tc_once]|]); [done|].
  rewrite tidy_name_S. intros [Hone Htidy]%andb_true_iff. rewrite (fetch_policy _ _ _ Hone).
  destruct (policy_of lookup n) as [record|] eqn:Hp; [|cbn; by destruct (Answered _ && _)]. intros Hl.
  unfold tidy_record in Htidy. apply andb_true_iff in Htidy as [Hterms Hbelow].
  destruct (record_loop _ _ _ Hterms Hl) as (t & Htin & Hleads & Hk & Hloop).
  apply (IH (spfTarget t) (path ++ [n]) n); [set_solver|by apply (trail_next _ _ here)| | |exact Hloop].
  - intros m Hm. by exists record, t.
  - rewrite forallb_forall in Hbelow. apply list_elem_of_In, Hbelow in Htin. by rewrite Hk in Htin.
Qed.

(** A tidy policy with a loop costs as much as one cares to look. *)
Lemma policy_loop d domain record :
  policy_of lookup (bareName domain) = Some record -> tidy_policy lookup d record = true ->
  c_loop (policy_ref lookup d domain record).1 = true -> (d < c_lookups (rfc_policy lookup d record).1)%nat.
Proof.
  unfold tidy_policy, policy_ref, tidy_record. intros Hp [Hterms Hbelow]%andb_true_iff Hl.
  destruct (record_loop _ _ _ Hterms Hl) as (t & Htin & Hleads & Hk & Hloop).
  unfold rfc_policy. assert (rfc_record (rfc_target lookup d) record = rfc_name lookup (S d) (bareName domain)) as ->
    by (by rewrite rfc_name_S, Hp).
  apply (chain_cost (S d)); [|lia].
  apply (target_loop (bareName domain) d (spfTarget t) [bareName domain] (bareName domain)); [by left| | | |exact Hloop].
  - intros a ->%list_elem_of_singleton. done.
  - intros n Hn. by exists record, t.
  - rewrite forallb_forall in Hbelow. apply list_elem_of_In, Hbelow in Htin. by rewrite Hk in Htin.
Qed.
End Levels.

(** ** Properties *)


(** *** A policy with an include, a redirect and a name without records *)

Definition ref_names : Dpdomain :=
  {| Normalize := fun s _ => inl (mkName s s KindName); FQDN := fun n => ASCII n +:+ "." |}.

Definition ref_txt (records : list string) : Lookup :=
  mkLookup "" "TXT" (match records with [] => StatusNXDomain | _ => StatusOK end) TrustNone records [] "" 0 false [].

Definition ref_zone : lookupFn := fun name _ =>
  if String.eqb name "b.nl" then ref_txt ["v=spf1 a include:c.nl ~all"]
  else if String.eqb name "c.nl" then ref_txt ["v=spf1 mx include:d.nl redirect=e.nl"]
  else if String.eqb name "e.nl" then ref_txt ["v=spf1 exists:e.nl ptr +all"]
  else if String.eqb name "loop.nl" then ref_txt ["v=spf1 include:back.nl -all"]
  else if String.eqb name "back.nl" then ref_txt ["v=spf1 redirect=loop.nl"]
  else ref_txt [].


(** ** Where the two differ *)

(** Two counted lookups, and more than ten for the RFC: reported as a loop. *)
Lemma loop_over_limit :
  spf_Lookups <$> evaluateSPF (D := ref_names) ref_zone "loop.nl" (ref_zone "loop.nl" "TXT") = Some 2%nat /\
  c_lookups (rfc_policy (D := ref_names) ref_zone 20 "v=spf1 include:back.nl -all").1 = 21%nat.
Proof. by vm_compute. Qed.

(** What is behind the all, and a modifier named after a mechanism, is counted
    although it is never evaluated. *)
Lemma unevaluated_terms_counted :
  let counts record := spf_Lookups <$> evaluateSPF (D := ref_names) ref_zone "b.nl" (ref_txt [record]) in
  let rfc record := c_lookups (rfc_policy (D := ref_names) ref_zone 20 record).1 in
  counts "v=spf1 -all a mx" = Some 2%nat /\ rfc "v=spf1 -all a mx" = 0%nat /\
  counts "v=spf1 a=b.nl -all" = Some 1%nat /\ rfc "v=spf1 a=b.nl -all" = 0%nat.
Proof. by vm_compute. Qed.

(** The addresses of a and mx are not looked up, so the void lookups they may
    cost are not counted, although they depend on no sender. *)
Lemma void_addresses_uncounted :
  l_Status (ref_zone "gone.nl" "A") = StatusNXDomain /\
  (fun res => (spf_Lookups res, spf_VoidLookups res)) <$>
    evaluateSPF (D := ref_names) ref_zone "b.nl" (ref_txt ["v=spf1 a:gone.nl mx:gone.nl a:void.nl -all"]) =
    Some (3%nat, 0%nat).
Proof. by vm_compute. Qed.
