(* ===== verification/Mail.v ===== *)
(** * Mail policies: DMARC, MX, DKIM, MTA-STS and TLS-RPT of mail.go

    SPF is in [Spf]. RSA key parsing (crypto/x509) and the HTTPS request are
    parameters; every decision taken on their results is modelled. *)

From S2P Require Import Prelude GoStrings Netip Names Records Wildcard Spf.

(** ** Tags *)

Definition tag_part (tags : gmap string string) (part : string) : gmap string string :=
  match SplitN2 (TrimSpace part) "="%char with
  | [k; v] => <[ToLower (TrimSpace k) := TrimSpace v]> tags
  | _ => tags
  end.

Definition parseTags (record : string) : gmap string string :=
  foldl tag_part ∅ (Split record ";"%char).

Definition tag (tags : gmap string string) (k : string) : string := mget "" tags k.

(** ** DMARC *)

Record DMARC := mkDMARC {
  dm_Present : bool;
  dm_Unresolved : bool;
  dm_Policy : string;
  dm_SubdomainPolicy : string;
  dm_Pct : Z;
  dm_RUA : bool;
  dm_Records : nat;
  dm_Problems : list string;
}.

Definition validDMARCPolicy (p : string) : bool := member p ["none"; "quarantine"; "reject"].

Definition parsePct (v : string) : Z * bool :=
  match Atoi v with
  | (n, None) => if (n <? 0)%Z || (n >? 100)%Z then (100%Z, false) else (n, true)
  | _ => (100%Z, false)
  end.

Definition pct_tag (tags : gmap string string) : Z * list string :=
  match tags !! "pct" with
  | None => (100%Z, [])
  | Some v =>
      let '(pct, ok) := parsePct v in
      (pct, if ok then [] else ["invalid pct=" +:+ v +:+ " (not a whole number from 0 to 100)"])
  end.

Definition policy_problem (policy : string) : list string :=
  if validDMARCPolicy policy then []
  else if String.eqb policy "" then ["missing p= tag"]
  else ["unknown policy p=" +:+ policy].

Definition applyDMARCTags (d : DMARC) (tags : gmap string string) : DMARC :=
  let policy := ToLower (tag tags "p") in
  let sub := ToLower (tag tags "sp") in
  let '(pct, pctProblem) := pct_tag tags in
  mkDMARC (dm_Present d) (dm_Unresolved d) policy sub pct
    (negb (String.eqb (tag tags "rua") "")) (dm_Records d)
    (dm_Problems d ++ pctProblem ++ policy_problem policy
     ++ (if negb (String.eqb sub "") && negb (validDMARCPolicy sub)
         then ["unknown subdomain policy sp=" +:+ sub] else [])).

Definition isDMARC (r : string) : bool := HasPrefix (ToLower (TrimSpace r)) "v=dmarc1".

Definition parseDMARC (l : Lookup) : DMARC :=
  let unresolved := negb (bool_decide (l_Status l = StatusNone)) && negb (Answered l) in
  let dmarc := base.filter (fun r => isDMARC r = true) (l_Records l) in
  match dmarc with
  | [] => mkDMARC false unresolved "" "" 100 false 0 []
  | r :: more =>
      applyDMARCTags
        (mkDMARC true unresolved "" "" 100 false (length dmarc)
           (match more with [] => [] | _ => ["multiple DMARC records (invalid, receivers ignore all)"] end))
        (parseTags r)
  end.

(** ** MX *)

Record MXCheck := mkMX {
  mx_Host : string;
  mx_Pref : Z;
  mx_Addresses : nat;
  mx_CNAME : bool;
  mx_IPLiteral : bool;
  mx_Unresolved : bool;
  mx_Problems : list string;
}.

Definition mxUnresolvedProblem : string :=
  "MX target lookup did not complete, so the target was not checked".

(** One record read into a check, before its target is looked at. *)
Definition mx_record (total : nat) (rec : string) : option MXCheck :=
  match Fields rec with
  | [pref; host] =>
      let host := ToLower host in
      Some (mkMX host (fst (Atoi pref)) 0 false false false
              (if String.eqb host "." && (1 <? total)%nat
               then ["null MX mixed with real MX records"] else []))
  | _ => None
  end.

Section MX.
Context `{D : Dpdomain}.
Variable lookup : lookupFn.

Definition checkMXTarget (c : MXCheck) : MXCheck :=
  match hostOrIP (mx_Host c) with
  | inr err =>
      mkMX (mx_Host c) (mx_Pref c) (mx_Addresses c) (mx_CNAME c) (mx_IPLiteral c) (mx_Unresolved c)
        (mx_Problems c ++ ["MX target is not a valid hostname: " +:+ err])
  | inl n =>
      match Kind n with
      | KindIP =>
          mkMX (mx_Host c) (mx_Pref c) (mx_Addresses c) (mx_CNAME c) true (mx_Unresolved c)
            (mx_Problems c ++ ["MX target is an IP literal (invalid, RFC 2181 §10.3)"])
      | KindName =>
          let a := lookup (mx_Host c) "A" in
          let aaaa := lookup (mx_Host c) "AAAA" in
          let addresses := (length (Addrs a) + length (Addrs aaaa))%nat in
          let cname := nonempty (l_CNAME a) || nonempty (l_CNAME aaaa) in
          let problems := mx_Problems c
            ++ (if cname then ["MX target is a CNAME (RFC 2181 §10.3)"] else []) in
          if negb (Answered a) || negb (Answered aaaa) then
            mkMX (mx_Host c) (mx_Pref c) addresses (mx_CNAME c || cname) (mx_IPLiteral c) true
              (problems ++ [mxUnresolvedProblem])
          else
            mkMX (mx_Host c) (mx_Pref c) addresses (mx_CNAME c || cname) (mx_IPLiteral c) (mx_Unresolved c)
              (problems ++
               if bool_decide (l_Status a = StatusNXDomain) then ["MX target does not exist"]
               else if (addresses =? 0)%nat then ["MX target has no address"] else [])
      end
  end.

(** The tasks write disjoint entries of the slice. *)
Definition checkMX (mx : Lookup) : list MXCheck :=
  map (fun c => if String.eqb (mx_Host c) "." then c else checkMXTarget c)
    (omap (mx_record (length (l_Records mx))) (l_Records mx)).

End MX.

Definition mxHosts (mx : Lookup) : list string :=
  sort_strings
    (omap (fun rec => match Fields rec with
                      | [_; host] => if String.eqb host "." then None else Some (ToLower host)
                      | _ => None
                      end) (l_Records mx)).

Definition hasTLSRPT (l : Lookup) : bool :=
  existsb (fun r => EqualFold (tag (parseTags r) "v") "TLSRPTv1") (l_Records l).

(** ** encoding/base64: StdEncoding *)

Definition b64_val (c : ascii) : option N :=
  let n := Ascii.N_of_ascii c in
  if is_upper c then Some (n - 65)%N
  else if is_lower c then Some (n - 71)%N
  else if is_digit c then Some (n + 4)%N
  else if Ascii.eqb c "+"%char then Some 62%N
  else if Ascii.eqb c "/"%char then Some 63%N
  else None.

Definition byte_of (n : N) : ascii := Ascii.ascii_of_N (n mod 256).

(** Four characters a group; only the last group may be padded. *)
Fixpoint b64_decode (s : string) : option string :=
  match s with
  | "" => Some ""
  | String a (String b (String c (String d rest))) =>
      x ← b64_val a; y ← b64_val b;
      if Ascii.eqb c "="%char then
        if Ascii.eqb d "="%char && is_empty rest
        then Some (String (byte_of (x * 4 + y / 16)) "") else None
      else
        z ← b64_val c;
        if Ascii.eqb d "="%char then
          if is_empty rest
          then Some (String (byte_of (x * 4 + y / 16)) (String (byte_of (y * 16 + z / 4)) ""))
          else None
        else
          w ← b64_val d; tl ← b64_decode rest;
          Some (String (byte_of (x * 4 + y / 16))
                 (String (byte_of (y * 16 + z / 4)) (String (byte_of (z * 64 + w)) tl)))
  | _ => None
  end.

(** ** DKIM *)

Definition dkimSelectors : list string :=
  ["google"; "selector1"; "selector2"; "default"; "k1"; "s1"; "mail"; "dkim"].

Record DKIMKey := mkKey { k_Selector : string; k_Type : string; k_Bits : Z; k_Error : string }.

Record DKIMResult := mkDKIM {
  dk_Wildcard : bool;
  dk_SelectorsProbed : list string;
  dk_SelectorsFound : list string;
  dk_Revoked : list string;
  dk_Keys : list DKIMKey;
  dk_Dangling : list string;
}.

Definition dkimKey1 (r : string) : option (bool * string) :=
  let p := parseTags r !! "p" in
  match p with
  | None => if HasPrefix (ToLower r) "v=dkim1" then Some (false, r) else None
  | Some p => Some (String.eqb p "", r)
  end.

(** The first record that carries a key: whether it is revoked, and its text. *)
Definition dkimKey (l : Lookup) : option (bool * string) := head (omap dkimKey1 (l_Records l)).

(** What crypto/x509 makes of a DER key: ParsePKIXPublicKey, and
    ParsePKCS1PublicKey, with the modulus size of an RSA key. *)
Inductive pkixKey := PkixError | PkixOther | PkixRSA (bits : Z).

Section DKIM.
Variable ParsePKIX : string -> pkixKey.
Variable ParsePKCS1 : string -> option Z.

Definition rsaKeyBits (der : string) : Z * string :=
  match ParsePKIX der with
  | PkixRSA bits => (bits, "")
  | PkixOther => (0%Z, "p= is not an RSA key")
  | PkixError =>
      match ParsePKCS1 der with
      | Some bits => (bits, "")
      | None => (0%Z, "p= is not a parsable RSA key")
      end
  end.

Definition dkimKeyInfo (sel : string) (tags : gmap string string) : DKIMKey :=
  let ty := ToLower (firstNonEmpty [tag tags "k"; "rsa"]) in
  match b64_decode (Join (Fields (tag tags "p")) "") with
  | None => mkKey sel ty 0 "p= is not base64"
  | Some der =>
      if String.eqb ty "ed25519" then
        mkKey sel ty 0 (if negb (String.length der =? 32)%nat
                        then "p= is not a 32-byte Ed25519 key" else "")
      else if String.eqb ty "rsa" then
        let '(bits, err) := rsaKeyBits der in mkKey sel ty bits err
      else mkKey sel ty 0 ""
  end.

Definition addSelector (res : DKIMResult) (sel : string) (l : Lookup) : DKIMResult :=
  let '(mkDKIM w probed found revoked keys dangling) := res in
  match dkimKey l with
  | None =>
      if nonempty (l_CNAME l) && bool_decide (l_Status l = StatusNXDomain)
      then mkDKIM w probed found revoked keys (dangling ++ [sel]) else res
  | Some (true, _) => mkDKIM w probed (found ++ [sel]) (revoked ++ [sel]) keys dangling
  | Some (false, record) =>
      mkDKIM w probed (found ++ [sel]) revoked (keys ++ [dkimKeyInfo sel (parseTags record)]) dangling
  end.

(** [label] is the random label of the control. *)
Definition probeDKIM (domain label : string) (lookup : lookupFn) : DKIMResult :=
  let res := mkDKIM false dkimSelectors [] [] [] [] in
  let control := lookup (label +:+ "._domainkey." +:+ domain) "TXT" in
  match dkimKey control with
  | Some _ => mkDKIM true dkimSelectors [] [] [] []
  | None =>
      foldl (fun res sel => addSelector res sel (lookup (sel +:+ "._domainkey." +:+ domain) "TXT"))
        res dkimSelectors
  end.
End DKIM.

(** ** Error texts: the expressions that take addresses out of them *)

Definition resolver_char (c : ascii) : bool :=
  is_digit c || byte_in 97 102 c || byte_in 65 70 c || member c ["."; ":"; "["; "]"]%char.

(** The longest prefix of [run] (reversed in [seen]) that ends in a colon and
    digits, from the last colon that qualifies: the length of the match. *)
Fixpoint last_port (i : nat) (run : string) (best : option nat) : option nat :=
  match run with
  | "" => best
  | String c rest =>
      let digits := String.length (str_take_while is_digit rest) in
      let best := if Ascii.eqb c ":"%char && (0 <? i)%nat && (0 <? digits)%nat
                  then Some (i + 1 + digits)%nat else best in
      last_port (S i) rest best
  end.

(** A match of resolverAddrRe at the start of the text: its length. *)
Definition match_resolver (s : string) : option nat :=
  if HasPrefix s " on " then
    (fun n => n + 4)%nat <$> last_port 0 (str_take_while resolver_char (str_drop 4 s)) None
  else None.

(** [regexp.ReplaceAllString] with the empty string: [prev] is the byte before,
    [skip] counts the bytes of a match. Matches are never empty. *)
Fixpoint remove_matches (m : option ascii -> string -> option nat) (prev : option ascii)
    (skip : nat) (s : string) : string :=
  match s with
  | "" => ""
  | String c rest =>
      match skip with
      | S skip => remove_matches m (Some c) skip rest
      | O => match m prev s with
             | Some (S n) => remove_matches m (Some c) n rest
             | _ => String c (remove_matches m (Some c) O rest)
             end
      end
  end.

Definition scrubResolver (msg : string) : string := remove_matches (fun _ => match_resolver) None O msg.

Definition re_blank (c : ascii) : bool := member c [" "; "009"; "010"; "012"; "013"]%char.
Definition is_word (c : ascii) : bool := is_digit c || is_upper c || is_lower c || Ascii.eqb c "_"%char.

(** Length of a non-empty run of white space. *)
Definition blanks (s : string) : option nat :=
  match String.length (str_take_while re_blank s) with O => None | n => Some n end.

Definition netOps : list string := ["read"; "write"; "dial"; "readfrom"; "writeto"; "accept"; "set"].

(** The first of the words that starts the text and is followed by blanks,
    after an optional digit 4 or 6 when [family]: the length with the blanks. *)
Definition word_blanks (family : bool) (words : list string) (s : string) : option nat :=
  head (omap (fun w =>
    if HasPrefix s w then
      let n := String.length w in
      let n := match str_drop n s with
               | String c _ => if family && member c ["4"; "6"]%char then S n else n
               | "" => n
               end in
      (fun k => n + k)%nat <$> blanks (str_drop n s)
    else None) words).

(** A match of netOpRe at the start of the text. *)
Definition match_netop (prev : option ascii) (s : string) : option nat :=
  if match prev with Some c => is_word c | None => false end then None
  else
    n1 ← word_blanks false netOps s;
    n2 ← word_blanks true ["tcp"; "udp"; "ip"] (str_drop n1 s);
    let rest := str_drop (n1 + n2) s in
    let run := str_take_while (fun c => negb (re_blank c)) rest in
    if HasSuffix run ":" && (2 <=? String.length run)%nat then
      n4 ← blanks (str_drop (String.length run) rest);
      Some (n1 + n2 + String.length run + n4)%nat
    else None.

Definition scrubProbeError (msg : string) : string :=
  TrimSpace (remove_matches match_netop None O (scrubResolver msg)).

(** ** MTA-STS *)

Record MTASTS := mkSTS {
  sts_Record : bool;
  sts_ID : string;
  sts_Mode : string;
  sts_MaxAge : Z;
  sts_MXPattern : list string;
  sts_PolicyOK : bool;
  sts_MXCovered : bool;
  sts_Error : string;
}.

Definition zeroSTS : MTASTS := mkSTS false "" "" 0 [] false false "".

Definition parseMTASTSRecord (l : Lookup) : MTASTS :=
  match head (base.filter (fun r => EqualFold (tag (parseTags r) "v") "STSv1" = true) (l_Records l)) with
  | Some r => mkSTS true (tag (parseTags r) "id") "" 0 [] false false ""
  | None => zeroSTS
  end.

Definition policy_line (m : MTASTS) (line : string) : MTASTS :=
  match SplitN2 (TrimSpace line) ":"%char with
  | [k; v] =>
      let v := TrimSpace v in
      let k := ToLower (TrimSpace k) in
      if String.eqb k "version" then
        mkSTS (sts_Record m) (sts_ID m) (sts_Mode m) (sts_MaxAge m) (sts_MXPattern m)
          (EqualFold v "STSv1") (sts_MXCovered m) (sts_Error m)
      else if String.eqb k "mode" then
        mkSTS (sts_Record m) (sts_ID m) (ToLower v) (sts_MaxAge m) (sts_MXPattern m)
          (sts_PolicyOK m) (sts_MXCovered m) (sts_Error m)
      else if String.eqb k "max_age" then
        mkSTS (sts_Record m) (sts_ID m) (sts_Mode m) (fst (Atoi v)) (sts_MXPattern m)
          (sts_PolicyOK m) (sts_MXCovered m) (sts_Error m)
      else if String.eqb k "mx" then
        mkSTS (sts_Record m) (sts_ID m) (sts_Mode m) (sts_MaxAge m) (sts_MXPattern m ++ [ToLower v])
          (sts_PolicyOK m) (sts_MXCovered m) (sts_Error m)
      else m
  | _ => m
  end.

Definition sts_modes : list string := ["enforce"; "testing"; "none"].

Definition set_PolicyOK (ok : bool) (m : MTASTS) : MTASTS :=
  mkSTS (sts_Record m) (sts_ID m) (sts_Mode m) (sts_MaxAge m) (sts_MXPattern m) ok
    (sts_MXCovered m) (sts_Error m).

Definition parseMTASTSPolicy (body : string) (m : MTASTS) : MTASTS :=
  let m := foldl policy_line m (Split body newline) in
  if negb (member (sts_Mode m) sts_modes) then set_PolicyOK false m else m.

Section STS.
Context `{D : Dpdomain} `{I : Ipnorm}.

Definition matches_pattern (host p : string) : bool :=
  let wild := HasPrefix p "*." in
  match dnsName (TrimPrefix p "*.") with
  | inr _ => false
  | inl n =>
      if wild then
        match cut_byte "."%char host with
        | Some (_, rest) => String.eqb rest (ASCII n)
        | None => false
        end
      else String.eqb (ASCII n) host
  end.

Definition matchesAny (patterns : list string) (host : string) : bool :=
  existsb (matches_pattern host) patterns.

Definition covers_host (patterns : list string) (h : string) : bool :=
  if member h [""; "."] then true
  else match dnsName h with
       | inr _ => false
       | inl n => matchesAny patterns (ASCII n)
       end.

Definition mtaSTSCovers (patterns mxHosts : list string) : bool := forallb (covers_host patterns) mxHosts.

(** One answer of the HTTPS client: an error, or a status with the body read
    (at most 64 KiB of it) and the error reading it ended with. *)
Inductive httpAnswer :=
| HttpFailed (err : string)
| HttpGot (status : Z) (body : string) (readErr : string).

Definition maxPolicy : nat := Nat.pow 2 16.

(** The body and the error text, empty for none. [http] performs the request
    over the addresses given. *)
Definition fetchMTASTSPolicy (domain : string) (lookup : lookupFn)
    (http : string -> list Addr -> httpAnswer) : string * string :=
  let host := "mta-sts." +:+ domain in
  let all := Addrs (lookup host "A") ++ Addrs (lookup host "AAAA") in
  let '(addrs, reserved) := splitReserved all in
  match addrs, reserved with
  | [], _ :: _ => ("", host +:+ " has only reserved addresses (" +:+ Join reserved ", " +:+ ")")
  | [], [] => ("", host +:+ " has no address")
  | _, _ =>
      match http host addrs with
      | HttpFailed err => ("", err)
      | HttpGot status body readErr =>
          if negb (status =? 200)%Z then ("", "HTTP " +:+ Itoa status)
          else (str_take maxPolicy body, readErr)
      end
  end.

Definition checkMTASTS (fetch : string * string) (rec : Lookup) (hosts : list string) : MTASTS :=
  let m := parseMTASTSRecord rec in
  if negb (sts_Record m) then m
  else
    let '(body, err) := fetch in
    if negb (is_empty err) then
      mkSTS (sts_Record m) (sts_ID m) (sts_Mode m) (sts_MaxAge m) (sts_MXPattern m) (sts_PolicyOK m)
        (sts_MXCovered m) ("policy fetch failed: " +:+ scrubProbeError err)
    else
      let m := parseMTASTSPolicy body m in
      if negb (sts_PolicyOK m) then
        mkSTS (sts_Record m) (sts_ID m) (sts_Mode m) (sts_MaxAge m) (sts_MXPattern m) (sts_PolicyOK m)
          (sts_MXCovered m) (firstNonEmpty [sts_Error m; "policy file is not a valid STSv1 policy"])
      else
        mkSTS (sts_Record m) (sts_ID m) (sts_Mode m) (sts_MaxAge m) (sts_MXPattern m) (sts_PolicyOK m)
          (mtaSTSCovers (sts_MXPattern m) hosts) (sts_Error m).

End STS.

(** ** Dialling every address at once *)

(** What [dialFirst] has received so far: the connection kept, those closed,
    and the last error. A dial ends in a connection or an error. *)
Record dialState := mkDial { won : option nat; closed : list nat; lastErr : option string }.

Definition dial_step (st : dialState) (r : nat + string) : dialState :=
  match r with
  | inr err => mkDial (won st) (closed st) (Some err)
  | inl conn =>
      match won st with
      | None => mkDial (Some conn) (closed st) (lastErr st)
      | Some _ => mkDial (won st) (closed st ++ [conn]) (lastErr st)
      end
  end.

(** [results] is the order in which the dials completed. *)
Definition dialFirst (results : list (nat + string)) : option nat * option string * list nat :=
  let st := foldl dial_step (mkDial None [] None) results in
  match won st with
  | Some c => (Some c, None, closed st)
  | None => (None, lastErr st, closed st)
  end.

(** ** The mail section *)

Record MailReport := mkMail {
  ml_DMARC : DMARC;
  ml_SPF : SPFResult;
  ml_MX : list MXCheck;
  ml_DKIM : DKIMResult;
  ml_MTASTS : option MTASTS;
  ml_TLSRPT : bool;
  ml_mtaSTSAbsent : bool;
  ml_tlsRPTAbsent : bool;
}.

(** ** Lemmas *)

Lemma cut_byte_Some c s x y :
  cut_byte c s = Some (x, y) <-> s = x +:+ String c y /\ str_all (fun d => negb (Ascii.eqb d c)) x = true.
Proof.
  revert x y. induction s as [|d s IH]; intros x y; simpl.
  { split; [done|]. intros [H _]. by destruct x. }
  destruct (Ascii.eqb_spec d c) as [->|Hd].
  - split; [intros [= <- <-]; done|]. intros [H Hx].
    destruct x as [|e x]; unfold String.app in H; simpl in H; [by injection H as ->|].
    injection H as -> ->. simpl in Hx. by rewrite Ascii.eqb_refl in Hx.
  - destruct (cut_byte c s) as [[x' y']|] eqn:E.
    + pose proof (proj1 (IH x' y') eq_refl) as [-> Hx']. split.
      * intros [= <- <-]. split; [done|]. simpl. rewrite Hx'.
        destruct (Ascii.eqb_spec d c); [done|done].
      * intros [H Hx]. destruct x as [|e x]; unfold String.app in H; simpl in H.
        { injection H as -> _. done. }
        injection H as -> H. simpl in Hx. simp_bool.
        specialize (proj2 (IH x y) (conj H H1)) as E'. by simplify_eq.
    + split; [done|]. intros [H Hx]. destruct x as [|e x]; unfold String.app in H; simpl in H.
      { injection H as -> _. done. }
      injection H as -> H. simpl in Hx. simp_bool.
      specialize (proj2 (IH x y) (conj H H1)) as E'. done.
Qed.

Definition no_dot (s : string) : Prop := str_all (fun d => negb (Ascii.eqb d "."%char)) s = true.

Lemma matches_pattern_spec `{D : Dpdomain} host p :
  matches_pattern host p = true <->
  exists n, dnsName (TrimPrefix p "*.") = inl n /\
    (if HasPrefix p "*." then exists label, no_dot label /\ host = label +:+ "." +:+ ASCII n
     else host = ASCII n).
Proof.
  unfold matches_pattern. destruct (dnsName _) as [n|err]; [|split; [done|by intros (? & ? & _)]].
  destruct (HasPrefix p "*.").
  - destruct (cut_byte "."%char host) as [[x y]|] eqn:E.
    + apply cut_byte_Some in E as [-> Hx]. rewrite String.eqb_eq. split.
      * intros ->. exists n. split; [done|]. by exists x.
      * intros (n' & [= <-] & label & Hl & H).
        assert (E : cut_byte "."%char (label +:+ String "." (ASCII n)) = Some (x, y)).
        { change (String "." (ASCII n)) with ("." +:+ ASCII n). rewrite <-H. by apply cut_byte_Some. }
        assert (E' : cut_byte "."%char (label +:+ String "." (ASCII n)) = Some (label, ASCII n))
          by (by apply cut_byte_Some).
        by simplify_eq.
    + split; [done|]. intros (n' & [= <-] & label & Hl & ->).
      assert (E' : cut_byte "."%char (label +:+ String "." (ASCII n)) = Some (label, ASCII n))
        by (by apply cut_byte_Some).
      change (label +:+ "." +:+ ASCII n) with (label +:+ String "." (ASCII n)) in E. congruence.
  - rewrite String.eqb_eq. naive_solver.
Qed.

Lemma parsePct_range v : (0 <= fst (parsePct v) <= 100)%Z.
Proof.
  unfold parsePct. destruct (Atoi v) as [n [e|]]; simpl; [lia|].
  destruct (Z.ltb_spec n 0); simpl; [lia|]. destruct (Z.gtb_spec n 100); simpl; lia.
Qed.

Lemma pct_tag_range tags : (0 <= fst (pct_tag tags) <= 100)%Z.
Proof.
  unfold pct_tag. destruct (tags !! "pct") as [v|]; [|simpl; lia].
  pose proof (parsePct_range v). by destruct (parsePct v).
Qed.

Lemma policy_problem_nil p : policy_problem p = [] -> validDMARCPolicy p = true.
Proof. unfold policy_problem. destruct (validDMARCPolicy p); [done|]. by destruct (String.eqb p ""). Qed.

Lemma sub_problem_nil (p : string) :
  (if negb (String.eqb p "") && negb (validDMARCPolicy p)
   then ["unknown subdomain policy sp=" +:+ p] else []) = [] -> p = "" \/ validDMARCPolicy p = true.
Proof. destruct (String.eqb_spec p ""); [auto|]. by destruct (validDMARCPolicy p); auto. Qed.

Lemma applyDMARCTags_spec d tags :
  (0 <= dm_Pct (applyDMARCTags d tags) <= 100)%Z /\
  dm_Present (applyDMARCTags d tags) = dm_Present d /\
  dm_Records (applyDMARCTags d tags) = dm_Records d /\
  (dm_Problems (applyDMARCTags d tags) = [] ->
     dm_Problems d = [] /\ validDMARCPolicy (dm_Policy (applyDMARCTags d tags)) = true /\
     (dm_SubdomainPolicy (applyDMARCTags d tags) = "" \/
      validDMARCPolicy (dm_SubdomainPolicy (applyDMARCTags d tags)) = true)).
Proof.
  unfold applyDMARCTags. pose proof (pct_tag_range tags) as Hr.
  destruct (pct_tag tags) as [pct pp].
  cbn [dm_Pct dm_Present dm_Records dm_Problems dm_Policy dm_SubdomainPolicy fst] in *.
  split_and!; [lia|lia|done|done|].
  intros (H1 & (H2 & (H3 & H4)%app_eq_nil)%app_eq_nil)%app_eq_nil.
  split_and!; [done|by apply policy_problem_nil|by apply sub_problem_nil].
Qed.

Lemma addSelector_shape PX P1 res sel l :
  let res' := addSelector PX P1 res sel l in
  dk_Wildcard res' = dk_Wildcard res /\ dk_SelectorsProbed res' = dk_SelectorsProbed res /\
  ((dk_SelectorsFound res' = dk_SelectorsFound res /\ dk_Revoked res' = dk_Revoked res /\
    dk_Keys res' = dk_Keys res) \/
   (dk_SelectorsFound res' = dk_SelectorsFound res ++ [sel] /\
    is_Some (dkimKey l) /\
    ((dk_Revoked res' = dk_Revoked res ++ [sel] /\ dk_Keys res' = dk_Keys res) \/
     (dk_Revoked res' = dk_Revoked res /\
      map k_Selector (dk_Keys res') = map k_Selector (dk_Keys res) ++ [sel])))).
Proof.
  destruct res as [w pr f r k d]. unfold addSelector. simpl.
  destruct (dkimKey l) as [[[] rec]|]; simpl.
  - split_and!; try done. right. split_and!; try done. left. done.
  - split_and!; try done. right. split_and!; try done. right. split; [done|].
    rewrite map_app. simpl. do 2 f_equal. unfold dkimKeyInfo.
    destruct (b64_decode _); [|done]. destruct (String.eqb _ "ed25519"); [done|].
    destruct (String.eqb _ "rsa"); [|done]. by destruct (rsaKeyBits _ _ _).
  - destruct (_ && _); simpl; split_and!; try done; by left.
Qed.

(** ** Properties *)

(** A policy's mx patterns match a host exactly as RFC 8461 says: a plain pattern is the host's own name, and a pattern with a leading star matches exactly one label below its name, never the name itself nor two labels; a pattern that is no name matches nothing. *)
Theorem matchesAny_spec `{D : Dpdomain} (patterns : list string) (host : string) :
  matchesAny patterns host = true <->
  exists p n, p ∈ patterns /\ dnsName (TrimPrefix p "*.") = inl n /\
    ((HasPrefix p "*." = false /\ host = ASCII n) \/
     (HasPrefix p "*." = true /\ exists label, no_dot label /\ host = label +:+ "." +:+ ASCII n)).
Proof.
  unfold matchesAny. rewrite existsb_elem. setoid_rewrite matches_pattern_spec.
  split.
  - intros (p & Hp & n & Hn & H). exists p, n. destruct (HasPrefix p "*."); auto.
  - intros (p & n & Hp & Hn & [[He ->]|[He H]]); exists p; (split; [done|]); exists n; by rewrite He.
Qed.

(** A DMARC policy is reported present exactly when a record is; its percentage is always a whole number from 0 to 100 whatever the record says; a policy without problems is the only record, has one of the three policies, and no or a valid subdomain policy; absence is marked unresolved when no answer was seen. *)
Theorem parseDMARC_spec (l : Lookup) :
  let d := parseDMARC l in
  (dm_Present d = true <-> exists r, r ∈ l_Records l /\ isDMARC r = true) /\
  (0 <= dm_Pct d <= 100)%Z /\
  (dm_Present d = true -> dm_Problems d = [] ->
     dm_Records d = 1%nat /\ dm_Policy d ∈ ["none"; "quarantine"; "reject"] /\
     (dm_SubdomainPolicy d = "" \/ dm_SubdomainPolicy d ∈ ["none"; "quarantine"; "reject"])) /\
  (dm_Present d = false -> dm_Policy d = "" /\
     (dm_Unresolved d = true <-> l_Status l = StatusFailure \/ l_Status l = StatusTimeout)).
Proof.
  cbv zeta. unfold parseDMARC.
  pose proof (fun r => @list_elem_of_filter string (fun r => isDMARC r = true) _ (l_Records l) r) as Hel.
  destruct (base.filter _ (l_Records l)) as [|r more].
  - cbn [dm_Present dm_Pct dm_Records dm_Policy dm_SubdomainPolicy dm_Unresolved]. split_and!; try done; try lia.
    + split; [done|]. intros (r & Hr & Hd). exfalso.
      apply (proj1 (elem_of_nil r)). apply Hel. done.
    + split; [done|]. unfold Answered. destruct (l_Status l); simpl; split; intros Hs; try done;
        first [by left|by right|by destruct Hs].
  - set (d0 := mkDMARC true _ "" "" 100 false _ _).
    destruct (applyDMARCTags_spec d0 (parseTags r)) as (H1 & H2 & H3 & H4).
    rewrite H2, H3. split_and!; try lia.
    + split; [|done]. intros _. exists r. apply and_comm, Hel. set_solver.
    + intros _ Hp. destruct (H4 Hp) as (Hd & Hv & Hs). unfold d0 in *. simpl in *.
      split_and!; [by destruct more|by apply member_true|].
      destruct Hs as [Hs|Hs]; [by left|right; by apply member_true].
    + done.
Qed.

(** Every selector reported found is one of those probed, in their order and once, and is reported either revoked or with its key, never both; when the zone answers a random selector too, none is reported at all. *)
Theorem probeDKIM_spec (ParsePKIX : string -> pkixKey) (ParsePKCS1 : string -> option Z)
    (domain label : string) (lookup : lookupFn) :
  let res := probeDKIM ParsePKIX ParsePKCS1 domain label lookup in
  dk_SelectorsProbed res = dkimSelectors /\
  dk_SelectorsFound res `sublist_of` dkimSelectors /\
  dk_SelectorsFound res ≡ₚ dk_Revoked res ++ map k_Selector (dk_Keys res) /\
  (dk_Wildcard res = true <->
     is_Some (dkimKey (lookup (label +:+ "._domainkey." +:+ domain) "TXT"))) /\
  (dk_Wildcard res = true -> dk_SelectorsFound res = [] /\ dk_Dangling res = []).
Proof.
  cbv zeta. unfold probeDKIM. destruct (dkimKey (lookup _ "TXT")) as [k|].
  { split_and!; try done; try apply sublist_nil_l; eauto. }
  set (P sels res := dk_SelectorsProbed res = dkimSelectors /\ dk_Wildcard res = false /\
    dk_SelectorsFound res `sublist_of` sels /\
    dk_SelectorsFound res ≡ₚ dk_Revoked res ++ map k_Selector (dk_Keys res)).
  set (step := fun res sel => _).
  assert (H : forall sels done res, P done res -> P (done ++ sels) (foldl step res sels)).
  { induction sels as [|sel sels IH]; intros done' res HP; simpl; [by rewrite app_nil_r|].
    rewrite (cons_middle sel done' sels), app_assoc. apply IH. unfold step.
    destruct HP as (H1 & H2 & H3 & H4).
    destruct (addSelector_shape ParsePKIX ParsePKCS1 res sel (lookup (sel +:+ "._domainkey." +:+ domain) "TXT"))
      as (E1 & E2 & [(E3 & E4 & E5)|(E3 & _ & [[E4 E5]|[E4 E5]])]); unfold P;
      rewrite E1, E2, ?E3, ?E4, ?E5; split_and!; try done.
    - by apply sublist_inserts_r.
    - by apply sublist_app.
    - rewrite H4. solve_Permutation.
    - by apply sublist_app.
    - rewrite H4. solve_Permutation. }
  destruct (H dkimSelectors [] (mkDKIM false dkimSelectors [] [] [] [])) as (H1 & H2 & H3 & H4).
  { by unfold P. }
  rewrite H2. split_and!; done.
Qed.

(** Dialling every address at once keeps one connection, the first that was made, and closes every later one, so none leaks; it fails only when every address did, and then with the last error. *)
Theorem dialFirst_one (results : list (nat + string)) :
  let conns := omap (fun r => match r with inl c => Some c | inr _ => None end) results in
  let '(conn, err, closed) := dialFirst results in
  conns = match conn with Some c => c :: closed | None => closed end /\
  (conn = None <-> conns = []) /\
  (conn <> None -> err = None) /\
  (conn = None -> results <> [] -> err <> None /\ last results = inr <$> err).
Proof.
  cbv zeta. unfold dialFirst. set (st := foldl _ _ _).
  assert (H : omap (fun r => match r with inl c => Some c | inr _ => None end) results =
              match won st with Some c => c :: closed st | None => [] end /\
              (won st = None -> closed st = [] /\ (results <> [] -> last results = inr <$> lastErr st))).
  { unfold st. induction results as [|r results IH] using rev_ind; [done|].
    rewrite omap_app, foldl_snoc. destruct IH as [IH1 IH2]. rewrite IH1. clear IH1.
    destruct (foldl dial_step (mkDial None [] None) results) as [w cl le].
    destruct r as [c|e]; unfold dial_step; cbn [won closed lastErr] in *.
    - destruct w as [w|]; [done|]. by destruct (IH2 eq_refl) as [-> _].
    - destruct w as [w|]; cbn; rewrite ?app_nil_r; [done|]. split; [done|].
      intros _. destruct (IH2 eq_refl) as [-> _]. split; [done|]. intros _. apply last_snoc. }
  destruct H as [H1 H2]. rewrite H1. destruct (won st) as [c|] eqn:Ew.
  - split_and!; done.
  - destruct (H2 eq_refl) as [Hc Hl]. rewrite Hc. split_and!; try done. intros _ Hne.
    specialize (Hl Hne). split; [|done]. intros He. rewrite He in Hl. by apply last_None in Hl.
Qed.
