(* ===== verification/Tcp.v ===== *)
(** * TCP connects and QUIC probes: tcp.go and quic.go

    An error of package net is a record of what the program asks of it
    ([errors.Is], [os.IsTimeout], [net.Error]); JSON decoding of quicprobe's
    output is a parameter. *)

From S2P Require Import Prelude GoStrings Netip Names Records Runner Dog Mail.

(** ** Errors of package net *)

Inductive errno := ECONNREFUSED | ENETUNREACH | EHOSTUNREACH | EADDRNOTAVAIL | EOTHER.

#[export] Instance errno_eq_dec : EqDecision errno.
Proof. solve_decision. Defined.

Record netError := mkNetError {
  ne_text : string;
  ne_deadline : bool;      (* errors.Is(err, context.DeadlineExceeded) *)
  ne_osTimeout : bool;     (* os.IsTimeout(err) *)
  ne_errno : option errno; (* the system error it wraps *)
  ne_timeout : bool;       (* errors.As(err, *net.Error) and its Timeout() *)
}.

(** ** Ports *)

(** [PortNone] is the zero value: the port was never dialled. *)
Inductive PortState :=
| PortNone | PortOpen | PortRefused | PortTimeout | PortUnreachable | PortError | PortSkipped.

#[export] Instance PortState_eq_dec : EqDecision PortState.
Proof. solve_decision. Defined.

Definition port_text (st : PortState) : string :=
  match st with
  | PortNone => "" | PortOpen => "open" | PortRefused => "refused" | PortTimeout => "timeout"
  | PortUnreachable => "unreachable" | PortError => "error" | PortSkipped => "skipped"
  end.

Definition webPorts : list Z := [80; 443]%Z.

Record portKey := mkPort { pk_IP : Addr; pk_Port : Z }.

#[export] Instance portKey_eq_dec : EqDecision portKey.
Proof. solve_decision. Defined.

#[export] Instance portKey_countable : Countable portKey.
Proof.
  apply (inj_countable' (fun k => (pk_IP k, pk_Port k)) (fun p => mkPort p.1 p.2)). by intros [].
Defined.

Definition classifyDialError (err : netError) : PortState :=
  if ne_deadline err || ne_osTimeout err then PortTimeout
  else if bool_decide (ne_errno err = Some ECONNREFUSED) then PortRefused
  else if bool_decide (ne_errno err = Some ENETUNREACH) || bool_decide (ne_errno err = Some EHOSTUNREACH)
          || bool_decide (ne_errno err = Some EADDRNOTAVAIL)
  then PortUnreachable
  else if ne_timeout err then PortTimeout
  else PortError.

Definition classifyDialErrorText (err : netError) : string :=
  port_text (classifyDialError err) +:+ ": " +:+ scrubProbeError (ne_text err).

(** What a dial returned: an error, or an open connection. *)
Definition dialPort (dial : portKey -> option netError) (k : portKey) : PortState :=
  match dial k with
  | Some err => classifyDialError err
  | None => PortOpen
  end.

(** Go compares addresses by bit length, number and zone. *)
Definition addr_Less (a b : Addr) : bool :=
  match a, b with
  | V4 m, V4 n => (m <? n)%N
  | V4 _, V6 _ _ => true
  | V6 _ _, V4 _ => false
  | V6 m z, V6 n w =>
      (m <? n)%N || ((m =? n)%N && bool_decide (String.le z w) && negb (String.eqb z w))
  end.

Definition port_le (j k : portKey) : Prop :=
  if bool_decide (pk_IP j = pk_IP k) then (pk_Port j <= pk_Port k)%Z
  else addr_Less (pk_IP k) (pk_IP j) = false.

#[export] Instance port_le_dec : RelDecision port_le.
Proof. intros j k. unfold port_le. destruct (bool_decide _); apply _. Defined.

Definition uniquePortKeys (addrs : list Addr) (ports : list Z) : list portKey :=
  merge_sort port_le (dedupe_from [] (a ← map Unmap addrs; p ← ports; [mkPort a p])).

(** The goroutines write disjoint keys of the map. *)
Definition probePorts (dial : portKey -> option netError) (addrs : list Addr) (ports : list Z)
    : gmap portKey PortState :=
  list_to_map (map (fun k => (k, dialPort dial k)) (uniquePortKeys addrs ports)).

(** The network of a dial. *)
Definition tcpNetwork (ip : Addr) : string := if Is6 ip then "tcp6" else "tcp4".

(** ** QUIC *)

Record QUICResult := mkQUIC {
  q_Supported : bool;
  q_ALPN : string;
  q_TLSVersion : string;
  q_ServerAddr : string;
  q_Family : string;
  q_TargetIP : string;
  q_HandshakeMs : Z;
  q_Reason : string;
  q_TLSAlert : string;
  q_TLSAlertCode : Z;
  q_Error : string;
}.

Definition quicFailed (err : string) : QUICResult := mkQUIC false "" "" "" "" "" 0 "" "" 0 err.

Definition quicArgs (host : string) (ip : Addr) (timeoutSec : Z) : list string :=
  ["-ip"; addr_string ip; "-t"; Itoa (maxInt 1 timeoutSec); host].

Section Quic.
(** [QUICResult.UnmarshalJSON] over encoding/json. *)
Variable decode : string -> option QUICResult.

Definition parseQUIC (out : string) : QUICResult :=
  if is_empty (TrimSpace out) then quicFailed "quicprobe produced no output"
  else match decode out with
       | Some q => q
       | None => quicFailed ("quicprobe output not JSON: " +:+ firstLine out)
       end.

Definition probeQUIC (run : RunResult) : QUICResult :=
  if isTimeout (run_ctx run) (run_err run) then quicFailed "quicprobe timed out"
  else match run_err run with
       | Some e => quicFailed ("quicprobe: " +:+ errText (Some e) +:+ ": " +:+ TrimSpace (run_stderr run))
       | None => parseQUIC (run_stdout run)
       end.
End Quic.

(** ** Lemmas *)

Lemma elem_of_uniquePortKeys k addrs ports :
  k ∈ uniquePortKeys addrs ports <-> (exists a, a ∈ addrs /\ pk_IP k = Unmap a) /\ pk_Port k ∈ ports.
Proof.
  unfold uniquePortKeys. rewrite merge_sort_Permutation, elem_of_dedupe_from.
  rewrite list_elem_of_bind. setoid_rewrite list_elem_of_bind. split.
  - intros [(a & (p & Hk & Hp) & Ha) _]. apply list_elem_of_singleton in Hk as ->.
    apply list_elem_of_fmap in Ha as (b & -> & Hb). simpl. eauto.
  - intros [(a & Ha & Hk) Hp]. split; [|set_solver]. exists (pk_IP k). split.
    + exists (pk_Port k). split; [|done]. apply list_elem_of_singleton. by destruct k.
    + rewrite Hk. by apply list_elem_of_fmap_2.
Qed.

(** Every address and port asked for is dialled once, whatever duplicates and IPv4-mapped forms the list has, in one fixed order, and each has its own result; nothing else is dialled. *)
Theorem probePorts_complete (dial : portKey -> option netError) (addrs : list Addr) (ports : list Z) :
  NoDup (uniquePortKeys addrs ports) /\
  (forall k, probePorts dial addrs ports !! k =
     if bool_decide (k ∈ uniquePortKeys addrs ports) then Some (dialPort dial k) else None) /\
  (forall a p, a ∈ addrs -> p ∈ ports -> mkPort (Unmap a) p ∈ uniquePortKeys addrs ports).
Proof.
  assert (Hnd : NoDup (uniquePortKeys addrs ports)).
  { unfold uniquePortKeys. rewrite merge_sort_Permutation. apply NoDup_dedupe_from. }
  split_and!; [done| |].
  - intros k. unfold probePorts.
    destruct (bool_decide _) eqn:E; simp_bool.
    + apply elem_of_list_to_map_1.
      * rewrite <-list_fmap_compose. simpl. by rewrite list_fmap_id.
      * apply list_elem_of_fmap. eauto.
    + apply not_elem_of_list_to_map_1. rewrite <-list_fmap_compose. by rewrite list_fmap_id.
  - intros a p Ha Hp. apply elem_of_uniquePortKeys. simpl. eauto.
Qed.
