(* ===== verification/Tls.v ===== *)
(** * Certificate chains: tlsprobe.go and aia.go

    Certificates and their verification (crypto/x509), the handshake
    (crypto/tls) and the printing of times are the standard library's: a
    certificate is a record of what the program reads of it, verification is
    a parameter. What the program makes of their answers is modelled. *)

From S2P Require Import Prelude GoStrings Netip Names Records Runner Mail Tlsa Tcp.

(** ** net/url: the parts of a parsed URL the program reads *)

Record Url := mkUrl {
  u_Scheme : string;
  u_Hostname : string;
  u_Port : string;
  u_EscapedPath : string;
  u_RawQuery : string;
  u_Host : string;
  u_RequestURI : string;
  u_String : string;
}.

Class UrlLib := {
  (** [url.Parse]: the URL, or the error's text. *)
  url_Parse : string -> Url + string;
  url_ResolveReference : Url -> Url -> Url;
}.

(** ** Certificates *)

Inductive publicKey :=
| KeyRSA (bits : Z)
| KeyECDSA (curve : string)
| KeyEd25519
| KeyOther (algorithm : string).

Record xcert := mkX {
  x_cert : cert;
  x_NotBefore : Z;     (* nanoseconds *)
  x_NotAfter : Z;
  x_RawIssuer : string;
  x_RawSubject : string;
  x_SignedItself : bool;   (* CheckSignature on its own body succeeds *)
  x_SubjectCN : string;
  x_IssuerCN : string;
  x_IssuerOrg : list string;
  x_IssuerString : string;
  x_DNSNames : list string;
  x_IssuingURL : list string;
  x_PublicKey : publicKey;
}.

(** The error of [x509.Certificate.Verify], by type. *)
Inductive verifyError :=
| HostnameError (text : string)
| UnknownAuthorityError (text : string)
| OtherVerifyError (text : string).

Definition ChainValid : string := "valid".
Definition ChainExpired : string := "expired".
Definition ChainNotYetValid : string := "not_yet_valid".
Definition ChainHostnameMismatch : string := "hostname_mismatch".
Definition ChainSelfSigned : string := "self_signed".
Definition ChainIncomplete : string := "incomplete_chain".
Definition ChainUntrustedRoot : string := "untrusted_root".
Definition ChainInvalid : string := "invalid".
Definition ChainHandshakeFailed : string := "handshake_failed".

Record CertInfo := mkCertInfo {
  ci_Subject : string;
  ci_Issuer : string;
  ci_NotBefore : string;
  ci_NotAfter : string;
  ci_DaysRemaining : Z;
  ci_SANs : list string;
  ci_CoversApex : bool;
  ci_CoversWWW : bool;
  ci_Wildcard : bool;
  ci_Key : string;
  ci_Fingerprint : string;
}.

Record TLSResult := mkTLSResult {
  tls_Chain : string;
  tls_Problems : list string;
  tls_Version : string;
  tls_Cipher : string;
  tls_TLS10 : option bool;
  tls_TLS11 : option bool;
  tls_Cert : option CertInfo;
  tls_ChainLength : nat;
  tls_Error : string;
  tls_chain : list xcert;
  tls_pkixValid : bool;
  tls_noALPN : bool;
}.

Definition isSelfSigned (c : xcert) : bool :=
  if negb (String.eqb (x_RawIssuer c) (x_RawSubject c)) then false else x_SignedItself c.

Definition issuerName (c : xcert) : string :=
  if negb (String.eqb (x_IssuerCN c) "") then x_IssuerCN c
  else match x_IssuerOrg c with org :: _ => org | [] => x_IssuerString c end.

Definition issuerOrg (c : xcert) : string :=
  match x_IssuerOrg c with org :: _ => org | [] => x_IssuerCN c end.

Definition keyDescription (c : xcert) : string :=
  match x_PublicKey c with
  | KeyRSA bits => "RSA " +:+ Itoa bits
  | KeyECDSA curve => "ECDSA " +:+ curve
  | KeyEd25519 => "Ed25519"
  | KeyOther algorithm => algorithm
  end.

(** [%04x]. *)
Definition hex4 (v : N) : string :=
  let s := hex_string 16 v "" in Join (replicate (4 - String.length s) "0") "" +:+ s.

Definition formatTLSVersion (v : N) : string :=
  if (v =? 772)%N then "TLS 1.3" else if (v =? 771)%N then "TLS 1.2"
  else if (v =? 770)%N then "TLS 1.1" else if (v =? 769)%N then "TLS 1.0"
  else "0x" +:+ hex4 v.

Definition noALPNAlert (err : string) : bool := Contains err "no application protocol".

Definition maxAIADepth : nat := 3.

Section Tls.
(** [x509.Certificate.Verify] of a leaf with the intermediates for a host
    against the root store: [None] is success. *)
Variable verifyChain : xcert -> list xcert -> string -> option verifyError.
Variable VerifyHostname : xcert -> string -> bool.
Variable rfc3339 : Z -> string.
Variable sha256hex : string -> string.
(** [fetchIssuer]: the certificate at an issuer URL. *)
Variable fetchIssuer : string -> option xcert.

(** [rest] is how many fetches are left; [fetched] the URLs fetched. *)
Fixpoint aia_loop (rest : nat) (leaf : xcert) (pool : list xcert) (host : string)
    (cert : xcert) (fetched : list string) : list string * bool :=
  match rest with
  | O => (fetched, false)
  | S rest =>
      match x_IssuingURL cert with
      | [] => (fetched, false)
      | url :: _ =>
          if isSelfSigned cert then (fetched, false)
          else match fetchIssuer url with
               | None => (fetched, false)
               | Some issuer =>
                   let fetched := fetched ++ [url] in
                   let pool := pool ++ [issuer] in
                   match verifyChain leaf pool host with
                   | None => (fetched, true)
                   | Some _ => aia_loop rest leaf pool host issuer fetched
                   end
               end
      end
  end.

Definition completeViaAIA (leaf : xcert) (intermediates : list xcert) (host : string) : list string * bool :=
  aia_loop maxAIADepth leaf intermediates host leaf [].

Definition classifyVerifyError (err : verifyError) (leaf : xcert) (rest : list xcert) (host : string)
    : string * string :=
  match err with
  | HostnameError t => (ChainHostnameMismatch, scrubProbeError t)
  | UnknownAuthorityError t =>
      if isSelfSigned leaf then (ChainSelfSigned, "self-signed certificate")
      else
        let '(fetched, completed) := completeViaAIA leaf rest host in
        if completed : bool
        then (ChainIncomplete, "server did not send the intermediate certificate (fetched via AIA: "
                +:+ Join fetched ", " +:+ ")")
        else (ChainUntrustedRoot, scrubProbeError t)
  | OtherVerifyError t => (ChainInvalid, scrubProbeError t)
  end.

(** [now] is the clock. *)
Definition classifyChain (now : Z) (leaf : xcert) (rest : list xcert) (host : string) : string * string :=
  if (x_NotAfter leaf <? now)%Z then (ChainExpired, "certificate expired " +:+ rfc3339 (x_NotAfter leaf))
  else if (now <? x_NotBefore leaf)%Z then
    (ChainNotYetValid, "certificate not valid before " +:+ rfc3339 (x_NotBefore leaf))
  else match verifyChain leaf rest host with
       | None => (ChainValid, "")
       | Some err => classifyVerifyError err leaf rest host
       end.

Definition chainProblems (now : Z) (headline : string) (leaf : xcert) (host : string) : list string :=
  let add (cond : bool) p := if cond && negb (String.eqb p headline) then [p] else [] in
  (if negb (String.eqb headline ChainValid) then [headline] else [])
  ++ add (x_NotAfter leaf <? now)%Z ChainExpired
  ++ add (now <? x_NotBefore leaf)%Z ChainNotYetValid
  ++ add (negb (VerifyHostname leaf host)) ChainHostnameMismatch
  ++ add (isSelfSigned leaf) ChainSelfSigned.

(** [time.Until]: a Duration is an int64 of nanoseconds, and saturates. *)
Definition timeUntil (now t : Z) : Z := Z.max minInt64 (Z.min maxInt64 (t - now)).

(** Whole days left: the hours of the remaining time, over 24, towards zero. *)
Definition nanosPerDay : Z := 24 * 3600 * 1000000000.
Definition daysRemaining (now notAfter : Z) : Z := Z.quot (timeUntil now notAfter) nanosPerDay.

Definition certInfo (now : Z) (leaf : xcert) (apex www : string) : CertInfo :=
  mkCertInfo
    (if String.eqb (x_SubjectCN leaf) "" then match x_DNSNames leaf with n :: _ => n | [] => "" end
     else x_SubjectCN leaf)
    (issuerName leaf) (rfc3339 (x_NotBefore leaf)) (rfc3339 (x_NotAfter leaf))
    (daysRemaining now (x_NotAfter leaf)) (x_DNSNames leaf)
    (VerifyHostname leaf apex) (VerifyHostname leaf www)
    (existsb (fun n => HasPrefix n "*.") (x_DNSNames leaf))
    (keyDescription leaf) (sha256hex (Raw (x_cert leaf))).

(** The connection state after the handshake, or its error. *)
Inductive handshake :=
| HandshakeError (text : string)
| HandshakeDone (version : N) (cipher : string) (peers : list xcert).

(** The boolean says that the connection can carry the request. The clock is
    read for the headline ([now]) and again for the rest ([later]). *)
Definition probeTLS (hs : handshake) (now later : Z) (host apex www : string) : bool * TLSResult :=
  match hs with
  | HandshakeError text =>
      (false, mkTLSResult ChainHandshakeFailed [] "" "" None None None 0 (scrubProbeError text) [] false
                (noALPNAlert text))
  | HandshakeDone version cipher [] =>
      (true, mkTLSResult ChainInvalid [ChainInvalid] (formatTLSVersion version) cipher None None None 0
               "server sent no certificate" [] false false)
  | HandshakeDone version cipher (leaf :: rest) =>
      let '(chain, err) := classifyChain now leaf rest host in
      (true, mkTLSResult chain (chainProblems later chain leaf host) (formatTLSVersion version) cipher
               None None (Some (certInfo later leaf apex www)) (length (leaf :: rest)) err
               (leaf :: rest) (String.eqb chain ChainValid) false)
  end.

End Tls.

(** ** Accepted versions and protocols *)

(** [handshakeOnce]: not dialled, completed with the protocol negotiated, or
    turned down with an error that is, or is not, a timeout. *)
Inductive handshakeOnce :=
| NotDialed
| Completed (protocol : string)
| TurnedDown (err : netError).

(** [ctxDone] says that the caller's context has ended. *)
Definition acceptsVersion (h : handshakeOnce) (ctxDone : bool) : option bool :=
  match h with
  | NotDialed => None
  | Completed _ => boolPtr true
  | TurnedDown err => if ctxDone || ne_timeout err then None else boolPtr false
  end.

Definition acceptsALPN (h : handshakeOnce) (proto : string) : option bool :=
  match h with
  | NotDialed => None
  | Completed p => boolPtr (String.eqb p proto)
  | TurnedDown err => if noALPNAlert (ne_text err) then boolPtr false else None
  end.

(** ** Issuer downloads: aia.go *)

(** A URL port: a decimal from 1 to 65535. *)
Definition parsePort (p : string) : Z + string :=
  match AtoiOk p with
  | Some n => if (n <? 1)%Z || (n >? 65535)%Z then inr ("invalid port " +:+ Quote p) else inl n
  | None => inr ("invalid port " +:+ Quote p)
  end.

Definition urlPort (u : Url) (dflt : Z) : Z + string :=
  if String.eqb (u_Port u) "" then inl dflt else parsePort (u_Port u).

Definition maxAIABytes : nat := Nat.pow 2 16.

(** A downloaded certificate, DER or PEM. [ParseCertificate] is crypto/x509's,
    [pem_Decode] encoding/pem's: the type and the bytes of the first block, if
    any, and what follows it. *)
Section Pem.
Variable ParseCertificate : string -> xcert + string.
Variable pem_Decode : string -> option (string * string) * string.

(** The loop over the blocks, with the certificates read so far. [None] is
    the fuel used up. *)
Fixpoint pem_certs (fuel : nat) (b : string) (certs : list xcert) : option (list xcert + string) :=
  match fuel with
  | O => None
  | S fuel =>
      match pem_Decode b with
      | (None, _) => Some (match certs with [] => inr "no CERTIFICATE blocks" | _ => inl certs end)
      | (Some (ty, bytes), rest) =>
          if negb (String.eqb ty "CERTIFICATE") then pem_certs fuel rest certs
          else match ParseCertificate bytes with
               | inr err => Some (inr err)
               | inl c => pem_certs fuel rest (certs ++ [c])
               end
      end
  end.

(** A block takes some of the text, so its length is fuel enough. *)
Definition parsePEMCerts (b : string) : option (list xcert + string) := pem_certs (S (String.length b)) b [].

Definition parseCertificate (b : string) : option xcert :=
  match ParseCertificate b with
  | inl c => Some c
  | inr _ => match parsePEMCerts b with
             | Some (inl (c :: _)) => Some c
             | _ => None
             end
  end.
End Pem.

Section Aia.
Context `{L : UrlLib} `{I : Ipnorm}.
(** The system resolver, and the HTTP client over a connection to one of the
    addresses: an error, or a status and a body. *)
Variable aiaResolve : string -> list Addr + string.
Variable http : list Addr -> Z -> string -> httpAnswer.
Variable ParseCertificate : string -> xcert + string.
Variable pem_Decode : string -> option (string * string) * string.

(** The addresses and the port [dialPublic] hands to [dialFirst]. *)
Definition dialPublic (u : Url) : (list Addr * Z) + string :=
  match urlPort u 80 with
  | inr err => inr err
  | inl port =>
      match aiaResolve (u_Hostname u) with
      | inr err => inr err
      | inl addrs =>
          let '(public, reserved) := splitReserved addrs in
          match public, reserved with
          | [], _ :: _ => inr ("issuer host has only reserved addresses (" +:+ Join reserved ", " +:+ ")")
          | [], [] => inr "issuer host has no address"
          | _, _ => inl (public, port)
          end
      end
  end.

Definition fetchAIA (rawURL : string) : xcert + string :=
  match url_Parse rawURL with
  | inr err => inr err
  | inl u =>
      if negb (String.eqb (u_Scheme u) "http") || String.eqb (u_Hostname u) "" then
        inr ("issuer URL " +:+ Quote rawURL +:+ " is not plain http")
      else match dialPublic u with
           | inr err => inr err
           | inl (public, port) =>
               match http public port rawURL with
               | HttpFailed err => inr err
               | HttpGot status body readErr =>
                   if negb (status =? 200)%Z then inr ("issuer URL answered HTTP " +:+ Itoa status)
                   else if negb (is_empty readErr) then inr readErr
                   else match parseCertificate ParseCertificate pem_Decode (str_take maxAIABytes body) with
                        | Some c => inl c
                        | None => inr "not a DER or PEM certificate"
                        end
               end
           end
  end.
End Aia.

(** ** Lemmas *)

Lemma parsePort_range p n : parsePort p = inl n -> (1 <= n <= 65535)%Z.
Proof.
  unfold parsePort. destruct (AtoiOk p) as [m|]; [|done].
  destruct (Z.ltb_spec m 1); simpl; [done|]. destruct (Z.gtb_spec m 65535); simpl; [done|].
  intros [= <-]. lia.
Qed.

Lemma urlPort_range u d n : (1 <= d <= 65535)%Z -> urlPort u d = inl n -> (1 <= n <= 65535)%Z.
Proof.
  unfold urlPort. intros Hd. destruct (String.eqb _ _); [intros [= <-]; done|apply parsePort_range].
Qed.

(** Reading the blocks ends: a block found leaves less text than there was. *)
Lemma pem_certs_ends ParseCertificate pem_Decode fuel b certs :
  (forall b block rest, pem_Decode b = (Some block, rest) -> (String.length rest < String.length b)%nat) ->
  (String.length b < fuel)%nat -> exists r, pem_certs ParseCertificate pem_Decode fuel b certs = Some r.
Proof.
  intros Hless. revert b certs. induction fuel as [|fuel IH]; intros b certs Hf; [lia|]. cbn.
  destruct (pem_Decode b) as [[[ty bytes]|] rest] eqn:E; [|eauto].
  apply Hless in E. destruct (negb _); [apply IH; lia|].
  destruct (ParseCertificate bytes); [apply IH; lia|eauto].
Qed.

(** The days left fit a machine integer, whatever the dates of a certificate. *)
Lemma daysRemaining_bounds now notAfter : (-106752 <= daysRemaining now notAfter <= 106752)%Z.
Proof.
  unfold daysRemaining, timeUntil, nanosPerDay, minInt64, maxInt64.
  set (t := Z.max _ _). assert (- 2 ^ 63 <= t <= 2 ^ 63 - 1)%Z by (unfold t; lia). clearbody t.
  pose proof (Z.quot_rem' t (24 * 3600 * 1000000000)).
  pose proof (Z.rem_bound_abs t (24 * 3600 * 1000000000)). nia.
Qed.

Lemma elem_of_add (cond : bool) (p headline x : string) :
  x ∈ (if cond && negb (String.eqb p headline) then [p] else []) <-> x = p /\ cond = true /\ p <> headline.
Proof.
  destruct cond, (String.eqb_spec p headline); simpl; rewrite ?list_elem_of_singleton, ?elem_of_nil; naive_solver.
Qed.

Lemma elem_of_chainProblems VerifyHostname now headline leaf host p :
  p ∈ chainProblems VerifyHostname now headline leaf host <->
  (p = headline /\ headline <> ChainValid) \/
  (p <> headline /\
   ((p = ChainExpired /\ (x_NotAfter leaf < now)%Z) \/
    (p = ChainNotYetValid /\ (now < x_NotBefore leaf)%Z) \/
    (p = ChainHostnameMismatch /\ VerifyHostname leaf host = false) \/
    (p = ChainSelfSigned /\ isSelfSigned leaf = true))).
Proof.
  unfold chainProblems. rewrite !elem_of_app, !elem_of_add, !Z.ltb_lt, negb_true_iff.
  destruct (String.eqb_spec headline ChainValid); simpl; rewrite ?list_elem_of_singleton, ?elem_of_nil;
    naive_solver.
Qed.
Section TlsLemmas.
Variable verifyChain : xcert -> list xcert -> string -> option verifyError.
Variable VerifyHostname : xcert -> string -> bool.
Variable rfc3339 : Z -> string.
Variable sha256hex : string -> string.
Variable fetchIssuer : string -> option xcert.

Lemma aia_loop_spec rest leaf pool host cert fetched :
  exists urls issuers,
    fst (aia_loop verifyChain fetchIssuer rest leaf pool host cert fetched) = fetched ++ urls /\
    (length urls <= rest)%nat /\
    Forall2 (fun url issuer => fetchIssuer url = Some issuer) urls issuers /\
    (snd (aia_loop verifyChain fetchIssuer rest leaf pool host cert fetched) = true ->
       urls <> [] /\ verifyChain leaf (pool ++ issuers) host = None).
Proof.
  revert pool cert fetched. induction rest as [|rest IH]; intros pool cert fetched; simpl.
  { exists [], []. split_and!; try done. by rewrite app_nil_r. }
  assert (Hstop : exists urls issuers, fst (fetched, false) = fetched ++ urls /\
    (length urls <= S rest)%nat /\ Forall2 (fun url issuer => fetchIssuer url = Some issuer) urls issuers /\
    (snd (fetched, false) = true -> urls <> [] /\ verifyChain leaf (pool ++ issuers) host = None)).
  { exists [], []. split_and!; try done; [by rewrite app_nil_r|simpl; lia]. }
  destruct (x_IssuingURL cert) as [|url more]; [done|].
  destruct (isSelfSigned cert); [done|].
  destruct (fetchIssuer url) as [issuer|] eqn:Ef; [|done].
  destruct (verifyChain leaf (pool ++ [issuer]) host) as [err|] eqn:Ev.
  - destruct (IH (pool ++ [issuer]) issuer (fetched ++ [url])) as (urls & issuers & H1 & H2 & H3 & H4).
    exists (url :: urls), (issuer :: issuers). rewrite H1, <-app_assoc. split_and!; try done.
    + simpl. lia.
    + by constructor.
    + intros H. destruct (H4 H) as [_ Hv]. split; [done|]. by rewrite <-app_assoc in Hv.
  - exists [url], [issuer]. split_and!; try done; [simpl; lia|by repeat constructor].
Qed.

Lemma classifyChain_valid now leaf rest host :
  fst (classifyChain verifyChain rfc3339 fetchIssuer now leaf rest host) = ChainValid <->
  (x_NotBefore leaf <= now <= x_NotAfter leaf)%Z /\ verifyChain leaf rest host = None.
Proof.
  unfold classifyChain.
  destruct (Z.ltb_spec (x_NotAfter leaf) now); [split; [done|lia]|].
  destruct (Z.ltb_spec now (x_NotBefore leaf)); [split; [done|lia]|].
  destruct (verifyChain leaf rest host) as [err|]; [|split; [auto|done]].
  split; [|by intros [_ ?]]. unfold classifyVerifyError.
  destruct err; simpl; try done. destruct (isSelfSigned leaf); [done|].
  destruct (completeViaAIA _ _ _ _ _) as [fetched []]; done.
Qed.

End TlsLemmas.

(** ** Properties *)

(** A chain is reported as repaired only when it is: completing a chain follows at most three issuer links, each fetched from the certificate before it, and it succeeds only when the leaf verifies with exactly the certificates fetched added to those the server sent. *)
Theorem completeViaAIA_sound (verifyChain : xcert -> list xcert -> string -> option verifyError)
    (fetchIssuer : string -> option xcert) (leaf : xcert) (sent : list xcert) (host : string) :
  let '(fetched, completed) := completeViaAIA verifyChain fetchIssuer leaf sent host in
  (length fetched <= 3)%nat /\
  exists issuers, Forall2 (fun url issuer => fetchIssuer url = Some issuer) fetched issuers /\
    (completed = true -> fetched <> [] /\ verifyChain leaf (sent ++ issuers) host = None).
Proof.
  unfold completeViaAIA.
  destruct (aia_loop_spec verifyChain fetchIssuer maxAIADepth leaf sent host leaf [])
    as (urls & issuers & H1 & H2 & H3 & H4).
  destruct (aia_loop _ _ _ _ _ _ _ _) as [fetched completed]. simpl in *. subst fetched.
  split; [done|]. exists issuers. auto.
Qed.

(** C34: A certificate is called valid, and counts for the PKIX usages of TLSA, exactly when it is within its dates and the chain verifies for the host. Otherwise the list of problems starts with the headline, and it always names every one of expiry, a future start, an uncovered name and a self-signature that holds, each of them once and nothing else, by the clock as it stands when the list is made. *)
Theorem probeTLS_problems (verifyChain : xcert -> list xcert -> string -> option verifyError)
    (VerifyHostname : xcert -> string -> bool) (rfc3339 : Z -> string) (sha256hex : string -> string)
    (fetchIssuer : string -> option xcert) (version : N) (cipher : string) (leaf : xcert)
    (rest : list xcert) (now later : Z) (host apex www : string) :
  let r := snd (probeTLS verifyChain VerifyHostname rfc3339 sha256hex fetchIssuer
                  (HandshakeDone version cipher (leaf :: rest)) now later host apex www) in
  (tls_Chain r = ChainValid <->
     (x_NotBefore leaf <= now <= x_NotAfter leaf)%Z /\ verifyChain leaf rest host = None) /\
  (tls_pkixValid r = true <-> tls_Chain r = ChainValid) /\
  (tls_Chain r <> ChainValid -> head (tls_Problems r) = Some (tls_Chain r)) /\
  NoDup (tls_Problems r) /\
  (forall p, p ∈ tls_Problems r <->
     (p = tls_Chain r /\ tls_Chain r <> ChainValid) \/
     (p <> tls_Chain r /\
      ((p = ChainExpired /\ (x_NotAfter leaf < later)%Z) \/
       (p = ChainNotYetValid /\ (later < x_NotBefore leaf)%Z) \/
       (p = ChainHostnameMismatch /\ VerifyHostname leaf host = false) \/
       (p = ChainSelfSigned /\ isSelfSigned leaf = true)))).
Proof.
  cbv zeta. unfold probeTLS.
  pose proof (classifyChain_valid verifyChain rfc3339 fetchIssuer now leaf rest host) as Hv.
  destruct (classifyChain _ _ _ _ _ _ _) as [chain err]. cbn [snd fst tls_Chain tls_pkixValid tls_Problems] in *.
  split_and!; [tauto| | | |].
  - apply String.eqb_eq.
  - intros Hne. unfold chainProblems. by apply String.eqb_neq in Hne as ->.
  - unfold chainProblems. cbv beta zeta. apply NoDup_app. split_and!.
    + destruct (negb _); [apply NoDup_singleton|constructor].
    + intros x Hx Hin. destruct (negb _); [|by apply elem_of_nil in Hx].
      apply list_elem_of_singleton in Hx as ->.
      rewrite !elem_of_app, !elem_of_add in Hin. naive_solver.
    + destruct (_ && _), (_ && _), (_ && _), (_ && _); simpl; apply (bool_decide_unpack _); vm_compute; reflexivity.
  - intros p. apply elem_of_chainProblems.
Qed.

(** C35: An issuer download connects only to public addresses, on a port from 1 to 65535: whatever the system resolver returned for the host of a URL that any server may have written, an address with a reserved class is left out, and none left means no connection. *)
Theorem dialPublic_safe `{I : Ipnorm} (aiaResolve : string -> list Addr + string) (u : Url)
    (addrs : list Addr) (port : Z) :
  dialPublic aiaResolve u = inl (addrs, port) ->
  addrs <> [] /\ (1 <= port <= 65535)%Z /\
  (forall a, a ∈ addrs -> reservedReason a = "") /\
  exists all, aiaResolve (u_Hostname u) = inl all /\ addrs `sublist_of` all /\
    (forall a, a ∈ all -> reservedReason a = "" -> a ∈ addrs).
Proof.
  unfold dialPublic. destruct (urlPort u 80) as [n|err] eqn:Ep; [|done].
  destruct (aiaResolve (u_Hostname u)) as [all|err]; [|done].
  destruct (splitReserved_spec all) as [H1 H2].
  destruct (splitReserved all) as [public reserved]. simpl in *.
  assert (Hn : (1 <= n <= 65535)%Z) by (apply (urlPort_range u 80); [lia|done]).
  destruct public as [|a public]; [by destruct reserved|]. intros [= <- <-].
  split_and!; try done; try lia.
  - intros b Hb. rewrite H1 in Hb. by apply list_elem_of_filter in Hb as [? _].
  - exists all. split_and!; [done|rewrite H1; apply sublist_filter|].
    intros b Hb Hr. rewrite H1. by apply list_elem_of_filter.
Qed.

(** A classifier for the witness: 10.0.0.0/8 is private. *)
Definition private_ten : Ipnorm :=
  Build_Ipnorm (fun a => match a with V4 n => if (N.shiftr n 24 =? 10)%N then "private" else "" | _ => "" end).

Lemma dialPublic_safe_witness :
  (1 <= 8080 <= 65535)%Z /\ (forall a, a ∈ [V4 16843009] -> @reservedReason private_ten a = "").
Proof.
  destruct (@dialPublic_safe private_ten (fun _ => inl [V4 167772161; V4 16843009])
    (mkUrl "http" "ca.example" "8080" "/i.crt" "" "ca.example:8080" "/i.crt" "http://ca.example:8080/i.crt")
    [V4 16843009] 8080) as (_ & Hp & Ha & _); [vm_compute; reflexivity|].
  split; [exact Hp|exact Ha].
Defined.
