(* ===== verification/Http.v ===== *)
(** * HTTP probes and redirect chains: httpprobe.go, and urlKey of webconsistency.go

    net/url is the interface [UrlLib]; reading one response from a connection
    (net/http) is a stream of responses. The redirect follower is a loop over
    a chain, the URLs seen and the current URL. *)

From S2P Require Import Prelude GoStrings Netip Names Records Mail Tcp Tls.

(** ** Results *)

Record HSTS := mkHSTS { hs_MaxAge : Z; hs_IncludeSubdomains : bool; hs_Preload : bool }.

Record HTTPResult := mkHTTP {
  ht_Status : Z;
  ht_Location : string;
  ht_Server : string;
  ht_HSTS : option HSTS;
  ht_AltSvc : string;
  ht_Error : string;
}.

Definition httpError (err : string) : HTTPResult := mkHTTP 0 "" "" None "" err.

(** ** Reading the response head *)

Definition hsts_part (h : HSTS) (part : string) : HSTS :=
  let kv := SplitN2 (TrimSpace part) "="%char in
  let k := ToLower (TrimSpace (match kv with k :: _ => k | [] => "" end)) in
  if String.eqb k "max-age" then
    match kv with
    | [_; v] => mkHSTS (fst (ParseInt (TrimFunc (Ascii.eqb dquote) (TrimSpace v))))
                  (hs_IncludeSubdomains h) (hs_Preload h)
    | _ => h
    end
  else if String.eqb k "includesubdomains" then mkHSTS (hs_MaxAge h) true (hs_Preload h)
  else if String.eqb k "preload" then mkHSTS (hs_MaxAge h) (hs_IncludeSubdomains h) true
  else h.

Definition parseHSTS (header : string) : HSTS :=
  foldl hsts_part (mkHSTS 0 false false) (Split header ";"%char).

(** One response as net/http reads it: the status and the header values by
    canonical name. *)
Record response := mkResponse { rs_Status : Z; rs_Header : gmap string string }.

Definition maxInterimResponses : nat := 8.

Definition isFinal (status : Z) : bool := (200 <=? status)%Z || (status <? 100)%Z || (status =? 101)%Z.

(** [stream]: what successive reads return; at its end the connection is at
    its end too. [n] reads are left. *)
Fixpoint read_final (n : nat) (stream : list (response + string)) : response + string :=
  match n with
  | O => inr ("more than " +:+ itoa maxInterimResponses +:+ " interim responses")
  | S n =>
      match stream with
      | [] => inr "unexpected EOF"
      | inr err :: _ => inr err
      | inl r :: stream => if isFinal (rs_Status r) then inl r else read_final n stream
      end
  end.

Definition readFinalResponse (stream : list (response + string)) : response + string :=
  read_final maxInterimResponses stream.

Definition stageError (stage err : string) : string :=
  let msg := scrubProbeError err in
  if HasPrefix msg (stage +:+ ": ") then msg else stage +:+ ": " +:+ msg.

Definition header (r : response) (k : string) : string := mget "" (rs_Header r) k.

(** [write] is the error of sending the request, if any. *)
Definition httpRequest (write : option string) (stream : list (response + string)) : HTTPResult :=
  match write with
  | Some err => httpError (stageError "write" err)
  | None =>
      match readFinalResponse stream with
      | inr err => httpError (stageError "read" err)
      | inl r =>
          mkHTTP (rs_Status r) (header r "Location") (header r "Server")
            (let h := header r "Strict-Transport-Security" in
             if String.eqb h "" then None else Some (parseHSTS h))
            (header r "Alt-Svc") ""
      end
  end.

(** ** strings.ToValidUTF8 with an empty replacement *)

(** The bytes of the rune the text starts with; 0 when they are no rune. *)
Definition rune_len (s : string) : nat :=
  let cont lo hi s := match s with String c _ => byte_in lo hi c | "" => false end in
  match s with
  | "" => 0%nat
  | String c s1 =>
      let s2 := str_drop 1 s1 in
      let s3 := str_drop 2 s1 in
      let two lo hi := cont lo hi s1 in
      if byte_in 0 127 c then 1%nat
      else if byte_in 194 223 c then if two 128 191 then 2%nat else 0%nat
      else if byte_in 224 239 c then
        let lo := if byte_in 224 224 c then 160%nat else 128%nat in
        let hi := if byte_in 237 237 c then 159%nat else 191%nat in
        if two lo hi && cont 128 191 s2 then 3%nat else 0%nat
      else if byte_in 240 244 c then
        let lo := if byte_in 240 240 c then 144%nat else 128%nat in
        let hi := if byte_in 244 244 c then 143%nat else 191%nat in
        if two lo hi && cont 128 191 s2 && cont 128 191 s3 then 4%nat else 0%nat
      else 0%nat
  end.

Fixpoint valid_utf8_from (keep : nat) (s : string) : string :=
  match s with
  | "" => ""
  | String c rest =>
      match keep with
      | S keep => String c (valid_utf8_from keep rest)
      | O => match rune_len s with
             | O => valid_utf8_from O rest
             | S n => String c (valid_utf8_from n rest)
             end
      end
  end.

Definition ToValidUTF8 (s : string) : string := valid_utf8_from O s.

(** ** Redirect chains *)

Record RedirectHop := mkHop { hop_URL : string; hop_Status : Z; hop_Location : string }.

(** [RedirectNone] is the zero value: a chain still going. *)
Inductive RedirectEnd :=
| RedirectNone | RedirectFinal | RedirectExternal | RedirectLoop | RedirectHopLimit | RedirectFailed.

#[export] Instance RedirectEnd_eq_dec : EqDecision RedirectEnd.
Proof. solve_decision. Defined.

Record RedirectChain := mkChain {
  rc_Hops : list RedirectHop;
  rc_Ended : RedirectEnd;
  rc_FinalURL : string;
  rc_External : string;
  rc_Loop : bool;
  rc_Error : string;
}.

Definition maxRedirectHops : nat := 10.
Definition maxLocationBytes : nat := 4096.

Definition hostAddrs : Type := gmap string Addr.

Definition isRedirect (status : Z) : bool := member status [301; 302; 303; 307; 308]%Z.

Definition clipLocation (loc : string) : string :=
  if (String.length loc <=? maxLocationBytes)%nat then loc
  else ToValidUTF8 (str_take maxLocationBytes loc) +:+ "... (clipped, "
       +:+ itoa (String.length loc) +:+ " bytes)".

Definition chain_failed (c : RedirectChain) (err : string) : RedirectChain :=
  mkChain (rc_Hops c) RedirectFailed (rc_FinalURL c) (rc_External c) (rc_Loop c) err.

Definition add_hop (c : RedirectChain) (h : RedirectHop) : RedirectChain :=
  mkChain (rc_Hops c ++ [h]) (rc_Ended c) (rc_FinalURL c) (rc_External c) (rc_Loop c) (rc_Error c).

Section Http.
Context `{D : Dpdomain} `{L : UrlLib}.

(** *** Request keys: webconsistency.go *)

Definition defaultPort (scheme : string) : string :=
  if String.eqb scheme "http" then "80" else if String.eqb scheme "https" then "443" else "".

Definition is_http (u : Url) : bool := member (u_Scheme u) ["http"; "https"].

Definition requestKey (u : Url) (withQuery : bool) : option string :=
  let host := bareName (u_Hostname u) in
  if String.eqb host "" || negb (is_http u) then None
  else
    let path := if String.eqb (u_EscapedPath u) "" then "/" else u_EscapedPath u in
    let port := if negb (String.eqb (u_Port u) "") && negb (String.eqb (u_Port u) (defaultPort (u_Scheme u)))
                then ":" +:+ u_Port u else "" in
    let query := if withQuery && negb (String.eqb (u_RawQuery u) "") then "?" +:+ u_RawQuery u else "" in
    Some (u_Scheme u +:+ "://" +:+ host +:+ port +:+ path +:+ query).

Definition urlKey (raw : string) : option string :=
  match url_Parse raw with
  | inr _ => None
  | inl u => requestKey u true
  end.

(** *** The follower *)

(** The URL and the address to connect to, or the chain ended. *)
Definition admit_hop (c : RedirectChain) (current : string) (seen : gset string) (hosts : hostAddrs)
    : RedirectChain * gset string * option (Url * Addr) :=
  let key := default current (urlKey current) in
  if bool_decide (key ∈ seen) then
    (mkChain (rc_Hops c) RedirectLoop (rc_FinalURL c) (rc_External c) true (rc_Error c), seen, None)
  else
    let seen := {[ key ]} ∪ seen in
    match url_Parse current with
    | inr _ => (chain_failed c ("bad URL " +:+ current), seen, None)
    | inl u =>
        if negb (is_http u) then
          (chain_failed c ("redirect to a non-HTTP URL " +:+ current), seen, None)
        else match hosts !! bareName (u_Hostname u) with
             | None =>
                 (mkChain (rc_Hops c) RedirectExternal (rc_FinalURL c) current (rc_Loop c) (rc_Error c),
                  seen, None)
             | Some ip => (c, seen, Some (u, ip))
             end
    end.

(** The chain, and the URL to go to, if it goes on. *)
Definition next (c : RedirectChain) (u : Url) (res : HTTPResult) : RedirectChain * option string :=
  if negb (isRedirect (ht_Status res)) || String.eqb (ht_Location res) "" then
    (mkChain (rc_Hops c) RedirectFinal (match last (rc_Hops c) with Some h => hop_URL h | None => "" end)
       (rc_External c) (rc_Loop c) (rc_Error c), None)
  else if (maxLocationBytes <? String.length (ht_Location res))%nat then
    (chain_failed c ("Location header is " +:+ itoa (String.length (ht_Location res)) +:+ " bytes, over the "
                     +:+ itoa maxLocationBytes +:+ "-byte limit"), None)
  else match url_Parse (ht_Location res) with
       | inr _ => (chain_failed c ("bad Location " +:+ ht_Location res), None)
       | inl ref => (c, Some (u_String (url_ResolveReference u ref)))
       end.

(** One exchange for a URL: the dial failed, the TLS handshake failed, or
    the request was sent and this is what it gave. *)
Inductive exchange :=
| DialFailed (err : netError)
| TLSFailed (text : string)
| Exchanged (write : option string) (stream : list (response + string)).

(** [connect ip port sni host path]; [sni] is the server name of an https URL. *)
Definition fetchHead (connect : Addr -> Z -> option string -> string -> string -> exchange)
    (u : Url) (ip : Addr) : HTTPResult :=
  let https := String.eqb (u_Scheme u) "https" in
  match urlPort u (if https then 443 else 80)%Z with
  | inr err => httpError err
  | inl port =>
      let path := if String.eqb (u_RequestURI u) "" then "/" else u_RequestURI u in
      match connect ip port (if https then Some (u_Hostname u) else None) (u_Host u) path with
      | DialFailed err => httpError ("connect: " +:+ classifyDialErrorText err)
      | TLSFailed text => httpError ("tls: " +:+ scrubProbeError text)
      | Exchanged write stream => httpRequest write stream
      end
  end.

Variable fetch : Url -> Addr -> HTTPResult.

(** [hops] requests are left. *)
Fixpoint follow (hops : nat) (hosts : hostAddrs) (c : RedirectChain) (seen : gset string)
    (current : string) : RedirectChain :=
  match hops with
  | O => mkChain (rc_Hops c) RedirectHopLimit (rc_FinalURL c) (rc_External c) (rc_Loop c)
           ("more than " +:+ itoa maxRedirectHops +:+ " redirects")
  | S hops =>
      match admit_hop c current seen hosts with
      | (c, _, None) => c
      | (c, seen, Some (u, ip)) =>
          let res := fetch u ip in
          if negb (String.eqb (ht_Error res) "") then chain_failed c (current +:+ ": " +:+ ht_Error res)
          else
            let c := add_hop c (mkHop current (ht_Status res) (clipLocation (ht_Location res))) in
            match next c u res with
            | (c, None) => c
            | (c, Some current) => follow hops hosts c seen current
            end
      end
  end.

Definition followRedirects (scheme host : string) (hosts : hostAddrs) : RedirectChain :=
  follow (S maxRedirectHops) hosts (mkChain [] RedirectNone "" "" false "") ∅
    (scheme +:+ "://" +:+ host +:+ "/").

End Http.

(** ** Lemmas *)

Section HttpLemmas.
Context `{D : Dpdomain} `{L : UrlLib}.

Definition visit_key (url : string) : string := default url (urlKey url).

(** A chain still going: its hops are distinct requests, all seen. *)
Definition chain_ok (c : RedirectChain) (seen : gset string) : Prop :=
  rc_Ended c = RedirectNone /\ rc_FinalURL c = "" /\ rc_External c = "" /\ rc_Loop c = false /\
  NoDup (map (fun h => visit_key (hop_URL h)) (rc_Hops c)) /\
  (forall h, h ∈ rc_Hops c -> visit_key (hop_URL h) ∈ seen).

(** A chain that has stopped says why, and its parts agree with that. *)
Definition chain_ended (c : RedirectChain) : Prop :=
  rc_Ended c <> RedirectNone /\
  (rc_Loop c = true <-> rc_Ended c = RedirectLoop) /\
  NoDup (map (fun h => visit_key (hop_URL h)) (rc_Hops c)) /\
  match rc_Ended c with
  | RedirectFinal =>
      exists h, last (rc_Hops c) = Some h /\ rc_FinalURL c = hop_URL h /\ rc_External c = "" /\
        (isRedirect (hop_Status h) = false \/ hop_Location h = "")
  | RedirectExternal => rc_FinalURL c = ""
  | _ => rc_FinalURL c = "" /\ rc_External c = ""
  end.

Lemma clipLocation_empty loc : clipLocation loc = "" -> loc = "".
Proof.
  unfold clipLocation. destruct (Nat.leb_spec (String.length loc) maxLocationBytes); [done|].
  intros He. apply (f_equal String.length) in He. rewrite !length_app_str in He. simpl in He. lia.
Qed.

Lemma clipLocation_nil : clipLocation "" = "".
Proof. reflexivity. Qed.

Lemma NoDup_visits c seen h :
  chain_ok c seen -> visit_key (hop_URL h) ∉ seen ->
  NoDup (map (fun h => visit_key (hop_URL h)) (rc_Hops c ++ [h])).
Proof.
  intros (_ & _ & _ & _ & Hnd & Hs) Hn. rewrite map_app. apply NoDup_app. split_and!; [done| |apply NoDup_singleton].
  intros x (h' & -> & Hh')%list_elem_of_fmap Hx. apply list_elem_of_singleton in Hx.
  apply Hs in Hh'. rewrite Hx in Hh'. done.
Qed.

Lemma follow_ended fetch hops hosts c seen current :
  chain_ok c seen ->
  let r := follow fetch hops hosts c seen current in
  chain_ended r /\ (length (rc_Hops r) <= length (rc_Hops c) + hops)%nat /\
  rc_Hops c `prefix_of` rc_Hops r.
Proof.
  revert c seen current. induction hops as [|hops IH]; intros c seen current Hok; cbn [follow].
  { destruct Hok as (H1 & H2 & H3 & H4 & H5 & H6). unfold chain_ended. cbn.
    rewrite H2, H3, H4. split_and!; try done. lia. }
  unfold admit_hop. fold (visit_key current).
  pose proof Hok as (H1 & H2 & H3 & H4 & H5 & H6).
  destruct (bool_decide (visit_key current ∈ seen)) eqn:Ek; simp_bool.
  { unfold chain_ended. cbn. rewrite H2, H3. split_and!; try done. lia. }
  destruct (url_Parse current) as [u|err] eqn:Eu.
  2: { unfold chain_ended. cbn. rewrite H2, H3, H4. split_and!; try done. lia. }
  destruct (is_http u) eqn:Eh; cbn [negb].
  2: { unfold chain_ended. cbn. rewrite H2, H3, H4. split_and!; try done. lia. }
  destruct (hosts !! bareName (u_Hostname u)) as [ip|] eqn:Ei.
  2: { unfold chain_ended. cbn. rewrite H2, H4. split_and!; try done. lia. }
  destruct (String.eqb (ht_Error (fetch u ip)) "") eqn:Ee; cbn [negb].
  2: { unfold chain_ended. cbn. rewrite H2, H3, H4. split_and!; try done. lia. }
  set (res := fetch u ip). set (h := mkHop current (ht_Status res) (clipLocation (ht_Location res))).
  pose proof (NoDup_visits c seen h Hok Ek) as Hnd.
  unfold next. destruct (negb (isRedirect (ht_Status res)) || String.eqb (ht_Location res) "") eqn:Ef.
  { unfold chain_ended. cbn. rewrite last_snoc, H3, H4, length_app. cbn. split_and!; try done; try lia.
    - exists h. split_and!; try done. cbn. apply orb_true_iff in Ef as [Ef|Ef]; [left; by apply negb_true_iff|].
      right. apply String.eqb_eq in Ef as ->. apply clipLocation_nil.
    - by apply prefix_app_r. }
  destruct (maxLocationBytes <? String.length (ht_Location res))%nat.
  { unfold chain_ended. cbn. rewrite H2, H3, H4, length_app. cbn. split_and!; try done; try lia. by apply prefix_app_r. }
  destruct (url_Parse (ht_Location res)) as [ref|err].
  2: { unfold chain_ended. cbn. rewrite H2, H3, H4, length_app. cbn. split_and!; try done; try lia. by apply prefix_app_r. }
  destruct (IH (add_hop c h) ({[ visit_key current ]} ∪ seen) (u_String (url_ResolveReference u ref)))
    as (R1 & R2 & R3).
  { unfold chain_ok. cbn. split_and!; try done. intros h' [Hh'|Hh']%elem_of_app; [set_solver|].
    apply list_elem_of_singleton in Hh' as ->. set_solver. }
  cbn [add_hop rc_Hops] in R2, R3. rewrite length_app in R2. cbn in R2. split_and!; [done|lia|].
  etrans; [|exact R3]. by apply prefix_app_r.
Qed.

(** The follower looks at nothing but the fetches of known hosts. *)
Lemma follow_known fetch1 fetch2 hops hosts c seen current :
  (forall u ip, is_http u = true -> hosts !! bareName (u_Hostname u) = Some ip -> fetch1 u ip = fetch2 u ip) ->
  follow fetch1 hops hosts c seen current = follow fetch2 hops hosts c seen current.
Proof.
  intros Hf. revert c seen current. induction hops as [|hops IH]; intros c seen current; cbn [follow]; [done|].
  unfold admit_hop. destruct (bool_decide _); [done|]. destruct (url_Parse current) as [u|]; [|done].
  destruct (is_http u) eqn:Eh; cbn [negb]; [|done].
  destruct (hosts !! bareName (u_Hostname u)) as [ip|] eqn:Ei; [|done]. rewrite (Hf u ip) by done.
  destruct (negb _); [done|]. destruct (next _ _ _) as [c' [cur|]]; [apply IH|done].
Qed.

End HttpLemmas.

(** ** Properties *)

(** C20: Following redirects always ends with a reason, after at most eleven requests, no two of them for the same request target; it is a loop exactly when marked so; a final answer names the last hop's URL, and that hop was no redirect or had no Location. *)
Theorem followRedirects_ends `{D : Dpdomain} `{L : UrlLib} (fetch : Url -> Addr -> HTTPResult)
    (scheme host : string) (hosts : hostAddrs) :
  let c := followRedirects fetch scheme host hosts in
  chain_ended c /\ (length (rc_Hops c) <= 11)%nat.
Proof.
  cbv zeta. unfold followRedirects.
  destruct (follow_ended fetch (S maxRedirectHops) hosts (mkChain [] RedirectNone "" "" false "") ∅
    (scheme +:+ "://" +:+ host +:+ "/")) as (H1 & H2 & _).
  { unfold chain_ok. cbn. split_and!; try done; [constructor|set_solver]. }
  split; [exact H1|]. exact H2.
Qed.

(** C21: The follower connects only to the hosts under test: its result depends on the exchanges with URLs of a known host, at that host's address, and on no other, whatever Location a server sends. *)
Theorem followRedirects_known_hosts `{D : Dpdomain} `{L : UrlLib} (fetch1 fetch2 : Url -> Addr -> HTTPResult)
    (scheme host : string) (hosts : hostAddrs) :
  (forall u ip, is_http u = true -> hosts !! bareName (u_Hostname u) = Some ip -> fetch1 u ip = fetch2 u ip) ->
  followRedirects fetch1 scheme host hosts = followRedirects fetch2 scheme host hosts.
Proof. intros Hf. unfold followRedirects. by apply follow_known. Qed.

(** A URL library for the witness: every URL is the root of one http host. *)
Definition root_urls : UrlLib :=
  Build_UrlLib (fun s => inl (mkUrl "http" s "" "/" "" s "/" s)) (fun _ ref => ref).

Lemma followRedirects_known_hosts_witness :
  let known (u : Url) (ip : Addr) := mkHTTP 200 "" "" None "" "" in
  let leak u ip := if String.eqb (@bareName lower_dpdomain (u_Hostname u)) "http://a.nl/"
                   then known u ip else httpError "leaked" in
  @followRedirects lower_dpdomain root_urls known "http" "a.nl" {[ "http://a.nl/" := V4 1 ]} =
  @followRedirects lower_dpdomain root_urls leak "http" "a.nl" {[ "http://a.nl/" := V4 1 ]}.
Proof.
  cbv zeta. apply followRedirects_known_hosts. intros u ip _ Hip.
  apply lookup_singleton_Some in Hip as [Hh _]. rewrite <-Hh. reflexivity.
Defined.
