(* ===== verification/Versions.v ===== *)
(** * One address of one host: the probes of tcp.go, and httpversions.go *)

From S2P Require Import Prelude GoStrings Netip Names Records Mail Tcp Tls Http.

Record HTTPVersions := mkVersions {
  hv_HTTP1_1 : option bool;
  hv_HTTP2 : option bool;
  hv_HTTP3 : option bool;
  hv_H3Advertised : option bool;
}.

(** ** Everything learned about one address *)

Record addrProbe := mkAddrProbe {
  ap_IP : Addr;
  ap_HTTP : PortState;
  ap_HTTPS : PortState;
  ap_HTTPRes : option HTTPResult;
  ap_HTTPSRes : option HTTPResult;
  ap_TLS : option TLSResult;
  ap_http2 : option bool;
}.

(** What the network gave the probes of one address: the two dials, the
    request on 80, the handshake on 443 with what follows on it, and the
    three handshakes on connections of their own. *)
Record addrNet := mkAddrNet {
  an_dial80 : option netError;
  an_http : HTTPResult;
  an_dial443 : option netError;
  an_tls : bool * TLSResult;     (* [probeTLS] *)
  an_https : HTTPResult;
  an_h2 : handshakeOnce;
  an_tls10 : handshakeOnce;
  an_tls11 : handshakeOnce;
  an_ctxDone : bool;
}.

Definition port_of (dial : option netError) : PortState :=
  match dial with Some err => classifyDialError err | None => PortOpen end.

Definition probeHTTPPort (n : addrNet) : PortState * option HTTPResult :=
  match an_dial80 n with
  | Some err => (classifyDialError err, None)
  | None => (PortOpen, Some (an_http n))
  end.

Definition probeOldVersions (n : addrNet) : option bool * option bool :=
  (acceptsVersion (an_tls10 n) (an_ctxDone n), acceptsVersion (an_tls11 n) (an_ctxDone n)).

Definition with_old (r : TLSResult) (old : option bool * option bool) : TLSResult :=
  mkTLSResult (tls_Chain r) (tls_Problems r) (tls_Version r) (tls_Cipher r) (fst old) (snd old)
    (tls_Cert r) (tls_ChainLength r) (tls_Error r) (tls_chain r) (tls_pkixValid r) (tls_noALPN r).

Definition probeHTTPSPort (n : addrNet) (p : addrProbe) : addrProbe :=
  match an_dial443 n with
  | Some err =>
      let st := classifyDialError err in
      mkAddrProbe (ap_IP p) (ap_HTTP p) st (ap_HTTPRes p) (ap_HTTPSRes p) (ap_TLS p)
        (if bool_decide (st = PortRefused) then boolPtr false else ap_http2 p)
  | None =>
      let '(conn, tlsRes) := an_tls n in
      let ok := conn && negb (String.eqb (tls_Chain tlsRes) ChainHandshakeFailed) in
      mkAddrProbe (ap_IP p) (ap_HTTP p) PortOpen (ap_HTTPRes p)
        (if ok then Some (an_https n) else ap_HTTPSRes p)
        (Some (if ok then with_old tlsRes (probeOldVersions n) else tlsRes))
        (acceptsALPN (an_h2 n) "h2")
  end.

(** The two tasks fill different fields. *)
Definition probeAddress (n : addrNet) (ip : Addr) : addrProbe :=
  let '(st, res) := probeHTTPPort n in
  probeHTTPSPort n (mkAddrProbe ip st PortNone res None None None).

(** ** Verdicts *)

Definition http11Verdict (st : PortState) (tlsRes : option TLSResult) (res : option HTTPResult) : option bool :=
  if bool_decide (st = PortRefused) then boolPtr false
  else match tlsRes with
       | None => None
       | Some t =>
           if tls_noALPN t then boolPtr false
           else if String.eqb (tls_Chain t) ChainHandshakeFailed then None
           else match res with
                | None => None
                | Some r =>
                    if (0 <? ht_Status r)%Z then boolPtr true
                    else if Contains (ht_Error r) "malformed HTTP" then boolPtr false
                    else None
                end
       end.

Definition offers_h3 (entry : string) : bool :=
  let '(id, _, _) := Cut (TrimSpace entry) "="%char in
  String.eqb id "h3" || HasPrefix id "h3-".

Definition h3Advertised (res : option HTTPResult) : option bool :=
  match res with
  | None => None
  | Some r =>
      if (ht_Status r =? 0)%Z then None
      else boolPtr (existsb offers_h3 (Split (ht_AltSvc r) ","%char))
  end.

Definition quicRefusals : list string :=
  ["tls_rejected"; "version_negotiation"; "stateless_reset"; "transport_error"; "application_error"].

Definition http3Verdict (q : option QUICResult) (advertised : option bool) : option bool :=
  match q with
  | None => None
  | Some q =>
      if q_Supported q then boolPtr true
      else if member (q_Reason q) quicRefusals then boolPtr false
      else if String.eqb (q_Reason q) "timeout" then
        match advertised with Some false => boolPtr false | _ => None end
      else None
  end.

Definition httpVersionsFor (p : addrProbe) (q : option QUICResult) : HTTPVersions :=
  let adv := h3Advertised (ap_HTTPSRes p) in
  mkVersions (http11Verdict (ap_HTTPS p) (ap_TLS p) (ap_HTTPSRes p)) (ap_http2 p)
    (http3Verdict q adv) adv.

(** ** Lemmas *)

Lemma http11Verdict_false st t res :
  http11Verdict st t res = Some false ->
  st = PortRefused \/ exists t', t = Some t' /\
    (tls_noALPN t' = true \/
     exists r, res = Some r /\ (ht_Status r <= 0)%Z /\ Contains (ht_Error r) "malformed HTTP" = true).
Proof.
  unfold http11Verdict. destruct (bool_decide (st = PortRefused)) eqn:E; simp_bool; [by left|].
  destruct t as [t'|]; [|done]. destruct (tls_noALPN t') eqn:En; [eauto|].
  destruct (String.eqb _ _); [done|]. destruct res as [r|]; [|done].
  destruct (Z.ltb_spec 0 (ht_Status r)); [done|]. destruct (Contains _ _) eqn:Ec; [eauto 10|done].
Qed.

Lemma http11Verdict_true st t res :
  http11Verdict st t res = Some true -> exists r, res = Some r /\ (0 < ht_Status r)%Z.
Proof.
  unfold http11Verdict. destruct (bool_decide (st = PortRefused)); [done|].
  destruct t as [t'|]; [|done]. destruct (tls_noALPN t'); [done|].
  destruct (String.eqb _ _); [done|]. destruct res as [r|]; [|done].
  destruct (Z.ltb_spec 0 (ht_Status r)); [eauto|]. by destruct (Contains _ _).
Qed.

Lemma acceptsALPN_false h proto :
  acceptsALPN h proto = Some false ->
  (exists p, h = Completed p /\ p <> proto) \/
  (exists err, h = TurnedDown err /\ noALPNAlert (ne_text err) = true).
Proof.
  destruct h as [|p|err]; simpl; [done| |].
  - intros [= Hp]. apply String.eqb_neq in Hp. eauto.
  - destruct (noALPNAlert (ne_text err)) eqn:E; [eauto|done].
Qed.

Lemma acceptsALPN_true h proto : acceptsALPN h proto = Some true -> h = Completed proto.
Proof.
  destruct h as [|p|err]; simpl; [done| |by destruct (noALPNAlert _)].
  intros [= Hp]. by apply String.eqb_eq in Hp as ->.
Qed.

Lemma h3Advertised_false res : h3Advertised res = Some false ->
  exists r, res = Some r /\ ht_Status r <> 0%Z /\ existsb offers_h3 (Split (ht_AltSvc r) ","%char) = false.
Proof.
  destruct res as [r|]; simpl; [|done]. destruct (Z.eqb_spec (ht_Status r) 0); [done|].
  intros [= H]. eauto.
Qed.

Lemma http3Verdict_false q adv : http3Verdict q adv = Some false ->
  exists q', q = Some q' /\ q_Supported q' = false /\
    (q_Reason q' ∈ quicRefusals \/ (q_Reason q' = "timeout" /\ adv = Some false)).
Proof.
  destruct q as [q'|]; simpl; [|done]. destruct (q_Supported q') eqn:Es; [done|].
  destruct (member _ _) eqn:Em; [apply member_true in Em; eauto|].
  destruct (String.eqb_spec (q_Reason q') "timeout"); [|done].
  destruct adv as [[]|]; [done| |done]. eauto 10.
Qed.

Lemma http3Verdict_true q adv : http3Verdict q adv = Some true -> exists q', q = Some q' /\ q_Supported q' = true.
Proof.
  destruct q as [q'|]; simpl; [|done]. destruct (q_Supported q') eqn:Es; [eauto|].
  destruct (member _ _); [done|]. destruct (String.eqb _ _); [|done]. by destruct adv as [[]|].
Qed.

Section Probe.
Variables (n : addrNet) (ip : Addr).

Definition https_refused : Prop :=
  exists err, an_dial443 n = Some err /\ classifyDialError err = PortRefused.

Definition https_answered (r : HTTPResult) : Prop :=
  an_dial443 n = None /\ fst (an_tls n) = true /\
  tls_Chain (snd (an_tls n)) <> ChainHandshakeFailed /\ an_https n = r.

Lemma probeAddress_refused : ap_HTTPS (probeAddress n ip) = PortRefused -> https_refused.
Proof.
  unfold probeAddress, probeHTTPSPort, https_refused. destruct (probeHTTPPort n) as [st res].
  destruct (an_dial443 n) as [err|]; simpl; [eauto|]. by destruct (an_tls n).
Qed.

Lemma probeAddress_TLS t : ap_TLS (probeAddress n ip) = Some t ->
  an_dial443 n = None /\ tls_noALPN t = tls_noALPN (snd (an_tls n)).
Proof.
  unfold probeAddress, probeHTTPSPort. destruct (probeHTTPPort n) as [st res].
  destruct (an_dial443 n) as [err|]; simpl; [done|]. destruct (an_tls n) as [conn t0]; simpl.
  intros [= <-]. by destruct (conn && _).
Qed.

Lemma probeAddress_HTTPSRes r : ap_HTTPSRes (probeAddress n ip) = Some r -> https_answered r.
Proof.
  unfold probeAddress, probeHTTPSPort, https_answered. destruct (probeHTTPPort n) as [st res].
  destruct (an_dial443 n) as [err|]; simpl; [done|]. destruct (an_tls n) as [conn t0]; simpl.
  destruct (conn && _) eqn:E; [|done]. simp_bool. intros [= <-]. by apply String.eqb_neq in H0.
Qed.

Lemma probeAddress_http2 b : ap_http2 (probeAddress n ip) = Some b ->
  (b = false /\ https_refused) \/ acceptsALPN (an_h2 n) "h2" = Some b.
Proof.
  unfold probeAddress, probeHTTPSPort, https_refused. destruct (probeHTTPPort n) as [st res].
  destruct (an_dial443 n) as [err|]; simpl.
  - destruct (bool_decide _) eqn:E; [|done]. simp_bool. intros [= <-]. eauto.
  - destruct (an_tls n); simpl. auto.
Qed.
End Probe.

(** C36: What each of an address's HTTP versions rests on. HTTP/1.1 is denied only when the port refused, the server turned the protocol down (alert 120) or answered with something else; HTTP/2 only when the port refused or a completed handshake, or alert 120, said so; and HTTP/3 only when the endpoint refused QUIC, by a TLS rejection, a version negotiation, a stateless reset or a transport or application error, or when QUIC timed out and a response was seen that offers no h3, the one case in which silence counts. Each is affirmed only by an answer. *)
Theorem httpVersions_evidence (n : addrNet) (ip : Addr) (q : option QUICResult) :
  let v := httpVersionsFor (probeAddress n ip) q in
  (hv_HTTP1_1 v = Some false ->
     https_refused n \/ (an_dial443 n = None /\ tls_noALPN (snd (an_tls n)) = true) \/
     (exists r, https_answered n r /\ (ht_Status r <= 0)%Z /\
        Contains (ht_Error r) "malformed HTTP" = true)) /\
  (hv_HTTP1_1 v = Some true -> exists r, https_answered n r /\ (0 < ht_Status r)%Z) /\
  (hv_HTTP2 v = Some false ->
     https_refused n \/ (exists p, an_h2 n = Completed p /\ p <> "h2") \/
     (exists err, an_h2 n = TurnedDown err /\ noALPNAlert (ne_text err) = true)) /\
  (hv_HTTP2 v = Some true -> an_h2 n = Completed "h2") /\
  (hv_HTTP3 v = Some false -> exists q', q = Some q' /\ q_Supported q' = false /\
     (q_Reason q' ∈ ["tls_rejected"; "version_negotiation"; "stateless_reset"; "transport_error"; "application_error"] \/
      (q_Reason q' = "timeout" /\ exists r, https_answered n r /\ ht_Status r <> 0%Z /\
         existsb offers_h3 (Split (ht_AltSvc r) ","%char) = false))) /\
  (hv_HTTP3 v = Some true -> exists q', q = Some q' /\ q_Supported q' = true).
Proof.
  cbv zeta. unfold httpVersionsFor. cbn [hv_HTTP1_1 hv_HTTP2 hv_HTTP3]. split_and!.
  - intros [Hr|(t & Ht & [Ha|(r & Hr & Hs)])]%http11Verdict_false.
    + left. by eapply probeAddress_refused.
    + apply probeAddress_TLS in Ht as [Hd Hn]. right. left. by rewrite <-Hn.
    + right. right. exists r. split; [by eapply probeAddress_HTTPSRes|done].
  - intros (r & Hr & Hs)%http11Verdict_true. exists r. split; [by eapply probeAddress_HTTPSRes|done].
  - intros [[_ H]|H%acceptsALPN_false]%probeAddress_http2; auto.
  - intros [[? _]|H%acceptsALPN_true]%probeAddress_http2; done.
  - intros (q' & -> & Hs & [Hr|[Hr (r & Hres & Hx)%h3Advertised_false]])%http3Verdict_false.
    + eauto.
    + exists q'. split_and!; try done. right. split; [done|]. exists r.
      split; [by eapply probeAddress_HTTPSRes|done].
  - apply http3Verdict_true.
Qed.

(** ** Silence read as absence *)

(** A response without an h3 offer makes a timeout of QUIC a denial. *)
Lemma silent_http3_denied :
  http3Verdict (Some (mkQUIC false "" "" "" "" "" 0 "timeout" "" 0 "")) (Some false) = Some false /\
  http3Verdict (Some (mkQUIC false "" "" "" "" "" 0 "timeout" "" 0 "")) None = None.
Proof. split; reflexivity. Qed.
