(* ===== verification/Web.v ===== *)
(** * The web section of the report, and webconsistency.go

    The data of report.go that the web probes fill, and the comparison of
    every response the run saw for one URL. *)

From S2P Require Import Prelude GoStrings Netip Names Records Mail Tlsa Tcp Tls Http Versions.

(** ** Data *)

Record AddrWeb := mkAddrWeb {
  aw_IP : string;
  aw_HTTP : PortState;
  aw_HTTPS : PortState;
  aw_HTTPRes : option HTTPResult;
  aw_HTTPSRes : option HTTPResult;
  aw_TLS : option TLSResult;
  aw_TLSA : option TLSAResult;
  aw_QUIC : option QUICResult;
  aw_Versions : option HTTPVersions;
}.

Record HostWeb := mkHostWeb {
  hw_SameAsApex : bool;
  hw_ViaWildcard : bool;
  hw_IPv4 : list AddrWeb;
  hw_IPv6 : list AddrWeb;
  hw_Redirects : gmap string RedirectChain;
  hw_CertConsistent : option bool;
}.

Definition zeroHost : HostWeb := mkHostWeb false false [] [] ∅ None.

Record WebSection := mkWeb { web_Apex : option HostWeb; web_WWW : option HostWeb }.

Definition addrs (h : option HostWeb) : list AddrWeb :=
  match h with
  | None => []
  | Some h => hw_IPv4 h ++ hw_IPv6 h
  end.

(** [HostWeb.add]. *)
Definition add_addr (h : HostWeb) (a : AddrWeb) : HostWeb :=
  let '(mkHostWeb same via v4 v6 red cc) := h in
  match ParseAddr (aw_IP a) with
  | Some ip => if Is6 ip then mkHostWeb same via v4 (v6 ++ [a]) red cc
               else mkHostWeb same via (v4 ++ [a]) v6 red cc
  | None => mkHostWeb same via (v4 ++ [a]) v6 red cc
  end.

(** ** Certificate names, kept once per report *)

Definition clear_SANs (c : CertInfo) : CertInfo :=
  mkCertInfo (ci_Subject c) (ci_Issuer c) (ci_NotBefore c) (ci_NotAfter c) (ci_DaysRemaining c) []
    (ci_CoversApex c) (ci_CoversWWW c) (ci_Wildcard c) (ci_Key c) (ci_Fingerprint c).

Definition set_Cert (t : TLSResult) (c : CertInfo) : TLSResult :=
  mkTLSResult (tls_Chain t) (tls_Problems t) (tls_Version t) (tls_Cipher t) (tls_TLS10 t) (tls_TLS11 t)
    (Some c) (tls_ChainLength t) (tls_Error t) (tls_chain t) (tls_pkixValid t) (tls_noALPN t).

Definition set_TLS (a : AddrWeb) (t : TLSResult) : AddrWeb :=
  mkAddrWeb (aw_IP a) (aw_HTTP a) (aw_HTTPS a) (aw_HTTPRes a) (aw_HTTPSRes a) (Some t) (aw_TLSA a)
    (aw_QUIC a) (aw_Versions a).

(** The certificate of an address that has a fingerprint. *)
Definition fingerprinted (a : AddrWeb) : option (TLSResult * CertInfo) :=
  t ← aw_TLS a; c ← tls_Cert t;
  if String.eqb (ci_Fingerprint c) "" then None else Some (t, c).

Definition hoist_addr (a : AddrWeb) : AddrWeb :=
  match fingerprinted a with
  | Some (t, c) => set_TLS a (set_Cert t (clear_SANs c))
  | None => a
  end.

Definition note_cert (certs : gmap string (list string)) (a : AddrWeb) : gmap string (list string) :=
  match fingerprinted a with
  | Some (_, c) =>
      match certs !! ci_Fingerprint c with
      | Some _ => certs
      | None => <[ci_Fingerprint c := ci_SANs c]> certs
      end
  | None => certs
  end.

Definition hoist_host (h : HostWeb) : HostWeb :=
  mkHostWeb (hw_SameAsApex h) (hw_ViaWildcard h) (map hoist_addr (hw_IPv4 h)) (map hoist_addr (hw_IPv6 h))
    (hw_Redirects h) (hw_CertConsistent h).

(** The list of names per certificate, and the section without them. *)
Definition hoistCertNames (w : WebSection) : gmap string (list string) * WebSection :=
  (foldl note_cert ∅ (addrs (web_Apex w) ++ addrs (web_WWW w)),
   mkWeb (hoist_host <$> web_Apex w) (hoist_host <$> web_WWW w)).

(** ** Statuses *)

Definition probeRefused (status : Z) : bool := member status [401; 403; 407; 417; 429]%Z.

(** ** Observations *)

Record webObservation := mkObs { o_answer : string; o_self : bool; o_probe : bool; o_source : string }.

Record urlObservations := mkUrlObs { g_url : string; g_host : string; g_obs : list webObservation }.

(** One call of [note]. *)
Record note_args := mkNote {
  n_raw : string; n_status : Z; n_location : string; n_source : string; n_probe : bool;
}.

(** [comparable] of the source. *)
Definition comparable_response (status : Z) (location : string) : bool :=
  if (status =? 0)%Z || probeRefused status then false
  else negb (isRedirect status && String.eqb location "").

Definition sortedChainKeys (m : gmap string RedirectChain) : list string :=
  sort_strings (map_to_list m).*1.

Section Web.
Context `{D : Dpdomain} `{L : UrlLib}.

Definition hostLabel (domain raw : string) : string :=
  match url_Parse raw with
  | inl u => if String.eqb (bareName (u_Hostname u)) (bareName domain) then "apex" else "www"
  | inr _ => "www"
  end.

Definition describeAnswer (raw key : string) (status : Z) (location : string) : string * bool :=
  if negb (isRedirect status) || String.eqb location "" then (Itoa status, false)
  else match url_Parse raw with
       | inr _ => (Itoa status, false)
       | inl base =>
           match url_Parse location with
           | inr _ => (Itoa status +:+ " -> (bad Location)", false)
           | inl ref =>
               let target := url_ResolveReference base ref in
               match requestKey target true with
               | None => (Itoa status +:+ " -> " +:+ clipLocation location, false)
               | Some full =>
                   (Itoa status +:+ " -> " +:+ default "" (requestKey target false), String.eqb full key)
               end
           end
       end.

(** The groups by key, and the keys in the order they came. *)
Definition note_state : Type := gmap string urlObservations * list string.

Definition note (domain : string) (st : note_state) (n : note_args) : note_state :=
  let '(byKey, order) := st in
  match urlKey (n_raw n) with
  | None => st
  | Some key =>
      if negb (comparable_response (n_status n) (n_location n)) then st
      else
        let '(answer, self) := describeAnswer (n_raw n) key (n_status n) (n_location n) in
        let o := mkObs answer self (n_probe n) (n_source n) in
        match byKey !! key with
        | Some g => (<[key := mkUrlObs (g_url g) (g_host g) (g_obs g ++ [o])]> byKey, order)
        | None => (<[key := mkUrlObs (n_raw n) (hostLabel domain (n_raw n)) [o]]> byKey, order ++ [key])
        end
  end.

Definition notePerAddress (host : string) (h : option HostWeb) : list note_args :=
  concat (map (fun a =>
    (match aw_HTTPRes a with
     | Some r => [mkNote ("http://" +:+ host +:+ "/") (ht_Status r) (ht_Location r) (aw_IP a) true]
     | None => []
     end) ++
    (match aw_HTTPSRes a with
     | Some r => [mkNote ("https://" +:+ host +:+ "/") (ht_Status r) (ht_Location r) (aw_IP a) true]
     | None => []
     end)) (addrs h)).

Definition noteChains (h : option HostWeb) : list note_args :=
  match h with
  | None => []
  | Some h =>
      concat (map (fun fam =>
        match hw_Redirects h !! fam with
        | Some c => map (fun hop => mkNote (hop_URL hop) (hop_Status hop) (hop_Location hop)
                                      ("redirect chain (" +:+ fam +:+ ")") false) (rc_Hops c)
        | None => []
        end) (sortedChainKeys (hw_Redirects h)))
  end.

Definition allNotes (domain : string) (web : WebSection) : list note_args :=
  notePerAddress domain (web_Apex web) ++ notePerAddress ("www." +:+ domain) (web_WWW web)
  ++ noteChains (web_Apex web) ++ noteChains (web_WWW web).

Definition collectWebObservations (domain : string) (web : WebSection) : list urlObservations :=
  let '(byKey, order) := foldl (note domain) (∅, []) (allNotes domain web) in
  omap (fun k => byKey !! k) (sort_strings order).

End Web.

(** ** Comparing the answers *)

Definition answer_count (obs : list webObservation) (a : string) : nat :=
  length (base.filter (fun o => o_answer o = a) obs).

(** Most frequent first, ties by text. *)
Definition tally_le (obs : list webObservation) (a b : string) : Prop :=
  (answer_count obs b < answer_count obs a)%nat \/
  (answer_count obs a = answer_count obs b /\ String.le a b).

#[export] Instance tally_le_dec obs : RelDecision (tally_le obs).
Proof. intros a b. unfold tally_le. apply _. Defined.

Definition answerTally (obs : list webObservation) : list string :=
  map (fun a => a +:+ " (" +:+ itoa (answer_count obs a) +:+ " of " +:+ itoa (length obs) +:+ ")")
    (merge_sort (tally_le obs) (dedupe_from [] (map o_answer obs))).

(** The probes sent back to the URL they asked for, and how many there were. *)
Definition selfRedirects (obs : list webObservation) : list string * nat :=
  let probes := base.filter (fun o => o_probe o = true) obs in
  (map o_source (base.filter (fun o => o_self o = true) probes), length probes).

Definition maxListedSources : nat := 4.

Definition describeSources (s : list string) (total : nat) : string :=
  match s, total with
  | [s0], 1%nat => "its only address (" +:+ s0 +:+ ")"
  | _, _ =>
      if (length s =? total)%nat then "all " +:+ itoa total +:+ " addresses"
      else
        let n := itoa (length s) +:+ " of " +:+ itoa total +:+ " addresses (" in
        if (length s <=? maxListedSources)%nat then n +:+ Join s ", " +:+ ")"
        else n +:+ Join (take maxListedSources s) ", " +:+ ", ...)"
  end.

(** ** Lemmas *)

Section WebLemmas.
Context `{D : Dpdomain} `{L : UrlLib}.

(** The notes that count for a key. *)
Definition counts_for (key : string) (n : note_args) : bool :=
  bool_decide (urlKey (n_raw n) = Some key) && comparable_response (n_status n) (n_location n).

Definition observation (key : string) (n : note_args) : webObservation :=
  let '(answer, self) := describeAnswer (n_raw n) key (n_status n) (n_location n) in
  mkObs answer self (n_probe n) (n_source n).

Definition counted (key : string) (notes : list note_args) : list webObservation :=
  map (observation key) (base.filter (fun n => counts_for key n = true) notes).

(** The groups hold exactly the notes of their key, and the order lists the
    keys once. *)
Definition note_inv (notes : list note_args) (st : note_state) : Prop :=
  NoDup (snd st) /\
  (forall k, k ∈ snd st <-> is_Some (fst st !! k)) /\
  (forall k, g_obs <$> fst st !! k = match counted k notes with [] => None | l => Some l end).

Lemma counted_snoc k notes n :
  counted k (notes ++ [n]) =
  counted k notes ++ (if counts_for k n then [observation k n] else []).
Proof.
  unfold counted. rewrite filter_app, map_app, filter_cons, filter_nil. f_equal.
  by destruct (counts_for k n).
Qed.

Lemma note_inv_step domain notes st n :
  note_inv notes st -> note_inv (notes ++ [n]) (note domain st n).
Proof.
  destruct st as [byKey order]. intros (Hnd & Hin & Hobs). simpl in *. unfold note.
  assert (Hskip : (forall k, counts_for k n = false) -> note_inv (notes ++ [n]) (byKey, order)).
  { intros Hno. split_and!; try done. intros k. rewrite counted_snoc, Hno, app_nil_r. apply Hobs. }
  destruct (urlKey (n_raw n)) as [key|] eqn:Ek.
  2: { apply Hskip. intros k. unfold counts_for. by rewrite Ek. }
  destruct (comparable_response (n_status n) (n_location n)) eqn:Ec; cbn [negb].
  2: { apply Hskip. intros k. unfold counts_for. rewrite Ec. apply andb_false_r. }
  destruct (describeAnswer (n_raw n) key (n_status n) (n_location n)) as [answer self] eqn:Ed.
  set (o := mkObs answer self (n_probe n) (n_source n)).
  assert (Hk : counted key (notes ++ [n]) = counted key notes ++ [o]).
  { rewrite counted_snoc. unfold counts_for. rewrite bool_decide_true by done. rewrite Ec. cbn [andb].
    unfold observation. by rewrite Ed. }
  assert (Hne : forall k, k <> key -> counted k (notes ++ [n]) = counted k notes).
  { intros k Hk'. rewrite counted_snoc. unfold counts_for. rewrite bool_decide_false by congruence.
    apply app_nil_r. }
  specialize (Hobs key) as Hkey. destruct (byKey !! key) as [g|] eqn:Eg; unfold note_inv; simpl.
  - split_and!; [done| |].
    + intros k. rewrite Hin. destruct (decide (k = key)) as [->|Hk'].
      * rewrite lookup_insert_eq, Eg. split; eauto.
      * by rewrite lookup_insert_ne by congruence.
    + intros k. destruct (decide (k = key)) as [->|Hk'].
      * rewrite lookup_insert_eq, Hk. simpl in *. destruct (counted key notes); [done|].
        by injection Hkey as ->.
      * rewrite lookup_insert_ne, Hne by congruence. apply Hobs.
  - split_and!.
    + apply NoDup_app. split_and!; [done| |apply NoDup_singleton].
      intros k Hk1%Hin ->%list_elem_of_singleton. rewrite Eg in Hk1. by destruct Hk1.
    + intros k. rewrite elem_of_app, Hin, list_elem_of_singleton.
      destruct (decide (k = key)) as [->|Hk'].
      * rewrite lookup_insert_eq, Eg. naive_solver.
      * rewrite lookup_insert_ne by congruence. naive_solver.
    + intros k. destruct (decide (k = key)) as [->|Hk'].
      * rewrite lookup_insert_eq, Hk. simpl in *. by destruct (counted key notes).
      * rewrite lookup_insert_ne, Hne by congruence. apply Hobs.
Qed.

Lemma note_inv_all domain notes : note_inv notes (foldl (note domain) (∅, []) notes).
Proof.
  induction notes as [|n notes IH] using rev_ind.
  - split_and!; simpl; [constructor| |done]. intros k. rewrite lookup_empty, elem_of_nil.
    split; [done|]. by intros [].
  - rewrite foldl_snoc. by apply note_inv_step.
Qed.
End WebLemmas.

(** ** Properties *)

(** Every response the run saw and may compare is in exactly one group, that of its request target: the groups' observations are, in order, those of the notes with the group's key, one group per key, sorted by key; a response that says nothing about its URL is in none. *)
Theorem collectWebObservations_groups `{D : Dpdomain} `{L : UrlLib} (domain : string) (web : WebSection) :
  exists keys,
    Sorted String.le keys /\ NoDup keys /\
    (forall k, k ∈ keys <-> exists n, n ∈ allNotes domain web /\ counts_for k n = true) /\
    map g_obs (collectWebObservations domain web) = map (fun k => counted k (allNotes domain web)) keys.
Proof.
  unfold collectWebObservations. set (notes := allNotes domain web).
  destruct (note_inv_all domain notes) as (Hnd & Hin & Hobs).
  destruct (foldl (note domain) (∅, []) notes) as [byKey order]. simpl in *.
  exists (sort_strings order). split_and!.
  - apply sort_strings_sorted.
  - by rewrite sort_strings_perm.
  - intros k. rewrite elem_of_sort_strings, Hin. specialize (Hobs k).
    unfold counted in Hobs. split.
    + intros [g Hg]. rewrite Hg in Hobs. simpl in Hobs.
      destruct (base.filter (fun n => counts_for k n = true) notes) as [|n l] eqn:E; [done|].
      exists n. assert (Hn : n ∈ base.filter (fun n => counts_for k n = true) notes) by (rewrite E; set_solver).
      apply list_elem_of_filter in Hn. tauto.
    + intros (n & Hn & Hc).
      assert (Hf : n ∈ base.filter (fun n => counts_for k n = true) notes) by (by apply list_elem_of_filter).
      destruct (base.filter _ notes); [by apply elem_of_nil in Hf|]. simpl in Hobs.
      destruct (byKey !! k); [eauto|done].
  - assert (Hs : forall k, k ∈ sort_strings order -> is_Some (byKey !! k))
      by (intros k Hk; apply Hin; by apply elem_of_sort_strings).
    induction (sort_strings order) as [|k ks IH]; [done|]. simpl.
    destruct (Hs k) as [g Hg]; [set_solver|]. rewrite Hg. simpl. f_equal.
    + specialize (Hobs k). rewrite Hg in Hobs. simpl in Hobs. by destruct (counted k notes); simplify_eq.
    + apply IH. intros k' Hk'. apply Hs. set_solver.
Qed.
