(* ===== verification/NsAudit.v ===== *)
(** * The nameserver audit: nsaudit.go *)

From S2P Require Import Prelude GoStrings Netip Names Records Runner Dog Dig Trace Wildcard Spf.

Record NSServer := mkNS {
  ns_Name : string;
  ns_IP : string;
  ns_AA : bool;
  ns_Rcode : string;
  ns_Serial : Z;
  ns_TCP : bool;
  ns_EDNS : bool;
  ns_NoSOA : bool;
  ns_Retries : nat;
  ns_Reserved : string;
  ns_Error : string;
}.

#[export] Instance NSServer_eq_dec : EqDecision NSServer.
Proof. solve_decision. Defined.

Record GlueReport := mkGlue { gl_Required : list string; gl_Missing : list string; gl_Mismatch : list string }.

Record NSReport := mkNSReport {
  nr_Count : nat;
  nr_Servers : list NSServer;
  nr_SerialsConsistent : option bool;
  nr_IPv4Prefixes24 : option nat;
  nr_IPv6Prefixes48 : option nat;
  nr_Glue : option GlueReport;
  nr_NSDomains : list string;
  nr_NSCNAME : list string;
  nr_Unresolvable : list string;
  nr_Unresolved : list string;
  nr_addrs : gmap string (list Addr);
}.

(** ** Names and addresses *)

Definition sortedAddrKeys (m : gmap string (list Addr)) : list string := sort_strings (map_to_list m).*1.

Definition addrs_of (m : gmap string (list Addr)) (n : string) : list Addr := mget [] m n.

Definition allAddrs (m : gmap string (list Addr)) : list Addr :=
  concat (map (addrs_of m) (sortedAddrKeys m)).

(** Distinct /24 and /48 prefixes. The lengths are valid, so a prefix there is. *)
Definition prefixDiversity (l : list Addr) : nat * nat :=
  (length (dedupe_from [] (omap (fun ip => addr_Prefix ip 24) (base.filter (fun ip => Is4 ip = true) l))),
   length (dedupe_from [] (omap (fun ip => addr_Prefix ip 48) (base.filter (fun ip => Is4 ip = false) l)))).

(** The two counts, or none when no address was examined. *)
Definition setDiversity (m : gmap string (list Addr)) : option nat * option nat :=
  match allAddrs m with
  | [] => (None, None)
  | l => let '(v4, v6) := prefixDiversity l in (Some v4, Some v6)
  end.

Section NsAudit.
Context `{D : Dpdomain} `{P : Psl} `{I : Ipnorm}.

Definition nsNames (ns : Lookup) : list string :=
  sort_strings (map (fun r => let f := fqdnOf r in if String.eqb f "" then r else f) (l_Records ns)).

Definition ns_domain (n : string) : string :=
  let key := bareName n in match psl_Registrable key with Some reg => reg | None => key end.

Definition nsDomains (names : list string) : list string :=
  sort_strings (dedupe_from [] (base.filter (fun k => k <> "") (map ns_domain names))).

(** What the two lookups of one name showed. *)
Inductive ns_outcome := NsUnresolved | NsUnresolvable | NsAddrs (l : list Addr).

Definition classifyNS (a aaaa : Lookup) : ns_outcome :=
  if negb (Answered a) || negb (Answered aaaa) then NsUnresolved
  else match Addrs a ++ Addrs aaaa with
       | [] => NsUnresolvable
       | l => NsAddrs l
       end.

Definition add_ns (lookup : lookupFn) (rep : NSReport) (n : string) : NSReport :=
  let a := lookup n "A" in
  let aaaa := lookup n "AAAA" in
  let cname := if nonempty (l_CNAME a) || nonempty (l_CNAME aaaa)
               then nr_NSCNAME rep ++ [n] else nr_NSCNAME rep in
  let '(unresolvable, unresolved, addrs) :=
    match classifyNS a aaaa with
    | NsUnresolved => (nr_Unresolvable rep, nr_Unresolved rep ++ [n], nr_addrs rep)
    | NsUnresolvable => (nr_Unresolvable rep ++ [n], nr_Unresolved rep, nr_addrs rep)
    | NsAddrs l => (nr_Unresolvable rep, nr_Unresolved rep, <[n := l]> (nr_addrs rep))
    end in
  mkNSReport (nr_Count rep) (nr_Servers rep) (nr_SerialsConsistent rep) (nr_IPv4Prefixes24 rep)
    (nr_IPv6Prefixes48 rep) (nr_Glue rep) (nr_NSDomains rep) cname unresolvable unresolved addrs.

Definition with_diversity (rep : NSReport) : NSReport :=
  let '(v4, v6) := setDiversity (nr_addrs rep) in
  mkNSReport (nr_Count rep) (nr_Servers rep) (nr_SerialsConsistent rep) v4 v6 (nr_Glue rep)
    (nr_NSDomains rep) (nr_NSCNAME rep) (nr_Unresolvable rep) (nr_Unresolved rep) (nr_addrs rep).

(** The report before any name is looked up. *)
Definition newNSReport (names : list string) : NSReport :=
  mkNSReport (length names) [] None None None None (nsDomains names) [] [] [] ∅.

Definition resolveNS (names : list string) (lookup : lookupFn) : NSReport :=
  with_diversity (foldl (add_ns lookup) (newNSReport names) names).

(** ** Auditing one address *)

Definition nsAuditArgs (ip : Addr) (domain : string) (timeoutSec : Z) : list string :=
  ["+yaml"; "+norecurse"; "+tries=1"; "+time=" +:+ Itoa (maxInt 1 timeoutSec);
   (if Is6 ip then "-6" else "-4"); "@" +:+ addr_string ip;
   domain; "SOA"; domain; "SOA"; "+tcp"; domain; "SOA"; "+dnssec"].

Definition silences : list string :=
  ["timed out"; "no servers could be reached"; "no response"; "communications error"; "unreachable";
   "connection refused"].

Definition unanswered (errText : string) : bool :=
  if String.eqb errText "" then false else existsb (Contains errText) silences.

Definition soaSerial (rdata : string) : Z :=
  match Fields rdata with
  | _ :: _ :: f2 :: _ => fst (ParseInt f2)
  | _ => 0
  end.

Definition newServer (name : string) (ip : Addr) : NSServer :=
  mkNS name (addr_string ip) false "" 0 false false false 0 "" "".

(** [rest]: the TCP and the EDNS message, as far as dig printed them. *)
Definition interpretAudit (s : NSServer) (udp : digMessage) (rest : list digMessage) : NSServer :=
  let aa := hasFlag udp "aa" && String.eqb (m_Status udp) "NOERROR" in
  let '(serial, noSOA) :=
    match records udp "SOA" with
    | soa :: _ => (soaSerial (RData soa), ns_NoSOA s)
    | [] => (ns_Serial s, if aa && negb (hasFlag udp "tc") then true else ns_NoSOA s)
    end in
  let tcp := match rest with
             | m :: _ => String.eqb (m_Error m) "" && String.eqb (m_Status m) "NOERROR"
             | [] => false
             end in
  let edns := m_OPT udp || match rest with _ :: m :: _ => m_OPT m | _ => false end in
  mkNS (ns_Name s) (ns_IP s) aa (m_Status udp) serial tcp edns noSOA (ns_Retries s) (ns_Reserved s)
    (if aa then ns_Error s else "not authoritative (" +:+ m_Status udp +:+ ")").

Definition set_ns_Error (e : string) (s : NSServer) : NSServer :=
  mkNS (ns_Name s) (ns_IP s) (ns_AA s) (ns_Rcode s) (ns_Serial s) (ns_TCP s) (ns_EDNS s) (ns_NoSOA s)
    (ns_Retries s) (ns_Reserved s) e.

Definition set_ns_Retries (n : nat) (s : NSServer) : NSServer :=
  mkNS (ns_Name s) (ns_IP s) (ns_AA s) (ns_Rcode s) (ns_Serial s) (ns_TCP s) (ns_EDNS s) (ns_NoSOA s)
    n (ns_Reserved s) (ns_Error s).

(** [runDig] never returns an empty list; the program would index it. *)
Definition auditOnce (run : RunResult) (name : string) (ip : Addr) : NSServer :=
  let s := newServer name ip in
  match runDig run with
  | [] => set_ns_Error "no response" s
  | m :: rest =>
      if negb (String.eqb (m_Error m) "") then set_ns_Error (firstNonEmpty [m_Error m; "no response"]) s
      else interpretAudit s m rest
  end.

(** The second attempt runs only when the first got no answer and the
    caller's context is alive. *)
Definition auditServer (first : RunResult) (ctxErr : option CtxErr) (second : RunResult)
    (name : string) (ip : Addr) : NSServer :=
  let s := auditOnce first name ip in
  if unanswered (ns_Error s) && bool_decide (ctxErr = None)
  then set_ns_Retries 1 (auditOnce second name ip)
  else s.

(** ** Auditing all of them *)

Definition familyOf (ip : Addr) : string := if Is4 (Unmap ip) then "ipv4" else "ipv6".

(** The name and address pairs of the audit, in the order of the loop. *)
Definition auditTargets (m : gmap string (list Addr)) (families : list string) : list (string * Addr) :=
  base.filter (fun t => familyOf (snd t) ∈ families)
    (concat (map (fun n => map (fun ip => (n, ip)) (addrs_of m n)) (sortedAddrKeys m))).

Definition reservedServer (name : string) (ip : Addr) : NSServer :=
  let reason := reservedReason ip in
  mkNS name (addr_string ip) false "" 0 false false false 0 reason
    ("reserved address (" +:+ reason +:+ "): not queried").

Definition is_reserved (t : string * Addr) : bool := negb (String.eqb (reservedReason (snd t)) "").

(** Sorted by name, then by address text. *)
Definition server_le (s t : NSServer) : Prop :=
  if bool_decide (ns_Name s = ns_Name t) then String.le (ns_IP s) (ns_IP t)
  else String.le (ns_Name s) (ns_Name t).

#[export] Instance server_le_dec : RelDecision server_le.
Proof. intros s t. unfold server_le. destruct (bool_decide _); apply _. Defined.

Definition serials (servers : list NSServer) : list Z :=
  map ns_Serial (base.filter (fun s => ns_AA s = true /\ ns_Serial s <> 0%Z) servers).

(** The loop: [first] is the serial seen last, if any. *)
Fixpoint serials_loop (first : option Z) (servers : list NSServer) : option bool :=
  match servers with
  | [] => match first with None => None | Some _ => boolPtr true end
  | s :: servers =>
      if negb (ns_AA s) || (ns_Serial s =? 0)%Z then serials_loop first servers
      else match first with
           | Some f => if negb (ns_Serial s =? f)%Z then boolPtr false
                       else serials_loop (Some (ns_Serial s)) servers
           | None => serials_loop (Some (ns_Serial s)) servers
           end
  end.

Definition serialsConsistent (servers : list NSServer) : option bool := serials_loop None servers.

(** The servers as they were appended: the reserved ones by the loop itself,
    then the audits in the order in which they completed. *)
Definition appended (targets : list (string * Addr)) (completed : list NSServer) : list NSServer :=
  map (fun t => reservedServer (fst t) (snd t)) (base.filter (fun t => is_reserved t = true) targets)
  ++ completed.

Definition auditAll (rep : NSReport) (families : list string) (completed : list NSServer) : NSReport :=
  let servers := merge_sort server_le
    (nr_Servers rep ++ appended (auditTargets (nr_addrs rep) families) completed) in
  mkNSReport (nr_Count rep) servers (serialsConsistent servers) (nr_IPv4Prefixes24 rep)
    (nr_IPv6Prefixes48 rep) (nr_Glue rep) (nr_NSDomains rep) (nr_NSCNAME rep) (nr_Unresolvable rep)
    (nr_Unresolved rep) (nr_addrs rep).

(** ** Glue *)

Definition glueArgs (parentServer family : string) (timeoutSec : Z) (domain : string) : list string :=
  ["+yaml"; "+norecurse"; "+tries=1"; "+time=" +:+ Itoa (maxInt 1 timeoutSec);
   family_switch family; "@" +:+ parentServer; domain; "NS"].

Definition isReferral (m : digMessage) : bool :=
  if negb (String.eqb (m_Error m) "") || negb (String.eqb (m_Status m) "NOERROR") then false
  else existsb (fun rr => String.eqb (RType rr) "NS") (m_Authority m ++ m_Answer m).

Definition inBailiwick (names : list string) (fqdn : string) : list string :=
  sort_strings (dedupe_from []
    (base.filter (fun abs => String.eqb abs fqdn || HasSuffix abs ("." +:+ fqdn) = true)
       (map fqdnOf names))).

Definition glueAddresses (m : digMessage) : gmap string (gset string) :=
  foldl (fun glue rr =>
    if member (RType rr) ["A"; "AAAA"]
    then <[Owner rr := {[ RData rr ]} ∪ mget ∅ glue (Owner rr)]> glue
    else glue) ∅ (m_Additional m).

Definition glueMismatches (name : string) (l : list Addr) (glue : gset string) : list string :=
  omap (fun ip => if bool_decide (addr_string ip ∈ glue) then None
                  else Some (name +:+ " " +:+ addr_string ip)) l.

Definition glue_step (glue : gmap string (gset string)) (addrs : gmap string (list Addr))
    (g : GlueReport) (n : string) : GlueReport :=
  let required := gl_Required g ++ [n] in
  let have := mget ∅ glue n in
  if bool_decide (have = ∅) then mkGlue required (gl_Missing g ++ [n]) (gl_Mismatch g)
  else mkGlue required (gl_Missing g) (gl_Mismatch g ++ glueMismatches n (addrs_of addrs n) have).

Definition checkGlue (msgs : list digMessage) (domain : string) (names : list string)
    (addrs : gmap string (list Addr)) : option GlueReport :=
  match msgs with
  | [] => None
  | m :: _ =>
      if negb (isReferral m) then None
      else
        let fqdn := fqdnOf domain in
        if String.eqb fqdn "" then None
        else Some (foldl (glue_step (glueAddresses m) addrs) (mkGlue [] [] []) (inBailiwick names fqdn))
  end.

End NsAudit.

(** ** Lemmas *)

Lemma elem_of_serials x servers :
  x ∈ serials servers <-> exists s, s ∈ servers /\ ns_AA s = true /\ ns_Serial s = x /\ x <> 0%Z.
Proof.
  unfold serials. rewrite list_elem_of_fmap. setoid_rewrite list_elem_of_filter. naive_solver.
Qed.

Lemma serials_loop_spec first servers :
  serials_loop first servers =
  match first with
  | Some f => Some (bool_decide (Forall (fun x => x = f) (serials servers)))
  | None => match serials servers with
            | [] => None
            | f :: l => Some (bool_decide (Forall (fun x => x = f) l))
            end
  end.
Proof.
  revert first. unfold serials.
  induction servers as [|s servers IH]; intros first; cbn [serials_loop].
  { destruct first; [by rewrite bool_decide_true by constructor|done]. }
  rewrite filter_cons. destruct (negb (ns_AA s) || (ns_Serial s =? 0)%Z) eqn:E.
  - rewrite decide_False; [apply IH|]. intros [Ha Hs]. rewrite Ha in E. simpl in E. by apply Z.eqb_eq in E.
  - simp_bool. rewrite decide_True by done. cbn [map]. destruct first as [f|].
    + destruct (Z.eqb_spec (ns_Serial s) f) as [->|Hn]; cbn [negb].
      * rewrite IH. f_equal. apply bool_decide_ext. rewrite Forall_cons. naive_solver.
      * rewrite bool_decide_false; [done|]. rewrite Forall_cons. naive_solver.
    + rewrite IH. done.
Qed.

Definition server_key (s : NSServer) : string * string := (ns_Name s, ns_IP s).

Definition key_le (p q : string * string) : Prop :=
  if bool_decide (fst p = fst q) then String.le (snd p) (snd q) else String.le (fst p) (fst q).

#[export] Instance key_le_antisymm : AntiSymm (=) key_le.
Proof.
  intros [a b] [c d]. unfold key_le. simpl. destruct (bool_decide (a = c)) eqn:E; simp_bool.
  - subst. rewrite bool_decide_true by done. intros H1 H2. f_equal. by apply (anti_symm String.le).
  - rewrite bool_decide_false by congruence. intros H1 H2. destruct E. by apply (anti_symm String.le).
Qed.

#[export] Instance key_le_trans : Transitive key_le.
Proof.
  intros [a b] [c d] [e f]. unfold key_le. simpl.
  destruct (bool_decide (a = c)) eqn:E1; destruct (bool_decide (c = e)) eqn:E2; simp_bool; subst.
  - rewrite bool_decide_true by done. intros. by etrans.
  - by rewrite bool_decide_false by done.
  - by rewrite bool_decide_false by done.
  - intros H1 H2. destruct (decide (a = e)) as [->|Hn].
    + destruct E1. by apply (anti_symm String.le).
    + rewrite bool_decide_false by done. by etrans.
Qed.

#[export] Instance server_le_total : Total server_le.
Proof.
  intros s t. unfold server_le. destruct (decide (ns_Name s = ns_Name t)) as [E|E].
  - rewrite !bool_decide_true by done. apply (total String.le).
  - rewrite !bool_decide_false by congruence. apply (total String.le).
Qed.

#[export] Instance server_le_trans : Transitive server_le.
Proof. intros s t u Hst Htu. exact (key_le_trans (server_key s) (server_key t) (server_key u) Hst Htu). Qed.

Lemma server_keys_sorted l : Sorted server_le l -> Sorted key_le (map server_key l).
Proof.
  induction 1 as [|s l Hl IH Hs]; simpl; [constructor|]. constructor; [done|].
  destruct Hs; simpl; constructor. done.
Qed.

(** Lists with the same keys, in the same order, of the same elements. *)
Lemma map_key_eq {A B} (f : A -> B) (l1 l2 : list A) :
  l1 ≡ₚ l2 -> NoDup (map f l1) -> map f l1 = map f l2 -> l1 = l2.
Proof.
  intros Hp Hnd He.
  assert (Hinj : forall x y, x ∈ l1 -> y ∈ l1 -> f x = f y -> x = y).
  { clear Hp He. induction l1 as [|z l IH]; intros x y Hx Hy Hf; [by apply elem_of_nil in Hx|].
    simpl in Hnd. apply NoDup_cons in Hnd as [Hz Hnd].
    apply elem_of_cons in Hx as [->|Hx]; apply elem_of_cons in Hy as [->|Hy]; try done; [| |by apply IH].
    - destruct Hz. rewrite Hf. by apply list_elem_of_fmap_2.
    - destruct Hz. rewrite <-Hf. by apply list_elem_of_fmap_2. }
  assert (Hgen : forall m1 m2 : list A, (forall x, x ∈ m1 -> x ∈ l1) -> (forall x, x ∈ m2 -> x ∈ l1) ->
    map f m1 = map f m2 -> m1 = m2).
  { induction m1 as [|x m1 IH]; intros [|y m2] H1 H2 Hm; simplify_eq/=; [done|].
    f_equal; [apply Hinj; [apply H1|apply H2|done]; set_solver|].
    apply IH; [set_solver..|done]. }
  apply Hgen; [done|intros x; by rewrite Hp|done].
Qed.

Lemma sorted_servers_unique (l1 l2 : list NSServer) :
  l1 ≡ₚ l2 -> NoDup (map server_key l1) -> merge_sort server_le l1 = merge_sort server_le l2.
Proof.
  intros Hp Hnd. apply (map_key_eq server_key).
  - by rewrite !merge_sort_Permutation.
  - by rewrite (fmap_Permutation server_key _ _ (merge_sort_Permutation server_le l1)).
  - apply (Sorted_unique key_le); try apply server_keys_sorted, Sorted_merge_sort, _.
    by rewrite !merge_sort_Permutation, Hp.
Qed.

(** What the report says of the addresses looked up so far. *)
Definition resolve_inv (lookup : lookupFn) (seen : list string) (rep : NSReport) : Prop :=
  nr_Servers rep = [] /\
  (forall n, n ∈ nr_Unresolved rep <-> n ∈ seen /\ classifyNS (lookup n "A") (lookup n "AAAA") = NsUnresolved) /\
  (forall n, n ∈ nr_Unresolvable rep <-> n ∈ seen /\ classifyNS (lookup n "A") (lookup n "AAAA") = NsUnresolvable) /\
  (forall n l, nr_addrs rep !! n = Some l <-> n ∈ seen /\ classifyNS (lookup n "A") (lookup n "AAAA") = NsAddrs l).

(** Membership after one more name, by what the name is classified as. *)
Lemma snoc_in {A B} (seen : list A) (n : A) (Q : A -> B -> Prop) (R : A -> B -> Prop) :
  (forall m b, R m b <-> m ∈ seen /\ Q m b) ->
  forall m b, (m ∈ seen ++ [n] /\ Q m b) <-> R m b \/ (m = n /\ Q n b).
Proof.
  intros H m b. rewrite H, elem_of_app, list_elem_of_singleton. split.
  - intros [[Hm| ->] Hq]; auto.
  - intros [[Hm Hq]|[-> Hq]]; auto.
Qed.

Lemma add_ns_inv lookup seen rep n :
  resolve_inv lookup seen rep -> resolve_inv lookup (seen ++ [n]) (add_ns lookup rep n).
Proof.
  set (cl m := classifyNS (lookup m "A") (lookup m "AAAA")).
  intros (H0 & H1 & H2 & H3).
  pose proof (snoc_in seen n (fun m (_ : unit) => cl m = NsUnresolved) (fun m _ => m ∈ nr_Unresolved rep)
    (fun m _ => H1 m)) as E1.
  pose proof (snoc_in seen n (fun m (_ : unit) => cl m = NsUnresolvable) (fun m _ => m ∈ nr_Unresolvable rep)
    (fun m _ => H2 m)) as E2.
  pose proof (snoc_in seen n (fun m l => cl m = NsAddrs l) (fun m l => nr_addrs rep !! m = Some l) H3) as E3.
  cbv beta in E1, E2, E3. unfold cl in E1, E2, E3. unfold add_ns, resolve_inv. fold (cl n) in E1, E2, E3 |- *.
  split_and!; [by destruct (cl n)|intros m; rewrite (E1 m tt)|intros m; rewrite (E2 m tt)|intros m l; rewrite (E3 m l)];
    destruct (cl n) as [| |k] eqn:E; cbn [nr_Unresolved nr_Unresolvable nr_addrs];
    rewrite ?elem_of_app, ?list_elem_of_singleton; try (split; [tauto|intros [?|[? ?]]; done || tauto]).
  destruct (decide (m = n)) as [->|Hn].
  - rewrite lookup_insert_eq. rewrite H3. fold (cl n). rewrite E. split; [intros [= ->]; auto|].
    intros [[_ [= ->]]|[_ [= ->]]]; done.
  - rewrite lookup_insert_ne by done. split; [auto|]. intros [?|[? _]]; done.
Qed.

Lemma resolveNS_servers `{D : Dpdomain} `{P : Psl} (names : list string) (lookup : lookupFn) :
  nr_Servers (resolveNS names lookup) = [].
Proof.
  unfold resolveNS, with_diversity. destruct (setDiversity _) as [v4 v6]. cbn [nr_Servers].
  enough (H : forall l rep, nr_Servers rep = [] -> nr_Servers (foldl (add_ns lookup) rep l) = []) by by apply H.
  intros l. induction l as [|n l IH]; intros rep H; [done|]. cbn. apply IH. unfold add_ns.
  by destruct (classifyNS _ _).
Qed.

(** ** Properties *)

(** The nameserver section does not depend on the order in which the audits, which run in parallel, complete: for distinct name and address pairs the servers are listed in one order, and so is every verdict read off them. *)
Theorem auditAll_any_order `{I : Ipnorm} (rep : NSReport) (families : list string)
    (completed1 completed2 : list NSServer) :
  completed1 ≡ₚ completed2 ->
  NoDup (map server_key (nr_Servers rep ++ appended (auditTargets (nr_addrs rep) families) completed1)) ->
  auditAll rep families completed1 = auditAll rep families completed2.
Proof.
  intros Hp Hnd. unfold auditAll.
  rewrite (sorted_servers_unique _
    (nr_Servers rep ++ appended (auditTargets (nr_addrs rep) families) completed2)); [done| |done].
  unfold appended. by rewrite Hp.
Qed.

Lemma auditAll_any_order_witness :
  let rep := mkNSReport 2 [] None None None None [] [] [] [] {[ "ns1.a.nl." := [V4 1]; "ns2.a.nl." := [V4 2] ]} in
  let s1 := newServer "ns1.a.nl." (V4 1) in
  let s2 := newServer "ns2.a.nl." (V4 2) in
  @auditAll (Build_Ipnorm (fun _ => "")) rep ["ipv4"] [s1; s2] =
  @auditAll (Build_Ipnorm (fun _ => "")) rep ["ipv4"] [s2; s1].
Proof.
  cbv zeta. apply auditAll_any_order; [apply Permutation_swap|].
  apply (bool_decide_unpack _). vm_compute. reflexivity.
Defined.

(** Serials are compared only over the servers that answered authoritatively with one: with none the verdict stays unknown instead of reading as agreement, it is true exactly when there are some and all agree, and false exactly when two of them differ. *)
Theorem serialsConsistent_spec (servers : list NSServer) :
  let authoritative x := exists s, s ∈ servers /\ ns_AA s = true /\ ns_Serial s = x /\ x <> 0%Z in
  (serialsConsistent servers = None <-> ~ exists x, authoritative x) /\
  (serialsConsistent servers = Some true <->
     (exists x, authoritative x) /\ forall x y, authoritative x -> authoritative y -> x = y) /\
  (serialsConsistent servers = Some false <-> exists x y, authoritative x /\ authoritative y /\ x <> y).
Proof.
  cbv zeta. unfold serialsConsistent. rewrite serials_loop_spec. setoid_rewrite <-elem_of_serials.
  destruct (serials servers) as [|f l].
  { setoid_rewrite elem_of_nil. split_and!; split; naive_solver. }
  assert (Hf : f ∈ f :: l) by set_solver.
  destruct (bool_decide_reflect (Forall (fun x => x = f) l)) as [H|H]; rewrite Forall_forall in H.
  - assert (Hall : forall x, x ∈ f :: l -> x = f) by (intros x [->|Hx]%elem_of_cons; auto).
    split; [|split].
    + split; [done|]. intros Hn. destruct Hn. eauto.
    + split; [|done]. intros _. split; [eauto|]. intros x y ->%Hall ->%Hall. done.
    + split; [done|]. intros (x & y & ->%Hall & ->%Hall & Hn). done.
  - assert (Hex : exists x, x ∈ l /\ x <> f).
    { apply Exists_exists.
      destruct (decide (Exists (fun x => x <> f) l)) as [He|He]; [done|].
      destruct H. intros x Hx. destruct (decide (x = f)) as [|Hn]; [done|].
      destruct He. apply Exists_exists. eauto. }
    destruct Hex as (x & Hx & Hn). assert (Hx' : x ∈ f :: l) by set_solver.
    split; [|split].
    + split; [done|]. intros Hno. destruct Hno. eauto.
    + split; [done|]. intros [_ Hall]. destruct Hn. by apply Hall.
    + split; [|done]. intros _. eauto.
Qed.

(** Every nameserver name is judged from its own two lookups and lands in exactly one place: unresolved when either lookup did not complete, unresolvable only when both were answered without an address, and otherwise with its addresses, which are what the audit asks; the prefix counts stay unknown when no address was examined. *)
Theorem resolveNS_partition `{D : Dpdomain} `{P : Psl} (names : list string) (lookup : lookupFn) :
  let rep := resolveNS names lookup in
  (forall n, n ∈ nr_Unresolved rep <->
     n ∈ names /\ (Answered (lookup n "A") = false \/ Answered (lookup n "AAAA") = false)) /\
  (forall n, n ∈ nr_Unresolvable rep <->
     n ∈ names /\ Answered (lookup n "A") = true /\ Answered (lookup n "AAAA") = true /\
     Addrs (lookup n "A") ++ Addrs (lookup n "AAAA") = []) /\
  (forall n l, nr_addrs rep !! n = Some l <->
     n ∈ names /\ Answered (lookup n "A") = true /\ Answered (lookup n "AAAA") = true /\
     l = Addrs (lookup n "A") ++ Addrs (lookup n "AAAA") /\ l <> []) /\
  (nr_IPv4Prefixes24 rep = None <-> allAddrs (nr_addrs rep) = []).
Proof.
  cbv zeta. unfold resolveNS. set (rep0 := newNSReport names).
  assert (H : resolve_inv lookup names (foldl (add_ns lookup) rep0 names)).
  { enough (Hgen : forall l, resolve_inv lookup l (foldl (add_ns lookup) rep0 l)) by apply Hgen.
    intros l. induction l as [|n l IH] using rev_ind; [|rewrite foldl_snoc; by apply add_ns_inv].
    unfold resolve_inv, rep0, newNSReport. cbn. setoid_rewrite elem_of_nil. setoid_rewrite lookup_empty.
    split_and!; naive_solver. }
  set (rep := foldl _ _ _) in *. clearbody rep. destruct H as (_ & H1 & H2 & H3).
  unfold with_diversity, setDiversity.
  assert (Hc : forall n, classifyNS (lookup n "A") (lookup n "AAAA") =
    if negb (Answered (lookup n "A")) || negb (Answered (lookup n "AAAA")) then NsUnresolved
    else match Addrs (lookup n "A") ++ Addrs (lookup n "AAAA") with [] => NsUnresolvable | l => NsAddrs l end)
    by done.
  destruct (match allAddrs (nr_addrs rep) with [] => _ | _ => _ end) as [v4 v6] eqn:Ed.
  cbn [nr_Unresolved nr_Unresolvable nr_addrs nr_IPv4Prefixes24].
  split_and!.
  - intros n. rewrite H1, Hc.
    destruct (Answered (lookup n "A")), (Answered (lookup n "AAAA")); cbn [negb orb];
      try destruct (Addrs _ ++ Addrs _); naive_solver.
  - intros n. rewrite H2, Hc.
    destruct (Answered (lookup n "A")), (Answered (lookup n "AAAA")); cbn [negb orb];
      try destruct (Addrs _ ++ Addrs _); naive_solver.
  - intros n l. rewrite H3, Hc.
    destruct (Answered (lookup n "A")), (Answered (lookup n "AAAA")); cbn [negb orb];
      try destruct (Addrs _ ++ Addrs _); naive_solver.
  - destruct (allAddrs (nr_addrs rep)); [naive_solver|].
    destruct (prefixDiversity _); naive_solver.
Qed.
