(* ===== verification/Rdap.v ===== *)
(** * Registration status: rdap.go

    encoding/json is the parameter [decode]; a jCard is the list of its
    properties as far as they decode. *)

From S2P Require Import Prelude GoStrings Names Records Runner Dog.

Record RDAPRegistry := mkRegistry { rr_URL : string; rr_Status : list string; rr_Error : string }.
Record RDAPRegistrar := mkRegistrar { rg_Name : string; rg_IANAID : string }.

Record RDAPReport := mkRDAP {
  rd_Domain : string;
  rd_Server : string;
  rd_Registered : option bool;
  rd_Registry : RDAPRegistry;
  rd_Registrar : option RDAPRegistrar;
}.

Record rdapLink := mkLink { lk_Rel : string; lk_Href : string }.
Record rdapPublicID := mkPublicID { pi_Type : string; pi_Identifier : string }.

(** A property of a jCard: its raw elements, each with the string it decodes
    to, if any. *)
Definition vcardProp : Type := list (option string).

(** [en_VCard]: [None] when the array is shorter than two or its second
    element does not decode. *)
Record rdapEntity := mkEntity {
  en_Roles : list string;
  en_PublicIDs : list rdapPublicID;
  en_VCard : option (list vcardProp);
}.

Record rdapDomain := mkRdapDomain {
  dm_Status : list string;
  dm_Links : list rdapLink;
  dm_Entities : list rdapEntity;
}.

Definition zeroDomain : rdapDomain := mkRdapDomain [] [] [].

Definition rdapNotFound : string := "object does not exist".

(** ** The query *)

Section Target.
Context `{D : Dpdomain} `{P : Psl}.

(** The name to ask about and the server, if any. *)
Definition rdapTarget (domain : string) : option (string * string) :=
  if negb (String.eqb (reservedName domain) "") then None
  else
    let plain :=
      let r := psl_Lookup domain false in
      if String.eqb (Registrable r) "" then None else Some (Registrable r, "") in
    match psl_RDAPServer domain with
    | Some base =>
        let r := psl_Lookup domain true in
        if negb (String.eqb (Registrable r) "") then Some (Registrable r, base) else plain
    | None => plain
    end.
End Target.

Definition rdapArgs (query server : string) (timeoutSec : Z) : list string :=
  ["--json"; "--timeout"; Itoa (maxInt 1 timeoutSec)]
  ++ (if negb (String.eqb server "") then ["-s"; server] else []) ++ ["--"; query].

(** ** Reading the answer *)

Definition linkHref (links : list rdapLink) (rel : string) : string :=
  match head (base.filter (fun l => EqualFold (lk_Rel l) rel && negb (String.eqb (lk_Href l) "") = true) links) with
  | Some l => lk_Href l
  | None => ""
  end.

Definition registrarEntity (es : list rdapEntity) : option rdapEntity :=
  head (base.filter (fun e => existsb (fun role => EqualFold role "registrar") (en_Roles e) = true) es).

Definition ianaID (ids : list rdapPublicID) : string :=
  match head (base.filter (fun id => EqualFold (pi_Type id) "IANA Registrar ID" = true) ids) with
  | Some id => TrimSpace (pi_Identifier id)
  | None => ""
  end.

(** The value of one property when it is a decodable fn. *)
Definition fn_value (p : vcardProp) : option string :=
  match p with
  | Some "fn" :: _ :: _ :: Some value :: _ => Some (TrimSpace value)
  | _ => None
  end.

Definition vcardName (card : option (list vcardProp)) : string :=
  match card with
  | None => ""
  | Some props => default "" (head (omap fn_value props))
  end.

Definition registrarNamed (es : list rdapEntity) : option RDAPRegistrar :=
  match registrarEntity es with
  | None => None
  | Some e =>
      let reg := mkRegistrar (vcardName (en_VCard e)) (ianaID (en_PublicIDs e)) in
      if String.eqb (rg_Name reg) "" && String.eqb (rg_IANAID reg) "" then None else Some reg
  end.

Definition rdap_line (line : string) : string := TrimSpace (TrimPrefix (TrimSpace line) "# Error:").

Definition rdapMessage (stderr : string) (err : RunErr) : string :=
  let msg := firstNonEmpty (map rdap_line (Split stderr newline)) in
  if String.eqb msg "" then errText (Some err) else msg.

Section Run.
Variable decode : string -> rdapDomain + string.

Definition parseRDAP (out : string) : rdapDomain * string :=
  let text := TrimSpace out in
  if String.eqb text "" then (zeroDomain, "rdap produced no output")
  else if negb (HasPrefix text "{") then
    (zeroDomain, "rdap output not a JSON object: " +:+ firstLine text)
  else match decode text with
       | inr err => (zeroDomain, "rdap output not an RDAP object: " +:+ err)
       | inl d => (d, "")
       end.

Definition runRDAP (run : RunResult) : rdapDomain * string :=
  if isTimeout (run_ctx run) (run_err run) then (zeroDomain, "rdap timed out")
  else match run_err run with
       | Some err => (zeroDomain, "rdap: " +:+ rdapMessage (run_stderr run) err)
       | None => parseRDAP (run_stdout run)
       end.

(** [run] is asked only when the binary was found. *)
Definition checkRDAP `{D : Dpdomain} `{P : Psl} (domain rdapPath : string) (run : RunResult)
    : option RDAPReport :=
  match rdapTarget domain with
  | None => None
  | Some (query, server) =>
      let failed registered err := mkRDAP query server registered (mkRegistry "" [] err) None in
      if String.eqb rdapPath "" then Some (failed None "rdap not found on PATH")
      else
        let '(obj, err) := runRDAP run in
        if negb (String.eqb err "") then
          Some (failed (if Contains err rdapNotFound then boolPtr false else None) err)
        else Some (mkRDAP query server (boolPtr true)
                     (mkRegistry (linkHref (dm_Links obj) "self") (dm_Status obj) "")
                     (registrarNamed (dm_Entities obj)))
  end.
End Run.

(** ** Statuses *)

Definition statusKey (s : string) : string :=
  str_filter (fun c => negb (member c [" "; "_"; "-"]%char)) (ToLower (TrimSpace s)).

Definition rdapHoldStatus : list string := ["clienthold"; "serverhold"].
Definition rdapDeletionStatus : list string := ["redemptionperiod"; "pendingdelete"; "pendingrestore"].

Definition matchedStatuses (rep : RDAPReport) (set : list string) : list string :=
  base.filter (fun s => member (statusKey s) set = true) (rr_Status (rd_Registry rep)).
