(* ===== verification/Preload.v ===== *)
(** * The HSTS preload list: preloadlist.go

    The download and its JSON, the printing and parsing of times, files and
    locks are the environment's. Modelled are the list and its lookups, the
    cache format, the decisions of loading, refreshing and warming as
    functions of what the environment returned, and, for several processes
    sharing one cache, a step relation over the lock. *)

From S2P Require Import Prelude GoStrings Names.

Inductive PreloadStatus := PreloadNone | PreloadPreloaded | PreloadAbsent | PreloadUnknown.

#[export] Instance PreloadStatus_eq_dec : EqDecision PreloadStatus.
Proof. solve_decision. Defined.

Record preloadRecord := mkPre { includeSubdomains : bool; policy : string }.

#[export] Instance preloadRecord_eq_dec : EqDecision preloadRecord.
Proof. solve_decision. Defined.

(** [fetched] is [None] for the zero time, unknown. *)
Record preloadList := mkList {
  entries : gmap string preloadRecord;
  fetched : option Z;
  note : string;
}.

Definition cacheHeaderPrefix : string := "#domaintest-hsts-preload v2".
Definition noCachePath : string := "-".
Definition bulkPolicyPrefix : string := "bulk-".

(** Seven days, in nanoseconds. *)
Definition preloadCacheMaxAge : Z := 7 * 24 * 3600 * 1000000000.

Definition fresh (l : preloadList) (now : Z) : bool :=
  match fetched l with
  | None => false
  | Some t => (now - t <? preloadCacheMaxAge)%Z
  end.

Definition headerRequired (policy : string) : bool :=
  String.eqb policy "" || HasPrefix policy bulkPolicyPrefix.

(** ** Status of a name *)

(** The loop over the ancestors: the text after each dot in turn. *)
Fixpoint ancestor (es : gmap string preloadRecord) (rest : string) : option (string * preloadRecord) :=
  match rest with
  | "" => None
  | String c rest =>
      if Ascii.eqb c "."%char then
        match es !! rest with
        | Some rec => if includeSubdomains rec then Some (rest, rec) else ancestor es rest
        | None => ancestor es rest
        end
      else ancestor es rest
  end.

Section Status.
Context `{D : Dpdomain}.

(** The status, the ancestor that covers the name, and its entry's policy;
    [None] is the nil list. *)
Definition status (l : option preloadList) (domain : string) : PreloadStatus * string * string :=
  match l with
  | None => (PreloadUnknown, "", "")
  | Some l =>
      if bool_decide (entries l = ∅) then (PreloadUnknown, "", "")
      else
        let name := bareName domain in
        if String.eqb name "" then (PreloadUnknown, "", "")
        else match entries l !! name with
             | Some rec => (PreloadPreloaded, "", policy rec)
             | None => match ancestor (entries l) name with
                       | Some (by_, rec) => (PreloadPreloaded, by_, policy rec)
                       | None => (PreloadAbsent, "", "")
                       end
             end
  end.
End Status.

(** ** Deriving the list *)

Record preloadEntry := mkEntry { pe_Name : string; pe_Mode : string; pe_Include : bool; pe_Policy : string }.

Definition cachePolicy (policy : string) : string :=
  if ContainsByte policy tab || ContainsByte policy "013"%char || ContainsByte policy newline
  then "" else policy.

Definition stripLineComments (body : string) : string :=
  Join (base.filter (fun line => HasPrefix (TrimSpace line) "//" = false) (Split body newline))
    (byte_string newline).

Definition entry_step (es : gmap string preloadRecord) (e : preloadEntry) : gmap string preloadRecord :=
  if negb (String.eqb (pe_Mode e) "force-https") || String.eqb (pe_Name e) "" then es
  else <[ToLower (pe_Name e) := mkPre (pe_Include e) (cachePolicy (pe_Policy e))]> es.

(** [decode] is encoding/json; the error is its text. *)
Definition parsePreloadJSON (decode : string -> list preloadEntry + string) (now : Z) (body : string)
    : preloadList + string :=
  match decode (stripLineComments body) with
  | inr err => inr ("parsing the preload list: " +:+ err)
  | inl doc =>
      let es := foldl entry_step ∅ doc in
      if bool_decide (es = ∅) then inr "the preload list contained no force-https entries"
      else inl (mkList es (Some now) "")
  end.

(** ** Fetching with a retry *)

Inductive fetchError := Retryable (text : string) | Fatal (text : string).

Definition fetch_text (e : fetchError) : string := match e with Retryable t | Fatal t => t end.

Definition fetchAttempts : nat := 3.

(** What one request to the list's server gave: it failed, or a response, with
    its decoded body or the error of reading it. [reset] tells an error that
    is a connection reset. *)
Inductive listAnswer :=
| RequestFailed (reset : bool) (text : string)
| Response (status : Z) (body : string + bool * string).

Definition fetch_error (retryable : bool) (text : string) : fetchError :=
  if retryable then Retryable text else Fatal text.

Definition fetchOnce (decode : string -> list preloadEntry + string) (now : Z) (answer : listAnswer)
    : preloadList + fetchError :=
  match answer with
  | RequestFailed reset text => inr (fetch_error reset text)
  | Response status body =>
      let code := "HTTP " +:+ Itoa status +:+ " from chromium.googlesource.com" in
      if (500 <=? status)%Z then inr (Retryable (code +:+ ": retryable"))
      else if negb (status =? 200)%Z then inr (Fatal code)
      else match body with
           | inr (reset, text) => inr (fetch_error reset ("decoding the preload list: " +:+ text))
           | inl body => match parsePreloadJSON decode now body with
                         | inl l => inl l
                         | inr err => inr (Fatal err)
                         end
           end
  end.

(** [attempts] are the outcomes in turn, each with whether the wait before
    it was cut short by the context; [err] is the last error. *)
Fixpoint fetch_loop (n : nat) (first : bool) (err : option fetchError)
    (attempts : nat -> bool * (preloadList + fetchError)) : option (preloadList + fetchError) :=
  match n with
  | O => inr <$> err
  | S n =>
      let '(cut, outcome) := attempts (fetchAttempts - S n)%nat in
      if negb first && cut then inr <$> err
      else match outcome with
           | inl l => Some (inl l)
           | inr (Fatal t) => Some (inr (Fatal t))
           | inr (Retryable t) => fetch_loop n false (Some (Retryable t)) attempts
           end
  end.

Definition fetchPreloadList (attempts : nat -> bool * (preloadList + fetchError))
    : option (preloadList + fetchError) := fetch_loop fetchAttempts true None attempts.

(** ** The cache file *)

(** time.Format and time.Parse with RFC 3339. *)
Class TimeLib := { time_Format : Z -> string; time_Parse : string -> option Z }.

Section Cache.
Context `{T : TimeLib}.

Definition cacheLine (name : string) (rec : preloadRecord) : string :=
  Join [name; (if includeSubdomains rec then "1" else "0"); policy rec] (byte_string tab).

Definition sorted_names (es : gmap string preloadRecord) : list string := sort_strings (map_to_list es).*1.

(** Every line, the header too, ends in a newline. *)
Definition marshalCache (l : preloadList) (now : Z) : string :=
  Join ((cacheHeaderPrefix +:+ " " +:+ time_Format now)
        :: omap (fun name => cacheLine name <$> entries l !! name) (sorted_names (entries l)) ++ [""])
    (byte_string newline).

Definition parseCacheLine (line : string) : (string * preloadRecord) + string :=
  match Split line tab with
  | [name; inc; pol] =>
      if String.eqb name "" then inr ("malformed cache line " +:+ Quote line)
      else match ParseBool inc with
           | Some b => inl (name, mkPre b pol)
           | None => inr ("malformed cache line " +:+ Quote line)
           end
  | _ => inr ("malformed cache line " +:+ Quote line)
  end.

Fixpoint cache_lines (lines : list string) (es : gmap string preloadRecord)
    : gmap string preloadRecord + string :=
  match lines with
  | [] => inl es
  | line :: lines =>
      if String.eqb line "" then cache_lines lines es
      else match parseCacheLine line with
           | inr err => inr err
           | inl (name, rec) => cache_lines lines (<[name := rec]> es)
           end
  end.

Definition cacheTime (header : string) : option Z :=
  time_Parse (TrimSpace (TrimPrefix header cacheHeaderPrefix)).

Definition unmarshalCache (text : string) : preloadList + string :=
  match cut_byte newline text with
  | None => inr "not a domaintest preload cache of this version"
  | Some (header, body) =>
      if negb (HasPrefix text cacheHeaderPrefix) then inr "not a domaintest preload cache of this version"
      else match cache_lines (Split body newline) ∅ with
           | inr err => inr err
           | inl es => if bool_decide (es = ∅) then inr "the preload cache holds no entries"
                       else inl (mkList es (cacheTime header) "")
           end
  end.

Definition cachingDisabled (path : string) : bool := String.eqb path "" || String.eqb path noCachePath.

(** [file] is what reading the file returned. *)
Definition readPreloadCache (path : string) (file : string + string) : preloadList + string :=
  if cachingDisabled path then inr "caching disabled"
  else match file with
       | inr err => inr err
       | inl body => unmarshalCache body
       end.

Definition cachedList (path : string) (file : string + string) : option preloadList :=
  match readPreloadCache path file with
  | inl l => Some l
  | inr _ => None
  end.

(** ** Loading and refreshing *)

(** The environment of one load: the clock, the file as the two reads found
    it, the lock, the download and the write. *)
Record loadEnv := mkLoad {
  le_now : Z;
  le_file1 : string + string;
  le_lock : option string;       (* the error of taking it *)
  le_file2 : string + string;
  le_fetch : preloadList + string;
  le_write : option string;      (* the cause of a failed write *)
}.

Definition with_note (l : preloadList) (n : string) : preloadList := mkList (entries l) (fetched l) n.

Definition refreshPreloadList (path : string) (e : loadEnv) : preloadList + string :=
  let stale := cachedList path (le_file2 e) in
  match stale with
  | Some l => if fresh l (le_now e) then inl l
              else match le_fetch e with
                   | inr err =>
                       inl (with_note l ("the preload list could not be refreshed, so a copy from "
                              +:+ match fetched l with Some t => time_Format t | None => "0001-01-01T00:00:00Z" end
                              +:+ " answered: " +:+ err))
                   | inl new =>
                       inl (match le_write e with
                            | Some cause => with_note new ("the preload cache could not be written: " +:+ cause)
                            | None => new
                            end)
                   end
  | None => match le_fetch e with
            | inr err => inr err
            | inl new =>
                inl (match le_write e with
                     | Some cause => with_note new ("the preload cache could not be written: " +:+ cause)
                     | None => new
                     end)
            end
  end.

Definition loadPreloadList (path : string) (e : loadEnv) : preloadList + string :=
  if cachingDisabled path then le_fetch e
  else
    let locked :=
      match le_lock e with
      | Some err => inr ("waiting for the preload cache lock: " +:+ err)
      | None => refreshPreloadList path e
      end in
    match cachedList path (le_file1 e) with
    | Some l => if fresh l (le_now e) then inl l else locked
    | None => locked
    end.

(** An error of the file system, and its text without the path. *)
Inductive fsError := PathError (op path err : string) | LinkError (op old new err : string) | OtherError (text : string).

Definition fsCause (e : fsError) : string :=
  match e with
  | PathError op _ err => op +:+ ": " +:+ err
  | LinkError op _ _ err => op +:+ ": " +:+ err
  | OtherError text => text
  end.

(** One attempt at the flock; [WouldBlock ended] tells whether the context
    ended in the wait before the next one. *)
Inductive flock := FlockTaken | WouldBlock (ended : bool) | FlockFailed (err : string).

(** The loop: [None] while it still polls, [Some None] with the lock. *)
Fixpoint acquireLock (ctxErr : string) (polls : list flock) : option (option string) :=
  match polls with
  | [] => None
  | FlockTaken :: _ => Some None
  | FlockFailed err :: _ => Some (Some err)
  | WouldBlock true :: _ => Some (Some ctxErr)
  | WouldBlock false :: polls => acquireLock ctxErr polls
  end.

(** The system's lock directory is used when it is there and the lock file in
    it can be opened for reading. *)
Definition systemLockDir : string := "/run/lock".

Definition lockPath (isDir : string -> bool) (opens : string -> bool) (cachePath : string) : string :=
  let p := systemLockDir +:+ "/domaintest-hsts.lock" in
  if isDir systemLockDir && opens p then p else cachePath +:+ ".lock".

(** The message, or the error. *)
Definition warmPreloadCache (path lock : string) (e : loadEnv) : string + string :=
  if cachingDisabled path then inr "no cache path: nothing to warm"
  else match le_lock e with
       | Some err => inr ("waiting for the preload cache lock " +:+ lock +:+ ": " +:+ err)
       | None =>
           let fetch :=
             match le_fetch e with
             | inr err => inr err
             | inl l =>
                 match le_write e with
                 | Some cause => inr ("writing " +:+ path +:+ ": " +:+ cause)
                 | None => inl ("preload cache written to " +:+ path +:+ " ("
                             +:+ itoa (size (entries l)) +:+ " entries, lock " +:+ lock +:+ ")")
                 end
             end in
           match cachedList path (le_file1 e) with
           | Some l => if fresh l (le_now e)
                       then inl ("preload cache already present at " +:+ path +:+ " (lock " +:+ lock +:+ ")")
                       else fetch
           | None => fetch
           end
       end.
End Cache.

(** ** Processes that share one cache *)

Inductive loader := LStart | LWaiting | LLocked | LFetching | LDone.

#[export] Instance loader_eq_dec : EqDecision loader.
Proof. solve_decision. Defined.

(** [sh_written] counts the downloads written to the cache. *)
Record shared := mkShared {
  sh_fresh : bool;
  sh_lock : option nat;
  sh_procs : list loader;
  sh_written : nat;
}.

Definition shared_init (processes : nat) : shared := mkShared false None (replicate processes LStart) 0.

(** One step of process [i] of [loadPreloadList]: the first read, the lock,
    the second read under it, and the download with its write. *)
Inductive load_step : shared -> shared -> Prop :=
| load_read_fresh s i :
    sh_procs s !! i = Some LStart -> sh_fresh s = true ->
    load_step s (mkShared (sh_fresh s) (sh_lock s) (<[i := LDone]> (sh_procs s)) (sh_written s))
| load_read_stale s i :
    sh_procs s !! i = Some LStart -> sh_fresh s = false ->
    load_step s (mkShared (sh_fresh s) (sh_lock s) (<[i := LWaiting]> (sh_procs s)) (sh_written s))
| load_acquire s i :
    sh_procs s !! i = Some LWaiting -> sh_lock s = None ->
    load_step s (mkShared (sh_fresh s) (Some i) (<[i := LLocked]> (sh_procs s)) (sh_written s))
| load_give_up s i :
    sh_procs s !! i = Some LWaiting ->
    load_step s (mkShared (sh_fresh s) (sh_lock s) (<[i := LDone]> (sh_procs s)) (sh_written s))
| load_reread_fresh s i :
    sh_procs s !! i = Some LLocked -> sh_fresh s = true ->
    load_step s (mkShared (sh_fresh s) None (<[i := LDone]> (sh_procs s)) (sh_written s))
| load_reread_stale s i :
    sh_procs s !! i = Some LLocked -> sh_fresh s = false ->
    load_step s (mkShared (sh_fresh s) (sh_lock s) (<[i := LFetching]> (sh_procs s)) (sh_written s))
| load_fetched s i :
    sh_procs s !! i = Some LFetching ->
    load_step s (mkShared true None (<[i := LDone]> (sh_procs s)) (S (sh_written s)))
| load_failed s i :
    sh_procs s !! i = Some LFetching ->
    load_step s (mkShared (sh_fresh s) None (<[i := LDone]> (sh_procs s)) (sh_written s)).

Definition load_reachable (processes : nat) (s : shared) : Prop := rtc load_step (shared_init processes) s.

(** ** Lemmas *)

(** The wait honours the context: it ends when the context does, and takes the
    lock only by an attempt that got it. *)
Lemma acquireLock_ends ctxErr polls :
  (exists p, p ∈ polls /\ p <> WouldBlock false) ->
  exists r, acquireLock ctxErr polls = Some r /\ (r = None -> FlockTaken ∈ polls).
Proof.
  intros (p & Hin & Hne). induction polls as [|[|[]|err] polls IH]; [by apply elem_of_nil in Hin|..]; cbn.
  - eexists. split; [done|]. by left.
  - by eexists.
  - apply elem_of_cons in Hin as [->|Hin]; [done|]. destruct (IH Hin) as (r & Hr & Ht). exists r. split; [done|].
    intros E. right. auto.
  - by eexists.
Qed.

(** Text without the bytes that structure the cache. *)
Definition cache_text (s : string) : Prop :=
  str_all (fun c => negb (Ascii.eqb tab c)) s = true /\
  str_all (fun c => negb (Ascii.eqb newline c)) s = true.

Definition entries_ok (es : gmap string preloadRecord) : Prop :=
  forall n r, es !! n = Some r -> n <> "" /\ cache_text n /\ cache_text (policy r).

Lemma cut_byte_app c x y :
  str_all (fun d => negb (Ascii.eqb c d)) x = true -> cut_byte c (x +:+ String c y) = Some (x, y).
Proof.
  induction x as [|d x IH]; unfold String.app; simpl; [by rewrite Ascii.eqb_refl|].
  intros H. simp_bool. rewrite Ascii.eqb_sym, H. unfold String.app in IH. by rewrite IH.
Qed.

Lemma parseCacheLine_cacheLine n r :
  n <> "" -> cache_text n -> cache_text (policy r) -> parseCacheLine (cacheLine n r) = inl (n, r).
Proof.
  intros Hn [Hn1 _] [Hp1 _]. unfold parseCacheLine, cacheLine, byte_string.
  rewrite Split_Join; [|done|].
  - apply String.eqb_neq in Hn. rewrite Hn. by destruct r as [[] p].
  - repeat constructor; [done|by destruct r as [[] p]|done].
Qed.

Lemma cacheLine_one_line n r :
  cache_text n -> cache_text (policy r) ->
  str_all (fun c => negb (Ascii.eqb newline c)) (cacheLine n r) = true.
Proof.
  intros [_ Hn] [_ Hp]. unfold cacheLine, byte_string. cbn [Join]. rewrite !str_all_app, Hn, Hp.
  by destruct r as [[] p].
Qed.

(** Reading the lines of some names back adds their entries. *)
Lemma cache_lines_names es names acc :
  entries_ok es ->
  exists m, cache_lines (omap (fun n => cacheLine n <$> es !! n) names ++ [""]) acc = inl m /\
    forall k, m !! k = match (if member k names then es !! k else None) with
                       | Some r => Some r | None => acc !! k end.
Proof.
  intros Hok. revert acc. induction names as [|n names IH]; intros acc; simpl; [eauto|].
  destruct (es !! n) as [r|] eqn:E; simpl.
  - destruct (Hok n r E) as (Hn & Hcn & Hcp).
    assert (Hne : String.eqb (cacheLine n r) "" = false).
    { apply String.eqb_neq. intros He. apply (f_equal String.length) in He.
      unfold cacheLine in He. cbn [Join] in He. rewrite !length_app_str in He. simpl in He. lia. }
    rewrite Hne, parseCacheLine_cacheLine by done.
    destruct (IH (<[n := r]> acc)) as (m & Hm1 & Hm). exists m. split; [exact Hm1|]. intros k. rewrite Hm.
    destruct (decide (k = n)) as [->|Hk].
    + rewrite (proj2 (member_true n (n :: names))) by set_solver. rewrite E, lookup_insert_eq.
      by destruct (member n names).
    + rewrite lookup_insert_ne by done. replace (member k (n :: names)) with (member k names); [done|].
      unfold member. apply bool_decide_ext. set_solver.
  - destruct (IH acc) as (m & Hm1 & Hm). exists m. split; [exact Hm1|]. intros k. rewrite Hm.
    destruct (decide (k = n)) as [->|Hk]; [rewrite E; by destruct (member n names), (member n (n :: names))|].
    replace (member k (n :: names)) with (member k names); [done|].
    unfold member. apply bool_decide_ext. set_solver.
Qed.

Lemma elem_of_sorted_names es k : k ∈ sorted_names es <-> is_Some (es !! k).
Proof.
  unfold sorted_names. rewrite elem_of_sort_strings, list_elem_of_fmap. split.
  - intros ([k' r] & -> & H%elem_of_map_to_list). simpl. eauto.
  - intros [r Hr]. exists (k, r). by rewrite elem_of_map_to_list.
Qed.

(** The name lies [pre] labels below [a]. *)
Definition below (name a : string) : Prop := exists pre, name = pre +:+ "." +:+ a.

Lemma ancestor_spec es name :
  match ancestor es name with
  | Some (a, r) => es !! a = Some r /\ includeSubdomains r = true /\ below name a /\
      (forall b r', below name b -> es !! b = Some r' -> includeSubdomains r' = true ->
         (String.length b <= String.length a)%nat)
  | None => forall b r', below name b -> es !! b = Some r' -> includeSubdomains r' = false
  end.
Proof.
  assert (Hlen : forall s b, below s b -> (String.length b < String.length s)%nat).
  { intros s b (pre & ->). rewrite !length_app_str. simpl. lia. }
  induction name as [|c name IH]; cbn [ancestor].
  { intros b r' Hb. apply Hlen in Hb. simpl in Hb. lia. }
  assert (Hcase : forall b, below (String c name) b -> (c = "."%char /\ b = name) \/ below name b).
  { intros b ([|d pre] & He); unfold String.app in He; simpl in He; injection He as -> He; [by left|].
    right. by exists pre. }
  assert (Hup : forall b, below name b -> below (String c name) b).
  { intros b (pre & ->). by exists (String c pre). }
  set (here := if Ascii.eqb c "."%char then es !! name else None).
  assert (Hstep : forall r, here = Some r -> c = "."%char /\ es !! name = Some r).
  { unfold here. intros r. destruct (Ascii.eqb_spec c "."%char); [|done]. auto. }
  assert (Hdec : (exists r, here = Some r /\ includeSubdomains r = true) \/
    match here with Some r => includeSubdomains r = false | None => True end).
  { destruct here as [r|]; [|auto]. destruct (includeSubdomains r) eqn:Ei; eauto. }
  destruct Hdec as [(r & Hr & Hi)|He].
  - destruct (Hstep r Hr) as [-> Hes]. rewrite Ascii.eqb_refl, Hes, Hi. split_and!; try done.
    + by exists "".
    + intros b r' Hb _ _. apply Hcase in Hb as [[_ ->]|Hb]; [done|]. apply Hlen in Hb. lia.
  - unfold here in He.
    assert (Ha : (if Ascii.eqb c "."%char
                  then match es !! name with
                       | Some rec => if includeSubdomains rec then Some (name, rec) else ancestor es name
                       | None => ancestor es name end
                  else ancestor es name) = ancestor es name).
    { destruct (Ascii.eqb c "."%char); [|done]. destruct (es !! name); [|done]. by rewrite He. }
    rewrite Ha. destruct (ancestor es name) as [[a r]|].
    + destruct IH as (H1 & H2 & H3 & H4). split_and!; auto. intros b r' Hb Hr Hi.
      apply Hcase in Hb as [[-> ->]|Hb]; [|by eapply H4].
      rewrite Ascii.eqb_refl, Hr in He. congruence.
    + intros b r' Hb Hr. apply Hcase in Hb as [[-> ->]|Hb]; [|by eapply IH].
      by rewrite Ascii.eqb_refl, Hr in He.
Qed.

(** What the lock keeps: its holder is the one process past it, a process
    downloads only while the cache is not fresh, and a download made it fresh. *)
Definition load_inv (s : shared) : Prop :=
  (forall i, sh_procs s !! i = Some LLocked \/ sh_procs s !! i = Some LFetching <-> sh_lock s = Some i) /\
  (forall i, sh_procs s !! i = Some LFetching -> sh_fresh s = false) /\
  sh_written s = (if sh_fresh s then 1 else 0)%nat.

Lemma load_inv_init n : load_inv (shared_init n).
Proof.
  split_and!; simpl; [|intros i H|done].
  - intros i. split; [intros [H|H]|done]; apply lookup_replicate in H as [? _]; done.
  - by apply lookup_replicate in H as [? _].
Qed.

Lemma lookup_insert_proc (l : list loader) i j p q :
  l !! i = Some p ->
  <[i := q]> l !! j = if decide (j = i) then Some q else l !! j.
Proof.
  intros Hi. destruct (decide (j = i)) as [->|Hj].
  - apply list_lookup_insert_eq. by apply lookup_lt_Some in Hi.
  - by apply list_lookup_insert_ne.
Qed.

Lemma load_inv_step s s' : load_inv s -> load_step s s' -> load_inv s'.
Proof.
  intros (H1 & H2 & H3) Hs.
  assert (Huniq : forall i j, (sh_procs s !! i = Some LLocked \/ sh_procs s !! i = Some LFetching) ->
    (sh_procs s !! j = Some LLocked \/ sh_procs s !! j = Some LFetching) -> i = j).
  { intros i j Hi%H1 Hj%H1. congruence. }
  destruct Hs as [s i Hp Hf|s i Hp Hf|s i Hp Hf|s i Hp|s i Hp Hf|s i Hp Hf|s i Hp|s i Hp];
    unfold load_inv; cbn [sh_fresh sh_lock sh_procs sh_written].
  1-8: pose proof (fun j q => lookup_insert_proc (sh_procs s) i j _ q Hp) as Hl.
  1,2,4: split_and!; [intros j; rewrite Hl, <-H1; destruct (decide (j = i)) as [->|]; naive_solver
                     |intros j; rewrite Hl; destruct (decide (j = i)) as [->|]; naive_solver|done].
  - split_and!; [|intros j; rewrite Hl; destruct (decide (j = i)) as [->|]; naive_solver|done].
    intros j. rewrite Hl. destruct (decide (j = i)) as [->|Hj]; [naive_solver|].
    rewrite H1, Hf. naive_solver.
  - split_and!; [|intros j; rewrite Hl; destruct (decide (j = i)) as [->|]; naive_solver|done].
    intros j. rewrite Hl. destruct (decide (j = i)) as [->|Hj]; [naive_solver|].
    split; [|done]. intros Hj'. destruct Hj. apply Huniq; auto.
  - split_and!; [|intros j; rewrite Hl; destruct (decide (j = i)) as [->|]; naive_solver|done].
    intros j. rewrite Hl, <-H1. destruct (decide (j = i)) as [->|Hj]; naive_solver.
  - specialize (H2 i Hp) as Hf. rewrite Hf in H3. split_and!; [| |by rewrite H3].
    + intros j. rewrite Hl. destruct (decide (j = i)) as [->|Hj]; [naive_solver|].
      split; [|done]. intros Hj'. destruct Hj. apply Huniq; auto.
    + intros j. rewrite Hl. destruct (decide (j = i)) as [->|Hj]; [done|].
      intros Hj'. destruct Hj. apply Huniq; auto.
  - split_and!; [|intros j; rewrite Hl; destruct (decide (j = i)) as [->|]; naive_solver|done].
    intros j. rewrite Hl. destruct (decide (j = i)) as [->|Hj]; [naive_solver|].
    split; [|done]. intros Hj'. destruct Hj. apply Huniq; auto.
Qed.

(** What was marshalled is read back. *)
Lemma unmarshal_marshalCache `{T : TimeLib} (l : preloadList) (now : Z) :
  entries_ok (entries l) -> entries l <> ∅ ->
  str_all (fun c => negb (Ascii.eqb newline c)) (time_Format now) = true ->
  unmarshalCache (marshalCache l now) =
  inl (mkList (entries l) (time_Parse (TrimSpace (" " +:+ time_Format now))) "").
Proof.
  intros Hok Hne Hnl. unfold marshalCache, unmarshalCache, byte_string.
  set (header := cacheHeaderPrefix +:+ " " +:+ time_Format now).
  set (lines := omap (fun name => cacheLine name <$> entries l !! name) (sorted_names (entries l))).
  assert (Hh : str_all (fun c => negb (Ascii.eqb newline c)) header = true).
  { unfold header. by rewrite !str_all_app, Hnl. }
  assert (Hj : Join (header :: lines ++ [""]) (String newline "")
               = header +:+ String newline (Join (lines ++ [""]) (String newline ""))).
  { destruct lines; done. }
  rewrite Hj, cut_byte_app by done.
  assert (Hp : HasPrefix (header +:+ String newline (Join (lines ++ [""]) (String newline "")))
                 cacheHeaderPrefix = true).
  { apply HasPrefix_app_l. unfold header. apply HasPrefix_app. }
  rewrite Hp. cbn [negb]. rewrite Split_Join.
  2: { by destruct lines. }
  2: { apply Forall_app. split; [|by repeat constructor]. apply Forall_forall. intros x Hx.
       apply list_elem_of_omap in Hx as (n & _ & Hn). destruct (entries l !! n) as [r|] eqn:E; simplify_eq/=.
       destruct (Hok n r E) as (_ & H1 & H2). by apply cacheLine_one_line. }
  destruct (cache_lines_names (entries l) (sorted_names (entries l)) ∅ Hok) as (m & Hm & Hlk).
  fold lines in Hm. rewrite Hm. assert (Heq : m = entries l).
  { apply map_eq. intros k. rewrite Hlk, lookup_empty.
    destruct (member k (sorted_names (entries l))) eqn:Ek; [by destruct (entries l !! k)|].
    apply member_false in Ek. destruct (entries l !! k) eqn:E; [|done].
    destruct Ek. apply elem_of_sorted_names. eauto. }
  subst m. rewrite bool_decide_false by done. unfold cacheTime, header. by rewrite TrimPrefix_app.
Qed.

(** ** Properties *)

(** Processes that share one cache write the list at most once: whatever their interleaving and failures, at most one process is past the lock at a time, none downloads while the cache is fresh, and at most one download is ever written, though another process may download again after one failed; a process never gets stuck while the lock is free or its holder runs. *)
Theorem preloadLock_once (processes : nat) (s : shared) :
  load_reachable processes s ->
  (sh_written s <= 1)%nat /\
  (forall i j, sh_procs s !! i ∈ [Some LLocked; Some LFetching] ->
     sh_procs s !! j ∈ [Some LLocked; Some LFetching] -> i = j) /\
  (forall i, sh_procs s !! i = Some LFetching -> sh_written s = 0%nat) /\
  ((exists i p, sh_procs s !! i = Some p /\ p <> LDone) -> exists s', load_step s s').
Proof.
  intros Hr. assert (H : load_inv s).
  { apply (rtc_preserves load_step load_inv (shared_init processes));
      eauto using load_inv_init, load_inv_step. }
  destruct H as (H1 & H2 & H3). split_and!.
  - rewrite H3. destruct (sh_fresh s); lia.
  - intros i j Hi Hj. assert (Hi' : sh_lock s = Some i) by (apply H1; set_solver).
    assert (Hj' : sh_lock s = Some j) by (apply H1; set_solver). congruence.
  - intros i Hi. by rewrite H3, (H2 i Hi).
  - intros (i & p & Hp & Hne). destruct (sh_fresh s) eqn:Ef, p; try done; eauto using load_step.
Qed.

Lemma preloadLock_once_witness :
  load_reachable 2 (mkShared false None [LWaiting; LStart] 0) /\
  exists s', load_step (mkShared false None [LWaiting; LStart] 0) s'.
Proof.
  assert (H : load_reachable 2 (mkShared false None [LWaiting; LStart] 0)).
  { eapply rtc_l; [apply (load_read_stale _ 0); reflexivity|]. apply rtc_refl. }
  split; [exact H|]. apply (preloadLock_once 2 _ H). exists 0%nat, LWaiting. split; [reflexivity|discriminate].
Defined.

(** C38: Reading a cache file back gives the list that was written: for names
    and policies free of the cache's own separators, every entry with its
    flag and policy and no other, and the time in the header, so a run that
    reads the cache answers as the run that fetched; and nothing is read from
    a file of another version or one that holds no entry. *)
Theorem preloadCache_roundtrip `{T : TimeLib} (l : preloadList) (now : Z) :
  entries_ok (entries l) -> entries l <> ∅ ->
  str_all (fun c => negb (Ascii.eqb newline c)) (time_Format now) = true ->
  unmarshalCache (marshalCache l now) =
    inl (mkList (entries l) (time_Parse (TrimSpace (" " +:+ time_Format now))) "") /\
  (forall text l', unmarshalCache text = inl l' ->
     HasPrefix text cacheHeaderPrefix = true /\ entries l' <> ∅ /\ note l' = "").
Proof.
  intros Hok Hne Hnl. split; [by apply unmarshal_marshalCache|]. intros text l'. unfold unmarshalCache.
  destruct (cut_byte newline text) as [[header body]|]; [|done].
  destruct (HasPrefix text cacheHeaderPrefix); [cbn [negb]|done].
  destruct (cache_lines _ _) as [es|]; [|done]. destruct (bool_decide (es = ∅)) eqn:E; [done|].
  intros [= <-]. simp_bool. done.
Qed.

Lemma preloadCache_roundtrip_witness :
  let T := Build_TimeLib (fun _ => "2026-10-07T00:00:00Z") (fun _ => Some 7%Z) in
  let l := mkList {[ "app" := mkPre true "public-suffix"; "a.nl" := mkPre false "" ]} None "" in
  @unmarshalCache T (@marshalCache T l 0) = inl (mkList (entries l) (Some 7%Z) "").
Proof.
  cbv zeta. refine (proj1 (@preloadCache_roundtrip
    (Build_TimeLib (fun _ => "2026-10-07T00:00:00Z") (fun _ => Some 7%Z))
    (mkList {[ "app" := mkPre true "public-suffix"; "a.nl" := mkPre false "" ]} None "") 0 _ _ _)).
  - intros n r. cbn [entries]. rewrite lookup_insert_Some, lookup_singleton_Some.
    intros [[<- <-]|[_ [<- <-]]];
      (split; [discriminate|]; split; split; reflexivity).
  - discriminate.
  - reflexivity.
Defined.

(** A name reads preloaded exactly when the list has an entry for it or for one of its ancestors with subdomains included; it reports the nearest such ancestor, with that entry's policy, only when the name has no entry of its own; and a list that could not be had, or a name that is none, is unknown rather than absent. *)
Theorem preload_status_spec `{D : Dpdomain} (l : preloadList) (domain : string) :
  entries l <> ∅ -> bareName domain <> "" ->
  let name := bareName domain in
  let '(st, by_, pol) := status (Some l) domain in
  (st = PreloadPreloaded <->
     is_Some (entries l !! name) \/
     exists a r, below name a /\ entries l !! a = Some r /\ includeSubdomains r = true) /\
  (st = PreloadPreloaded \/ st = PreloadAbsent) /\
  (st = PreloadPreloaded -> is_Some (entries l !! name) -> by_ = "" /\ policy <$> entries l !! name = Some pol) /\
  (st = PreloadPreloaded -> entries l !! name = None ->
     below name by_ /\ policy <$> entries l !! by_ = Some pol /\
     forall b r, below name b -> entries l !! b = Some r -> includeSubdomains r = true ->
       (String.length b <= String.length by_)%nat).
Proof.
  intros Hes Hn. cbv zeta. unfold status. rewrite bool_decide_false by done.
  destruct (String.eqb_spec (bareName domain) ""); [done|].
  destruct (entries l !! bareName domain) as [r|] eqn:E.
  { split_and!; try done; [split; [eauto|done]|auto]. }
  pose proof (ancestor_spec (entries l) (bareName domain)) as Ha.
  destruct (ancestor (entries l) (bareName domain)) as [[a r]|].
  - destruct Ha as (H1 & H2 & H3 & H4). split_and!.
    + split; [eauto 10|done].
    + auto.
    + intros _ [? ?]. done.
    + intros _ _. split_and!; [done|by rewrite H1|done].
  - split_and!; try done; [|auto].
    split; [done|]. intros [[? ?]|(a & r & Hb & Hr & Hi)]; [done|].
    rewrite (Ha a r Hb Hr) in Hi. done.
Qed.

Definition app_list : preloadList := mkList {[ "app" := mkPre true "public-suffix" ]} (Some 0%Z) "".

Lemma preload_status_spec_witness :
  @status lower_dpdomain (Some app_list) "my.shop.app" = (PreloadPreloaded, "app", "public-suffix") /\
  below "my.shop.app" "app".
Proof.
  assert (Hs : @status lower_dpdomain (Some app_list) "my.shop.app" =
               (PreloadPreloaded, "app", "public-suffix")) by (vm_compute; reflexivity).
  split; [exact Hs|].
  pose proof (@preload_status_spec lower_dpdomain app_list "my.shop.app"
    ltac:(discriminate) ltac:(vm_compute; discriminate)) as H.
  cbv zeta in H. rewrite Hs in H. destruct H as (_ & _ & _ & H).
  apply (H eq_refl). vm_compute. reflexivity.
Defined.

(** When the lock cannot be had, a stale cache does not answer, although
    [refreshPreloadList] would have fallen back on it. *)
Theorem loadPreloadList_lock_fails `{T : TimeLib} (path err : string) (e : loadEnv) (l : preloadList) :
  cachingDisabled path = false -> le_lock e = Some err ->
  cachedList path (le_file1 e) = Some l -> fresh l (le_now e) = false ->
  loadPreloadList path e = inr ("waiting for the preload cache lock: " +:+ err).
Proof. intros Hp Hl Hc Hf. unfold loadPreloadList. by rewrite Hp, Hc, Hf, Hl. Qed.
