(* ===== verification/Report.v ===== *)
(** * The report document: the types of report.go, and its predicates *)

From S2P Require Import Prelude GoStrings Netip Names Records Trace Dnssec Wildcard Caa Tlsa Spf Mail Tcp Tls.
From S2P Require Import Http Versions Web NsAudit Rdap Preload.

Inductive Severity := SeverityFail | SeverityWarn | SeverityInfo.

#[export] Instance Severity_eq_dec : EqDecision Severity.
Proof. solve_decision. Defined.

Record Finding := mkFinding { Code : string; Sev : Severity; Host : string; Message : string }.

#[export] Instance Finding_eq_dec : EqDecision Finding.
Proof. solve_decision. Defined.

Inductive Reach := ReachNone | ReachYes | ReachNo | ReachSkipped.

#[export] Instance Reach_eq_dec : EqDecision Reach.
Proof. solve_decision. Defined.

Record DNSSection := mkDNS {
  dns_Apex : gmap string Lookup;
  dns_WWW : gmap string Lookup;
  dns_ResolverReachable : gmap string Reach;
  dns_ResolverValidates : option bool;
}.

Record Report := mkReport {
  rp_Version : string;
  rp_Timestamp : string;
  rp_Domain : string;
  rp_UnicodeDomain : string;
  rp_NotAZone : bool;
  rp_ReservedName : string;
  rp_PublicSuffix : bool;
  rp_EnclosingZone : string;
  rp_Resolver : string;
  rp_Families : list string;
  rp_TimeoutSec : Z;
  rp_TCPTimeoutSec : Z;
  rp_DNSConcurrency : Z;
  rp_QuicTimeoutSec : Z;
  rp_MaxTimeSec : Z;
  rp_RedirectLog : bool;
  rp_DNS : DNSSection;
  rp_DNSSEC : DNSSECReport;
  rp_Delegation : Delegation;
  rp_Web : WebSection;
  rp_Certificates : gmap string (list string);
  rp_Mail : option MailReport;
  rp_Nameservers : option NSReport;
  rp_CAA : option CAAReport;
  rp_TLSA : option TLSAReport;
  rp_Wildcard : option WildcardReport;
  rp_RDAP : option RDAPReport;
  rp_ReservedAddresses : list string;
  rp_HSTSPreload : PreloadStatus;
  rp_HSTSPreloadCoveredBy : string;
  rp_HSTSPreloadPolicy : string;
  rp_HSTSPreloadError : string;
  rp_HSTSPreloadIncludeSubdomains : option bool;
  rp_Errors : list string;
  rp_Warnings : list string;
  rp_Findings : list Finding;
  rp_OK : bool;
  rp_DeadlineReached : bool;
  rp_ElapsedMs : Z;
}.

(** The report with its judgement replaced: the last part of [finish]. *)
Definition with_findings (rep : Report) (errors warnings : list string) (l : list Finding) (ok : bool)
    : Report :=
  mkReport (rp_Version rep) (rp_Timestamp rep) (rp_Domain rep) (rp_UnicodeDomain rep) (rp_NotAZone rep)
    (rp_ReservedName rep) (rp_PublicSuffix rep) (rp_EnclosingZone rep) (rp_Resolver rep) (rp_Families rep)
    (rp_TimeoutSec rep) (rp_TCPTimeoutSec rep) (rp_DNSConcurrency rep) (rp_QuicTimeoutSec rep)
    (rp_MaxTimeSec rep) (rp_RedirectLog rep) (rp_DNS rep) (rp_DNSSEC rep) (rp_Delegation rep) (rp_Web rep)
    (rp_Certificates rep) (rp_Mail rep) (rp_Nameservers rep) (rp_CAA rep) (rp_TLSA rep) (rp_Wildcard rep)
    (rp_RDAP rep) (rp_ReservedAddresses rep) (rp_HSTSPreload rep) (rp_HSTSPreloadCoveredBy rep)
    (rp_HSTSPreloadPolicy rep) (rp_HSTSPreloadError rep) (rp_HSTSPreloadIncludeSubdomains rep)
    errors warnings l ok (rp_DeadlineReached rep) (rp_ElapsedMs rep).

(** ** Predicates *)

(** A name with nothing at it: every lookup answered, none with a record. *)
Definition noRecordsAtAll (apex : gmap string Lookup) : bool :=
  forallb (fun t => let l := lget apex t in Answered l && negb (HasRecords l)) apexTypes.

Definition apexAbsent (apex : gmap string Lookup) : bool := nameDoesNotExist apex || noRecordsAtAll apex.

Definition delegationSilent (d : Delegation) (apexNS : Lookup) : bool :=
  bool_decide (d_Status d = DelegationNoChildAnswer) && negb (String.eqb (d_ParentServer d) "")
  && negb (bool_decide (l_Status apexNS = StatusNXRRSet)).

Definition noServerAnswers (n : option NSReport) : bool :=
  match n with
  | None => false
  | Some n =>
      if nonempty (nr_Unresolved n) || (length (nr_Servers n) + length (nr_Unresolvable n) =? 0)%nat
      then false
      else forallb (fun s => negb (String.eqb (ns_Error s) "") && negb (ns_AA s)) (nr_Servers n)
  end.

Definition zoneUnreachable (rep : Report) : bool :=
  String.eqb (rp_ReservedName rep) "" && negb (rp_NotAZone rep)
  && delegationSilent (rp_Delegation rep) (lget (dns_Apex (rp_DNS rep)) "NS")
  && noServerAnswers (rp_Nameservers rep).

Definition zoneValidationBroken (rep : Report) : bool :=
  bool_decide (s_State (rp_DNSSEC rep) = DNSSECBogus) || bool_decide (s_State (rp_DNSSEC rep) = DNSSECServfail).

Definition enclosing (zone : string) : string :=
  if String.eqb zone "" then "" else " (inside zone " +:+ zone +:+ ")".

Definition hasSPF (txt : list string) : bool := existsb isSPFRecord txt.

Definition nxdomainCode (label : string) : string :=
  if String.eqb label "www" then "www_nxdomain" else "reserved_nxdomain".

(** ** The web section, tallied *)

Definition withTLS (l : list AddrWeb) : list (AddrWeb * TLSResult) :=
  omap (fun a => (fun t => (a, t)) <$> aw_TLS a) l.

Definition hasValidCert (h : option HostWeb) : bool :=
  existsb (fun '(_, t) => String.eqb (tls_Chain t) ChainValid) (withTLS (addrs h)).

(** What a certificate means to a client: its verdict and the names covered. *)
Definition certProfile (t : TLSResult) : option string :=
  (fun c => tls_Chain t +:+ "/" +:+ fmt_bool (ci_CoversApex c) +:+ "/" +:+ fmt_bool (ci_CoversWWW c))
    <$> tls_Cert t.

(** The loop: [first] is the profile seen last, empty for none. *)
Fixpoint profiles_differ (first : string) (l : list string) : bool :=
  match l with
  | [] => false
  | p :: l => (negb (String.eqb first "") && negb (String.eqb p first)) || profiles_differ p l
  end.

Definition certProfilesDiffer (l : list (AddrWeb * TLSResult)) : bool :=
  profiles_differ "" (omap (fun '(_, t) => certProfile t) l).

Definition spaced (s : string) : string := ReplaceAll s "_" " ".

Definition chainLabel (t : TLSResult) : string :=
  if (length (tls_Problems t) <? 2)%nat then spaced (tls_Chain t)
  else Join (map spaced (tls_Problems t)) " and ".

(** Counts of addresses that do and do not serve a version. *)
Record versionTally := mkVT { vt_yes : nat; vt_no : nat }.

Definition vt_add (v : versionTally) (b : option bool) : versionTally :=
  match b with
  | None => v
  | Some true => mkVT (S (vt_yes v)) (vt_no v)
  | Some false => mkVT (vt_yes v) (S (vt_no v))
  end.

Record hostVersions := mkHV {
  t_h1 : versionTally; t_h2 : versionTally; t_h3 : versionTally;
  t_advertised : nat; t_unreachable : nat;
}.

Definition tally_version (t : hostVersions) (a : AddrWeb) : hostVersions :=
  match aw_Versions a with
  | None => t
  | Some v =>
      let https := bool_decide (aw_HTTPS a = PortOpen) in
      let adv := isTrue (hv_H3Advertised v) in
      mkHV (if https then vt_add (t_h1 t) (hv_HTTP1_1 v) else t_h1 t)
           (if https then vt_add (t_h2 t) (hv_HTTP2 v) else t_h2 t)
           (vt_add (t_h3 t) (hv_HTTP3 v))
           (if adv then S (t_advertised t) else t_advertised t)
           (if adv && negb (isTrue (hv_HTTP3 v)) then S (t_unreachable t) else t_unreachable t)
  end.

Definition tallyVersions (l : list AddrWeb) : hostVersions :=
  foldl tally_version (mkHV (mkVT 0 0) (mkVT 0 0) (mkVT 0 0) 0 0) l.

Definition quicSupported (a : AddrWeb) : option bool := q_Supported <$> aw_QUIC a.

Definition anyQUIC (l : list AddrWeb) : bool := existsb (fun a => isTrue (quicSupported a)) l.

Record statusTally := mkST { st_total : nat; st_server5xx : nat; st_client4xx : nat; st_refusals : list Z }.

Definition tally_status (t : statusTally) (r : option HTTPResult) : statusTally :=
  match r with
  | None => t
  | Some r =>
      let s := ht_Status r in
      if (s =? 0)%Z then t
      else if (500 <=? s)%Z then mkST (S (st_total t)) (S (st_server5xx t)) (st_client4xx t) (st_refusals t)
      else if probeRefused s then mkST (S (st_total t)) (st_server5xx t) (st_client4xx t) (st_refusals t ++ [s])
      else if (400 <=? s)%Z then mkST (S (st_total t)) (st_server5xx t) (S (st_client4xx t)) (st_refusals t)
      else mkST (S (st_total t)) (st_server5xx t) (st_client4xx t) (st_refusals t)
  end.

Definition tallyStatuses (l : list AddrWeb) (pick : AddrWeb -> option HTTPResult) : statusTally :=
  foldl (fun t a => tally_status t (pick a)) (mkST 0 0 0 []) l.

Definition distinctStatuses (statuses : list Z) : string :=
  Join (map Itoa (dedupe_from [] (merge_sort Z.le statuses))) "/".

Record upgradeTally := mkUT {
  ut_total : nat; ut_served : nat; ut_elsewhere : nat; ut_temporary : nat; ut_statuses : list Z;
}.

Definition tally_upgrade (t : upgradeTally) (a : AddrWeb) : upgradeTally :=
  match aw_HTTPRes a with
  | None => t
  | Some r =>
      let s := ht_Status r in
      if (s =? 0)%Z then t
      else
        let toHTTPS := HasPrefix (ToLower (ht_Location r)) "https://" in
        let '(mkUT total served elsewhere temporary statuses) := t in
        if (s <? 300)%Z then mkUT (S total) (S served) elsewhere temporary statuses
        else if isRedirect s && negb toHTTPS then mkUT (S total) served (S elsewhere) temporary statuses
        else if member s [302; 303; 307]%Z then mkUT (S total) served elsewhere (S temporary) (statuses ++ [s])
        else mkUT (S total) served elsewhere temporary statuses
  end.

Definition tallyUpgrades (l : list AddrWeb) : upgradeTally := foldl tally_upgrade (mkUT 0 0 0 0 []) l.

(** How one address failed on 80. *)
Definition port80Failure (a : AddrWeb) : string :=
  if negb (bool_decide (aw_HTTP a = PortOpen)) then port_text (aw_HTTP a)
  else match aw_HTTPRes a with
       | Some r => if String.eqb (ht_Error r) "" then "no response" else ht_Error r
       | None => "no response"
       end.

Definition preloadCovers (rep : Report) : bool * bool :=
  if negb (bool_decide (rp_HSTSPreload rep = PreloadPreloaded)) then (false, false)
  else (true, negb (String.eqb (rp_HSTSPreloadCoveredBy rep) "")
              || isTrue (rp_HSTSPreloadIncludeSubdomains rep)).

Definition servedHSTS (h : option HostWeb) : option HSTS :=
  head (omap (fun a => r ← aw_HTTPSRes a; ht_HSTS r) (addrs h)).

Definition firstHTTPSResponse (h : option HostWeb) : option HTTPResult :=
  head (base.filter (fun r => (0 <? ht_Status r)%Z = true) (omap aw_HTTPSRes (addrs h))).

Definition preloadMinAge : Z := 31536000.

Definition meetsPreload (h : option HSTS) : bool :=
  match h with
  | None => false
  | Some h => hs_Preload h && hs_IncludeSubdomains h && (preloadMinAge <=? hs_MaxAge h)%Z
  end.

Definition responseScope (domain : string) (r : HTTPResult) : string :=
  if isRedirect (ht_Status r) then
    "https://" +:+ domain +:+ "/ answered with a " +:+ Itoa (ht_Status r)
    +:+ " redirect; HSTS is per-host, so a header served by the redirect target does not count"
  else "https://" +:+ domain +:+ "/ answered " +:+ Itoa (ht_Status r).

Definition loopTarget (hops : list RedirectHop) : string :=
  match last hops with
  | Some h => if String.eqb (hop_Location h) "" then "" else " -> " +:+ hop_Location h
  | None => ""
  end.

Definition describeHops (hops : list RedirectHop) : string :=
  Join (map (fun h => hop_URL h +:+ " (" +:+ Itoa (hop_Status h) +:+ ")") hops) " -> ".

Section Downgrade.
Context `{L : UrlLib}.

(** What one hop shows: the step back to http, if it is one. *)
Definition downgrade (h : RedirectHop) : option string :=
  match url_Parse (hop_URL h) with
  | inr _ => None
  | inl from =>
      if negb (String.eqb (u_Scheme from) "https") || negb (isRedirect (hop_Status h))
         || String.eqb (hop_Location h) ""
      then None
      else match url_Parse (hop_Location h) with
           | inr _ => None
           | inl ref =>
               let to := url_ResolveReference from ref in
               if String.eqb (u_Scheme to) "http" then Some (hop_URL h +:+ " -> " +:+ u_String to) else None
           end
  end.

Definition downgradeHop (hops : list RedirectHop) : string := default "" (head (omap downgrade hops)).
End Downgrade.

Definition serialList (servers : list NSServer) : string :=
  Join (omap (fun s => if ns_AA s
                       then Some (ns_Name s +:+ "(" +:+ ns_IP s +:+ ")=" +:+ Itoa (ns_Serial s))
                       else None) servers) ", ".

Definition serverFamilies (servers : list NSServer) : nat * nat :=
  (length (base.filter (fun s => Is4 <$> ParseAddr (ns_IP s) = Some true) servers),
   length (base.filter (fun s => Is4 <$> ParseAddr (ns_IP s) = Some false) servers)).

(** ** Problems to codes *)

Definition mxProblemCode (p : string) : string :=
  if HasPrefix p "null MX mixed" then "mx_null_mixed"
  else if HasPrefix p "MX target is not a valid hostname" then "mx_target_invalid"
  else if HasPrefix p "MX target is an IP literal" then "mx_target_ip_literal"
  else if HasPrefix p "MX target is a CNAME" then "mx_target_cname"
  else if String.eqb p "MX target does not exist" then "mx_target_nxdomain"
  else if String.eqb p "MX target has no address" then "mx_target_no_address"
  else "mx_invalid".

Definition dmarcProblemClass (p : string) : string * Severity :=
  if HasPrefix p "multiple DMARC records" then ("dmarc_multiple", SeverityFail)
  else if String.eqb p "missing p= tag" then ("dmarc_policy_missing", SeverityFail)
  else if HasPrefix p "unknown policy" then ("dmarc_policy_unknown", SeverityFail)
  else if HasPrefix p "unknown subdomain policy" then ("dmarc_subdomain_policy_unknown", SeverityWarn)
  else if HasPrefix p "invalid pct=" then ("dmarc_pct_invalid", SeverityWarn)
  else ("dmarc_invalid", SeverityFail).

Record spfClass := mkClass { cl_prefix : string; cl_substr : string; cl_code : string; cl_sev : Severity }.

Definition spfClasses : list spfClass :=
  [ mkClass "multiple SPF records" "" "spf_multiple" SeverityFail;
    mkClass "" "DNS lookups exceed the limit" "spf_lookup_limit" SeverityFail;
    mkClass "" "void lookups exceed the limit" "spf_void_limit" SeverityWarn;
    mkClass "record has no all mechanism" "" "spf_no_all" SeverityWarn;
    mkClass "ptr mechanism is deprecated" "" "spf_ptr_deprecated" SeverityWarn;
    mkClass "unknown mechanism" "" "spf_unknown_mechanism" SeverityFail;
    mkClass "+all" "" "spf_pass_all" SeverityFail;
    mkClass "?all" "" "spf_neutral_all" SeverityWarn;
    mkClass "apex TXT answer is" ", over the " "spf_txt_over_udp_limit" SeverityInfo;
    mkClass "apex TXT answer is" "" "spf_txt_near_udp_limit" SeverityInfo;
    mkClass "include:" " TXT answer is " "spf_include_txt_over_udp_limit" SeverityInfo;
    mkClass "include:" " is not a valid domain name" "spf_include_invalid" SeverityWarn;
    mkClass "include:" " has no SPF record" "spf_include_missing" SeverityWarn;
    mkClass "include:" " could not be checked" "spf_include_unchecked" SeverityWarn;
    mkClass "include loop " "" "spf_include_loop" SeverityFail;
    mkClass "" " is already covered by " "spf_redundant_ip" SeverityInfo ].

Definition class_matches (p : string) (c : spfClass) : bool :=
  HasPrefix p (cl_prefix c) && Contains p (cl_substr c).

Definition spfProblemClass (p : string) : string * Severity :=
  match head (base.filter (fun c => class_matches p c = true) spfClasses) with
  | Some c => (cl_code c, cl_sev c)
  | None => if Contains p "permerror" then ("spf_invalid", SeverityFail) else ("spf_problem", SeverityWarn)
  end.
