(* ===== verification/Findings.v ===== *)
(** * Collecting findings: the [findings] type of report.go

    A state monad over the collector, and what a rule appends to it. *)

From S2P Require Import Prelude GoStrings Report.

Record findings := mkFindings {
  f_errors : list string;
  f_warnings : list string;
  f_list : list Finding;
}.

Definition no_findings : findings := mkFindings [] [] [].

(** A rule: it reads the report and appends to the collector. *)
Definition Rule (A : Type) : Type := findings -> A * findings.

#[export] Instance Rule_ret : MRet Rule := fun A a f => (a, f).
#[export] Instance Rule_bind : MBind Rule := fun A B k m f => let '(a, f) := m f in k a f.

Definition skip : Rule unit := mret tt.

Definition add (sev : Severity) (code host msg : string) : Rule unit := fun f =>
  let l := f_list f ++ [mkFinding code sev host msg] in
  (tt, match sev with
       | SeverityFail => mkFindings (f_errors f ++ [msg]) (f_warnings f) l
       | SeverityWarn => mkFindings (f_errors f) (f_warnings f ++ [msg]) l
       | SeverityInfo => mkFindings (f_errors f) (f_warnings f) l
       end).

Definition fail (code host msg : string) : Rule unit := add SeverityFail code host msg.
Definition warn (code host msg : string) : Rule unit := add SeverityWarn code host msg.
Definition info (code host msg : string) : Rule unit := add SeverityInfo code host msg.

(** [for _, x := range l]. *)
Fixpoint each {A} (r : A -> Rule unit) (l : list A) : Rule unit :=
  match l with
  | [] => skip
  | x :: l => r x;; each r l
  end.

(** The same, with a value carried along. *)
Fixpoint each_with {A B} (r : B -> A -> Rule B) (b : B) (l : list A) : Rule B :=
  match l with
  | [] => mret b
  | x :: l => b ← r b x; each_with r b l
  end.

Definition when (b : bool) (r : Rule unit) : Rule unit := if b then r else skip.

(** What a rule appends to an empty collector. *)
Definition reported {A} (r : Rule A) : list Finding := f_list (r no_findings).2.

(** The entries of a map of tallies, in the order its keys were met. *)
Definition tallied {T} (g : grouped T) : list (string * T) :=
  omap (fun k => (fun t => (k, t)) <$> g.1 !! k) g.2.

Lemma tallied_spec {T} (g : grouped T) k t :
  (forall k, is_Some (g.1 !! k) -> k ∈ g.2) -> (k, t) ∈ tallied g <-> g.1 !! k = Some t.
Proof.
  intros Hg. unfold tallied. rewrite list_elem_of_omap. split.
  - intros (n & Hn & E). destruct (g.1 !! n) eqn:En; simplify_eq/=. done.
  - intros E. exists k. split; [apply Hg; eauto|]. by rewrite E.
Qed.

Section Groups.
Context {A T : Type} (key : A -> string) (new : A -> T) (upd : A -> T -> T).

Lemma group_keys l k : is_Some ((group key new upd l).1 !! k) -> k ∈ (group key new upd l).2.
Proof.
  destruct (group_order key new upd l) as [Ho Hm]. rewrite Ho, Hm, elem_of_dedupe_from.
  destruct (base.filter (fun x => key x = k) l) as [|x fl] eqn:E; [intros [? [=]]|].
  intros _. split; [|set_solver].
  assert (Hs : x ∈ base.filter (fun x => key x = k) l) by (rewrite E; set_solver).
  apply list_elem_of_filter in Hs as [<- Hs]. by apply list_elem_of_fmap_2.
Qed.

(** One entry per distinct key, in order of appearance. *)
Lemma tallied_group l :
  tallied (group key new upd l) =
  omap (fun k => (fun t => (k, t)) <$> tally_of new upd (base.filter (fun x => key x = k) l))
       (dedupe_from [] (map key l)).
Proof.
  unfold tallied. destruct (group_order key new upd l) as [-> Hm].
  generalize (dedupe_from [] (map key l)). intros ks. induction ks as [|k ks IH]; [done|].
  cbn [omap list_omap]. by rewrite Hm, IH.
Qed.

Lemma tallied_elem l k t :
  (k, t) ∈ tallied (group key new upd l) ->
  exists x0 rest, base.filter (fun x => key x = k) l = x0 :: rest /\
                  t = foldl (fun t x => upd x t) (new x0) (x0 :: rest).
Proof.
  rewrite tallied_spec by apply group_keys. destruct (group_order key new upd l) as [_ ->].
  destruct (base.filter _ l) as [|x0 rest]; [done|]. intros [= <-]. eauto.
Qed.
End Groups.

(** ** What rules write *)

Definition messages (sev : Severity) (l : list Finding) : list string :=
  map Message (base.filter (fun x => Sev x = sev) l).

Definition extend (f : findings) (l : list Finding) : findings :=
  mkFindings (f_errors f ++ messages SeverityFail l) (f_warnings f ++ messages SeverityWarn l) (f_list f ++ l).

Definition writes {A} (r : Rule A) (a : A) (l : list Finding) : Prop := forall f, r f = (a, extend f l).

Lemma messages_app sev l1 l2 : messages sev (l1 ++ l2) = messages sev l1 ++ messages sev l2.
Proof. unfold messages. by rewrite filter_app, map_app. Qed.

Lemma extend_nil f : extend f [] = f.
Proof. destruct f. unfold extend, messages. simpl. by rewrite !app_nil_r. Qed.

Lemma extend_app f l1 l2 : extend (extend f l1) l2 = extend f (l1 ++ l2).
Proof. unfold extend. simpl. by rewrite !messages_app, !app_assoc. Qed.

Lemma extend_fields l :
  extend no_findings l = mkFindings (messages SeverityFail l) (messages SeverityWarn l) l.
Proof. done. Qed.

Lemma writes_ret {A} (a : A) : writes (mret a) a [].
Proof. intros f. by rewrite extend_nil. Qed.

Lemma writes_bind {A B} (r : Rule A) (k : A -> Rule B) a b l1 l2 :
  writes r a l1 -> writes (k a) b l2 -> writes (r ≫= k) b (l1 ++ l2).
Proof. intros H1 H2 f. unfold mbind, Rule_bind. by rewrite H1, H2, extend_app. Qed.

Lemma writes_add sev code host msg : writes (add sev code host msg) tt [mkFinding code sev host msg].
Proof.
  intros f. unfold add, extend, messages. destruct sev; simpl; by rewrite ?app_nil_r.
Qed.

Lemma writes_each {A} (r : A -> Rule unit) (out : A -> list Finding) l :
  (forall x, x ∈ l -> writes (r x) tt (out x)) -> writes (each r l) tt (concat (map out l)).
Proof.
  induction l as [|x l IH]; intros H; simpl; [apply writes_ret|].
  eapply writes_bind; [apply H; set_solver|]. apply IH. set_solver.
Qed.

Lemma writes_reported {A} (r : Rule A) a l : writes r a l -> reported r = l.
Proof. intros H. unfold reported. by rewrite H. Qed.

(** A rule that only appends. *)
Definition appends {A} (r : Rule A) : Prop := exists a l, writes r a l.

Lemma appends_bind {A B} (r : Rule A) (k : A -> Rule B) :
  appends r -> (forall a, appends (k a)) -> appends (r ≫= k).
Proof. intros (a & l1 & H1) Hk. destruct (Hk a) as (b & l2 & H2). exists b, (l1 ++ l2). by eapply writes_bind. Qed.

Lemma appends_add sev code host msg : appends (add sev code host msg).
Proof. eexists _, _. apply writes_add. Qed.

Lemma reported_bind {A B} (r : Rule A) (k : Rule B) :
  appends r -> appends k -> reported (r;; k) = reported r ++ reported k.
Proof.
  intros (a & l1 & H1) (b & l2 & H2). rewrite (writes_reported _ _ _ H1), (writes_reported _ _ _ H2).
  apply (writes_reported _ b). by eapply writes_bind.
Qed.

(** A rule that reports no failure. *)
Definition no_fail {A} (r : Rule A) : Prop := forall x, x ∈ reported r -> Sev x <> SeverityFail.

Lemma no_fail_bind {A B} (r : Rule A) (k : Rule B) :
  appends r -> appends k -> no_fail (r;; k) <-> no_fail r /\ no_fail k.
Proof. intros Hr Hk. unfold no_fail. rewrite reported_bind by done. set_solver. Qed.

Lemma no_fail_fail code host msg : no_fail (fail code host msg) <-> False.
Proof.
  split; [|done]. intros H. apply (H (mkFinding code SeverityFail host msg)); [|done].
  unfold reported. simpl. by left.
Qed.

Lemma no_fail_skip : no_fail skip <-> True.
Proof. unfold no_fail, reported. simpl. set_solver. Qed.

Lemma no_fail_when b r : no_fail (when b r) <-> (b = true -> no_fail r).
Proof. destruct b; simpl; [naive_solver|]. rewrite no_fail_skip. naive_solver. Qed.

Lemma no_fail_each {A} (r : A -> Rule unit) l :
  (forall x, appends (r x)) -> no_fail (each r l) <-> forall x, x ∈ l -> no_fail (r x).
Proof.
  intros Hr. induction l as [|x l IH]; simpl; [rewrite no_fail_skip; set_solver|].
  assert (Ha : appends (each r l)).
  { clear IH. induction l as [|y l IH]; simpl; [eexists _, _; apply writes_ret|by apply appends_bind]. }
  rewrite no_fail_bind, IH by auto. set_solver.
Qed.

(** ** Rules that write only some codes *)

Definition table : Type := list (string * Severity).

Definition fits (t : table) (x : Finding) : Prop := (Code x, Sev x) ∈ t.

Definition emits {A} (t : table) (r : Rule A) : Prop :=
  exists a l, writes r a l /\ Forall (fits t) l.

Lemma emits_ret {A} t (a : A) : emits t (mret a).
Proof. exists a, []. split; [apply writes_ret|constructor]. Qed.

Lemma emits_skip t : emits t skip.
Proof. apply emits_ret. Qed.

Lemma emits_bind {A B} t (r : Rule A) (k : A -> Rule B) :
  emits t r -> (forall a, emits t (k a)) -> emits t (r ≫= k).
Proof.
  intros (a & l1 & Hw & H1) Hk. destruct (Hk a) as (b & l2 & Hw2 & H2).
  exists b, (l1 ++ l2). split; [by eapply writes_bind|]. by apply Forall_app.
Qed.

Lemma emits_add t sev code host msg : (code, sev) ∈ t -> emits t (add sev code host msg).
Proof.
  intros H. exists tt, [mkFinding code sev host msg]. split; [apply writes_add|].
  by repeat constructor.
Qed.

Lemma emits_each {A} t (r : A -> Rule unit) l : (forall x, x ∈ l -> emits t (r x)) -> emits t (each r l).
Proof.
  induction l as [|x l IH]; intros H; simpl; [apply emits_skip|].
  apply emits_bind; [apply H; set_solver|]. intros _. apply IH. set_solver.
Qed.

Lemma emits_each_with {A B} t (r : B -> A -> Rule B) b l :
  (forall b x, emits t (r b x)) -> emits t (each_with r b l).
Proof.
  revert b. induction l as [|x l IH]; intros b H; simpl; [apply emits_ret|].
  apply emits_bind; [apply H|]. intros b'. by apply IH.
Qed.

Lemma emits_when t b r : emits t r -> emits t (when b r).
Proof. destruct b; [done|intros _; apply emits_skip]. Qed.

Lemma emits_mono {A} (t1 t2 : table) (r : Rule A) : t1 ⊆ t2 -> emits t1 r -> emits t2 r.
Proof.
  intros Hs (a & l & Hw & Hl). exists a, l. split; [done|]. eapply Forall_impl; [exact Hl|].
  unfold fits. set_solver.
Qed.

Lemma emits_reported {A} t (r : Rule A) x : emits t r -> x ∈ reported r -> fits t x.
Proof.
  intros (a & l & Hw & Hl) Hx. rewrite (writes_reported _ _ _ Hw) in Hx.
  by eapply Forall_forall in Hl.
Qed.

(** Every rule that emits anything writes something: its collector mirrors. *)
Lemma emits_run {A} t (r : Rule A) :
  emits t r -> exists a, r no_findings = (a, extend no_findings (reported r)).
Proof. intros (a & l & Hw & _). exists a. by rewrite (writes_reported _ _ _ Hw), Hw. Qed.

Lemma emits_writes t (r : Rule unit) : emits t r -> writes r tt (reported r).
Proof. intros ([] & l & Hw & _). by rewrite (writes_reported _ _ _ Hw). Qed.

Lemma emits_appends {A} t (r : Rule A) : emits t r -> appends r.
Proof. intros (a & l & H & _). by exists a, l. Qed.

(** Solves [emits t r] by the shape of [r]; the codes are looked up in [t]. *)
Ltac emits_step :=
  lazymatch goal with
  | |- emits _ (mret _) => apply emits_ret
  | |- emits _ skip => apply emits_skip
  | |- emits _ (_ ≫= _) => apply emits_bind; [|intros ?]
  | |- emits _ (fail _ _ _) => apply emits_add
  | |- emits _ (warn _ _ _) => apply emits_add
  | |- emits _ (info _ _ _) => apply emits_add
  | |- emits _ (add _ _ _ _) => apply emits_add
  | |- emits _ (each _ _) => apply emits_each; intros ? ?
  | |- emits _ (each_with _ _ _) => apply emits_each_with; intros ? ?
  | |- emits _ (when _ _) => apply emits_when
  | |- emits _ (match ?x with _ => _ end) => destruct x eqn:?
  | |- emits _ (let _ := _ in _) => cbv zeta
  end.

(** A pair of concrete strings in a concrete table. *)
Ltac in_table := match goal with |- _ ∈ _ => by apply (bool_decide_eq_true_1 _); vm_compute end.

Ltac emits_tac := repeat (cbv beta; emits_step); try in_table.

Create HintDb emits discriminated.
