(* ===== verification/ZoneFindings.v ===== *)
(** * Rules on the zone: records, DNSSEC, delegation, registration (report.go) *)

From S2P Require Import Prelude GoStrings Netip Names Records Trace Dnssec Mail Rdap Report Findings.

(** ** About the run itself *)

(** Keys of a Go map, sorted. *)
Definition sortedKeys {V} (m : gmap string V) : list string := sort_strings (map_to_list m).*1.

Definition reachabilityFindings (reach : gmap string Reach) : Rule unit :=
  each (fun fam =>
          when (bool_decide (mget ReachNone reach fam = ReachNo))
               (fail "resolver_unreachable" "" ("resolver not reachable over " +:+ fam)))
       (sortedKeys reach).

Definition deadlineFindings (rep : Report) : Rule unit :=
  when (rp_DeadlineReached rep)
    (info "run_deadline_reached" ""
       ("the run reached its " +:+ Itoa (rp_MaxTimeSec rep)
        +:+ "-second deadline; checks still running then were cut short")).

(** ** Registration *)

Definition rdapFindings (r : option RDAPReport) : Rule unit :=
  match r with
  | None => skip
  | Some r =>
      let held := matchedStatuses r rdapHoldStatus in
      let leaving := matchedStatuses r rdapDeletionStatus in
      when (0 <? length held)%nat
        (fail "domain_on_hold" "" ("RDAP reports " +:+ rd_Domain r +:+ " on hold: " +:+ Join held ", "));;
      when (0 <? length leaving)%nat
        (warn "domain_pending_deletion" ""
           ("RDAP reports " +:+ rd_Domain r +:+ " being deleted: " +:+ Join leaving ", "));;
      match rd_Registered r with
      | None =>
          info "rdap_lookup_failed" ""
            ("registry RDAP lookup for " +:+ rd_Domain r +:+ " did not complete ("
             +:+ rr_Error (rd_Registry r) +:+ "): registration status unknown")
      | Some _ => skip
      end
  end.

(** ** Records *)

(** [true] when the apex does not exist or has nothing at it, which is then
    said. *)
Definition apexMissing (rep : Report) : Rule bool :=
  let apex := dns_Apex (rp_DNS rep) in
  if nameDoesNotExist apex then
    fail "apex_nxdomain" "apex" ("apex " +:+ rp_Domain rep +:+ " does not exist (NXDOMAIN)");; mret true
  else if noRecordsAtAll apex then
    fail "apex_empty" "apex" ("apex " +:+ rp_Domain rep +:+ " has no records of any type");; mret true
  else mret false.

Definition zoneKindFindings (rep : Report) : Rule unit :=
  let ns := lget (dns_Apex (rp_DNS rep)) "NS" in
  let status := d_Status (rp_Delegation rep) in
  if rp_NotAZone rep then
    info "not_a_zone" ""
      (rp_Domain rep +:+ " is not a zone apex" +:+ enclosing (rp_EnclosingZone rep)
       +:+ ": delegation and DNSSEC zone checks skipped")
  else if bool_decide (status = DelegationChildNoNS) || bool_decide (status = DelegationNoChildAnswer) then skip
  else when (negb (HasRecords ns) && Answered ns) (fail "ns_absent" "apex" "apex has no NS records").

Definition lookupFindings (label qtype : string) (l : Lookup) (folded : bool) : Rule unit :=
  match l_Status l with
  | StatusTimeout => fail "lookup_timeout" label (label +:+ " " +:+ qtype +:+ " lookup timed out")
  | StatusFailure =>
      when (negb folded)
        (fail "lookup_failed" label (label +:+ " " +:+ qtype +:+ " lookup failed: " +:+ l_Error l))
  | _ => skip
  end.

Definition noAddress (label : string) : Rule unit :=
  if String.eqb label "www" then info "www_no_address" label (label +:+ " has no A or AAAA records")
  else warn "apex_no_address" label (label +:+ " has no A or AAAA records").

Definition addressWarnings (label : string) (a aaaa : Lookup) : Rule unit :=
  if negb (Answered a) || negb (Answered aaaa) then skip
  else if bool_decide (l_Status a = StatusNXDomain) then
    info (nxdomainCode label) label (label +:+ " name does not exist")
  else if negb (HasRecords a) && negb (HasRecords aaaa) then noAddress label
  else if negb (HasRecords aaaa) then info "aaaa_absent" label (label +:+ " has no AAAA record")
  else skip.

Section Zone.
Context `{P : Psl}.

Definition presenceWarnings (rep : Report) : Rule unit :=
  let apex := dns_Apex (rp_DNS rep) in
  let www := dns_WWW (rp_DNS rep) in
  addressWarnings "apex" (lget apex "A") (lget apex "AAAA");;
  when (registrableDomain (rp_Domain rep)) (addressWarnings "www" (lget www "A") (lget www "AAAA"));;
  match rp_Mail rep with
  | None => skip
  | Some _ =>
      (if IsNullMX (lget apex "MX") then
         info "mx_null" "apex" "apex publishes a null MX (RFC 7505): accepts no mail"
       else when (Answered (lget apex "MX") && negb (HasRecords (lget apex "MX")))
              (info "mx_absent" "apex" "apex has no MX records"));;
      when (Answered (lget apex "TXT") && negb (hasSPF (l_Records (lget apex "TXT"))))
        (warn "spf_absent" "" "no SPF (v=spf1) record in apex TXT")
  end.

(** The rest of [dnsFindings], for an apex that is there. *)
Definition presentFindings (rep : Report) : Rule unit :=
  let folded := zoneValidationBroken rep || negb (String.eqb (rp_ReservedName rep) "") in
  each (fun t => lookupFindings "apex" t (lget (dns_Apex (rp_DNS rep)) t) folded) apexTypes;;
  each (fun t => lookupFindings "www" t (lget (dns_WWW (rp_DNS rep)) t) folded) wwwTypes;;
  zoneKindFindings rep;;
  presenceWarnings rep.

Definition dnsFindings (rep : Report) : Rule unit :=
  missing ← (if negb (String.eqb (rp_ReservedName rep) "") then mret false else apexMissing rep);
  if (missing : bool) then skip else presentFindings rep.

End Zone.

(** ** DNSSEC and delegation *)

Definition dnssecFindings (rep : Report) : Rule unit :=
  let d := rp_DNSSEC rep in
  match s_State d with
  | DNSSECBogus =>
      fail "dnssec_bogus" "" ("DNSSEC validation fails (bogus): " +:+ firstNonEmpty [s_EDE d; s_Detail d])
  | DNSSECServfail =>
      fail "resolver_servfail" "" ("resolver returned SERVFAIL: " +:+ firstNonEmpty [s_EDE d; s_Detail d])
  | DNSSECIsland => warn "dnssec_dnskey_no_ds" "" ("DNSSEC: " +:+ s_Detail d)
  | DNSSECUnknown => warn "dnssec_unknown" "" ("DNSSEC state unknown: " +:+ s_Detail d)
  | DNSSECInsecure =>
      when (negb (rp_NotAZone rep)) (info "dnssec_unsigned" "" "the zone is not DNSSEC-signed")
  | _ => skip
  end.

Definition delegationFindings (rep : Report) : Rule unit :=
  let d := rp_Delegation rep in
  match d_Status d with
  | DelegationMismatch =>
      fail "delegation_mismatch" ""
        ("NS delegation mismatch: parent-only " +:+ fmt_strings (d_ParentOnly d) +:+ ", child-only "
         +:+ fmt_strings (d_ChildOnly d))
  | DelegationNotDelegated =>
      when (negb (apexAbsent (dns_Apex (rp_DNS rep))))
        (fail "not_delegated" ""
           ("domain is not delegated by its parent zone (" +:+ d_ParentServer d +:+ ")"))
  | DelegationNoChildAnswer =>
      if bool_decide (l_Status (lget (dns_Apex (rp_DNS rep)) "NS") = StatusNXRRSet) then
        fail "delegation_nodata" ""
          "delegated NS servers answered with no NS records (NODATA): the zone has no apex NS RRset"
      else
        fail "delegation_no_answer" ""
          ("delegated NS servers did not answer the NS query: " +:+ firstNonEmpty [d_Error d; "no response"])
  | DelegationChildNoNS => fail "delegation_lame" "" ("lame delegation: " +:+ d_Error d)
  | DelegationError => fail "delegation_trace_failed" "" ("delegation trace failed: " +:+ d_Error d)
  | _ => skip
  end.

(** ** The codes each rule uses *)

Definition run_codes : table := [("resolver_unreachable", SeverityFail); ("run_deadline_reached", SeverityInfo)].

Definition rdap_codes : table :=
  [("domain_on_hold", SeverityFail); ("domain_pending_deletion", SeverityWarn);
   ("rdap_lookup_failed", SeverityInfo)].

Definition absent_codes : table := [("apex_nxdomain", SeverityFail); ("apex_empty", SeverityFail)].

(** What the records say once the apex is there. *)
Definition record_codes : table :=
  [("not_a_zone", SeverityInfo); ("ns_absent", SeverityFail);
   ("lookup_timeout", SeverityFail); ("lookup_failed", SeverityFail); ("www_no_address", SeverityInfo);
   ("apex_no_address", SeverityWarn); ("www_nxdomain", SeverityInfo); ("reserved_nxdomain", SeverityInfo);
   ("aaaa_absent", SeverityInfo); ("mx_null", SeverityInfo); ("mx_absent", SeverityInfo);
   ("spf_absent", SeverityWarn)].

Definition dnssec_codes : table :=
  [("dnssec_bogus", SeverityFail); ("resolver_servfail", SeverityFail); ("dnssec_dnskey_no_ds", SeverityWarn);
   ("dnssec_unknown", SeverityWarn); ("dnssec_unsigned", SeverityInfo)].

Definition delegation_codes : table :=
  [("delegation_mismatch", SeverityFail); ("not_delegated", SeverityFail); ("delegation_nodata", SeverityFail);
   ("delegation_no_answer", SeverityFail); ("delegation_lame", SeverityFail);
   ("delegation_trace_failed", SeverityFail)].

Lemma emits_reachability reach : emits run_codes (reachabilityFindings reach).
Proof. unfold reachabilityFindings. emits_tac. Qed.

Lemma emits_deadline rep : emits run_codes (deadlineFindings rep).
Proof. unfold deadlineFindings. emits_tac. Qed.

Lemma emits_rdap r : emits rdap_codes (rdapFindings r).
Proof. unfold rdapFindings. emits_tac. Qed.

Lemma emits_apexMissing rep : emits absent_codes (apexMissing rep).
Proof. unfold apexMissing. emits_tac. Qed.

Lemma emits_lookup label t l folded : emits record_codes (lookupFindings label t l folded).
Proof. unfold lookupFindings. emits_tac. Qed.

Lemma emits_zoneKind rep : emits record_codes (zoneKindFindings rep).
Proof. unfold zoneKindFindings. emits_tac. Qed.

Lemma emits_address label a aaaa : emits record_codes (addressWarnings label a aaaa).
Proof.
  unfold addressWarnings, noAddress, nxdomainCode. emits_tac.
  destruct (String.eqb label "www"); in_table.
Qed.

Lemma emits_presence `{P : Psl} rep : emits record_codes (presenceWarnings rep).
Proof. unfold presenceWarnings. emits_tac; apply emits_address. Qed.

Lemma emits_dnssec rep : emits dnssec_codes (dnssecFindings rep).
Proof. unfold dnssecFindings. emits_tac. Qed.

Lemma emits_delegation rep : emits delegation_codes (delegationFindings rep).
Proof. unfold delegationFindings. emits_tac. Qed.

#[export] Hint Resolve emits_reachability emits_deadline emits_rdap emits_lookup emits_zoneKind
  emits_presence emits_dnssec emits_delegation : emits.

Lemma emits_present `{P : Psl} rep : emits record_codes (presentFindings rep).
Proof. unfold presentFindings. emits_tac; auto with emits. Qed.

Lemma emits_dns `{P : Psl} rep : emits (absent_codes ++ record_codes) (dnsFindings rep).
Proof.
  unfold dnsFindings. apply emits_bind.
  - destruct (negb _); [apply emits_ret|]. eapply emits_mono; [|apply emits_apexMissing]. set_solver.
  - intros []; [apply emits_skip|]. eapply emits_mono; [|apply emits_present]. set_solver.
Qed.

#[export] Hint Resolve emits_dns : emits.

(** An apex with nothing at it is said once, and nothing else about records. *)
Lemma dnsFindings_absent `{P : Psl} rep :
  rp_ReservedName rep = "" -> apexAbsent (dns_Apex (rp_DNS rep)) = true ->
  exists msg,
    writes (dnsFindings rep) tt
      [mkFinding (if nameDoesNotExist (dns_Apex (rp_DNS rep)) then "apex_nxdomain" else "apex_empty")
                 SeverityFail "apex" msg].
Proof.
  intros Hr Ha. unfold dnsFindings, apexMissing. rewrite Hr. simpl. unfold apexAbsent in Ha.
  destruct (nameDoesNotExist _); simpl in *; [|rewrite Ha].
  all: eexists; rewrite <-(app_nil_r [_]); apply (writes_bind _ _ true tt); [|apply writes_ret].
  all: rewrite <-(app_nil_r [_]); apply (writes_bind _ _ tt true); [apply writes_add|apply writes_ret].
Qed.
