(* ===== verification/NsFindings.v ===== *)
(** * Rules on the name servers (report.go) *)

From S2P Require Import Prelude GoStrings Netip NsAudit Report Findings.

Record nsTally := mkNsTally {
  nt_total : nat;
  nt_lame : nat;
  nt_silent : nat;
  nt_reserved : nat;
  nt_reason : string;
  nt_resWhy : string;
}.

Definition zeroTally : nsTally := mkNsTally 0 0 0 0 "" "".

(** The switch of [tallyServers], in order. *)
Inductive serverKind := Reserved | Heard | Silent | Lame.

#[export] Instance serverKind_eq_dec : EqDecision serverKind.
Proof. solve_decision. Defined.

Definition kindOf (s : NSServer) : serverKind :=
  if negb (String.eqb (ns_Reserved s) "") then Reserved
  else if String.eqb (ns_Error s) "" || ns_AA s then Heard
  else if unanswered (ns_Error s) then Silent
  else Lame.

Definition count_server (s : NSServer) (t : nsTally) : nsTally :=
  let '(mkNsTally total lame silent reserved reason resWhy) := t in
  match kindOf s with
  | Reserved => mkNsTally (S total) lame silent (S reserved) reason (firstNonEmpty [resWhy; ns_Reserved s])
  | Heard => mkNsTally (S total) lame silent reserved reason resWhy
  | Silent => mkNsTally (S total) lame (S silent) reserved reason resWhy
  | Lame => mkNsTally (S total) (S lame) silent reserved (firstNonEmpty [reason; ns_Error s]) resWhy
  end.

Definition serverWarnings (s : NSServer) : Rule unit :=
  when (negb (ns_TCP s))
    (warn "ns_no_tcp" (ns_Name s)
       ("nameserver " +:+ ns_Name s +:+ " (" +:+ ns_IP s +:+ "): no answer over TCP"));;
  when (negb (ns_EDNS s))
    (warn "ns_no_edns" (ns_Name s)
       ("nameserver " +:+ ns_Name s +:+ " (" +:+ ns_IP s +:+ "): no EDNS support")).

(** The loop: the map, and the names in the order they were met. *)
Definition tally_server (st : grouped nsTally) (s : NSServer) : Rule (grouped nsTally) :=
  when (bool_decide (kindOf s = Heard)) (serverWarnings s);;
  mret (touch ns_Name (fun _ => zeroTally) count_server st s).

Definition tallyServers (servers : list NSServer) : Rule (grouped nsTally) :=
  each_with tally_server (∅, []) servers.

Definition of_addresses (n total : nat) : string := itoa n +:+ " of " +:+ itoa total +:+ " addresses".

Definition describeServer (name : string) (t : nsTally) : string :=
  name +:+ " " +:+ Join
    ((if (0 <? nt_lame t)%nat
      then [nt_reason t +:+ " on " +:+ of_addresses (nt_lame t) (nt_total t)] else [])
     ++ (if (0 <? nt_silent t)%nat
         then ["no answer on " +:+ of_addresses (nt_silent t) (nt_total t)] else [])
     ++ (if (0 <? nt_reserved t)%nat
         then ["reserved address (" +:+ nt_resWhy t +:+ ") on "
               +:+ of_addresses (nt_reserved t) (nt_total t)] else [])) ", ".

(** The tally is made on a collector of its own, which is dropped. *)
Definition describeSilentServers (n : NSReport) : string :=
  Join (map (fun '(name, t) => describeServer name t) (tallied (tallyServers (nr_Servers n) no_findings).1)
        ++ map (fun name => name +:+ " has no address") (nr_Unresolvable n)) "; ".

Definition nameFindings (name : string) (t : nsTally) : Rule unit :=
  when (0 <? nt_reserved t)%nat
    (fail "ns_reserved_address" name
       ("nameserver " +:+ name +:+ ": reserved address (" +:+ nt_resWhy t +:+ ") on "
        +:+ of_addresses (nt_reserved t) (nt_total t) +:+ ", not queried"));;
  when (0 <? nt_lame t)%nat
    (fail "ns_lame" name
       ("nameserver " +:+ name +:+ ": " +:+ nt_reason t +:+ " on " +:+ of_addresses (nt_lame t) (nt_total t)));;
  if (0 <? nt_silent t)%nat && (nt_silent t =? nt_total t)%nat then
    fail "ns_no_answer" name
      ("nameserver " +:+ name +:+ ": no answer on " +:+ of_addresses (nt_silent t) (nt_total t))
  else when (0 <? nt_silent t)%nat
    (warn "ns_partial_answer" name
       ("nameserver " +:+ name +:+ ": no answer on " +:+ of_addresses (nt_silent t) (nt_total t)
        +:+ ", the others are authoritative")).

Definition serverFindings (servers : list NSServer) : Rule unit :=
  g ← tallyServers servers;
  each (fun '(name, t) => nameFindings name t) (tallied g).

Definition diversityFindings (n : NSReport) : Rule unit :=
  (match nr_NSDomains n with
   | [d] => when (2 <=? nr_Count n)%nat
              (info "ns_single_domain" "" ("every nameserver is named under " +:+ d))
   | _ => skip
   end);;
  match nr_IPv4Prefixes24 n, nr_IPv6Prefixes48 n with
  | Some p4, Some p6 =>
      let '(v4, v6) := serverFamilies (nr_Servers n) in
      when ((2 <=? v4)%nat && (p4 =? 1)%nat)
        (warn "ns_same_v4_24" "" "all IPv4 nameserver addresses share one /24");;
      when ((2 <=? v6)%nat && (p6 =? 1)%nat)
        (info "ns_same_v6_48" "" "all IPv6 nameserver addresses share one /48")
  | _, _ => skip
  end.

Definition glueFindings (g : option GlueReport) : Rule unit :=
  match g with
  | None => skip
  | Some g =>
      each (fun name =>
              fail "glue_missing" name
                ("no glue at the parent for in-bailiwick nameserver " +:+ name)) (gl_Missing g);;
      each (fun m => warn "glue_differs" "" ("glue at the parent differs from the zone for " +:+ m))
        (gl_Mismatch g)
  end.

Definition nsFindings (n : option NSReport) : Rule unit :=
  match n with
  | None => skip
  | Some n =>
      when (nr_Count n <? 2)%nat
        (fail "ns_count_low" ""
           ("only " +:+ itoa (nr_Count n) +:+ " nameserver (at least two required)"));;
      each (fun name => fail "ns_cname" name ("nameserver " +:+ name +:+ " is a CNAME (RFC 2181 §10.3)"))
        (nr_NSCNAME n);;
      each (fun name => fail "ns_no_address" name ("nameserver " +:+ name +:+ " has no address"))
        (nr_Unresolvable n);;
      each (fun name =>
              warn "ns_unaudited" name
                ("nameserver " +:+ name +:+ ": the address lookup did not complete, so it was not audited"))
        (nr_Unresolved n);;
      when (length (nr_Servers n) =? 0)%nat
        (warn "ns_none_reached" ""
           "no nameserver was reached, so none of the per-server checks ran");;
      serverFindings (nr_Servers n);;
      when (bool_decide (nr_SerialsConsistent n = Some false))
        (info "soa_serial_differs" ""
           ("SOA serial differs between nameservers: " +:+ serialList (nr_Servers n)));;
      diversityFindings n;;
      glueFindings (nr_Glue n)
  end.

(** ** Codes *)

Definition server_codes : table :=
  [("ns_no_tcp", SeverityWarn); ("ns_no_edns", SeverityWarn); ("ns_reserved_address", SeverityFail);
   ("ns_lame", SeverityFail); ("ns_no_answer", SeverityFail); ("ns_partial_answer", SeverityWarn)].

Definition ns_codes : table :=
  server_codes ++
  [("ns_count_low", SeverityFail); ("ns_cname", SeverityFail); ("ns_no_address", SeverityFail);
   ("ns_unaudited", SeverityWarn); ("ns_none_reached", SeverityWarn); ("soa_serial_differs", SeverityInfo);
   ("ns_single_domain", SeverityInfo); ("ns_same_v4_24", SeverityWarn); ("ns_same_v6_48", SeverityInfo);
   ("glue_missing", SeverityFail); ("glue_differs", SeverityWarn)].

Lemma emits_tallyServers servers : emits server_codes (tallyServers servers).
Proof. unfold tallyServers, tally_server, serverWarnings. emits_tac. Qed.

Lemma emits_name name t : emits server_codes (nameFindings name t).
Proof. unfold nameFindings. emits_tac. Qed.

Lemma emits_server servers : emits server_codes (serverFindings servers).
Proof.
  unfold serverFindings. apply emits_bind; [apply emits_tallyServers|]. intros g.
  apply emits_each. intros [name t] _. apply emits_name.
Qed.

Lemma emits_ns n : emits ns_codes (nsFindings n).
Proof.
  unfold nsFindings, diversityFindings, glueFindings. emits_tac.
  eapply emits_mono; [|apply emits_server]. set_solver.
Qed.

#[export] Hint Resolve emits_ns : emits.

(** ** What is said of one name *)

Definition server_groups (servers : list NSServer) : grouped nsTally :=
  group ns_Name (fun _ => zeroTally) count_server servers.

(** The servers of one name. *)
Definition own (servers : list NSServer) (name : string) : list NSServer :=
  base.filter (fun s => ns_Name s = name) servers.

Definition of_kind (k : serverKind) (l : list NSServer) : nat := length (base.filter (fun s => kindOf s = k) l).

Definition heard_codes : table := [("ns_no_tcp", SeverityWarn); ("ns_no_edns", SeverityWarn)].

Lemma tallyServers_from st servers :
  exists l, writes (each_with tally_server st servers)
              (foldl (touch ns_Name (fun _ => zeroTally) count_server) st servers) l
            /\ Forall (fits heard_codes) l.
Proof.
  revert st. induction servers as [|s servers IH]; intros st; simpl.
  - exists []. split; [apply writes_ret|constructor].
  - destruct (IH (touch ns_Name (fun _ => zeroTally) count_server st s)) as (l2 & Hw2 & H2).
    assert (He : emits heard_codes (when (bool_decide (kindOf s = Heard)) (serverWarnings s)))
      by (unfold serverWarnings; emits_tac).
    destruct He as ([] & l1 & Hw1 & H1). exists ((l1 ++ []) ++ l2). split.
    + eapply writes_bind; [|exact Hw2]. eapply writes_bind; [exact Hw1|apply writes_ret].
    + rewrite app_nil_r. by apply Forall_app.
Qed.

(** The tally counts the servers of its name by kind. *)
Lemma count_servers l t0 t :
  foldl (fun t s => count_server s t) t0 l = t ->
  nt_total t = (nt_total t0 + length l)%nat /\ nt_lame t = (nt_lame t0 + of_kind Lame l)%nat /\
  nt_silent t = (nt_silent t0 + of_kind Silent l)%nat /\ nt_reserved t = (nt_reserved t0 + of_kind Reserved l)%nat.
Proof.
  intros <-. revert t0. induction l as [|s l IH]; intros t0; [unfold of_kind; simpl; lia|].
  simpl. destruct (IH (count_server s t0)) as (-> & -> & -> & ->).
  unfold of_kind, count_server. destruct t0.
  destruct (kindOf s) eqn:E; rewrite !filter_cons, E; simpl; lia.
Qed.

Lemma server_tally servers name :
  match (server_groups servers).1 !! name with
  | None => own servers name = []
  | Some t =>
      own servers name <> [] /\
      nt_total t = length (own servers name) /\ nt_lame t = of_kind Lame (own servers name) /\
      nt_silent t = of_kind Silent (own servers name) /\
      nt_reserved t = of_kind Reserved (own servers name)
  end.
Proof.
  destruct (group_order ns_Name (fun _ => zeroTally) count_server servers) as [_ Hm].
  unfold server_groups. rewrite Hm. change (base.filter (fun x => ns_Name x = name) servers) with (own servers name).
  destruct (own servers name) as [|s l]; [done|]. unfold tally_of.
  split; [done|]. exact (count_servers (s :: l) zeroTally _ eq_refl).
Qed.

Lemma of_kind_pos k l : (0 < of_kind k l)%nat <-> exists s, s ∈ l /\ kindOf s = k.
Proof.
  unfold of_kind. split.
  - destruct (base.filter _ l) as [|s fl] eqn:E; simpl; [lia|]. intros _. exists s.
    assert (Hs : s ∈ base.filter (fun s => kindOf s = k) l) by (rewrite E; set_solver).
    by apply list_elem_of_filter in Hs as [? ?].
  - intros (s & Hs & Hk). assert (Hf : s ∈ base.filter (fun s => kindOf s = k) l) by by apply list_elem_of_filter.
    destruct (base.filter _ l); [set_solver|simpl; lia].
Qed.

Lemma of_kind_all k l : of_kind k l = length l <-> forall s, s ∈ l -> kindOf s = k.
Proof.
  unfold of_kind. induction l as [|s l IH]; [split; [set_solver|done]|].
  rewrite filter_cons. pose proof (length_filter (fun s => kindOf s = k) l) as Hle. case_decide as Hk; simpl.
  - rewrite Nat.succ_inj_wd, IH. set_solver.
  - split; [lia|]. intros H. destruct Hk. apply H. set_solver.
Qed.

(** A finding's code and how severe it is. *)
Definition kind_of (x : Finding) : string * Severity := (Code x, Sev x).

(** What [nameFindings] reports, each under the server's name. *)
Lemma nameFindings_codes name t :
  map kind_of (reported (nameFindings name t)) =
    (if (0 <? nt_reserved t)%nat then [("ns_reserved_address", SeverityFail)] else [])
    ++ (if (0 <? nt_lame t)%nat then [("ns_lame", SeverityFail)] else [])
    ++ (if (0 <? nt_silent t)%nat
        then [if (nt_silent t =? nt_total t)%nat then ("ns_no_answer", SeverityFail)
              else ("ns_partial_answer", SeverityWarn)] else [])
  /\ forall x, x ∈ reported (nameFindings name t) -> Host x = name.
Proof.
  unfold reported, nameFindings.
  destruct (0 <? nt_reserved t)%nat, (0 <? nt_lame t)%nat, (0 <? nt_silent t)%nat, (nt_silent t =? nt_total t)%nat.
  all: split; [reflexivity|]; simpl; intros x Hx; set_solver.
Qed.

(** Some finding of the rule is of this severity and code, and of this host. *)
Definition says {A} (r : Rule A) (sev : Severity) (code host : string) : Prop :=
  exists x, x ∈ reported r /\ kind_of x = (code, sev) /\ Host x = host.

(** Of the codes that judge a whole name, those of the name's own tally. *)
Lemma says_server servers sev code name :
  code ∉ heard_codes.*1 ->
  says (serverFindings servers) sev code name <->
  exists t, (server_groups servers).1 !! name = Some t /\
            (code, sev) ∈ map kind_of (reported (nameFindings name t)).
Proof.
  intros Hc. destruct (tallyServers_from (∅, []) servers) as (l & Hw & Hl).
  change (foldl _ _ servers) with (server_groups servers) in Hw.
  assert (Hr : reported (serverFindings servers) =
               l ++ concat (map (fun '(n, t) => reported (nameFindings n t)) (tallied (server_groups servers)))).
  { apply (writes_reported _ tt). unfold serverFindings. eapply writes_bind; [exact Hw|].
    apply writes_each. intros [n t] _. eapply emits_writes, emits_name. }
  unfold says. rewrite Hr. setoid_rewrite elem_of_app. setoid_rewrite list_elem_of_In. 
  setoid_rewrite in_concat. setoid_rewrite in_map_iff. split.
  - intros (x & [Hx|(y & ([n t] & <- & Hin) & Hx)] & E & <-); injection E as <- <-.
    + apply list_elem_of_In in Hx. destruct Hc.
      eapply Forall_forall in Hl; [|exact Hx]. by apply (list_elem_of_fmap_2 fst) in Hl.
    + apply list_elem_of_In in Hin, Hx. apply tallied_spec in Hin; [|apply group_keys].
      destruct (nameFindings_codes n t) as [_ Hh]. rewrite (Hh _ Hx). exists t. split; [done|].
      exists x. split; [done|]. by apply list_elem_of_In.
  - intros (t & Ht & x & E & Hx). exists x. split; [|split; [by unfold kind_of in *; congruence|]].
    + right. exists (reported (nameFindings name t)). split; [|done]. exists (name, t). split; [done|].
      apply list_elem_of_In, tallied_spec; [apply group_keys|done].
    + destruct (nameFindings_codes name t) as [_ Hh]. by apply Hh, list_elem_of_In.
Qed.

Lemma says_some {T} (t : T) (Q : T -> Prop) : (exists t', Some t = Some t' /\ Q t') <-> Q t.
Proof. split; [by intros (? & [= <-] & ?)|eauto]. Qed.

(** The same as conditions on the tally. *)
Lemma name_says name t :
  let codes := map kind_of (reported (nameFindings name t)) in
  (("ns_lame", SeverityFail) ∈ codes <-> (0 < nt_lame t)%nat) /\
  (("ns_reserved_address", SeverityFail) ∈ codes <-> (0 < nt_reserved t)%nat) /\
  (("ns_no_answer", SeverityFail) ∈ codes <-> (0 < nt_silent t)%nat /\ nt_silent t = nt_total t) /\
  (("ns_partial_answer", SeverityWarn) ∈ codes <-> (0 < nt_silent t)%nat /\ nt_silent t <> nt_total t).
Proof.
  cbv zeta. rewrite (proj1 (nameFindings_codes name t)).
  destruct (Nat.ltb_spec 0 (nt_reserved t)), (Nat.ltb_spec 0 (nt_lame t)), (Nat.ltb_spec 0 (nt_silent t)),
    (Nat.eqb_spec (nt_silent t) (nt_total t)); simpl; rewrite ?elem_of_cons, ?elem_of_nil.
  all: refine (conj _ (conj _ (conj _ _))); (split; [intros; destruct_or?; try discriminate; try done; lia|intros; destruct_and?; try lia; tauto]).
Qed.


(** ** A name with one silent and one lame address *)

Definition split_name : list NSServer :=
  [ mkNS "ns1.example." "192.0.2.1" false "" 0 false false false 0 "" "dig timed out";
    mkNS "ns1.example." "192.0.2.2" false "REFUSED" 0 false false false 0 "" "not authoritative (REFUSED)" ].

(** The warning for the silent address says that the others are
    authoritative, although no address of the name is. *)
Theorem partial_answer_not_authoritative :
  (forall s, s ∈ split_name -> ns_AA s = false) /\
  map Message (base.filter (fun x => Code x = "ns_partial_answer") (reported (serverFindings split_name))) =
    ["nameserver ns1.example.: no answer on 1 of 2 addresses, the others are authoritative"].
Proof. split; [unfold split_name; set_solver|by vm_compute]. Qed.
