(* ===== verification/WebFindings.v ===== *)
(** * Rules on the web: listeners, versions, certificates, redirects, HSTS (report.go) *)

From S2P Require Import Prelude GoStrings Netip Names Tcp Tls Http Versions Web Preload Report Findings NsFindings.

(** ** Listeners and versions *)

Definition listenerFindings (label : string) (a : AddrWeb) : Rule unit :=
  let open_ p := bool_decide (p = PortOpen) in
  let refused := match aw_HTTPRes a with Some r => probeRefused (ht_Status r) | None => false end in
  if bool_decide (aw_HTTP a = PortSkipped) && bool_decide (aw_HTTPS a = PortSkipped) then
    info "address_not_probed_reserved" label
      (label +:+ " " +:+ aw_IP a +:+ ": not probed (reserved address)")
  else if negb (open_ (aw_HTTP a)) && negb (open_ (aw_HTTPS a)) then
    warn "web_no_listener" label
      (label +:+ " " +:+ aw_IP a +:+ ": no listener on 80 or 443 (" +:+ port_text (aw_HTTP a) +:+ "/"
       +:+ port_text (aw_HTTPS a) +:+ ")")
  else if negb (open_ (aw_HTTPS a)) && refused then
    info "https_not_verified" label
      (label +:+ " " +:+ aw_IP a +:+ ": HTTP on 80 refused the probe (HTTP "
       +:+ Itoa (match aw_HTTPRes a with Some r => ht_Status r | None => 0 end)
       +:+ ") and HTTPS on 443 did not answer (" +:+ port_text (aw_HTTPS a) +:+ "), so neither was verified")
  else when (negb (open_ (aw_HTTPS a)))
    (warn "https_unreachable" label
       (label +:+ " " +:+ aw_IP a +:+ ": HTTP on 80 answers but HTTPS on 443 does not ("
        +:+ port_text (aw_HTTPS a) +:+ ")")).

Definition quicFindings (label : string) (l : list AddrWeb) : Rule unit :=
  when (anyQUIC l)
    (each (fun a =>
             when (bool_decide (quicSupported a = Some false))
               (info "quic_partial" label
                  (label +:+ " " +:+ aw_IP a
                   +:+ ": QUIC/h3 works on another probed address of this host but not here"))) l).

Definition httpVersionFindings (label : string) (l : list AddrWeb) : Rule unit :=
  let t := tallyVersions l in
  let h1 := t_h1 t in let h2 := t_h2 t in let h3 := t_h3 t in
  when ((vt_yes h1 =? 0)%nat && (0 <? vt_no h1)%nat)
    (info "http1_1_absent" label
       (label +:+ ": no address serves HTTP/1.1 over TLS (" +:+ itoa (vt_no h1) +:+ " refused it)"));;
  (if (vt_yes h2 =? 0)%nat && (0 <? vt_no h2)%nat then
     info "http2_absent" label (label +:+ ": no address negotiates HTTP/2 (h2)")
   else when ((0 <? vt_yes h2)%nat && (0 <? vt_no h2)%nat)
     (info "http2_partial" label
        (label +:+ ": HTTP/2 (h2) on " +:+ of_addresses (vt_yes h2) (vt_yes h2 + vt_no h2))));;
  when ((vt_yes h3 =? 0)%nat && (0 <? vt_no h3)%nat)
    (info "http3_absent" label (label +:+ ": no address serves HTTP/3"));;
  when (0 <? t_unreachable t)%nat
    (warn "h3_advertised_unreachable" label
       (label +:+ ": Alt-Svc advertises HTTP/3 but QUIC did not answer on " +:+ itoa (t_unreachable t)
        +:+ " of " +:+ itoa (t_advertised t) +:+ " advertising addresses")).

(** How one address counts for port 80: answered, or failed although 443 works. *)
Definition answered80 (a : AddrWeb) : bool :=
  match aw_HTTPRes a with Some r => (0 <? ht_Status r)%Z | None => false end.

Definition failed80 (a : AddrWeb) : bool := negb (answered80 a) && bool_decide (aw_HTTPS a = PortOpen).

Definition port80PartialFindings (label : string) (l : list AddrWeb) : Rule unit :=
  let probed := base.filter (fun a => aw_HTTP a <> PortSkipped) l in
  let failed := base.filter (fun a => failed80 a = true) probed in
  when (existsb answered80 probed && (0 <? length failed)%nat)
    (warn "http_port80_partial" label
       (label +:+ ": port 80 failed on " +:+ of_addresses (length failed) (length probed)
        +:+ " while the others answered: "
        +:+ Join (map (fun a => aw_IP a +:+ " " +:+ port80Failure a) failed) "; ")).

Definition webFindings (label : string) (h : option HostWeb) : Rule unit :=
  let l := addrs h in
  each (listenerFindings label) l;;
  quicFindings label l;;
  httpVersionFindings label l;;
  port80PartialFindings label l.

(** ** Certificates *)

Record chainTally := mkChainTally {
  ct_code : string; ct_chain : string; ct_detail : string; ct_count : nat;
}.

Definition nul : ascii := "000"%char.

(** What two addresses must share to be one finding. *)
Definition cause (t : TLSResult) : string :=
  tls_Chain t +:+ String nul (tls_Error t +:+ String nul (Join (tls_Problems t) ",")).

Definition new_cause (t : TLSResult) : chainTally :=
  mkChainTally ("cert_" +:+ tls_Chain t) (chainLabel t) (tls_Error t) 0.

Definition count_cause (_ : TLSResult) (t : chainTally) : chainTally :=
  mkChainTally (ct_code t) (ct_chain t) (ct_detail t) (S (ct_count t)).

Definition failing (l : list (AddrWeb * TLSResult)) : list TLSResult :=
  base.filter (fun t => tls_Chain t <> ChainValid) l.*2.

Definition chain_message (label : string) (chain : string) (count total : nat) (detail : string) : string :=
  label +:+ ": certificate " +:+ spaced chain +:+ " on " +:+ of_addresses count total +:+ ": " +:+ detail.

Definition chainFindings (label : string) (l : list (AddrWeb * TLSResult)) : Rule unit :=
  each (fun '(_, t) =>
          fail (ct_code t) label (chain_message label (ct_chain t) (ct_count t) (length l) (ct_detail t)))
       (tallied (group cause new_cause count_cause (failing l))).

Definition expiryWarnDays : Z := 30.

(** The days left to the certificates not expired already: -1 for none seen. *)
Definition soonestExpiry (l : list (AddrWeb * TLSResult)) : Z :=
  foldl (fun soonest '(_, t) =>
           match tls_Cert t with
           | Some c =>
               if String.eqb (tls_Chain t) ChainExpired then soonest
               else if (soonest <? 0)%Z || (ci_DaysRemaining c <? soonest)%Z then ci_DaysRemaining c
               else soonest
           | None => soonest
           end) (-1)%Z l.

Definition expiryFindings (label : string) (l : list (AddrWeb * TLSResult)) : Rule unit :=
  let soonest := soonestExpiry l in
  if (soonest <? 0)%Z || (expiryWarnDays <=? soonest)%Z then skip
  else if (soonest <? 7)%Z then
    warn "cert_expiry_urgent" label
      (label +:+ ": certificate expires in " +:+ Itoa soonest +:+ " days (urgent)")
  else info "cert_expiry_soon" label (label +:+ ": certificate expires in " +:+ Itoa soonest +:+ " days").

(** A valid certificate that does not cover the other name. *)
Definition uncovers (label : string) (t : TLSResult) : bool :=
  match tls_Cert t with
  | Some c =>
      String.eqb (tls_Chain t) ChainValid
      && negb (if String.eqb label "www" then ci_CoversApex c else ci_CoversWWW c)
  | None => false
  end.

Definition coverageFindings (label : string) (l : list (AddrWeb * TLSResult)) (sibling : option HostWeb)
    : Rule unit :=
  if (length (addrs sibling) =? 0)%nat || hasValidCert sibling then skip
  else when (existsb (fun '(_, t) => uncovers label t) l)
    (warn "cert_sibling_uncovered" label
       (label +:+ ": certificate does not cover "
        +:+ (if String.eqb label "www" then "the apex" else "www")
        +:+ ", which resolves but has no valid certificate")).

Definition versionFindings (label : string) (l : list (AddrWeb * TLSResult)) : Rule unit :=
  let shaken := base.filter (fun t => tls_Chain t <> ChainHandshakeFailed) l.*2 in
  let old10 := length (base.filter (fun t => isTrue (tls_TLS10 t) = true) shaken) in
  let old11 := length (base.filter (fun t => isTrue (tls_TLS11 t) = true) shaken) in
  let no13 := length (base.filter (fun t => tls_Version t <> "" /\ tls_Version t <> "TLS 1.3") shaken) in
  when (0 <? old10 + old11)%nat
    (info "tls_legacy_versions" label
       (label +:+ ": TLS 1.0/1.1 still accepted on " +:+ of_addresses (Nat.max old10 old11) (length shaken)));;
  when (0 <? no13)%nat
    (info "tls13_absent" label (label +:+ ": no TLS 1.3 on " +:+ of_addresses no13 (length shaken))).

Definition certConsistentOf (h : option HostWeb) : option bool := h ← h; hw_CertConsistent h.

Definition tlsFindings (label : string) (h sibling : option HostWeb) : Rule unit :=
  let l := withTLS (addrs h) in
  if (length l =? 0)%nat then skip
  else
    chainFindings label l;;
    expiryFindings label l;;
    coverageFindings label l sibling;;
    versionFindings label l;;
    when (bool_decide (certConsistentOf h = Some false) && certProfilesDiffer l)
      (warn "cert_mismatch_between_addresses" label
         (label +:+ ": addresses serve certificates that differ in validity or in the names they cover")).

(** ** Status codes and plain HTTP *)

Definition statusFindings (label port : string) (l : list AddrWeb) (pick : AddrWeb -> option HTTPResult)
    : Rule unit :=
  let t := tallyStatuses l pick in
  let total := st_total t in
  if (total =? 0)%nat then skip
  else if (st_server5xx t =? total)%nat then
    fail "http_server_error" label (label +:+ ": every address returns a server error on port " +:+ port)
  else if (0 <? st_server5xx t)%nat then
    warn "http_server_error_partial" label
      (label +:+ ": " +:+ of_addresses (st_server5xx t) total +:+ " return a server error on port " +:+ port)
  else if (length (st_refusals t) =? total)%nat then
    info "http_probe_refused" label
      (label +:+ ": every address refuses the probe on port " +:+ port +:+ " (HTTP "
       +:+ distinctStatuses (st_refusals t) +:+ "), so the content was not verified")
  else when (st_client4xx t + length (st_refusals t) =? total)%nat
    (warn "http_client_error" label (label +:+ ": every address returns a client error on port " +:+ port)).

Definition cleartextFindings (label : string) (l : list AddrWeb) (preloaded : bool) : Rule unit :=
  let t := tallyUpgrades l in
  let sev := if preloaded then SeverityInfo else SeverityWarn in
  let suffix := if preloaded then "_preloaded" else "" in
  when (0 <? ut_served t)%nat
    (add sev ("http_cleartext" +:+ suffix) label
       (label +:+ ": HTTP serves content in the clear instead of redirecting to HTTPS ("
        +:+ of_addresses (ut_served t) (ut_total t) +:+ ")"));;
  when (0 <? ut_elsewhere t)%nat
    (add sev ("http_redirect_insecure" +:+ suffix) label
       (label +:+ ": HTTP redirects to a non-HTTPS URL (" +:+ of_addresses (ut_elsewhere t) (ut_total t)
        +:+ ")"));;
  when (0 <? ut_temporary t)%nat
    (info "http_redirect_temporary" label
       (label +:+ ": the HTTP to HTTPS redirect is temporary (HTTP " +:+ distinctStatuses (ut_statuses t)
        +:+ ") on " +:+ of_addresses (ut_temporary t) (ut_total t)
        +:+ "; a permanent 301 or 308 is what browsers and caches remember")).

(** ** Redirect chains *)

(** The chains with their families, in order. *)
Definition chains_of (chains : gmap string RedirectChain) : list (string * RedirectChain) :=
  omap (fun fam => (fun c => (fam, c)) <$> chains !! fam) (sortedChainKeys chains).

(** A loop is returned, not reported. *)
Definition chainFinding (label fam : string) (c : RedirectChain) : Rule (option string) :=
  match last (rc_Hops c) with
  | None => mret None
  | Some h =>
      if rc_Loop c || bool_decide (rc_Ended c = RedirectLoop) then
        mret (Some (describeHops (rc_Hops c) +:+ loopTarget (rc_Hops c)))
      else
        (if bool_decide (rc_Ended c = RedirectHopLimit) then
           warn "redirect_hop_limit" label
             (label +:+ " (" +:+ fam +:+ "): still redirecting after " +:+ itoa (length (rc_Hops c))
              +:+ " hops, so the destination is unknown: " +:+ describeHops (rc_Hops c))
         else if negb (String.eqb (rc_Error c) "") then
           warn "redirect_broken" label
             (label +:+ " (" +:+ fam +:+ "): redirect chain broke: " +:+ rc_Error c)
         else if probeRefused (hop_Status h) then
           info "http_probe_refused" label
             (label +:+ " (" +:+ fam +:+ "): redirect chain ends in HTTP " +:+ Itoa (hop_Status h) +:+ " at "
              +:+ rc_FinalURL c +:+ ": the server refused the probe, so the destination was not verified")
         else when (400 <=? hop_Status h)%Z
           (warn "redirect_ends_error" label
              (label +:+ " (" +:+ fam +:+ "): redirect chain ends in HTTP " +:+ Itoa (hop_Status h) +:+ " at "
               +:+ rc_FinalURL c)));;
        mret None
  end.

(** Families by what they share: [(what, family)] pairs grouped on [what]. *)
Definition by_family : list (string * string) -> grouped (list string) :=
  group fst (fun _ => []) (fun p fams => fams ++ [p.2]).

Definition add_loop (label : string) (st : grouped (list string)) (fc : string * RedirectChain)
    : Rule (grouped (list string)) :=
  d ← chainFinding label fc.1 fc.2;
  mret match d with
       | Some d => touch fst (fun _ => []) (fun p fams => fams ++ [p.2]) st (d, fc.1)
       | None => st
       end.

Section Http.
Context `{L : UrlLib}.

Definition downgradeFindings (label : string) (chains : gmap string RedirectChain) : Rule unit :=
  let hops := omap (fun '(fam, c) =>
                      let hop := downgradeHop (rc_Hops c) in
                      if String.eqb hop "" then None else Some (hop, fam)) (chains_of chains) in
  each (fun '(hop, fams) =>
          warn "redirect_downgrade" label
            (label +:+ " (" +:+ Join fams ", " +:+ "): redirect from https to http: " +:+ hop))
       (tallied (by_family hops)).

Definition redirectFindings (label : string) (chains : gmap string RedirectChain) : Rule unit :=
  loops ← each_with (add_loop label) (∅, []) (chains_of chains);
  downgradeFindings label chains;;
  each (fun '(d, fams) =>
          fail "redirect_loop" label
            (label +:+ " (" +:+ Join fams ", " +:+ "): redirect loop " +:+ d))
       (tallied loops).

(** ** HSTS *)

Definition hstsMinAge : Z := 15552000.

Definition shortestAge (l : list AddrWeb) : Z :=
  foldl (fun shortest h =>
           if (shortest <? 0)%Z || (hs_MaxAge h <? shortest)%Z then hs_MaxAge h else shortest)
    (-1)%Z (omap (fun a => r ← aw_HTTPSRes a; ht_HSTS r) l).

Definition hstsFindings (label : string) (l : list AddrWeb) : Rule unit :=
  let shortest := shortestAge l in
  when ((0 <=? shortest)%Z && (shortest <? hstsMinAge)%Z)
    (info "hsts_short_max_age" label
       (label +:+ ": HSTS max-age " +:+ Itoa shortest +:+ " is under 180 days")).

Definition httpFindings (label : string) (h : option HostWeb) (preloaded : bool) : Rule unit :=
  match h with
  | None => skip
  | Some host =>
      let l := addrs h in
      statusFindings label "80" l aw_HTTPRes;;
      statusFindings label "443" l aw_HTTPSRes;;
      cleartextFindings label l preloaded;;
      redirectFindings label (hw_Redirects host);;
      hstsFindings label l
  end.

Context `{D : Dpdomain}.

Definition consistencyFindings (rep : Report) : Rule unit :=
  each (fun g =>
          let tally := answerTally (g_obs g) in
          when (1 <? length tally)%nat
            (warn "http_response_inconsistent" (g_host g)
               (g_host g +:+ ": " +:+ g_url g +:+ " answered differently within one run: "
                +:+ Join tally "; "));;
          let '(self, probes) := selfRedirects (g_obs g) in
          when (0 <? length self)%nat
            (fail "redirect_self" (g_host g)
               (g_host g +:+ ": " +:+ g_url g +:+ " redirects to itself on " +:+ describeSources self probes)))
       (collectWebObservations (rp_Domain rep) (rp_Web rep)).

End Http.

(** ** The preload list *)

Definition preloadedFindings (rep : Report) (h : option HSTS) : Rule unit :=
  if negb (headerRequired (rp_HSTSPreloadPolicy rep)) || negb (String.eqb (rp_HSTSPreloadCoveredBy rep) "")
  then skip
  else match h with
       | None =>
           match firstHTTPSResponse (web_Apex (rp_Web rep)) with
           | None => skip
           | Some first =>
               warn "hsts_preload_header_missing" "apex"
                 ("domain is on the HSTS preload list but serves no HSTS header on this response ("
                  +:+ responseScope (rp_Domain rep) first +:+ ")")
           end
       | Some _ =>
           when (negb (meetsPreload h))
             (warn "hsts_preload_header_weak" "apex"
                "domain is on the HSTS preload list but the served header does not meet the preload requirements (max-age >= 1 year, includeSubDomains, preload)")
       end.

Definition preloadFindings (rep : Report) : Rule unit :=
  let h := servedHSTS (web_Apex (rp_Web rep)) in
  match rp_HSTSPreload rep with
  | PreloadPreloaded => preloadedFindings rep h
  | PreloadAbsent =>
      when ((match h with Some h => hs_Preload h | None => false end) && negb (meetsPreload h))
        (info "hsts_preload_directive_unmet" "apex"
           "HSTS header carries the preload directive but does not meet the preload requirements (max-age >= 1 year, includeSubDomains)")
  | PreloadUnknown =>
      info "hsts_preload_unknown" "" ("HSTS preload list could not be consulted: " +:+ rp_HSTSPreloadError rep)
  | _ => skip
  end.

(** ** Codes *)

Definition web_codes : table :=
  [("address_not_probed_reserved", SeverityInfo); ("web_no_listener", SeverityWarn);
   ("https_not_verified", SeverityInfo); ("https_unreachable", SeverityWarn); ("quic_partial", SeverityInfo);
   ("http1_1_absent", SeverityInfo); ("http2_absent", SeverityInfo); ("http2_partial", SeverityInfo);
   ("http3_absent", SeverityInfo); ("h3_advertised_unreachable", SeverityWarn);
   ("http_port80_partial", SeverityWarn)].

(** Every verdict on a chain but [valid]. *)
Definition chain_failures : list string :=
  [ChainExpired; ChainNotYetValid; ChainHostnameMismatch; ChainSelfSigned; ChainIncomplete;
   ChainUntrustedRoot; ChainInvalid; ChainHandshakeFailed].

Definition chain_codes (chains : list string) : table := map (fun c => ("cert_" +:+ c, SeverityFail)) chains.

Definition cert_codes : table :=
  [("cert_expiry_urgent", SeverityWarn); ("cert_expiry_soon", SeverityInfo);
   ("cert_sibling_uncovered", SeverityWarn); ("tls_legacy_versions", SeverityInfo);
   ("tls13_absent", SeverityInfo); ("cert_mismatch_between_addresses", SeverityWarn)].

(** The chain verdicts of a host's failing addresses. *)
Definition host_chains (h : option HostWeb) : list string := map tls_Chain (failing (withTLS (addrs h))).

Definition http_codes : table :=
  [("http_server_error", SeverityFail); ("http_server_error_partial", SeverityWarn);
   ("http_probe_refused", SeverityInfo); ("http_client_error", SeverityWarn); ("http_cleartext", SeverityWarn);
   ("http_cleartext_preloaded", SeverityInfo); ("http_redirect_insecure", SeverityWarn);
   ("http_redirect_insecure_preloaded", SeverityInfo); ("http_redirect_temporary", SeverityInfo);
   ("redirect_hop_limit", SeverityWarn); ("redirect_broken", SeverityWarn); ("redirect_ends_error", SeverityWarn);
   ("redirect_downgrade", SeverityWarn); ("redirect_loop", SeverityFail); ("hsts_short_max_age", SeverityInfo);
   ("http_response_inconsistent", SeverityWarn); ("redirect_self", SeverityFail)].

Definition preload_codes : table :=
  [("hsts_preload_header_missing", SeverityWarn); ("hsts_preload_header_weak", SeverityWarn);
   ("hsts_preload_directive_unmet", SeverityInfo); ("hsts_preload_unknown", SeverityInfo)].

Lemma emits_web label h : emits web_codes (webFindings label h).
Proof.
  unfold webFindings, listenerFindings, quicFindings, httpVersionFindings, port80PartialFindings. emits_tac.
Qed.

Lemma emits_preload rep : emits preload_codes (preloadFindings rep).
Proof. unfold preloadFindings, preloadedFindings. emits_tac. Qed.

Lemma emits_http `{L : UrlLib} label h preloaded : emits http_codes (httpFindings label h preloaded).
Proof.
  unfold httpFindings, statusFindings, cleartextFindings, redirectFindings, downgradeFindings, add_loop,
    chainFinding, hstsFindings.
  destruct preloaded; emits_tac.
Qed.

Lemma emits_consistency `{L : UrlLib} `{D : Dpdomain} rep : emits http_codes (consistencyFindings rep).
Proof. unfold consistencyFindings. emits_tac. Qed.

(** Counting keeps the code of the address met first. *)
Lemma count_cause_fields l t0 :
  ct_code (foldl (fun t x => count_cause x t) t0 l) = ct_code t0 /\
  ct_chain (foldl (fun t x => count_cause x t) t0 l) = ct_chain t0 /\
  ct_detail (foldl (fun t x => count_cause x t) t0 l) = ct_detail t0 /\
  ct_count (foldl (fun t x => count_cause x t) t0 l) = (ct_count t0 + length l)%nat.
Proof.
  revert t0. induction l as [|x l IH]; intros t0; simpl; [split_and!; lia || done|].
  destruct (IH (count_cause x t0)) as (-> & -> & -> & ->). simpl. split_and!; lia || done.
Qed.

Lemma emits_chain label l : emits (chain_codes (map tls_Chain (failing l))) (chainFindings label l).
Proof.
  unfold chainFindings. apply emits_each. intros [k t] Hin.
  apply tallied_elem in Hin as (x0 & rest & Hf & ->). apply emits_add.
  destruct (count_cause_fields (x0 :: rest) (new_cause x0)) as (-> & _).
  assert (Hx : x0 ∈ x0 :: rest) by set_solver. rewrite <-Hf in Hx. apply list_elem_of_filter in Hx as [_ Hx].
  unfold chain_codes. apply (list_elem_of_fmap_2 (fun c => ("cert_" +:+ c, SeverityFail))).
  by apply list_elem_of_fmap_2.
Qed.

Lemma emits_tls label h sibling : emits (chain_codes (host_chains h) ++ cert_codes) (tlsFindings label h sibling).
Proof.
  unfold tlsFindings. destruct (_ =? _)%nat; [apply emits_skip|].
  apply emits_bind.
  - eapply emits_mono; [|apply emits_chain]. set_solver.
  - intros _. apply (emits_mono cert_codes); [set_solver|].
    unfold expiryFindings, coverageFindings, versionFindings. emits_tac.
Qed.

#[export] Hint Resolve emits_web emits_preload emits_http emits_consistency emits_tls : emits.

(** Every verdict of the TLS probe is among them. *)
Lemma probeTLS_chain_known verifyChain VerifyHostname rfc3339 sha256hex fetchIssuer hs now later host apex www :
  tls_Chain (probeTLS verifyChain VerifyHostname rfc3339 sha256hex fetchIssuer hs now later host apex www).2
    ∈ ChainValid :: chain_failures.
Proof.
  unfold probeTLS, classifyChain, classifyVerifyError. repeat (case_match; simplify_eq/=).
  all: by apply (bool_decide_eq_true_1 _); vm_compute.
Qed.

(** ** One finding per cause *)

Lemma concat_map_single {A B} (f : A -> B) l : concat (map (fun x => [f x]) l) = map f l.
Proof. induction l as [|x l IH]; simpl; congruence. Qed.

Lemma map_omap {A B C} (f : B -> C) (g : A -> option B) l : map f (omap g l) = omap (fun x => f <$> g x) l.
Proof.
  induction l as [|x l IH]; [done|]. cbn [omap list_omap]. destruct (g x); cbn; [f_equal|]; exact IH.
Qed.

Definition chain_finding (label : string) (total : nat) (p : string * chainTally) : Finding :=
  mkFinding (ct_code p.2) SeverityFail label
    (chain_message label (ct_chain p.2) (ct_count p.2) total (ct_detail p.2)).

Lemma chainFindings_writes label l :
  writes (chainFindings label l) tt
    (map (chain_finding label (length l)) (tallied (group cause new_cause count_cause (failing l)))).
Proof. rewrite <-concat_map_single. apply writes_each. intros [k t] _. apply writes_add. Qed.

(** A failing address makes a failure. *)
Lemma chainFindings_fail label l t :
  t ∈ failing l -> exists x, x ∈ reported (chainFindings label l) /\ Sev x = SeverityFail.
Proof.
  intros Ht. rewrite (writes_reported _ _ _ (chainFindings_writes label l)).
  destruct (group_order cause new_cause count_cause (failing l)) as [_ Hm].
  assert (Hin : t ∈ base.filter (fun u => cause u = cause t) (failing l)) by by apply list_elem_of_filter.
  specialize (Hm (cause t)). destruct (base.filter _ (failing l)) as [|t0 rest]; [set_solver|].
  eexists. split; [apply list_elem_of_fmap_2, tallied_spec; [apply group_keys|exact Hm]|done].
Qed.

(** C30: The chain problems of a host are reported once per cause (the
    verdict, its detail and the list of defects), as failures in the order
    the causes were met, each with the number of addresses it affected out
    of those that spoke TLS. *)
Theorem chainFindings_per_cause (label : string) (l : list (AddrWeb * TLSResult)) :
  let same k := base.filter (fun t => cause t = k) (failing l) in
  reported (chainFindings label l) =
  omap (fun k =>
          match same k with
          | [] => None
          | t :: _ =>
              Some (mkFinding ("cert_" +:+ tls_Chain t) SeverityFail label
                      (chain_message label (chainLabel t) (length (same k)) (length l) (tls_Error t)))
          end)
       (dedupe_from [] (map cause (failing l))).
Proof.
  cbv zeta. pose proof (chainFindings_writes label l) as Hw.
  rewrite tallied_group, map_omap in Hw. rewrite (writes_reported _ _ _ Hw).
  apply list_omap_ext, Forall_Forall2_diag, Forall_forall. intros k _. simpl.
  destruct (base.filter _ (failing l)) as [|t rest]; [done|]. unfold tally_of, chain_finding. simpl.
  destruct (count_cause_fields rest (count_cause t (new_cause t))) as (-> & -> & -> & ->). done.
Qed.
