(* ===== verification/MailFindings.v ===== *)
(** * Rules on mail, CAA and TLSA (report.go) *)

From S2P Require Import Prelude GoStrings Records Dnssec Caa Tlsa Spf Mail Report Findings.

Definition dmarcFindings (d : DMARC) : Rule unit :=
  let rest :=
    when (dm_Pct d <? 100)%Z
      (info "dmarc_partial_pct" ""
         ("DMARC applies to only " +:+ Itoa (dm_Pct d) +:+ "% of mail (pct=" +:+ Itoa (dm_Pct d) +:+ ")"));;
    each (fun p => let '(code, sev) := dmarcProblemClass p in add sev code "" ("DMARC: " +:+ p)) (dm_Problems d)
  in
  if dm_Unresolved d then
    warn "dmarc_unknown" "" "the DMARC lookup did not complete, so whether a record exists is unknown";; rest
  else if negb (dm_Present d) then warn "dmarc_absent" "" "no DMARC record"
  else if String.eqb (dm_Policy d) "none" then
    info "dmarc_policy_none" "" "DMARC policy is p=none (monitor only)";; rest
  else rest.

Definition spfFindings (s : SPFResult) : Rule unit :=
  each (fun p => let '(code, sev) := spfProblemClass p in add sev code "" ("SPF: " +:+ p)) (spf_Problems s).

Definition mxFindings (mxs : list MXCheck) : Rule unit :=
  each (fun mx =>
          each (fun p =>
                  if mx_Unresolved mx && String.eqb p mxUnresolvedProblem then
                    warn "mx_target_unresolved" (mx_Host mx) ("MX " +:+ mx_Host mx +:+ ": " +:+ p)
                  else fail (mxProblemCode p) (mx_Host mx) ("MX " +:+ mx_Host mx +:+ ": " +:+ p))
               (mx_Problems mx)) mxs.

Definition dkimKeyFindings (d : DKIMResult) : Rule unit :=
  each (fun k =>
          if negb (String.eqb (k_Error k) "") then
            warn "dkim_key_invalid" "" ("DKIM selector " +:+ k_Selector k +:+ ": " +:+ k_Error k)
          else if String.eqb (k_Type k) "rsa" && (k_Bits k <? 1024)%Z then
            fail "dkim_key_too_short" ""
              ("DKIM selector " +:+ k_Selector k +:+ ": RSA key of " +:+ Itoa (k_Bits k)
               +:+ " bits, which verifiers reject (RFC 8301 §3.2)")
          else when (String.eqb (k_Type k) "rsa" && (k_Bits k <? 2048)%Z)
            (info "dkim_key_weak" ""
               ("DKIM selector " +:+ k_Selector k +:+ ": RSA key of " +:+ Itoa (k_Bits k)
                +:+ " bits, under the 2048 RFC 8301 recommends"))) (dk_Keys d);;
  each (fun sel => info "dkim_selector_dangling" ""
                     ("DKIM selector " +:+ sel +:+ " is a CNAME to a name that does not exist")) (dk_Dangling d).

Definition mtaSTSFindings (m : option MTASTS) : Rule unit :=
  match m with
  | None => skip
  | Some m =>
      if negb (sts_Record m) then skip
      else
        let enforce := String.eqb (sts_Mode m) "enforce" in
        let sev := if enforce then SeverityFail else SeverityWarn in
        let prefix := if enforce then "mta_sts_enforce_" else "mta_sts_" in
        if negb (String.eqb (sts_Error m) "") then
          add sev (prefix +:+ "failed") "" ("MTA-STS: " +:+ sts_Error m)
        else when (negb (sts_MXCovered m) && negb (String.eqb (sts_Mode m) "none"))
          (add sev (prefix +:+ "mx_uncovered") "" "MTA-STS policy mx patterns do not cover every MX host")
  end.

Definition mailAbsenceFindings (m : MailReport) : Rule unit :=
  when (ml_mtaSTSAbsent m) (info "mta_sts_absent" "" "no MTA-STS record (_mta-sts)");;
  when (ml_tlsRPTAbsent m) (info "tls_rpt_absent" "" "no TLS-RPT record (_smtp._tls)").

Definition mailFindings (m : option MailReport) (zoneBroken : bool) : Rule unit :=
  match m with
  | None => skip
  | Some m =>
      when (negb (zoneBroken && dm_Unresolved (ml_DMARC m))) (dmarcFindings (ml_DMARC m));;
      spfFindings (ml_SPF m);;
      mxFindings (ml_MX m);;
      when (dk_Wildcard (ml_DKIM m))
        (warn "dkim_wildcard" ""
           "the zone answers every _domainkey selector (wildcard), so no selector could be verified");;
      dkimKeyFindings (ml_DKIM m);;
      each (fun sel => warn "dkim_selector_revoked" ""
                         ("DKIM selector " +:+ sel +:+ " publishes a revoked (empty) key"))
        (dk_Revoked (ml_DKIM m));;
      mtaSTSFindings (ml_MTASTS m);;
      mailAbsenceFindings m
  end.

Definition caaFindings (c : option CAAReport) : Rule unit :=
  match c with
  | None => skip
  | Some c =>
      when (caa_absent c)
        (info "caa_absent" "" "no CAA records: any certificate authority may issue for the domain");;
      each (fun label =>
              match caa_Hosts c !! label with
              | Some v =>
                  when (bool_decide (v_Permitted v = Some false))
                    (fail "caa_issuer_denied" label
                       (label +:+ ": CAA records do not permit the certificate issuer " +:+ Quote (v_Issuer v)))
              | None => skip
              end) ["apex"; "www"]
  end.

Definition tlsaFindings (t : option TLSAReport) : Rule unit :=
  match t with
  | None => skip
  | Some t =>
      if bool_decide (ts_Result t = TLSANone) || bool_decide (ts_Result t = TLSAUnknown) then skip
      else
        when (negb (ts_Signed t))
          (info "tlsa_unsigned_zone" ""
             "TLSA records are published in an unsigned zone (DANE clients ignore them)");;
        when (bool_decide (ts_Result t = TLSAMismatch))
          (fail "tlsa_mismatch" "" "no TLSA record matches the certificate served (DANE validation fails)")
  end.

(** ** Codes *)

Definition spf_codes : table :=
  map (fun c => (cl_code c, cl_sev c)) spfClasses ++ [("spf_invalid", SeverityFail); ("spf_problem", SeverityWarn)].

Definition mx_codes : table :=
  map (fun c => (c, SeverityFail))
    ["mx_null_mixed"; "mx_target_invalid"; "mx_target_ip_literal"; "mx_target_cname"; "mx_target_nxdomain";
     "mx_target_no_address"; "mx_invalid"] ++ [("mx_target_unresolved", SeverityWarn)].

Definition mail_codes : table :=
  spf_codes ++ mx_codes ++
  [("dmarc_unknown", SeverityWarn); ("dmarc_absent", SeverityWarn); ("dmarc_policy_none", SeverityInfo);
   ("dmarc_partial_pct", SeverityInfo); ("dmarc_multiple", SeverityFail); ("dmarc_policy_missing", SeverityFail);
   ("dmarc_policy_unknown", SeverityFail); ("dmarc_subdomain_policy_unknown", SeverityWarn);
   ("dmarc_pct_invalid", SeverityWarn); ("dmarc_invalid", SeverityFail);
   ("dkim_key_invalid", SeverityWarn); ("dkim_key_too_short", SeverityFail); ("dkim_key_weak", SeverityInfo);
   ("dkim_selector_dangling", SeverityInfo); ("dkim_wildcard", SeverityWarn); ("dkim_selector_revoked", SeverityWarn);
   ("mta_sts_failed", SeverityWarn); ("mta_sts_enforce_failed", SeverityFail); ("mta_sts_mx_uncovered", SeverityWarn);
   ("mta_sts_enforce_mx_uncovered", SeverityFail); ("mta_sts_absent", SeverityInfo);
   ("tls_rpt_absent", SeverityInfo)].

Definition caa_codes : table := [("caa_absent", SeverityInfo); ("caa_issuer_denied", SeverityFail)].
Definition tlsa_codes : table := [("tlsa_unsigned_zone", SeverityInfo); ("tlsa_mismatch", SeverityFail)].

Lemma spfProblemClass_known p : spfProblemClass p ∈ spf_codes.
Proof.
  unfold spfProblemClass, spf_codes. rewrite elem_of_app.
  destruct (head _) as [c|] eqn:E.
  - left. apply (list_elem_of_fmap_2 (fun c => (cl_code c, cl_sev c))).
    assert (Hc : c ∈ base.filter (fun c => class_matches p c = true) spfClasses).
    { destruct (base.filter _ spfClasses); [done|]. injection E as ->. set_solver. }
    by apply list_elem_of_filter in Hc as [].
  - right. destruct (Contains _ _); set_solver.
Qed.

Lemma mxProblemCode_known p : (mxProblemCode p, SeverityFail) ∈ mx_codes.
Proof. unfold mxProblemCode. repeat case_match; by apply (bool_decide_eq_true_1 _); vm_compute. Qed.

Lemma dmarcProblemClass_known p : dmarcProblemClass p ∈ mail_codes.
Proof. unfold dmarcProblemClass. repeat case_match; by apply (bool_decide_eq_true_1 _); vm_compute. Qed.

Lemma emits_spf s : emits mail_codes (spfFindings s).
Proof.
  unfold spfFindings. apply emits_each. intros p _. pose proof (spfProblemClass_known p) as H.
  destruct (spfProblemClass p). apply emits_add. unfold mail_codes. rewrite !elem_of_app. by left.
Qed.

Lemma emits_mx mxs : emits mail_codes (mxFindings mxs).
Proof.
  unfold mxFindings. emits_tac. unfold mail_codes. rewrite !elem_of_app. right; left. apply mxProblemCode_known.
Qed.

Lemma emits_dmarc d : emits mail_codes (dmarcFindings d).
Proof.
  unfold dmarcFindings. emits_tac.
  all: match goal with E : dmarcProblemClass ?p = _ |- _ => rewrite <-E; apply dmarcProblemClass_known end.
Qed.

Lemma emits_mtaSTS m : emits mail_codes (mtaSTSFindings m).
Proof.
  unfold mtaSTSFindings. destruct m as [m|]; [|apply emits_skip].
  destruct (negb (sts_Record m)); [apply emits_skip|]. destruct (String.eqb (sts_Mode m) "enforce"); emits_tac.
Qed.

Lemma emits_mail m broken : emits mail_codes (mailFindings m broken).
Proof.
  unfold mailFindings, dkimKeyFindings, mailAbsenceFindings. 
  emits_tac; auto using emits_dmarc, emits_spf, emits_mx, emits_mtaSTS.
Qed.

Lemma emits_caa c : emits caa_codes (caaFindings c).
Proof. unfold caaFindings. emits_tac. Qed.

Lemma emits_tlsa t : emits tlsa_codes (tlsaFindings t).
Proof. unfold tlsaFindings. emits_tac. Qed.

#[export] Hint Resolve emits_mail emits_caa emits_tlsa : emits.
