(* ===== verification/Judge.v ===== *)
(** * The judgement: buildFindings, and what it means (report.go) *)

From S2P Require Import Prelude GoStrings Netip Names Records Trace Dnssec Wildcard Caa Tlsa Spf Mail Tcp Tls.
From S2P Require Import Http Versions Web NsAudit Rdap Preload Report Findings ZoneFindings NsFindings WebFindings MailFindings.

Definition reservedFindings (rep : Report) : Rule unit :=
  each (fun r => fail "reserved_address" "" ("reserved address published in DNS: " +:+ r))
    (rp_ReservedAddresses rep).

Section Judge.
Context `{L : UrlLib} `{D : Dpdomain} `{P : Psl}.

Definition wildcardFindings (rep : Report) : Rule unit :=
  when (match rp_Wildcard rep with Some w => w_WWWViaWildcard w | None => false end
        && registrableDomain (rp_Domain rep))
    (info "www_wildcard" "www" "www is answered by a wildcard record, not a real host").

Definition deepFindings (rep : Report) : Rule unit :=
  let apex := web_Apex (rp_Web rep) in
  let www := web_WWW (rp_Web rep) in
  let '(apexPreloaded, wwwPreloaded) := preloadCovers rep in
  reservedFindings rep;;
  wildcardFindings rep;;
  tlsFindings "apex" apex www;;
  tlsFindings "www" www apex;;
  httpFindings "apex" apex apexPreloaded;;
  httpFindings "www" www wwwPreloaded;;
  consistencyFindings rep;;
  mailFindings (rp_Mail rep) (zoneValidationBroken rep);;
  nsFindings (rp_Nameservers rep);;
  caaFindings (rp_CAA rep);;
  tlsaFindings (rp_TLSA rep);;
  preloadFindings rep.

(** The three ways a report is judged: a dead zone, a reserved name, and
    every other. *)
Definition deadZone (rep : Report) : Rule unit :=
  reachabilityFindings (dns_ResolverReachable (rp_DNS rep));;
  deadlineFindings rep;;
  fail "zone_unreachable" ""
    ("no delegated nameserver answers for the zone: "
     +:+ match rp_Nameservers rep with Some n => describeSilentServers n | None => "" end);;
  rdapFindings (rp_RDAP rep).

Definition reservedZone (rep : Report) : Rule unit :=
  reachabilityFindings (dns_ResolverReachable (rp_DNS rep));;
  deadlineFindings rep;;
  warn "reserved_name" ""
    (rp_Domain rep +:+ " is reserved by " +:+ rp_ReservedName rep
     +:+ " and is not served by the global DNS: delegation and DNSSEC checks do not apply").

Definition ordinaryZone (rep : Report) : Rule unit :=
  dnsFindings rep;;
  rdapFindings (rp_RDAP rep);;
  dnssecFindings rep;;
  delegationFindings rep;;
  reachabilityFindings (dns_ResolverReachable (rp_DNS rep));;
  deadlineFindings rep;;
  webFindings "apex" (web_Apex (rp_Web rep));;
  webFindings "www" (web_WWW (rp_Web rep));;
  deepFindings rep.

Definition judge (rep : Report) : Rule unit :=
  if zoneUnreachable rep then deadZone rep
  else if negb (String.eqb (rp_ReservedName rep) "") then reservedZone rep
  else ordinaryZone rep.

Definition finish (f : findings) (rep : Report) : Report :=
  with_findings rep (f_errors f) (f_warnings f) (f_list f) (length (f_errors f) =? 0)%nat.

Definition buildFindings (rep : Report) : Report := finish (judge rep no_findings).2 rep.

(** ** Codes *)

Definition web_chains (rep : Report) : list string :=
  host_chains (web_Apex (rp_Web rep)) ++ host_chains (web_WWW (rp_Web rep)).

Definition other_codes : table :=
  run_codes ++ rdap_codes ++ dnssec_codes ++ web_codes ++ cert_codes ++ http_codes
  ++ preload_codes ++ mail_codes ++ ns_codes ++ caa_codes ++ tlsa_codes
  ++ [("reserved_address", SeverityFail); ("www_wildcard", SeverityInfo)].

Definition dead_codes : table := [("zone_unreachable", SeverityFail)].
Definition reserved_codes : table := [("reserved_name", SeverityWarn)].

Definition fixed_codes : table :=
  absent_codes ++ record_codes ++ delegation_codes ++ dead_codes ++ reserved_codes ++ other_codes.

Definition report_codes (rep : Report) : table := chain_codes (web_chains rep) ++ fixed_codes.

Lemma emits_reserved rep : emits other_codes (reservedFindings rep).
Proof. unfold reservedFindings. emits_tac. Qed.

Lemma emits_wildcard rep : emits other_codes (wildcardFindings rep).
Proof. unfold wildcardFindings. emits_tac. Qed.

Lemma sub_l (t a b : table) : t ⊆ a -> t ⊆ a ++ b.
Proof. set_solver. Qed.
Lemma sub_r (t a b : table) : t ⊆ b -> t ⊆ a ++ b.
Proof. set_solver. Qed.
Lemma app_sub (t a b : table) : a ⊆ t -> b ⊆ t -> a ++ b ⊆ t.
Proof. set_solver. Qed.

Lemma sub_apex rep : chain_codes (host_chains (web_Apex (rp_Web rep))) ⊆ chain_codes (web_chains rep).
Proof. unfold chain_codes, web_chains. rewrite map_app. set_solver. Qed.
Lemma sub_www rep : chain_codes (host_chains (web_WWW (rp_Web rep))) ⊆ chain_codes (web_chains rep).
Proof. unfold chain_codes, web_chains. rewrite map_app. set_solver. Qed.

(** Inclusion of tables, by the names of their parts. *)
Ltac sub :=
  lazymatch goal with
  | |- ?t ⊆ ?t => reflexivity
  | |- chain_codes (host_chains (web_Apex _)) ⊆ chain_codes _ => apply sub_apex
  | |- chain_codes (host_chains (web_WWW _)) ⊆ chain_codes _ => apply sub_www
  | |- ?a ++ ?b ⊆ _ => apply app_sub; sub
  | |- ?t ⊆ ?a ++ ?b => first [apply sub_l; sub | apply sub_r; sub]
  | |- ?t ⊆ other_codes => unfold other_codes; sub
  | |- ?t ⊆ fixed_codes => unfold fixed_codes; sub
  end.

Ltac widen := eapply emits_mono; [|solve [auto with emits]]; sub.

#[local] Hint Resolve emits_reserved emits_wildcard : emits.

Lemma emits_deep rep : emits (chain_codes (web_chains rep) ++ other_codes) (deepFindings rep).
Proof.
  unfold deepFindings. destruct (preloadCovers rep) as [pa pw].
  repeat (apply emits_bind; [widen|intros _]). widen.
Qed.

#[local] Hint Resolve emits_deep : emits.

Lemma emits_gate_dead rep : emits (run_codes ++ rdap_codes ++ dead_codes) (deadZone rep).
Proof. unfold deadZone. repeat (apply emits_bind; [first [widen | apply emits_add; in_table]|intros _]). widen. Qed.

Lemma emits_gate_reserved rep : emits (run_codes ++ reserved_codes) (reservedZone rep).
Proof. unfold reservedZone. repeat (apply emits_bind; [widen|intros _]). apply emits_add; in_table. Qed.

Lemma emits_ordinary rep :
  emits (chain_codes (web_chains rep) ++ absent_codes ++ record_codes ++ delegation_codes ++ other_codes)
    (ordinaryZone rep).
Proof. unfold ordinaryZone. repeat (apply emits_bind; [widen|intros _]). widen. Qed.

#[local] Hint Resolve emits_gate_dead emits_gate_reserved emits_ordinary : emits.

Lemma emits_judge rep : emits (report_codes rep) (judge rep).
Proof.
  unfold judge, report_codes. destruct (zoneUnreachable rep); [widen|].
  destruct (negb _); widen.
Qed.

Lemma buildFindings_run rep :
  judge rep no_findings =
    (tt, mkFindings (messages SeverityFail (reported (judge rep)))
           (messages SeverityWarn (reported (judge rep))) (reported (judge rep))).
Proof. apply (emits_writes _ _ (emits_judge rep) no_findings). Qed.

Lemma buildFindings_list rep : rp_Findings (buildFindings rep) = reported (judge rep).
Proof. unfold buildFindings. by rewrite buildFindings_run. Qed.

Lemma messages_nil sev l : messages sev l = [] <-> forall x, x ∈ l -> Sev x <> sev.
Proof.
  unfold messages. split.
  - intros H x Hx Hs. apply fmap_nil_inv in H.
    assert (Hf : x ∈ base.filter (fun x => Sev x = sev) l) by by apply list_elem_of_filter.
    rewrite H in Hf. set_solver.
  - intros H. induction l as [|x l IH]; [done|].
    rewrite filter_cons_False by (apply H; set_solver). apply IH. set_solver.
Qed.

Lemma ok_no_fail rep :
  rp_OK (buildFindings rep) = true <-> forall x, x ∈ reported (judge rep) -> Sev x <> SeverityFail.
Proof.
  unfold buildFindings. rewrite buildFindings_run. cbn [finish with_findings rp_OK f_errors snd].
  rewrite Nat.eqb_eq, <-messages_nil. apply length_zero_iff_nil.
Qed.

(** The structured findings, the two flat lists and the verdict agree:
    errors are exactly the messages of the failures, warnings exactly those
    of the warnings, in the order of the findings, and the domain is ok
    exactly when no finding is a failure. *)
Theorem buildFindings_mirrors (rep : Report) :
  let r := buildFindings rep in
  rp_Errors r = messages SeverityFail (rp_Findings r) /\
  rp_Warnings r = messages SeverityWarn (rp_Findings r) /\
  (rp_OK r = true <-> forall x, x ∈ rp_Findings r -> Sev x <> SeverityFail).
Proof.
  cbv zeta. rewrite ok_no_fail, buildFindings_list. unfold buildFindings. by rewrite buildFindings_run.
Qed.

(** ** One severity per code *)

(** The chain verdicts of the report are the program's. *)
Definition chains_known (rep : Report) : Prop := forall c, c ∈ web_chains rep -> c ∈ chain_failures.

Definition all_codes : table := chain_codes chain_failures ++ fixed_codes.

Definition one_severity (t : table) : bool :=
  forallb (fun p => forallb (fun q => implb (String.eqb p.1 q.1) (bool_decide (p.2 = q.2))) t) t.

Lemma one_severity_spec t c s1 s2 : one_severity t = true -> (c, s1) ∈ t -> (c, s2) ∈ t -> s1 = s2.
Proof.
  unfold one_severity. rewrite forallb_elem. intros H H1 H2. specialize (H _ H1). rewrite forallb_elem in H.
  specialize (H _ H2). simpl in H. rewrite String.eqb_refl in H. by apply bool_decide_eq_true in H.
Qed.

Lemma report_codes_known rep : chains_known rep -> report_codes rep ⊆ all_codes.
Proof.
  intros Hk. apply app_sub; [|apply sub_r; reflexivity]. apply sub_l. intros p Hp.
  apply list_elem_of_fmap in Hp as (c & -> & Hc).
  apply (list_elem_of_fmap_2 (fun c => ("cert_" +:+ c, SeverityFail))). auto.
Qed.

(** C12: A finding code keeps one severity: whatever the two reports, findings
    with the same code have the same severity, provided the chain verdicts
    are among those the TLS probe gives. *)
Theorem findings_one_severity (rep1 rep2 : Report) (x1 x2 : Finding) :
  chains_known rep1 -> chains_known rep2 ->
  x1 ∈ rp_Findings (buildFindings rep1) -> x2 ∈ rp_Findings (buildFindings rep2) ->
  Code x1 = Code x2 -> Sev x1 = Sev x2.
Proof.
  intros K1 K2 H1 H2 Hc. rewrite !buildFindings_list in *.
  apply (emits_reported _ _ _ (emits_judge rep1)), (report_codes_known _ K1) in H1.
  apply (emits_reported _ _ _ (emits_judge rep2)), (report_codes_known _ K2) in H2. rewrite <-Hc in H2.
  apply (one_severity_spec all_codes (Code x1)); [by vm_compute|done..].
Qed.

(** ** Dead zones and reserved names *)

Lemma reported_codes {A} t (r : Rule A) x : emits t r -> x ∈ reported r -> Code x ∈ t.*1.
Proof. intros H Hx. eapply emits_reported in H; [|done]. by apply (list_elem_of_fmap_2 fst) in H. Qed.

(** A rule's code that starts with a letter outside a list of prefixes. *)
Lemma chain_code_out c chains (t : list string) :
  forallb (fun k => negb (HasPrefix k "cert_")) t = true -> c ∈ t -> c ∉ (chain_codes chains).*1.
Proof.
  rewrite forallb_elem. intros H Hc Hin. apply list_elem_of_fmap in Hin as (p & -> & Hp).
  apply list_elem_of_fmap in Hp as (k & -> & _). specialize (H _ Hc). cbn [fst] in H. by rewrite HasPrefix_app in H.
Qed.

Lemma reachability_ok reach x :
  x ∈ reported (reachabilityFindings reach) <->
  exists fam, reach !! fam = Some ReachNo /\
              x = mkFinding "resolver_unreachable" SeverityFail "" ("resolver not reachable over " +:+ fam).
Proof.
  assert (Hw : writes (reachabilityFindings reach) tt
    (concat (map (fun fam => if bool_decide (mget ReachNone reach fam = ReachNo)
                             then [mkFinding "resolver_unreachable" SeverityFail ""
                                     ("resolver not reachable over " +:+ fam)] else [])
                 (sortedKeys reach)))).
  { apply writes_each. intros fam _. unfold when. case_bool_decide; [apply writes_add|apply writes_ret]. }
  rewrite (writes_reported _ _ _ Hw), list_elem_of_In, in_concat. setoid_rewrite in_map_iff. split.
  - intros (l & (fam & <- & _) & Hx). case_bool_decide as E; [|done]. destruct Hx as [<-|[]].
    exists fam. split; [|done]. unfold mget in E. by destruct (reach !! fam); simplify_eq/=.
  - intros (fam & Hf & ->). eexists. split; [exists fam; split; [done|]|].
    + apply list_elem_of_In. unfold sortedKeys. rewrite sort_strings_perm.
      apply (list_elem_of_fmap_2 fst _ (fam, ReachNo)). by apply elem_of_map_to_list.
    + unfold mget. rewrite Hf. by left.
Qed.

(** A rule only appends: by its parts. *)
Ltac appending :=
  lazymatch goal with
  | |- appends (_ ≫= _) => apply appends_bind; [appending|intros ?; appending]
  | |- _ => first [eapply emits_appends; solve [eauto with emits] | apply appends_add]
  end.

Lemma deadline_no_fail rep x : x ∈ reported (deadlineFindings rep) -> Sev x <> SeverityFail.
Proof. unfold deadlineFindings, reported, when. destruct (rp_DeadlineReached rep); simpl; set_solver. Qed.

Lemma reported_reserved rep :
  exists msg, reported (reservedZone rep) =
    reported (reachabilityFindings (dns_ResolverReachable (rp_DNS rep))) ++ reported (deadlineFindings rep)
    ++ [mkFinding "reserved_name" SeverityWarn "" msg].
Proof.
  eexists. unfold reservedZone. rewrite !reported_bind; [reflexivity|..].
  all: appending.
Qed.

(** A reserved name is judged on the resolver alone. *)
Lemma reserved_scope rep :
  rp_ReservedName rep <> "" ->
  (rp_OK (buildFindings rep) = true <-> forall fam, dns_ResolverReachable (rp_DNS rep) !! fam <> Some ReachNo) /\
  (forall x, x ∈ rp_Findings (buildFindings rep) -> Code x ∈ (run_codes ++ reserved_codes).*1).
Proof.
  intros Hne. apply String.eqb_neq in Hne. rewrite ok_no_fail, buildFindings_list. unfold judge, zoneUnreachable.
  rewrite Hne. cbn [andb negb].
  split; [|intros x; apply reported_codes, emits_gate_reserved].
  destruct (reported_reserved rep) as [msg ->]. split.
  - intros H fam Hf.
    apply (H (mkFinding "resolver_unreachable" SeverityFail "" ("resolver not reachable over " +:+ fam)));
      [|done]. rewrite !elem_of_app, reachability_ok. left. eauto.
  - intros H x. rewrite !elem_of_app, reachability_ok.
    intros [(fam & Hf & _)|[Hx|Hx]]; [by apply H in Hf|by apply deadline_no_fail in Hx|set_solver].
Qed.

(** C13: The gates of the judgement. A zone no delegated server answers for is
    never ok and is reported with nothing but the resolver, the deadline and
    the registration beside it; a reserved name is reported with nothing but
    the resolver and the deadline, and is ok exactly when the resolver was
    reached over every family tried; neither code appears otherwise. *)
Theorem buildFindings_scope (rep : Report) :
  let r := buildFindings rep in
  if zoneUnreachable rep then
    rp_OK r = false /\ (exists x, x ∈ rp_Findings r /\ Code x = "zone_unreachable") /\
    (forall x, x ∈ rp_Findings r -> Code x ∈ (run_codes ++ rdap_codes ++ dead_codes).*1)
  else if negb (String.eqb (rp_ReservedName rep) "") then
    (rp_OK r = true <-> forall fam, dns_ResolverReachable (rp_DNS rep) !! fam <> Some ReachNo) /\
    (forall x, x ∈ rp_Findings r -> Code x ∈ (run_codes ++ reserved_codes).*1)
  else forall x, x ∈ rp_Findings r -> Code x <> "zone_unreachable" /\ Code x <> "reserved_name".
Proof.
  cbv zeta. destruct (zoneUnreachable rep) eqn:Hz; [|destruct (String.eqb_spec (rp_ReservedName rep) "") as [Hr|Hr]].
  - rewrite buildFindings_list. pose proof (ok_no_fail rep) as Hok. unfold judge in *. rewrite Hz in *.
    assert (Hin : exists x, x ∈ reported (deadZone rep) /\ Code x = "zone_unreachable" /\ Sev x = SeverityFail).
    { eexists (mkFinding "zone_unreachable" SeverityFail "" _). split; [|by split].
      unfold deadZone. rewrite !reported_bind by appending.
      rewrite !elem_of_app. right; right; left. unfold reported. simpl. by left. }
    destruct Hin as (x & Hx & Hc & Hs). split_and!.
    + apply not_true_iff_false. rewrite Hok. intros H. by apply (H x).
    + eauto.
    + intros y. apply reported_codes, emits_gate_dead.
  - cbn [negb]. rewrite buildFindings_list. unfold judge. rewrite Hz, Hr. cbn [String.eqb negb].
    intros x Hx. apply (reported_codes _ _ _ (emits_ordinary rep)) in Hx.
    unfold chain_codes in Hx. rewrite fmap_app in Hx. apply elem_of_app in Hx as [Hx|Hx].
    + split; intros E; rewrite E in Hx; by eapply (chain_code_out _ _ ["zone_unreachable"; "reserved_name"]) in Hx;
        [|reflexivity|set_solver].
    + split; intros E; rewrite E in Hx; revert Hx; apply (bool_decide_eq_false_1 _); vm_compute; reflexivity.
  - cbn [negb]. by apply reserved_scope.
Qed.

(** ** An apex with nothing at it *)

Lemma reported_ordinary rep :
  reported (ordinaryZone rep) =
    reported (dnsFindings rep) ++ reported (rdapFindings (rp_RDAP rep)) ++ reported (dnssecFindings rep)
    ++ reported (delegationFindings rep)
    ++ reported (reachabilityFindings (dns_ResolverReachable (rp_DNS rep))) ++ reported (deadlineFindings rep)
    ++ reported (webFindings "apex" (web_Apex (rp_Web rep)))
    ++ reported (webFindings "www" (web_WWW (rp_Web rep))) ++ reported (deepFindings rep).
Proof. unfold ordinaryZone. by rewrite !reported_bind by appending. Qed.

(** The codes that speak of the records of the names, or of their absence,
    and of the delegation. *)
Definition presence_codes : list string := (absent_codes ++ record_codes ++ delegation_codes).*1.

Definition on_presence (l : list Finding) : list Finding := base.filter (fun x => Code x ∈ presence_codes) l.

Lemma on_presence_none l t :
  (forall x, x ∈ l -> Code x ∈ t) -> forallb (fun c => negb (member c presence_codes)) t = true -> on_presence l = [].
Proof.
  rewrite forallb_elem. intros Hl Ht. unfold on_presence. induction l as [|x l IH]; [done|].
  rewrite filter_cons_False; [apply IH; set_solver|].
  apply member_false, negb_true_iff, Ht, Hl. by left.
Qed.

Lemma on_presence_rule {A} t (r : Rule A) :
  emits t r -> forallb (fun c => negb (member c presence_codes)) t.*1 = true -> on_presence (reported r) = [].
Proof. intros He. apply on_presence_none. intros x. by apply reported_codes. Qed.

(** What is said of the delegation of a name with nothing at it. *)
Definition absent_delegation (rep : Report) : list string :=
  match d_Status (rp_Delegation rep) with
  | DelegationMismatch => ["delegation_mismatch"]
  | DelegationNoChildAnswer =>
      if bool_decide (l_Status (lget (dns_Apex (rp_DNS rep)) "NS") = StatusNXRRSet)
      then ["delegation_nodata"] else ["delegation_no_answer"]
  | DelegationChildNoNS => ["delegation_lame"]
  | DelegationError => ["delegation_trace_failed"]
  | _ => []
  end.

Lemma on_presence_delegation rep :
  apexAbsent (dns_Apex (rp_DNS rep)) = true ->
  Code <$> on_presence (reported (delegationFindings rep)) = absent_delegation rep.
Proof.
  intros Ha. unfold delegationFindings, absent_delegation. rewrite Ha.
  destruct (d_Status (rp_Delegation rep)); try reflexivity. by destruct (bool_decide _).
Qed.

Lemma on_presence_deep rep : on_presence (reported (deepFindings rep)) = [].
Proof.
  apply (on_presence_none _ ((chain_codes (web_chains rep)).*1 ++ other_codes.*1)).
  - intros x Hx. apply (reported_codes _ _ _ (emits_deep rep)) in Hx. by rewrite fmap_app in Hx.
  - rewrite forallb_app. apply andb_true_iff. split; [|by vm_compute].
    apply forallb_elem. intros c Hc. apply negb_true_iff, member_false. intros Hp.
    revert Hc. by apply (chain_code_out _ _ presence_codes).
Qed.

Lemma on_presence_app l1 l2 : on_presence (l1 ++ l2) = on_presence l1 ++ on_presence l2.
Proof. apply filter_app. Qed.


(** ** What ok means *)

Definition completed (l : Lookup) : Prop := l_Status l <> StatusFailure /\ l_Status l <> StatusTimeout.

Lemma dns_no_fail rep :
  rp_ReservedName rep = "" -> zoneValidationBroken rep = false -> no_fail (dnsFindings rep) ->
  apexAbsent (dns_Apex (rp_DNS rep)) = false /\
  (forall t, t ∈ apexTypes -> completed (lget (dns_Apex (rp_DNS rep)) t)) /\
  (forall t, t ∈ wwwTypes -> completed (lget (dns_WWW (rp_DNS rep)) t)).
Proof.
  intros Hr Hb H. destruct (apexAbsent _) eqn:Ha.
  { destruct (dnsFindings_absent rep Hr Ha) as [msg Hw]. unfold no_fail in H.
    rewrite (writes_reported _ _ _ Hw) in H. exfalso. by eapply H; [left|]. }
  unfold dnsFindings, apexMissing in H. unfold apexAbsent in Ha. apply orb_false_iff in Ha as [Ha1 Ha2].
  rewrite Hr, Ha1, Ha2 in H. cbn [String.eqb negb] in H.
  change (no_fail (presentFindings rep)) in H. unfold presentFindings in H. rewrite Hr, Hb in H.
  cbn [String.eqb negb orb] in H.
  assert (Hl : forall label t l, no_fail (lookupFindings label t l false) -> completed l).
  { intros label t l. unfold lookupFindings, completed.
    destruct (l_Status l) eqn:E; cbn [negb when]; rewrite ?no_fail_fail; done. }
  assert (Ha : forall label m l, appends (each (fun t => lookupFindings label t (lget m t) false) l)).
  { intros. apply (emits_appends record_codes). apply emits_each. intros. apply emits_lookup. }
  assert (Hk : appends (zoneKindFindings rep)) by eapply emits_appends, emits_zoneKind.
  assert (Hp : appends (presenceWarnings rep)) by eapply emits_appends, emits_presence.
  rewrite !no_fail_bind in H by (repeat (apply appends_bind; [done|intros _]); done).
  destruct H as (H1 & H2 & _).
  rewrite no_fail_each in H1, H2 by (intros; eapply emits_appends, emits_lookup). split_and!; eauto.
Qed.

Lemma dnssec_no_fail rep : no_fail (dnssecFindings rep) -> zoneValidationBroken rep = false.
Proof.
  unfold dnssecFindings, zoneValidationBroken. intros H.
  destruct (s_State (rp_DNSSEC rep)) eqn:E; rewrite ?no_fail_fail in H; done.
Qed.

Lemma delegation_no_fail rep :
  apexAbsent (dns_Apex (rp_DNS rep)) = false -> no_fail (delegationFindings rep) ->
  d_Status (rp_Delegation rep) ∉
    [DelegationMismatch; DelegationNotDelegated; DelegationNoChildAnswer; DelegationChildNoNS; DelegationError].
Proof.
  unfold delegationFindings. intros Ha H. rewrite Ha in H.
  destruct (d_Status (rp_Delegation rep)) eqn:E; cbn [negb when] in H; try case_hyp H;
    rewrite ?no_fail_fail in H; try done; set_solver.
Qed.

Lemma tls_no_fail label h sibling a t :
  no_fail (tlsFindings label h sibling) -> a ∈ addrs h -> aw_TLS a = Some t -> tls_Chain t = ChainValid.
Proof.
  intros H Ha Ht. destruct (decide (tls_Chain t = ChainValid)) as [|Hne]; [done|]. exfalso.
  assert (Hin : (a, t) ∈ withTLS (addrs h)).
  { unfold withTLS. apply list_elem_of_omap. exists a. by rewrite Ht. }
  assert (Hf : t ∈ failing (withTLS (addrs h))).
  { apply list_elem_of_filter. split; [done|]. by apply (list_elem_of_fmap_2 snd) in Hin. }
  destruct (chainFindings_fail label _ _ Hf) as (x & Hx & Hs).
  unfold tlsFindings in H. destruct (withTLS (addrs h)) as [|p l] eqn:E; [set_solver|]. cbn [length Nat.eqb] in H.
  rewrite no_fail_bind in H.
  - by apply (proj1 H) in Hx.
  - eapply emits_appends, emits_chain.
  - apply (emits_appends cert_codes). unfold expiryFindings, coverageFindings, versionFindings. emits_tac.
Qed.

Lemma reserved_no_fail rep : no_fail (reservedFindings rep) -> rp_ReservedAddresses rep = [].
Proof.
  unfold reservedFindings. rewrite no_fail_each by (intros; apply appends_add).
  destruct (rp_ReservedAddresses rep) as [|r l]; [done|]. intros H. specialize (H r ltac:(by left)).
  cbv beta in H. by rewrite no_fail_fail in H.
Qed.

Lemma caa_no_fail c v label :
  no_fail (caaFindings (Some c)) -> label ∈ ["apex"; "www"] -> caa_Hosts c !! label = Some v -> v_Permitted v <> Some false.
Proof.
  unfold caaFindings. intros H Hl Hv E. rewrite no_fail_bind in H;
    [|apply (emits_appends caa_codes); emits_tac|apply (emits_appends caa_codes); emits_tac].
  destruct H as [_ H]. rewrite no_fail_each in H by (intros; apply (emits_appends caa_codes); emits_tac).
  specialize (H _ Hl). cbv beta in H. rewrite Hv, E, no_fail_when in H.
  specialize (H eq_refl). by rewrite no_fail_fail in H.
Qed.

Lemma tlsa_no_fail t : no_fail (tlsaFindings (Some t)) -> ts_Result t <> TLSAMismatch.
Proof.
  unfold tlsaFindings. intros H E. rewrite E in H.
  rewrite !(bool_decide_eq_false_2 (TLSAMismatch = _)) in H by done. cbn [orb] in H.
  rewrite no_fail_bind, !no_fail_when in H by (apply (emits_appends tlsa_codes); emits_tac).
  destruct H as [_ H]. specialize (H eq_refl). by rewrite no_fail_fail in H.
Qed.

Lemma server_no_fail servers s : no_fail (serverFindings servers) -> s ∈ servers -> kindOf s <> Lame.
Proof.
  intros H Hs Hk.
  assert (Hown : s ∈ own servers (ns_Name s)) by by apply list_elem_of_filter.
  assert (Hsays : says (serverFindings servers) SeverityFail "ns_lame" (ns_Name s)).
  { apply says_server; [vm_compute; set_solver|]. pose proof (server_tally servers (ns_Name s)) as Ht.
    destruct ((server_groups servers).1 !! ns_Name s) as [t|]; [|rewrite Ht in Hown; set_solver].
    exists t. split; [done|]. apply (proj1 (name_says _ t)). destruct Ht as (_ & _ & -> & _).
    apply of_kind_pos. eauto. }
  destruct Hsays as (x & Hx & E & _). injection E as _ E. exact (H x Hx E).
Qed.

Lemma ns_no_fail n :
  no_fail (nsFindings (Some n)) ->
  (2 <= nr_Count n)%nat /\ nr_NSCNAME n = [] /\ nr_Unresolvable n = [] /\
  forall s, s ∈ nr_Servers n -> kindOf s <> Lame.
Proof.
  unfold nsFindings, diversityFindings, glueFindings. intros H.
  rewrite !no_fail_bind in H by
    (apply (emits_appends ns_codes); emits_tac; try (eapply emits_mono; [|apply emits_server]; unfold ns_codes; sub)).
  destruct H as (H1 & H2 & H3 & _ & _ & H4 & _). rewrite no_fail_when, no_fail_fail in H1.
  rewrite no_fail_each in H2, H3 by (intros; apply appends_add). split_and!.
  - destruct (Nat.ltb_spec (nr_Count n) 2); [by destruct H1|lia].
  - destruct (nr_NSCNAME n) as [|c l]; [done|]. specialize (H2 c ltac:(by left)). cbv beta in H2.
    by rewrite no_fail_fail in H2.
  - destruct (nr_Unresolvable n) as [|c l]; [done|]. specialize (H3 c ltac:(by left)). cbv beta in H3.
    by rewrite no_fail_fail in H3.
  - intros s. by apply server_no_fail.
Qed.

Lemma mx_no_fail mxs mx p :
  no_fail (mxFindings mxs) -> mx ∈ mxs -> p ∈ mx_Problems mx -> mx_Unresolved mx = true /\ p = mxUnresolvedProblem.
Proof.
  assert (Ha : forall q (m : MXCheck), appends
    (if mx_Unresolved m && String.eqb q mxUnresolvedProblem then
       warn "mx_target_unresolved" (mx_Host m) ("MX " +:+ mx_Host m +:+ ": " +:+ q)
     else fail (mxProblemCode q) (mx_Host m) ("MX " +:+ mx_Host m +:+ ": " +:+ q)))
    by (intros q m; destruct (_ && _); apply appends_add).
  unfold mxFindings. intros H Hm Hp. rewrite no_fail_each in H.
  2:{ intros m. apply (emits_appends mail_codes), emits_each. intros q _. destruct (_ && _); apply emits_add.
      - in_table.
      - unfold mail_codes. rewrite !elem_of_app. right; left. apply mxProblemCode_known. }
  specialize (H _ Hm). cbv beta in H. rewrite no_fail_each in H by auto. specialize (H _ Hp). cbv beta in H.
  destruct (mx_Unresolved mx), (String.eqb_spec p mxUnresolvedProblem); cbn [andb] in H;
    rewrite ?no_fail_fail in H; done.
Qed.

Lemma mail_no_fail m broken :
  no_fail (mailFindings (Some m) broken) -> no_fail (mxFindings (ml_MX m)).
Proof.
  unfold mailFindings, dkimKeyFindings, mailAbsenceFindings. intros H.
  rewrite !no_fail_bind in H by
    (apply (emits_appends mail_codes); emits_tac; auto using emits_dmarc, emits_spf, emits_mx, emits_mtaSTS).
  tauto.
Qed.

Lemma deep_no_fail rep :
  no_fail (deepFindings rep) ->
  let apex := web_Apex (rp_Web rep) in
  let www := web_WWW (rp_Web rep) in
  no_fail (reservedFindings rep) /\ no_fail (tlsFindings "apex" apex www) /\ no_fail (tlsFindings "www" www apex) /\
  no_fail (mailFindings (rp_Mail rep) (zoneValidationBroken rep)) /\ no_fail (nsFindings (rp_Nameservers rep)) /\
  no_fail (caaFindings (rp_CAA rep)) /\ no_fail (tlsaFindings (rp_TLSA rep)).
Proof.
  unfold deepFindings. destruct (preloadCovers rep). intros H. rewrite !no_fail_bind in H by appending.
  cbv zeta. tauto.
Qed.


End Judge.

(** ** Reports to try the theorems on *)

Definition two_label : Psl :=
  {| psl_Lookup := fun d _ => mkPslResult d "nl" true;
     psl_Registrable := fun d => Some d;
     psl_RDAPServer := fun _ => None |}.

Definition lookup_with (status : LookupStatus) (records : list string) : Lookup :=
  mkLookup "a.nl." "" status TrustNone records [] "" 0 false [].

Definition address_with (chain : string) : AddrWeb :=
  mkAddrWeb "192.0.2.1" PortOpen PortOpen None None
    (Some (mkTLSResult chain [] "TLS 1.3" "" None None None 1 "" [] false false)) None None None.

Definition sample (apex : gmap string Lookup) (chains : list string) : Report :=
  mkReport "" "" "a.nl" "" false "" false "" "" [] 0 0 0 0 0 false
    (mkDNS apex ∅ ∅ None) (mkDNSSEC DNSSECSecure true true "" "")
    (mkDeleg DelegationMatch [] "" [] "" [] [] "")
    (mkWeb (Some (mkHostWeb false false (map address_with chains) [] ∅ None)) None)
    ∅ None None None None None None [] PreloadNone "" "" "" None [] [] [] false false 0.

Definition present_apex : gmap string Lookup :=
  list_to_map (("A", lookup_with StatusOK ["192.0.2.1"]) ::
               ("NS", lookup_with StatusOK ["ns1.a.nl."; "ns2.b.nl."]) ::
               map (fun t => (t, lookup_with StatusNXRRSet [])) ["AAAA"; "MX"; "TXT"]).

Definition empty_apex : gmap string Lookup :=
  list_to_map (map (fun t => (t, lookup_with StatusNXRRSet [])) apexTypes).

Definition build (rep : Report) : Report := @buildFindings root_urls lower_dpdomain two_label rep.


(** A delegated zone whose servers deny every type, with the NS records: one
    name with nothing at it, and two failures. *)
Definition silent_sample : Report :=
  mkReport "" "" "a.nl" "" false "" false "" "" [] 0 0 0 0 0 false
    (mkDNS empty_apex ∅ ∅ None) (mkDNSSEC DNSSECSecure true true "" "")
    (mkDeleg DelegationNoChildAnswer ["ns1.b.nl."] "ns1.dns.nl" [] "" [] [] "") (mkWeb None None)
    ∅ None None None None None None [] PreloadNone "" "" "" None [] [] [] false false 0.

Lemma absent_zone_reported_twice :
  apexAbsent empty_apex = true /\ zoneUnreachable silent_sample = false /\
  map Code (on_presence (rp_Findings (build silent_sample))) = ["apex_empty"; "delegation_nodata"].
Proof. by vm_compute. Qed.

Definition expired_on (n : string) : Finding :=
  mkFinding "cert_expired" SeverityFail "apex" ("apex: certificate expired on 1 of " +:+ n +:+ " addresses: ").

Lemma known_by_computation rep :
  bool_decide (Forall (fun c => c ∈ chain_failures) (web_chains rep)) = true -> chains_known rep.
Proof. intros H. apply bool_decide_eq_true in H. unfold chains_known. by apply Forall_forall. Qed.

Lemma findings_one_severity_witness :
  Code (expired_on "1") = Code (expired_on "2") /\ Sev (expired_on "1") = Sev (expired_on "2").
Proof.
  split; [reflexivity|].
  apply (@findings_one_severity root_urls lower_dpdomain two_label
           (sample present_apex ["expired"]) (sample present_apex ["expired"; "valid"])).
  - by apply known_by_computation; vm_compute.
  - by apply known_by_computation; vm_compute.
  - by apply (bool_decide_eq_true_1 _); vm_compute.
  - by apply (bool_decide_eq_true_1 _); vm_compute.
  - reflexivity.
Defined.

