(* ===== verification/Cli.v ===== *)
(** * The command line: main.go

    The flag package is the language's: what [fs.Parse] does with this
    program's flags is modelled. *)

From S2P Require Import Prelude GoStrings Netip Names NsAudit.

(** ** The resolver *)

Record resolver := mkResolver { res_Host : string; res_Port : Z }.

Definition systemResolver : resolver := mkResolver "" 0.

(** The host and the port after the last colon; [None] is an error. *)
Definition cut_last (c : ascii) (s : string) : option (string * string) :=
  (fun p : string * string => (str_rev p.2, str_rev p.1)) <$> cut_byte c (str_rev s).

(** [net.SplitHostPort]. *)
Definition SplitHostPort (s : string) : option (string * string) :=
  match cut_last ":"%char s with
  | None => None
  | Some (before, port) =>
      match s with
      | String "[" rest =>
          match cut_byte "]"%char rest with
          | Some (host, tail) =>
              if ContainsByte host "["%char || negb (String.eqb tail (":" +:+ port))
                 || ContainsByte port "["%char || ContainsByte port "]"%char
              then None else Some (host, port)
          | None => None
          end
      | _ =>
          if ContainsByte before ":"%char || ContainsByte s "["%char || ContainsByte s "]"%char
          then None else Some (before, port)
      end
  end.

(** [net.JoinHostPort]. *)
Definition JoinHostPort (host port : string) : string :=
  if ContainsByte host ":"%char then "[" +:+ host +:+ "]:" +:+ port else host +:+ ":" +:+ port.

Definition parseResolver (s : string) : resolver + string :=
  if String.eqb s "" then inr "empty @server"
  else if match ParseAddr s with Some _ => true | None => false end || negb (ContainsByte s ":"%char)
  then inl (mkResolver s 0)
  else match SplitHostPort s with
       | None => inr ("invalid @server " +:+ Quote s +:+ ": use host, host:port or [v6addr]:port")
       | Some (host, port) =>
           match AtoiOk port with
           | Some p => if (p <? 1)%Z || (65535 <? p)%Z then inr ("invalid port in @server " +:+ Quote s)
                       else inl (mkResolver host p)
           | None => inr ("invalid port in @server " +:+ Quote s)
           end
       end.

Definition resolver_args (r : resolver) : list string :=
  if String.eqb (res_Host r) "" then []
  else ("@" +:+ res_Host r) :: (if (0 <? res_Port r)%Z then ["-p"; Itoa (res_Port r)] else []).

Definition dogServer (r : resolver) : string :=
  if String.eqb (res_Host r) "" then ""
  else if (0 <? res_Port r)%Z then JoinHostPort (res_Host r) (Itoa (res_Port r))
  else res_Host r.

Definition resolver_String (r : resolver) : string :=
  if String.eqb (res_Host r) "" then "system"
  else if (0 <? res_Port r)%Z then JoinHostPort (res_Host r) (Itoa (res_Port r))
  else res_Host r.

Definition serverFamily (server : string) : string :=
  match ParseAddr server with Some ip => familyOf ip | None => "" end.

(** ** Configuration *)

Record config := mkConfig {
  cfg_Domain : string;
  cfg_UnicodeDomain : string;
  cfg_Resolver : resolver;
  cfg_Families : list string;
  cfg_TimeoutSec : Z;
  cfg_QuicTimeoutSec : Z;
  cfg_TCPTimeoutSec : Z;
  cfg_MaxTimeSec : Z;
  cfg_DNSConcurrency : Z;
  cfg_HSTSPreload : bool;
  cfg_HSTSCache : string;
  cfg_WarmHSTSCache : bool;
  cfg_RedirectLog : bool;
  cfg_RDAP : bool;
  cfg_RDAPPath : string;
  cfg_ShowVersion : bool;
  cfg_Pretty : bool;
  cfg_DogPath : string;
  cfg_DigPath : string;
  cfg_QuicPath : string;
  cfg_dnsFamily : string;
}.

Definition wantsFamily (c : config) (f : string) : bool := member f (cfg_Families c).

Definition with_domain (c : config) (ascii unicode : string) : config :=
  mkConfig ascii unicode (cfg_Resolver c) (cfg_Families c) (cfg_TimeoutSec c) (cfg_QuicTimeoutSec c)
    (cfg_TCPTimeoutSec c) (cfg_MaxTimeSec c) (cfg_DNSConcurrency c) (cfg_HSTSPreload c) (cfg_HSTSCache c)
    (cfg_WarmHSTSCache c) (cfg_RedirectLog c) (cfg_RDAP c) (cfg_RDAPPath c) (cfg_ShowVersion c)
    (cfg_Pretty c) (cfg_DogPath c) (cfg_DigPath c) (cfg_QuicPath c) (cfg_dnsFamily c).

Definition chooseFamilies (only4 only6 : bool) : list string :=
  if only4 && negb only6 then ["ipv4"] else if only6 && negb only4 then ["ipv6"] else ["ipv4"; "ipv6"].

Definition validateTimeouts (c : config) : option string :=
  if (cfg_TimeoutSec c <=? 0)%Z then Some "-t must be a positive number of seconds"
  else if (cfg_TCPTimeoutSec c <=? 0)%Z then Some "-tcp-timeout must be a positive number of seconds"
  else if (cfg_QuicTimeoutSec c <=? 0)%Z then Some "-quic-timeout must be a positive number of seconds"
  else if (cfg_MaxTimeSec c <? 0)%Z
  then Some "-max-time must be zero (no deadline) or a positive number of seconds"
  else None.

(** ** Flags *)

Inductive flagKind := BoolFlag | IntFlag | StringFlag.
Inductive flagValue := BoolValue (b : bool) | IntValue (n : Z) | StringValue (s : string).

Definition flags : list (string * flagKind) :=
  [ ("4", BoolFlag); ("6", BoolFlag); ("no-hsts-preload", BoolFlag); ("no-rdap", BoolFlag); ("t", IntFlag);
    ("quic-timeout", IntFlag); ("tcp-timeout", IntFlag); ("max-time", IntFlag); ("dns-concurrency", IntFlag);
    ("pretty", BoolFlag); ("hsts-cache", StringFlag); ("redirectlog", BoolFlag); ("warm-hsts-cache", BoolFlag);
    ("version", BoolFlag); ("quicprobe", StringFlag); ("dog", StringFlag); ("dig", StringFlag);
    ("rdap", StringFlag) ].

Definition lookup_flag (name : string) : option flagKind :=
  snd <$> head (base.filter (fun p => String.eqb p.1 name = true) flags).

Definition trim_hyphens (a : string) : string := str_drop_while (Ascii.eqb "-"%char) a.

Definition takesValue (a : string) : bool :=
  if ContainsByte a "="%char then false
  else match lookup_flag (trim_hyphens a) with
       | Some BoolFlag | None => false
       | Some _ => true
       end.

Record splitted := mkSplit { sp_flags : list string; sp_positional : list string; sp_server : string }.

(** The loop of [splitArgs] over the tokens left. *)
Fixpoint split_from (args : list string) (st : splitted) : splitted + string :=
  match args with
  | [] => inl st
  | a :: args =>
      let '(mkSplit flagArgs positional server) := st in
      if HasPrefix a "@" then
        if negb (String.eqb server "") then inr "only one @server may be given"
        else if String.eqb (TrimPrefix a "@") "" then inr "empty @server"
        else split_from args (mkSplit flagArgs positional (TrimPrefix a "@"))
      else if HasPrefix a "-" && (1 <? String.length a)%nat then
        match args with
        | v :: rest =>
            if takesValue a then split_from rest (mkSplit (flagArgs ++ [a; v]) positional server)
            else split_from args (mkSplit (flagArgs ++ [a]) positional server)
        | [] => inl (mkSplit (flagArgs ++ [a]) positional server)
        end
      else split_from args (mkSplit flagArgs (positional ++ [a]) server)
  end.

Definition splitArgs (args : list string) : splitted + string := split_from args (mkSplit [] [] "").

Definition hyphenDomain (args : list string) : option string :=
  head (omap (fun a =>
                if (String.length a <? 2)%nat || negb (HasPrefix a "-") || String.eqb a "--" then None
                else
                  let '(name, _, _) := Cut (trim_hyphens a) "="%char in
                  if match lookup_flag name with Some _ => true | None => false end || negb (ContainsByte a "."%char)
                  then None
                  else Some ("invalid domain " +:+ Quote a +:+ ": a label must not start with a hyphen")) args).

(** ** [fs.Parse] *)

(** Underscores may only separate digits, or follow the base prefix. *)
Fixpoint underscores_ok (after_digit : bool) (s : string) : bool :=
  match s with
  | "" => after_digit
  | String c s => if Ascii.eqb c "_"%char then after_digit && underscores_ok false s else underscores_ok true s
  end.

Definition digit_of (c : ascii) : Z :=
  if is_digit c then digit_val c
  else let l := lower_byte c in
       if is_lower l then Z.of_nat (Ascii.nat_of_ascii l) - 87 else 99.

Fixpoint base_val (base : Z) (s : string) (acc : Z) : option Z :=
  match s with
  | "" => Some acc
  | String c s =>
      if Ascii.eqb c "_"%char then base_val base s acc
      else if (base <=? digit_of c)%Z then None else base_val base s (base * acc + digit_of c)
  end.

(** [strconv.ParseInt(s, 0, 64)] on a 64-bit platform, as [flag] calls it. *)
Definition ParseInt0 (s : string) : option Z :=
  let '(neg, u) := match s with
                   | String "+" u => (false, u)
                   | String "-" u => (true, u)
                   | _ => (false, s)
                   end in
  let '(base, prefixed, ds) :=
    match u with
    | String "0" (String c (String d r)) =>
        let l := lower_byte c in
        if Ascii.eqb l "b"%char then (2, true, String d r)
        else if Ascii.eqb l "o"%char then (8, true, String d r)
        else if Ascii.eqb l "x"%char then (16, true, String d r)
        else (8, true, String c (String d r))
    | String "0" r => (8, true, r)
    | _ => (10, false, u)
    end%Z in
  if is_empty u then None
  else
    v ← base_val base ds 0;
    if ContainsByte u "_"%char && negb (underscores_ok prefixed ds) then None
    else
      let v := if neg : bool then Z.opp v else v in
      if (v <? minInt64)%Z || (maxInt64 <? v)%Z then None else Some v.

Definition flag_values : Type := gmap string flagValue.

Definition setFlag (name : string) (kind : flagKind) (v : string) (vals : flag_values) : option flag_values :=
  match kind with
  | BoolFlag => (fun b => <[name := BoolValue b]> vals) <$> ParseBool v
  | IntFlag => (fun n => <[name := IntValue n]> vals) <$> ParseInt0 v
  | StringFlag => Some (<[name := StringValue v]> vals)
  end.

(** Parsing stops at the first token that is no flag, and after [--]. *)
Fixpoint parse_flags (args : list string) (vals : flag_values) : flag_values + string :=
  match args with
  | [] => inl vals
  | s :: args =>
      if (String.length s <? 2)%nat || negb (HasPrefix s "-") then inl vals
      else if String.eqb s "--" then inl vals
      else
        let body := TrimPrefix (TrimPrefix s "-") "-" in
        if is_empty body || HasPrefix body "-" || HasPrefix body "=" then inr ("bad flag syntax: " +:+ s)
        else
          let '(name, value, hasValue) := Cut body "="%char in
          match lookup_flag name with
          | None =>
              if member name ["help"; "h"] then inr "flag: help requested"
              else inr ("flag provided but not defined: -" +:+ name)
          | Some BoolFlag =>
              match setFlag name BoolFlag (if hasValue : bool then value else "true") vals with
              | Some vals => parse_flags args vals
              | None => inr ("invalid boolean value " +:+ Quote value +:+ " for -" +:+ name +:+ ": parse error")
              end
          | Some kind =>
              if hasValue : bool then
                match setFlag name kind value vals with
                | Some vals => parse_flags args vals
                | None => inr ("invalid value " +:+ Quote value +:+ " for flag -" +:+ name)
                end
              else
                match args with
                | [] => inr ("flag needs an argument: -" +:+ name)
                | v :: args =>
                    match setFlag name kind v vals with
                    | Some vals => parse_flags args vals
                    | None => inr ("invalid value " +:+ Quote v +:+ " for flag -" +:+ name)
                    end
                end
          end
  end.

Definition boolFlag (vals : flag_values) (name : string) : bool :=
  match vals !! name with Some (BoolValue b) => b | _ => false end.
Definition intFlag (vals : flag_values) (name : string) (dflt : Z) : Z :=
  match vals !! name with Some (IntValue n) => n | _ => dflt end.
Definition stringFlag (vals : flag_values) (name : string) : string :=
  match vals !! name with Some (StringValue s) => s | _ => "" end.

Section Cli.
Context `{D : Dpdomain}.
(** [runtime.NumCPU], and the default cache path of this user. *)
Variable NumCPU : Z.
Variable defaultPreloadCachePath : string.

Definition defaultDNSConcurrency : Z := Z.max 4 (2 * NumCPU).

Definition normalizeDomain (input : string) : string * string + string :=
  match dnsName input with
  | inr err => inr ("invalid domain " +:+ Quote input +:+ ": " +:+ err)
  | inl n => inl (ASCII n, if String.eqb (Unicode n) (ASCII n) then "" else Unicode n)
  end.

Definition domainConfig (c : config) (positional : list string) : config + string :=
  match positional with
  | [d] =>
      match validateTimeouts c with
      | Some err => inr err
      | None =>
          if (cfg_DNSConcurrency c <? 0)%Z then inr "-dns-concurrency must be zero (unlimited) or positive"
          else match normalizeDomain d with
               | inr err => inr err
               | inl (ascii, unicode) => inl (with_domain c ascii unicode)
               end
      end
  | _ => inr "exactly one domain is required"
  end.

Definition warmConfig (c : config) (positional : list string) : config + string :=
  match positional with
  | [] => inl c
  | _ => inr "-warm-hsts-cache takes no domain"
  end.

Definition finishConfig (c : config) (positional : list string) : config + string :=
  if cfg_ShowVersion c then
    match positional with
    | [] => inl c
    | _ => inr "-version takes no domain"
    end
  else if cfg_WarmHSTSCache c then warmConfig c positional
  else domainConfig c positional.

(** The flags' values over their defaults: [newFlagSet] and the assignments
    of [parseArgs]. *)
Definition config_of (vals : flag_values) (r : resolver) : config :=
  let cache := stringFlag vals "hsts-cache" in
  mkConfig "" "" r (chooseFamilies (boolFlag vals "4") (boolFlag vals "6"))
    (intFlag vals "t" 3) (intFlag vals "quic-timeout" 2) (intFlag vals "tcp-timeout" 2)
    (intFlag vals "max-time" 18) (intFlag vals "dns-concurrency" defaultDNSConcurrency)
    (negb (boolFlag vals "no-hsts-preload")) (if String.eqb cache "" then defaultPreloadCachePath else cache)
    (boolFlag vals "warm-hsts-cache") (boolFlag vals "redirectlog") (negb (boolFlag vals "no-rdap"))
    (stringFlag vals "rdap") (boolFlag vals "version") (boolFlag vals "pretty") (stringFlag vals "dog")
    (stringFlag vals "dig") (stringFlag vals "quicprobe") (serverFamily (res_Host r)).

Definition parseArgs (args : list string) : config + string :=
  match splitArgs args with
  | inr err => inr err
  | inl (mkSplit flagArgs positional server) =>
      match (if String.eqb server "" then inl systemResolver else parseResolver server) with
      | inr err => inr err
      | inl r =>
          match hyphenDomain flagArgs with
          | Some err => inr err
          | None =>
              match parse_flags flagArgs ∅ with
              | inr err => inr err
              | inl vals => finishConfig (config_of vals r) positional
              end
          end
      end
  end.

End Cli.

(** ** Arguments in any order *)

(** A command line as the user means it. *)
Inductive token :=
| Flag (a : string)
| FlagWithValue (a v : string)
| Positional (p : string)
| Server (s : string).

Definition spelled (t : token) : list string :=
  match t with
  | Flag a => [a]
  | FlagWithValue a v => [a; v]
  | Positional p => [p]
  | Server s => ["@" +:+ s]
  end.

Definition is_flag (a : string) : bool := HasPrefix a "-" && (1 <? String.length a)%nat.

(** The token reads as what it is meant to be. *)
Definition meant (t : token) : bool :=
  match t with
  | Flag a => is_flag a && negb (takesValue a)
  | FlagWithValue a _ => is_flag a && takesValue a
  | Positional p => negb (HasPrefix p "@") && negb (is_flag p)
  | Server s => negb (String.eqb s "")
  end.

Definition flag_tokens (t : token) : list string :=
  match t with Flag _ | FlagWithValue _ _ => spelled t | _ => [] end.
Definition positional_of (t : token) : option string := match t with Positional p => Some p | _ => None end.
Definition server_of (t : token) : option string := match t with Server s => Some s | _ => None end.

Lemma flag_not_server a : is_flag a = true -> HasPrefix a "@" = false.
Proof.
  unfold is_flag. intros H%andb_true_iff. destruct H as [H _].
  apply HasPrefix_inv in H as [t ->]. reflexivity.
Qed.

Lemma split_from_flag a args f p s :
  is_flag a = true -> takesValue a = false ->
  split_from (a :: args) (mkSplit f p s) = split_from args (mkSplit (f ++ [a]) p s).
Proof.
  intros Hf Ht. cbn [split_from]. rewrite (flag_not_server _ Hf). unfold is_flag in Hf. rewrite Hf, Ht.
  by destruct args.
Qed.

Lemma split_from_value a v args f p s :
  is_flag a = true -> takesValue a = true ->
  split_from (a :: v :: args) (mkSplit f p s) = split_from args (mkSplit (f ++ [a; v]) p s).
Proof.
  intros Hf Ht. cbn [split_from]. rewrite (flag_not_server _ Hf). unfold is_flag in Hf. by rewrite Hf, Ht.
Qed.

Lemma split_from_tokens toks f p s :
  Forall (fun t => meant t = true) toks ->
  (length (omap server_of toks) <= (if String.eqb s "" then 1 else 0))%nat ->
  split_from (concat (map spelled toks)) (mkSplit f p s) =
    inl (mkSplit (f ++ concat (map flag_tokens toks)) (p ++ omap positional_of toks)
                 (default s (head (omap server_of toks)))).
Proof.
  revert f p s. induction toks as [|t toks IH]; intros f p s Hm Hs.
  { simpl. by rewrite !app_nil_r. }
  inversion_clear Hm as [|? ? Ht Htoks]. 
  destruct t as [a|a v|q|srv]; simpl in Ht; cbn [map concat spelled app omap list_omap server_of] in *; simp_bool.
  - rewrite split_from_flag, IH by done. cbn. by rewrite <-app_assoc.
  - rewrite split_from_value, IH by done. cbn. by rewrite <-app_assoc.
  - cbn [split_from]. rewrite H. unfold is_flag in *. rewrite H0, IH by done. cbn. by rewrite <-app_assoc.
  - destruct (String.eqb s "") eqn:E; [|simpl in Hs; lia]. apply String.eqb_eq in E as ->.
    cbn [split_from]. rewrite HasPrefix_app. cbn [String.eqb negb].
    replace (TrimPrefix ("@" +:+ srv) "@") with srv by (by rewrite TrimPrefix_app).
    rewrite Ht. rewrite IH; [|done|].
    + cbn. destruct (omap server_of toks) eqn:Eo; [done|]. simpl in Hs. lia.
    + rewrite Ht. simpl in Hs. lia.
Qed.

(** C28: The domain and the server may appear anywhere on the command line:
    however flags, values, positionals and at most one server are mixed, the
    flags with their values come out in order, the positionals in order, and
    the server without its mark. *)
Theorem splitArgs_anywhere (toks : list token) :
  Forall (fun t => meant t = true) toks -> (length (omap server_of toks) <= 1)%nat ->
  splitArgs (concat (map spelled toks)) =
    inl (mkSplit (concat (map flag_tokens toks)) (omap positional_of toks)
                 (default "" (head (omap server_of toks)))).
Proof. intros Hm Hs. unfold splitArgs. by rewrite split_from_tokens. Qed.

Lemma splitArgs_anywhere_witness :
  splitArgs ["-t"; "0"; "a.nl"; "@9.9.9.9"; "-pretty"] =
    inl (mkSplit ["-t"; "0"; "-pretty"] ["a.nl"] "9.9.9.9").
Proof.
  apply (splitArgs_anywhere [FlagWithValue "-t" "0"; Positional "a.nl"; Server "9.9.9.9"; Flag "-pretty"]);
    [by repeat constructor | by apply Nat.leb_le].
Defined.

(** C26: A command line that is accepted for a run gives a run it can trust:
    exactly one positional, normalised; positive timeouts, a deadline and a
    concurrency that are not negative, at least one address family, and the
    resolver named on the command line or the system's. *)
Theorem parseArgs_valid `{D : Dpdomain} (NumCPU : Z) (cache : string) (args : list string) (c : config) :
  parseArgs NumCPU cache args = inl c -> cfg_ShowVersion c = false -> cfg_WarmHSTSCache c = false ->
  (exists d n flagArgs server,
     splitArgs args = inl (mkSplit flagArgs [d] server) /\ dnsName d = inl n /\ cfg_Domain c = ASCII n /\
     (if String.eqb server "" then cfg_Resolver c = systemResolver else parseResolver server = inl (cfg_Resolver c))) /\
  (0 < cfg_TimeoutSec c)%Z /\ (0 < cfg_TCPTimeoutSec c)%Z /\ (0 < cfg_QuicTimeoutSec c)%Z /\
  (0 <= cfg_MaxTimeSec c)%Z /\ (0 <= cfg_DNSConcurrency c)%Z /\
  cfg_Families c <> [] /\ cfg_Families c ⊆ ["ipv4"; "ipv6"].
Proof.
  unfold parseArgs. destruct (splitArgs args) as [[flagArgs positional server]|err]; [|done].
  destruct (if String.eqb server "" then inl systemResolver else parseResolver server) as [r|err] eqn:Er; [|done].
  destruct (hyphenDomain flagArgs); [done|]. destruct (parse_flags flagArgs ∅) as [vals|err]; [|done].
  unfold finishConfig. intros H Hv Hw.
  set (c0 := config_of NumCPU cache vals r) in *.
  assert (Hc : cfg_ShowVersion c0 = false /\ cfg_WarmHSTSCache c0 = false /\ domainConfig c0 positional = inl c).
  { destruct (cfg_ShowVersion c0) eqn:E1; [destruct positional; simplify_eq/=; congruence|].
    destruct (cfg_WarmHSTSCache c0) eqn:E2; [destruct positional; simplify_eq/=; congruence|]. done. }
  clear H. destruct Hc as (_ & _ & H). unfold domainConfig in H.
  destruct positional as [|d [|]]; [done| |done].
  destruct (validateTimeouts c0) eqn:Et; [done|]. unfold validateTimeouts in Et.
  destruct (cfg_DNSConcurrency c0 <? 0)%Z eqn:Ec; [done|].
  unfold normalizeDomain in H. destruct (dnsName d) as [n|err] eqn:En; [|done].
  injection H as <-. cbn [with_domain cfg_Domain cfg_Resolver cfg_TimeoutSec cfg_TCPTimeoutSec cfg_QuicTimeoutSec
    cfg_MaxTimeSec cfg_DNSConcurrency cfg_Families].
  split.
  { exists d, n, flagArgs, server. split_and!; try done. 
    change (cfg_Resolver c0) with r. destruct (String.eqb server ""); [by injection Er|done]. }
  repeat case_hyp Et; try discriminate. simp_bool. split_and!; try lia.
  - change (cfg_Families c0) with (chooseFamilies (boolFlag vals "4") (boolFlag vals "6")).
    by destruct (boolFlag vals "4"), (boolFlag vals "6").
  - change (cfg_Families c0) with (chooseFamilies (boolFlag vals "4") (boolFlag vals "6")).
    destruct (boolFlag vals "4"), (boolFlag vals "6"); set_solver.
Qed.

Definition sample_args : list string := ["A.nl"; "-6"; "-t"; "0x5"; "@[::1]:53"].

Lemma parseArgs_valid_witness :
  exists c, @parseArgs lower_dpdomain 2 "" sample_args = inl c /\ (0 < cfg_TimeoutSec c)%Z /\ cfg_Families c = ["ipv6"].
Proof.
  eexists. split; [reflexivity|]. split; [|reflexivity].
  exact (proj1 (proj2 (@parseArgs_valid lower_dpdomain 2 "" sample_args _ eq_refl eq_refl eq_refl))).
Defined.

(** ** What the command line gets wrong *)

(** A server that is only a port is accepted, and the system resolver is
    used on its own port instead. *)
Theorem port_without_host_ignored :
  parseResolver ":5353" = inl (mkResolver "" 5353) /\
  dogServer (mkResolver "" 5353) = "" /\ resolver_args (mkResolver "" 5353) = [].
Proof. by vm_compute. Qed.

(** Flags after [--] are neither obeyed nor refused: a timeout of zero, which
    is an error before it, is dropped after it. *)
Theorem flags_after_dashes_dropped :
  @parseArgs lower_dpdomain 2 "" ["-t"; "0"; "a.nl"] = inr "-t must be a positive number of seconds" /\
  exists c, @parseArgs lower_dpdomain 2 "" ["--"; "-t"; "0"; "a.nl"] = inl c /\ cfg_TimeoutSec c = 3%Z.
Proof. split; [by vm_compute|]. eexists. split; by vm_compute. Qed.
