(* ===== verification/ResolverText.v ===== *)
(** * The server named on the command line, and its text (main.go)

    The resolver that @server names is handed to dog as text again. The
    theorem is that this text names the same server at the same port. *)

From S2P Require Import Prelude GoStrings Netip Names Cli.

(** ** Text that is no address *)

(** The first piece of a split starts as the text does. *)
Lemma split_head p c s : p c = false -> exists x xs, split_func p (String c s) = String c x :: xs.
Proof.
  intros H. cbn. rewrite H. destruct (split_func p s) as [|x xs] eqn:E; [by apply split_func_nonempty in E|]. eauto.
Qed.

(** A byte that is no separator is in a piece. *)
Lemma split_keeps p c s : p c = false -> ContainsByte s c = true -> exists x, x ∈ split_func p s /\ ContainsByte x c = true.
Proof.
  unfold ContainsByte, str_any. intros Hc H. apply negb_true_iff in H.
  enough (Hs : exists x, x ∈ split_func p s /\ str_all (fun d => negb (Ascii.eqb c d)) x = false).
  { destruct Hs as (x & Hx & E). exists x. by rewrite E. }
  induction s as [|d s IH]; [done|]. cbn in H |- *.
  destruct (Ascii.eqb_spec c d) as [<-|Hd]; cbn in H.
  - rewrite Hc. destruct (split_func p s) as [|x xs]; (eexists; split; [by left|]; cbn; by rewrite Ascii.eqb_refl).
  - destruct (IH H) as (x & Hx & E). destruct (p d); [exists x; split; [by right|done]|].
    destruct (split_func p s) as [|y ys]; [by apply elem_of_nil in Hx|].
    apply elem_of_cons in Hx as [->|Hx]; [|exists x; split; [by right|done]].
    exists (String d y). split; [by left|]. cbn. rewrite E. apply andb_false_r.
Qed.

Lemma str_all_contains p s c : str_all p s = true -> p c = false -> ContainsByte s c = false.
Proof.
  unfold ContainsByte, str_any. intros H Hc. apply negb_false_iff.
  induction s as [|d s IH]; [done|]. cbn in *. apply andb_true_iff in H as [Hd Hs].
  destruct (Ascii.eqb_spec c d) as [<-|_]; [congruence|]. by apply IH.
Qed.

Lemma parse_octet_digits s v : parse_octet s = Some v -> str_all is_digit s = true.
Proof. unfold parse_octet. destruct (str_all is_digit s); [done|]. by rewrite orb_true_r. Qed.

(** An IPv4 address is digits and dots. *)
Lemma parseIPv4_bytes s v c :
  parseIPv4 s = Some v -> is_digit c = false -> Ascii.eqb "." c = false -> ContainsByte s c = false.
Proof.
  unfold parseIPv4. destruct (mapM parse_octet _) as [l|] eqn:E; [|done]. intros _ Hd Hc.
  destruct (ContainsByte s c) eqn:Ec; [|done]. apply (split_keeps (Ascii.eqb ".") c s Hc) in Ec as (x & Hx & Ex).
  apply list_elem_of_lookup in Hx as [i Hx]. apply mapM_Some in E. eapply Forall2_lookup_l in E as (v' & _ & E'); [|exact Hx].
  apply parse_octet_digits in E'. rewrite (str_all_contains _ _ _ E' Hd) in Ex. done.
Qed.

Lemma parse_hextet_bracket x : parse_hextet (String "[" x) = None.
Proof. unfold parse_hextet. destruct (_ || _); done. Qed.

Lemma parseIPv4_bracket x : parseIPv4 (String "[" x) = None.
Proof.
  destruct (parseIPv4 (String "[" x)) eqn:E; [|done]. apply (parseIPv4_bytes _ _ "["%char) in E; [|done..].
  unfold ContainsByte, str_any in E. done.
Qed.

Lemma parse_groups_bracket v4ok x gs : parse_groups v4ok (String "[" x :: gs) = None.
Proof.
  cbn [parse_groups]. rewrite parse_hextet_bracket. destruct gs; [|done].
  destruct v4ok; [by rewrite parseIPv4_bracket|done].
Qed.

(** Text in brackets is no address. *)
Lemma ParseAddr_bracket x : ParseAddr (String "[" x) = None.
Proof.
  unfold ParseAddr. destruct (first_marker _) as [c|]; [|done].
  assert (H6 : parseIPv6 (String "[" x) = None).
  { unfold parseIPv6, Cut. cbn [cut_byte]. change (Ascii.eqb "[" "%") with false. cbn beta iota.
    assert (Hb : forall y zone, match cut_ellipsis (String "[" y) with
        | None => hs ← parse_groups true (Split (String "[" y) ":"%char);
                  if (length hs =? 8)%nat then Some (V6 (hextets_num hs) zone) else None
        | Some (l, r) =>
            ls ← parse_side false l; rs ← parse_side true r;
            if (length ls + length rs <? 8)%nat
            then Some (V6 (hextets_num (ls ++ replicate (8 - length ls - length rs) 0%N ++ rs)) zone)
            else None
        end = None).
    { intros y zone. destruct (cut_ellipsis (String "[" y)) as [[l r]|] eqn:E.
      - cbn in E. destruct (cut_ellipsis y) as [[l' r']|]; [|done]. injection E as <- <-. unfold parse_side. cbn [is_empty].
        unfold Split. destruct (split_head (Ascii.eqb ":") "[" l' eq_refl) as (z & zs & ->). by rewrite parse_groups_bracket.
      - unfold Split. destruct (split_head (Ascii.eqb ":") "[" y eq_refl) as (z & zs & ->). by rewrite parse_groups_bracket. }
    destruct (cut_byte "%" x) as [[a b]|]; cbn beta iota; [destruct (_ && _); [done|]|cbn [andb]]; apply Hb. }
  rewrite H6, parseIPv4_bracket. by destruct c as [[] [] [] [] [] [] [] []].
Qed.

(** *** A host and a port *)

Lemma no_byte_app c a b : ContainsByte (a +:+ b) c = ContainsByte a c || ContainsByte b c.
Proof. unfold ContainsByte, str_any. by rewrite str_all_app, negb_andb. Qed.

Lemma no_byte_split c s : ContainsByte s c = false -> str_all (fun d => negb (Ascii.eqb c d)) s = true.
Proof. unfold ContainsByte, str_any. by intros H%negb_false_iff. Qed.

Lemma cut_ellipsis_one h t :
  ContainsByte h ":" = false -> ContainsByte t ":" = false -> t <> "" -> cut_ellipsis (h +:+ String ":" t) = None.
Proof.
  intros Hh Ht Hne. unfold ContainsByte, str_any in *. apply negb_false_iff in Hh, Ht.
  assert (Hno : forall s, str_all (fun d => negb (Ascii.eqb ":" d)) s = true -> cut_ellipsis s = None).
  { induction s as [|c s IH]; [done|]. cbn [str_all]. intros [Hc Hs]%andb_true_iff. apply negb_true_iff in Hc.
    cbn [cut_ellipsis HasPrefix]. rewrite Hc. cbn [andb]. by rewrite IH. }
  induction h as [|c h IH].
  - change ("" +:+ ?y) with y. destruct t as [|d t]; [done|]. pose proof (Hno _ Ht) as E.
    cbn [str_all] in Ht. apply andb_true_iff in Ht as [Hd _]. apply negb_true_iff in Hd.
    remember (String d t) as u. cbn [cut_ellipsis]. rewrite E. subst u. cbn [HasPrefix]. by rewrite Hd.
  - change (String c h +:+ ?y) with (String c (h +:+ y)). cbn [str_all] in Hh.
    apply andb_true_iff in Hh as [Hc Hh]. apply negb_true_iff in Hc. cbn [cut_ellipsis HasPrefix]. rewrite Hc. cbn [andb].
    by rewrite IH.
Qed.

Lemma cut_byte_None c s : ContainsByte s c = false -> cut_byte c s = None.
Proof.
  intros H%no_byte_split. induction s as [|d s IH]; [done|]. cbn [str_all cut_byte] in *.
  apply andb_true_iff in H as [Hd Hs]. apply negb_true_iff in Hd. rewrite Ascii.eqb_sym, Hd. by rewrite IH.
Qed.

(** The first marker of the host decides, if it has one. *)
Lemma first_marker_app h s :
  match first_marker h with
  | Some c => first_marker (h +:+ s) = Some c /\ ContainsByte h c = true
  | None => first_marker (h +:+ s) = first_marker s /\ ContainsByte h "%" = false
  end.
Proof.
  induction h as [|d h IH]; [done|]. change (String d h +:+ s) with (String d (h +:+ s)). cbn [first_marker].
  destruct (_ || _) eqn:E; [split; [done|]; unfold ContainsByte, str_any; cbn [str_all]; by rewrite Ascii.eqb_refl|].
  assert (Hc : forall c, ContainsByte h c = true -> ContainsByte (String d h) c = true).
  { unfold ContainsByte, str_any. intros c H. cbn [str_all]. apply negb_true_iff in H. rewrite H. by rewrite andb_false_r. }
  apply orb_false_iff in E as [_ Ez].
  destruct (first_marker h) as [c|]; destruct IH as [H1 H2]; (split; [done|]); [by apply Hc|].
  unfold ContainsByte, str_any in *. cbn [str_all]. rewrite Ascii.eqb_sym, Ez. done.
Qed.

(** Nor is a name or an IPv4 address with a port. *)
Lemma ParseAddr_port h t :
  ContainsByte h ":" = false -> t <> "" -> str_all is_digit t = true -> ParseAddr (h +:+ String ":" t) = None.
Proof.
  intros Hh Hne Hd. assert (Hin : ContainsByte (h +:+ String ":" t) ":" = true).
  { rewrite no_byte_app, Hh. by unfold ContainsByte, str_any. }
  assert (H4 : parseIPv4 (h +:+ String ":" t) = None).
  { destruct (parseIPv4 _) eqn:E; [|done]. apply (parseIPv4_bytes _ _ ":"%char) in E; [congruence|done..]. }
  unfold ParseAddr. pose proof (first_marker_app h (String ":" t)) as Hm.
  destruct (first_marker h) as [c|]; [destruct Hm as [-> Hc]|destruct Hm as [-> Hz]].
  - rewrite H4. destruct (decide (c = ":"%char)) as [->|Hn]; [congruence|].
    by destruct c as [[] [] [] [] [] [] [] []].
  - cbn [first_marker]. rewrite Ascii.eqb_refl, orb_true_r. cbn [orb]. unfold parseIPv6, Cut.
    assert (Hnz : ContainsByte (h +:+ String ":" t) "%" = false).
    { rewrite no_byte_app, Hz. exact (str_all_contains is_digit t "%" Hd eq_refl). }
    rewrite (cut_byte_None _ _ Hnz). cbn [andb].
    assert (Ht : ContainsByte t ":" = false) by (by apply (str_all_contains is_digit)).
    rewrite cut_ellipsis_one by done. unfold Split.
    rewrite split_func_app_sep by (done || by apply no_byte_split).
    rewrite split_func_whole by (by apply no_byte_split). cbn [parse_groups].
    destruct (parse_hextet h) as [a|]; [|done]. cbn. destruct (parse_hextet t) as [b|]; [done|].
    destruct (parseIPv4 t) as [v|]; done.
Qed.

(** ** Splitting what was joined *)

Lemma cut_byte_free c s x : str_all (fun d => negb (Ascii.eqb c d)) x = true -> cut_byte c (x +:+ String c s) = Some (x, s).
Proof.
  induction x as [|d x IH]; intros H; [change ("" +:+ ?y) with y; cbn [cut_byte]; by rewrite Ascii.eqb_refl|].
  change (String d x +:+ ?y) with (String d (x +:+ y)). cbn [str_all cut_byte] in *. apply andb_true_iff in H as [Hd Hx].
  apply negb_true_iff in Hd. rewrite Ascii.eqb_sym, Hd. by rewrite IH.
Qed.

Lemma contains_rev s c : ContainsByte (str_rev s) c = ContainsByte s c.
Proof. unfold ContainsByte, str_any. f_equal. apply str_all_rev. Qed.

Lemma cut_last_app c x s : ContainsByte s c = false -> cut_last c (x +:+ String c s) = Some (x, s).
Proof.
  intros H. unfold cut_last. rewrite str_rev_app, str_rev_cons, app_assoc_str.
  change (String c "" +:+ ?y) with (String c y).
  rewrite cut_byte_free by (apply no_byte_split; by rewrite contains_rev). cbn [fmap option_fmap option_map fst snd]. by rewrite !str_rev_rev.
Qed.

(** No bracket in the host, none in the port, and no colon there. *)
Lemma Split_JoinHostPort host port :
  host <> "" -> ContainsByte host "[" = false -> ContainsByte host "]" = false ->
  str_all is_digit port = true ->
  SplitHostPort (JoinHostPort host port) = Some (host, port).
Proof.
  intros Hne Ho Hc Hp. assert (Hpc : forall c, is_digit c = false -> ContainsByte port c = false).
  { intros c E. by apply (str_all_contains is_digit). }
  unfold SplitHostPort, JoinHostPort. destruct (ContainsByte host ":") eqn:Ecol.
  - change ("]:" +:+ port) with ("]" +:+ String ":" port). rewrite <-!app_assoc_str.
    rewrite cut_last_app by (by apply Hpc).
    change (("[" +:+ host) +:+ "]") with (String "[" (host +:+ "]")).
    change (String "[" ?x +:+ String ":" port) with (String "[" (x +:+ String ":" port)). rewrite app_assoc_str.
    change ("]" +:+ ?y) with (String "]" y). cbn beta iota. rewrite cut_byte_free by (by apply no_byte_split).
    change (":" +:+ port) with (String ":" port). by rewrite Ho, String.eqb_refl, !Hpc.
  - change (":" +:+ port) with (String ":" port). rewrite cut_last_app by (by apply Hpc).
    assert (Hfree : forall c, ContainsByte host c = false -> is_digit c = false -> Ascii.eqb c ":" = false ->
              ContainsByte (host +:+ String ":" port) c = false).
    { intros c H1 H2 H3. rewrite no_byte_app, H1. specialize (Hpc c H2). unfold ContainsByte, str_any in *.
      cbn [str_all orb]. by rewrite H3. }
    pose proof (Hfree "["%char Ho eq_refl eq_refl) as E1. pose proof (Hfree "]"%char Hc eq_refl eq_refl) as E2.
    destruct host as [|c host]; [done|]. change (String c host +:+ ?y) with (String c (host +:+ y)) in *.
    destruct c as [[] [] [] [] [] [] [] []]; first [by rewrite Ecol, E1, E2|discriminate Ho].
Qed.

(** ** Properties *)

Lemma port_digits p : (1 <= p)%Z -> str_all is_digit (Itoa p) = true /\ Itoa p <> "".
Proof. intros Hp. destruct p as [|p|p]; [lia| |lia]. destruct (pretty_N_digits (N.pos p)) as (H1 & _ & H2). done. Qed.

Lemma JoinHostPort_no_addr host port :
  ContainsByte host "[" = false -> str_all is_digit port = true -> port <> "" ->
  ParseAddr (JoinHostPort host port) = None /\ ContainsByte (JoinHostPort host port) ":" = true.
Proof.
  intros Ho Hp Hne. unfold JoinHostPort. destruct (ContainsByte host ":") eqn:E.
  - split; [apply ParseAddr_bracket|]. by rewrite !no_byte_app, E.
  - change (":" +:+ port) with (String ":" port). split; [by apply ParseAddr_port|]. rewrite no_byte_app, E. done.
Qed.

Lemma cut_byte_inv c s x y : cut_byte c s = Some (x, y) -> s = x +:+ String c y.
Proof.
  revert x y. induction s as [|d s IH]; intros x y; [done|]. cbn [cut_byte].
  destruct (Ascii.eqb_spec d c) as [->|_]; [by intros [= <- <-]|].
  destruct (cut_byte c s) as [[x' y']|]; [|done]. intros [= <- <-]. by rewrite (IH x' y').
Qed.

Lemma cut_byte_before c s x y : cut_byte c s = Some (x, y) -> ContainsByte x c = false.
Proof.
  revert x y. unfold ContainsByte, str_any. induction s as [|d s IH]; intros x y; [done|]. cbn [cut_byte].
  destruct (Ascii.eqb d c) eqn:E; [by intros [= <- _]|].
  destruct (cut_byte c s) as [[x' y']|]; [|done]. intros [= <- _]. cbn [str_all]. rewrite Ascii.eqb_sym, E. by eapply IH.
Qed.

Lemma cut_last_inv c s x y : cut_last c s = Some (x, y) -> s = x +:+ String c y.
Proof.
  unfold cut_last. destruct (cut_byte c (str_rev s)) as [[a b]|] eqn:E; [|done]. cbn [fmap option_fmap option_map fst snd].
  intros [= <- <-]. apply cut_byte_inv in E. rewrite <-(str_rev_rev s), E, str_rev_app, str_rev_cons, app_assoc_str. done.
Qed.

Lemma SplitHostPort_brackets s host port :
  SplitHostPort s = Some (host, port) -> ContainsByte host "[" = false /\ ContainsByte host "]" = false.
Proof.
  unfold SplitHostPort. destruct (cut_last ":" s) as [[before port']|] eqn:El; [|done].
  assert (Hcl : s = before +:+ String ":" port') by (by apply cut_last_inv).
  assert (Hplain : (if ContainsByte before ":" || ContainsByte s "[" || ContainsByte s "]" then None else Some (before, port'))
            = Some (host, port) -> ContainsByte host "[" = false /\ ContainsByte host "]" = false).
  { destruct (ContainsByte before ":"), (ContainsByte s "[") eqn:E1, (ContainsByte s "]") eqn:E2; try done.
    cbn. intros [= <- _]. rewrite Hcl, no_byte_app in E1, E2. apply orb_false_iff in E1 as [-> _].
    by apply orb_false_iff in E2 as [-> _]. }
  destruct s as [|c rest]; [exact Hplain|]. destruct (Ascii.eqb_spec c "[") as [->|Hn].
  - clear Hplain. destruct (cut_byte "]" rest) as [[h tail]|] eqn:Ec; [|done]. apply cut_byte_before in Ec.
    destruct (ContainsByte h "[") eqn:Eh; [done|]. cbn [orb]. destruct (_ || _); [done|]. by intros [= <- _].
  - destruct c as [[] [] [] [] [] [] [] []]; try exact Hplain. by destruct Hn.
Qed.

(** C39: What is given to dog names the server the user named. A server that is accepted has a port between 1 and 65535, or none; and unless its host is empty, the text made of it for dog, with the brackets of an IPv6 literal, is itself accepted and means the same host and port. *)
Theorem parseResolver_roundtrip (s : string) (r : resolver) :
  parseResolver s = inl r ->
  (0 <= res_Port r <= 65535)%Z /\ (res_Host r <> "" -> parseResolver (dogServer r) = inl r).
Proof.
  unfold parseResolver at 1. destruct (String.eqb_spec s ""); [done|].
  destruct (_ || _) eqn:E1.
  { intros [= <-]. cbn [res_Port res_Host]. split; [lia|]. intros Hs. unfold dogServer. cbn [res_Host res_Port].
    rewrite (proj2 (String.eqb_neq _ _) Hs). cbn. unfold parseResolver.
    by rewrite (proj2 (String.eqb_neq _ _) Hs), E1. }
  destruct (SplitHostPort s) as [[host port]|] eqn:E2; [|done].
  destruct (AtoiOk port) as [p|]; [|done]. destruct ((p <? 1)%Z || (65535 <? p)%Z) eqn:Ep; [done|]. apply orb_false_iff in Ep as [Hp1 Hp2].
  apply Z.ltb_ge in Hp1, Hp2. intros [= <-]. cbn [res_Port res_Host]. split; [lia|]. intros Hh.
  apply SplitHostPort_brackets in E2 as [Ho Hc]. destruct (port_digits p) as [Hd Hne]; [done|].
  unfold dogServer. cbn [res_Host res_Port]. rewrite (proj2 (String.eqb_neq _ _) Hh), (proj2 (Z.ltb_lt 0 p)) by lia.
  destruct (JoinHostPort_no_addr host (Itoa p)) as [H1 H2]; [done..|].
  unfold parseResolver. rewrite H1, H2, Split_JoinHostPort by done. unfold AtoiOk, Atoi.
  rewrite ParseInt_Itoa by (unfold minInt64, maxInt64; lia).
  destruct (String.eqb_spec (JoinHostPort host (Itoa p)) "") as [E|_]; [by rewrite E in H2|].
  cbn [orb negb]. rewrite (proj2 (Z.ltb_ge p 1)), (proj2 (Z.ltb_ge 65535 p)) by lia. done.
Qed.

Lemma parseResolver_roundtrip_witness :
  parseResolver (dogServer (mkResolver "2001:db8::1" 53)) = inl (mkResolver "2001:db8::1" 53).
Proof. apply (parseResolver_roundtrip "[2001:db8::1]:0053"); [reflexivity|done]. Defined.
