(* ===== verification/Tools.v ===== *)
(** * Finding the tools a run needs (main.go, quic.go, rdap.go, runner.go)

    What the operating system knows of its files is the environment's; the
    language's path functions are modelled as far as they are used. *)

From S2P Require Import Prelude GoStrings Cli.

(** ** path/filepath *)

(** The elements of a path without "." and with each ".." applied, the last
    first; [root] tells an absolute path, which has no parent. *)
Fixpoint clean_parts (root : bool) (parts kept : list string) : list string :=
  match parts with
  | [] => kept
  | p :: parts =>
      if String.eqb p "" || String.eqb p "." then clean_parts root parts kept
      else if String.eqb p ".." then
        match kept with
        | k :: rest => if String.eqb k ".." then clean_parts root parts (".." :: kept)
                       else clean_parts root parts rest
        | [] => clean_parts root parts (if root then [] else [".."])
        end
      else clean_parts root parts (p :: kept)
  end.

Definition Clean (path : string) : string :=
  let root := HasPrefix path "/" in
  let s := Join (rev (clean_parts root (Split path "/"%char) [])) "/" in
  if root then "/" +:+ s else if is_empty s then "." else s.

(** [filepath.Join]: empty elements are left out. *)
Definition JoinPath (elems : list string) : string :=
  match base.filter (fun e => e <> "") elems with
  | [] => ""
  | kept => Clean (Join kept "/")
  end.

(** [filepath.Dir]. *)
Definition Dir (path : string) : string :=
  let rest := str_drop_while (fun c => negb (Ascii.eqb c "/"%char)) (str_rev path) in Clean (str_rev rest).

(** ** The host *)

Class Host := {
  LookPath : string -> string + string;        (* exec.LookPath: the path, or the error *)
  Stat : string -> option (bool * Z);          (* whether it is a directory, and its mode *)
  Executable : option string;
  EvalSymlinks : string -> option string;
  Getwd : option string;
}.

(** The preload cache of this user: none without a cache directory. *)
Definition defaultPreloadCachePath (userCacheDir : option string) : string :=
  match userCacheDir with
  | Some dir => JoinPath [dir; "domaintest"; "hsts-preload.tsv"]
  | None => ""
  end.

Section Tools.
Context `{H : Host}.

Definition requireTool (explicit name : string) : string + string :=
  let candidate := if String.eqb explicit "" then name else explicit in
  match LookPath candidate with
  | inl path => inl path
  | inr err => inr ("required tool " +:+ Quote candidate +:+ " not found: " +:+ err)
  end.

Definition isExecutable (p : string) : bool :=
  match Stat p with
  | Some (dir, mode) => negb dir && negb (Z.land mode 73 =? 0)%Z   (* 0o111 *)
  | None => false
  end.

Definition candidateDirs : list string :=
  match Executable with
  | Some exe => [Dir (default exe (EvalSymlinks exe))]
  | None => []
  end ++ option_list Getwd.

Definition quicprobeName : string := "quicprobe".

Definition quicCandidates : list string :=
  map (fun dir => JoinPath [dir; ".."; quicprobeName; quicprobeName]) candidateDirs.

Definition findQuicprobe (explicit : string) : string + string :=
  if negb (String.eqb explicit "") then requireTool explicit quicprobeName
  else match LookPath quicprobeName with
       | inl p => inl p
       | inr _ =>
           match base.filter (fun p => isExecutable p = true) quicCandidates with
           | p :: _ => inl p
           | [] => inr ("quicprobe not found on PATH or at " +:+ Join quicCandidates ", " +:+ " (use -quicprobe)")
           end
       end.

Definition rdapName : string := "rdap".

Definition findRDAP (explicit : string) : string + string :=
  if negb (String.eqb explicit "") then requireTool explicit rdapName
  else match LookPath rdapName with
       | inl p => inl p
       | inr _ => inl ""
       end.

Definition with_tools (c : config) (dog dig quic rdap : string) : config :=
  mkConfig (cfg_Domain c) (cfg_UnicodeDomain c) (cfg_Resolver c) (cfg_Families c) (cfg_TimeoutSec c)
    (cfg_QuicTimeoutSec c) (cfg_TCPTimeoutSec c) (cfg_MaxTimeSec c) (cfg_DNSConcurrency c) (cfg_HSTSPreload c)
    (cfg_HSTSCache c) (cfg_WarmHSTSCache c) (cfg_RedirectLog c) (cfg_RDAP c) rdap (cfg_ShowVersion c)
    (cfg_Pretty c) dog dig quic (cfg_dnsFamily c).

Definition resolveTools (c : config) : config + string :=
  match requireTool (cfg_DogPath c) "dog" with
  | inr err => inr err
  | inl dog =>
      match requireTool (cfg_DigPath c) "dig" with
      | inr err => inr err
      | inl dig =>
          match findQuicprobe (cfg_QuicPath c) with
          | inr err => inr err
          | inl quic =>
              if cfg_RDAP c then
                match findRDAP (cfg_RDAPPath c) with
                | inr err => inr err
                | inl rdap => inl (with_tools c dog dig quic rdap)
                end
              else inl (with_tools c dog dig quic (cfg_RDAPPath c))
          end
      end
  end.

(** ** Lemmas *)

(** A tool named on the command line is the one used; otherwise it is the
    one on the path. *)
Lemma requireTool_inl explicit name p :
  requireTool explicit name = inl p -> LookPath (if String.eqb explicit "" then name else explicit) = inl p.
Proof. unfold requireTool. destruct (LookPath _); [|done]. by intros [= ->]. Qed.

Lemma findQuicprobe_inl explicit p :
  findQuicprobe explicit = inl p ->
  LookPath (if String.eqb explicit "" then quicprobeName else explicit) = inl p \/
  (explicit = "" /\ p ∈ quicCandidates /\ isExecutable p = true).
Proof.
  unfold findQuicprobe. destruct (String.eqb_spec explicit "") as [->|Hne]; cbn [negb].
  - destruct (LookPath quicprobeName) as [q|]; [intros [= ->]; by left|].
    destruct (base.filter _ quicCandidates) as [|q rest] eqn:E; [done|]. intros [= ->]. right. split; [done|].
    assert (Hin : p ∈ p :: rest) by by left. rewrite <-E in Hin. by apply list_elem_of_filter in Hin as [? ?].
  - intros H1%requireTool_inl. apply String.eqb_neq in Hne. rewrite Hne in H1. by left.
Qed.

Lemma resolveTools_inl c c' :
  resolveTools c = inl c' ->
  exists dog dig quic rdap, c' = with_tools c dog dig quic rdap /\
    requireTool (cfg_DogPath c) "dog" = inl dog /\ requireTool (cfg_DigPath c) "dig" = inl dig /\
    findQuicprobe (cfg_QuicPath c) = inl quic /\
    (if cfg_RDAP c then findRDAP (cfg_RDAPPath c) = inl rdap else rdap = cfg_RDAPPath c).
Proof.
  unfold resolveTools. destruct (requireTool (cfg_DogPath c) "dog") as [dog|]; [|done].
  destruct (requireTool (cfg_DigPath c) "dig") as [dig|]; [|done].
  destruct (findQuicprobe (cfg_QuicPath c)) as [quic|]; [|done].
  destruct (cfg_RDAP c); [|intros [= <-]; by eexists _, _, _, _].
  destruct (findRDAP (cfg_RDAPPath c)) as [rdap|]; [|done]. intros [= <-]. by eexists _, _, _, _.
Qed.
End Tools.

(** [filepath.Join] on the candidates' shape. *)
Example JoinPath_sibling : JoinPath ["/opt/domaintest/bin"; ".."; "quicprobe"; "quicprobe"] = "/opt/domaintest/quicprobe/quicprobe".
Proof. reflexivity. Qed.

Example JoinPath_relative : JoinPath ["."; ".."; "quicprobe"; "quicprobe"] = "../quicprobe/quicprobe".
Proof. reflexivity. Qed.

Example Dir_file : Dir "/opt/domaintest/bin/domaintest" = "/opt/domaintest/bin".
Proof. reflexivity. Qed.
