(* ===== verification/Cache.v ===== *)
(** * The lookup cache of a run: run.go

    Callers run concurrently. Each takes the lock twice: once to read the
    memo and the phase's context, once to store what dog answered; in between
    it looks whether the context has ended and runs dog, and any other caller
    may act. *)

From S2P Require Import Prelude GoStrings Names Records.

(** One call of [get] with a name already normalised. *)
Record query := mkQuery { q_name : string; q_type : string }.

#[export] Instance query_eq_dec : EqDecision query.
Proof. solve_decision. Defined.

Definition cache_key (q : query) : string := q_name q +:+ "/" +:+ q_type q.

(** The answer made up when the phase's budget is spent. *)
Definition expiredLookup (q : query) : Lookup :=
  mkLookup (q_name q) (q_type q) StatusTimeout TrustNone [] [] "dns lookup timed out" 0 false [].

(** The answer to a name that is no DNS name. *)
Definition invalidLookup (name qtype err : string) : Lookup :=
  mkLookup name qtype StatusFailure TrustNone [] [] ("not a valid DNS name: " +:+ err) 0 false [].

(** [get], with what the cache or dog gives for a valid name. *)
Definition get `{D : Dpdomain} (answer : query -> Lookup) (name qtype : string) : Lookup :=
  match dnsName name with
  | inr err => invalidLookup name qtype err
  | inl n => answer (mkQuery (ASCII n) qtype)
  end.

(** ** Callers at work *)

(** [Missed]: the name was not in the memo when the lock was held. *)
Inductive caller := Waiting | Missed | Running | Answered_with (l : Lookup).

#[export] Instance caller_eq_dec : EqDecision caller.
Proof. solve_decision. Defined.

Record cacheState := mkCache {
  c_done : gmap string Lookup;
  c_expired : bool;                 (* the phase's context has ended *)
  c_callers : list (query * caller);
}.

Definition set_caller (s : cacheState) (i : nat) (q : query) (c : caller) (done : gmap string Lookup)
    : cacheState :=
  mkCache done (c_expired s) (<[i := (q, c)]> (c_callers s)).

Section Cache.
(** What dog may answer to a query. *)
Variable dog_answers : query -> Lookup -> Prop.

Inductive cache_step : cacheState -> cacheState -> Prop :=
| step_hit s i q l :
    c_callers s !! i = Some (q, Waiting) -> c_done s !! cache_key q = Some l ->
    cache_step s (set_caller s i q (Answered_with l) (c_done s))
| step_miss s i q :
    c_callers s !! i = Some (q, Waiting) -> c_done s !! cache_key q = None ->
    cache_step s (set_caller s i q Missed (c_done s))
| step_expired s i q :
    c_callers s !! i = Some (q, Missed) -> c_expired s = true ->
    cache_step s (set_caller s i q (Answered_with (expiredLookup q)) (c_done s))
| step_run s i q :
    c_callers s !! i = Some (q, Missed) -> c_expired s = false ->
    cache_step s (set_caller s i q Running (c_done s))
| step_store s i q l :
    c_callers s !! i = Some (q, Running) -> dog_answers q l ->
    cache_step s (set_caller s i q (Answered_with l) (<[cache_key q := l]> (c_done s)))
| step_setContext s b :
    cache_step s (mkCache (c_done s) b (c_callers s)).

Definition cache_init (qs : list query) : cacheState :=
  mkCache ∅ false (map (fun q => (q, Waiting)) qs).

Definition no_slash (s : string) : bool := str_all (fun c => negb (Ascii.eqb c "/"%char)) s.

Lemma no_slash_app s t : no_slash (s +:+ String "/" t) = true -> False.
Proof.
  unfold no_slash. induction s as [|c s IH]; [done|]. simpl. rewrite andb_true_iff. intros [_ H]. auto.
Qed.

(** Types carry no slash, so a key determines its query. *)
Lemma cache_key_inj q1 q2 :
  no_slash (q_type q1) = true -> no_slash (q_type q2) = true -> cache_key q1 = cache_key q2 -> q1 = q2.
Proof.
  destruct q1 as [n1 t1], q2 as [n2 t2]. unfold cache_key. simpl. intros H1 H2.
  revert n2. induction n1 as [|c n1 IH]; intros [|d n2] E; cbn in E.
  - injection E as E. f_equal. exact E.
  - injection E as _ E. assert (t1 = n2 +:+ String "/" t2) as -> by exact E. by apply no_slash_app in H1.
  - injection E as _ E. assert (t2 = n1 +:+ String "/" t1) as -> by exact (eq_sym E). by apply no_slash_app in H2.
  - injection E as -> E. specialize (IH n2 E). by injection IH as -> ->.
Qed.

(** What holds of every state: the memo holds only answers of dog, each
    under its own key, and so does what a caller was given, but for the
    timeout of a spent phase. *)
Definition cache_inv (s : cacheState) : Prop :=
  (forall q c, (q, c) ∈ c_callers s -> no_slash (q_type q) = true) /\
  (forall k l, c_done s !! k = Some l ->
     exists q, k = cache_key q /\ no_slash (q_type q) = true /\ dog_answers q l) /\
  (forall q l, (q, Answered_with l) ∈ c_callers s -> dog_answers q l \/ l = expiredLookup q).

Lemma set_caller_elem s i q0 c0 done q c :
  (q, c) ∈ c_callers (set_caller s i q0 c0 done) -> (q, c) = (q0, c0) \/ (q, c) ∈ c_callers s.
Proof.
  unfold set_caller. simpl. intros [j Hj]%list_elem_of_lookup.
  destruct (decide (i = j)) as [<-|Hne].
  - destruct (decide (i < length (c_callers s))%nat).
    + rewrite list_lookup_insert_eq in Hj by done. left. by simplify_eq.
    + rewrite list_insert_ge in Hj by lia. right. by eapply list_elem_of_lookup_2.
  - rewrite list_lookup_insert_ne in Hj by done. right. by eapply list_elem_of_lookup_2.
Qed.

Lemma cache_inv_step s s' : cache_inv s -> cache_step s s' -> cache_inv s'.
Proof.
  intros (Ht & Hd & Hc). destruct 1 as [s i q l Hi Hl|s i q Hi Hn|s i q Hi He|s i q Hi He|s i q l Hi Hl|s b]; [..|done].
  all: assert (Hq : (q, _) ∈ c_callers s) by (by eapply list_elem_of_lookup_2).
  all: split; [intros q' c' [H|H]%set_caller_elem; [injection H as -> ->; eauto|eauto]|].
  all: split; [try exact Hd|].
  all: try (intros q' l' [H|H]%set_caller_elem; [|by eauto]; simplify_eq; auto).
  - destruct (Hd _ _ Hl) as (q0 & Hk & Hs & Ha). left.
    apply cache_key_inj in Hk as ->; [done|by eauto|done].
  - simpl. intros k l' Hk. destruct (decide (cache_key q = k)) as [<-|Hne].
    + rewrite lookup_insert_eq in Hk. injection Hk as ->. eauto.
    + rewrite lookup_insert_ne in Hk by done. eauto.
Qed.

Lemma cache_inv_reachable qs s :
  Forall (fun q => no_slash (q_type q) = true) qs -> rtc cache_step (cache_init qs) s -> cache_inv s.
Proof.
  intros Hq H. eapply rtc_preserves; [|exact H|]; [intros; by eapply cache_inv_step|].
  split; [|split; [intros k l Hk; simpl in Hk; by rewrite lookup_empty in Hk|]]; simpl.
  - intros q c Hin. apply list_elem_of_fmap in Hin as (q' & [= -> ->] & Hin). by eapply Forall_forall in Hq.
  - intros q l Hin. apply list_elem_of_fmap in Hin as (q' & [=] & _).
Qed.

Lemma cache_init_queries qs : (c_callers (cache_init qs)).*1 = qs.
Proof. unfold cache_init. cbn [c_callers]. induction qs as [|q qs IH]; [done|]. cbn. by f_equal. Qed.

(** A caller keeps its query, and its answer once it has one. *)
Lemma cache_step_queries c c' : cache_step c c' -> (c_callers c').*1 = (c_callers c).*1.
Proof.
  destruct 1 as [c i q l H|c i q H|c i q H|c i q H|c i q l H|c b]; [..|done].
  all: unfold set_caller; cbn [c_callers]; rewrite list_fmap_insert; apply list_insert_id;
    by rewrite list_lookup_fmap, H.
Qed.

Lemma cache_step_answered c c' i q l :
  cache_step c c' -> c_callers c !! i = Some (q, Answered_with l) ->
  c_callers c' !! i = Some (q, Answered_with l).
Proof.
  destruct 1 as [c j q' l' H|c j q' H|c j q' H|c j q' H|c j q' l' H|c b]; [..|done].
  all: unfold set_caller; cbn [c_callers]; intros Hi; destruct (decide (j = i)) as [->|];
    [congruence | by rewrite list_lookup_insert_ne].
Qed.

End Cache.

(** However the callers interleave, and whenever the phase's budget runs
    out, a caller is given an answer dog gave to its own query, or the
    timeout that says the budget was spent; and that made-up timeout never
    enters the memo, so a later phase asks again. *)
Theorem lookupCache_sound (dog_answers : query -> Lookup -> Prop) (qs : list query) (s : cacheState) :
  Forall (fun q => no_slash (q_type q) = true) qs -> rtc (cache_step dog_answers) (cache_init qs) s ->
  (forall q l, (q, Answered_with l) ∈ c_callers s -> dog_answers q l \/ l = expiredLookup q) /\
  (forall k l, c_done s !! k = Some l -> exists q, k = cache_key q /\ dog_answers q l).
Proof.
  intros Hq H. destruct (cache_inv_reachable _ _ _ Hq H) as (_ & Hd & Hc). split; [done|].
  intros k l Hk. destruct (Hd _ _ Hk) as (q & -> & _ & Ha). eauto.
Qed.

(** ** Two callers of one name *)

Definition mx_and_ns : query := mkQuery "host.a.nl" "A".
Definition dog_ok (q : query) (l : Lookup) : Prop := l = mkLookup (q_name q) (q_type q) StatusOK TrustNone [] [] "" 0 false [].

Definition both_running : cacheState := mkCache ∅ false [(mx_and_ns, Running); (mx_and_ns, Running)].

Lemma both_running_reachable : rtc (cache_step dog_ok) (cache_init [mx_and_ns; mx_and_ns]) both_running.
Proof.
  eapply rtc_l; [by apply (step_miss _ _ 0 mx_and_ns)|].
  eapply rtc_l; [by apply (step_run _ _ 0 mx_and_ns)|].
  eapply rtc_l; [by apply (step_miss _ _ 1 mx_and_ns)|].
  eapply rtc_l; [by apply (step_run _ _ 1 mx_and_ns)|]. apply rtc_refl.
Qed.

Lemma lookupCache_sound_witness :
  rtc (cache_step dog_ok) (cache_init [mx_and_ns; mx_and_ns]) both_running /\
  (forall k l, c_done both_running !! k = Some l -> exists q, k = cache_key q /\ dog_ok q l).
Proof.
  split; [exact both_running_reachable|].
  apply (lookupCache_sound dog_ok [mx_and_ns; mx_and_ns] both_running);
    [by repeat constructor | exact both_running_reachable].
Defined.

(** Two checks that ask for one name at once both run dog. *)
Theorem lookup_fetched_twice :
  exists s, rtc (cache_step dog_ok) (cache_init [mx_and_ns; mx_and_ns]) s /\
            c_callers s = [(mx_and_ns, Running); (mx_and_ns, Running)].
Proof. exists both_running. split; [exact both_running_reachable|done]. Qed.
