(* ===== verification/Probe.v ===== *)
(** * Assembling the web section: probeWeb and what follows it (run.go)

    What the network answers is a function of the name and the address; the
    probes of different addresses run at once and write disjoint entries. *)

From S2P Require Import Prelude GoStrings Netip Names Records Wildcard Caa Tlsa Tcp Tls Http Versions Web NsAudit Cli.

Definition wantedAddrs (cfg : config) (lookups : list Lookup) : list Addr :=
  base.filter (fun ip => wantsFamily cfg (familyOf ip) = true) (concat (map Addrs lookups)).

(** The address of one family the redirect follower uses for each host. *)
Definition hostAddrsByFamily (hosts : list (string * list Addr)) (fam : string) : hostAddrs :=
  list_to_map (omap (fun '(host, l) =>
                       (fun ip => (host, ip)) <$> head (base.filter (fun ip => familyOf ip = fam) l)) hosts).

Definition addrEntry (p : addrProbe) (q : option QUICResult) : AddrWeb :=
  mkAddrWeb (addr_string (ap_IP p)) (ap_HTTP p) (ap_HTTPS p) (ap_HTTPRes p) (ap_HTTPSRes p) (ap_TLS p) None q
    (Some (httpVersionsFor p q)).

(** The entry of a reserved address, which is not probed. *)
Definition skippedEntry (res : string) : AddrWeb :=
  mkAddrWeb (default "" (head (Fields res))) PortSkipped PortSkipped None None None None None None.

(** Whether every address that served a certificate served the same one. *)
Definition certConsistent (l : list AddrWeb) : option bool :=
  match omap (fun a => t ← aw_TLS a; ci_Fingerprint <$> tls_Cert t) l with
  | [] => None
  | first :: rest => boolPtr (forallb (String.eqb first) rest)
  end.

(** A probe's IP is the address it was asked for. *)
Definition probe_fn : Type := string -> Addr -> addrProbe.
Definition quic_fn : Type := string -> Addr -> QUICResult.

(** One quicprobe per distinct address; the results are keyed by its text. *)
Definition quicAll (quic : quic_fn) (host : string) (l : list Addr) : gmap string QUICResult :=
  list_to_map (map (fun ip => (addr_string ip, quic host ip)) (dedupe_from [] l)).

Section Probe.
Context `{D : Dpdomain} `{P : Psl} `{I : Ipnorm} `{L : UrlLib}.
Variable probe : probe_fn.
Variable quic : quic_fn.
Variable fetch : Url -> Addr -> HTTPResult.

Definition redirectChains (host : string) (hosts : string -> hostAddrs) : gmap string RedirectChain :=
  list_to_map (omap (fun fam => match hosts fam !! host with
                                | Some _ => Some (fam, followRedirects fetch "http" host (hosts fam))
                                | None => None
                                end) ["ipv4"; "ipv6"]).

Definition probeHost (cfg : config) (host : string) (l : list Addr) (reserved : list string)
    (hosts : string -> hostAddrs) : option HostWeb :=
  if (length l + length reserved =? 0)%nat then None
  else
    let q := quicAll quic host l in
    let entries := map (fun ip => let p := probe host ip in addrEntry p (q !! addr_string (ap_IP p))) l
                   ++ map skippedEntry reserved in
    let h := foldl add_addr zeroHost entries in
    let redirects := if cfg_RedirectLog cfg then redirectChains host hosts else ∅ in
    Some (mkHostWeb (hw_SameAsApex h) (hw_ViaWildcard h) (hw_IPv4 h) (hw_IPv6 h) redirects
            (certConsistent (addrs (Some h)))).

Definition set_SameAsApex (h : HostWeb) : HostWeb :=
  mkHostWeb true (hw_ViaWildcard h) (hw_IPv4 h) (hw_IPv6 h) (hw_Redirects h) (hw_CertConsistent h).

Definition set_ViaWildcard (h : HostWeb) : HostWeb :=
  mkHostWeb (hw_SameAsApex h) true (hw_IPv4 h) (hw_IPv6 h) (hw_Redirects h) (hw_CertConsistent h).

(** The section, and the reserved addresses the report lists. *)
Definition probeWeb (cfg : config) (apex www : gmap string Lookup) : WebSection * list string :=
  let domain := cfg_Domain cfg in
  let wwwName := "www." +:+ domain in
  let registrable := registrableDomain domain in
  let apexAll := wantedAddrs cfg [lget apex "A"; lget apex "AAAA"] in
  let wwwAll := if registrable then wantedAddrs cfg [lget www "A"; lget www "AAAA"] else [] in
  let '(apexAddrs, reservedApex) := splitReserved apexAll in
  let '(wwwAddrs, reservedWWW) := splitReserved wwwAll in
  let hosts := hostAddrsByFamily [(domain, apexAddrs); (wwwName, wwwAddrs)] in
  let apexWeb := probeHost cfg domain apexAddrs reservedApex hosts in
  let wwwWeb := if registrable then probeHost cfg wwwName wwwAddrs reservedWWW hosts else None in
  let same := (0 <? length apexAll)%nat && sameAddressSet apexAll wwwAll in
  (mkWeb apexWeb (if same then set_SameAsApex <$> wwwWeb else wwwWeb),
   dedupeStrings (reservedApex ++ reservedWWW)).

End Probe.

(** ** Certificate policies against what was served *)

Definition servedLeaf (h : option HostWeb) : servedCert :=
  match head (omap (fun a => t ← aw_TLS a;
                             leaf ← head (tls_chain t);
                             Some (mkServed (issuerOrg leaf)
                                     (match tls_Cert t with Some c => ci_Wildcard c | None => false end)))
                   (addrs h)) with
  | Some c => c
  | None => noCert
  end.

Section Stamp.
Variables sha256 sha512 : string -> string.

Definition set_TLSA (r : TLSAResult) (a : AddrWeb) : AddrWeb :=
  mkAddrWeb (aw_IP a) (aw_HTTP a) (aw_HTTPS a) (aw_HTTPRes a) (aw_HTTPSRes a) (aw_TLS a) (Some r) (aw_QUIC a)
    (aw_Versions a).

(** The verdict of one address; [None] when it served no chain. *)
Definition addrTLSA (records : list tlsaRecord) (a : AddrWeb) : option TLSAResult :=
  t ← aw_TLS a;
  match tls_chain t with
  | [] => None
  | chain => Some (matchTLSA sha256 sha512 records (map x_cert chain) (tls_pkixValid t))
  end.

Definition stampAddr (records : list tlsaRecord) (a : AddrWeb) : AddrWeb :=
  match addrTLSA records a with Some r => set_TLSA r a | None => a end.

(** The host stamped, whether any address matched and whether any was checked. *)
Definition stampHost (h : HostWeb) (records : list tlsaRecord) : HostWeb * (bool * bool) :=
  let verdicts := omap (addrTLSA records) (addrs (Some h)) in
  (mkHostWeb (hw_SameAsApex h) (hw_ViaWildcard h) (map (stampAddr records) (hw_IPv4 h))
     (map (stampAddr records) (hw_IPv6 h)) (hw_Redirects h) (hw_CertConsistent h),
   (existsb (fun r => bool_decide (r = TLSAMatch)) verdicts, (0 <? length verdicts)%nat)).

Definition stampOne (h : option HostWeb) (rec : Lookup) : option HostWeb * (bool * bool) :=
  let records := parseTLSARecords (l_Records rec) in
  match h, records with
  | Some host, _ :: _ => let '(host, v) := stampHost host records in (Some host, v)
  | _, _ => (h, (false, false))
  end.

Definition stampHosts (apexRec wwwRec : Lookup) (web : WebSection) : WebSection * (bool * bool) :=
  let '(apex, (m1, c1)) := stampOne (web_Apex web) apexRec in
  let '(www, (m2, c2)) := stampOne (web_WWW web) wwwRec in
  (mkWeb apex www, (m1 || m2, c1 || c2)).
End Stamp.

(** ** Only public addresses of the families asked for are contacted *)

Section ProbeLemmas.
Context `{D : Dpdomain} `{P : Psl} `{I : Ipnorm} `{L : UrlLib}.

(** An address the run may contact. *)
Definition contactable (cfg : config) (ip : Addr) : Prop :=
  reservedReason ip = "" /\ wantsFamily cfg (familyOf ip) = true.

Lemma splitReserved_public (l : list Addr) ip : ip ∈ (splitReserved l).1 -> ip ∈ l /\ reservedReason ip = "".
Proof. rewrite (proj1 (splitReserved_spec l)). intros H. apply list_elem_of_filter in H. tauto. Qed.

Lemma wanted_contactable cfg lookups ip :
  ip ∈ (splitReserved (wantedAddrs cfg lookups)).1 -> contactable cfg ip.
Proof.
  intros [Hin Hr]%splitReserved_public. split; [done|]. by apply list_elem_of_filter in Hin as [].
Qed.

Lemma hostAddrsByFamily_elem hosts fam h ip :
  hostAddrsByFamily hosts fam !! h = Some ip -> exists l, (h, l) ∈ hosts /\ ip ∈ l.
Proof.
  intros H. apply elem_of_list_to_map_2, list_elem_of_omap in H as ([h' l] & Hin & E).
  destruct (base.filter (fun ip => familyOf ip = fam) l) as [|x fl] eqn:Ef; [done|].
  injection E as -> ->. exists l. split; [done|].
  assert (Hx : ip ∈ base.filter (fun ip => familyOf ip = fam) l) by (rewrite Ef; by left).
  by apply list_elem_of_filter in Hx as [].
Qed.

Variables probe1 probe2 : probe_fn.
Variables quic1 quic2 : quic_fn.
Variables fetch1 fetch2 : Url -> Addr -> HTTPResult.
Variable cfg : config.
Hypothesis same_probe : forall host ip, contactable cfg ip -> probe1 host ip = probe2 host ip.
Hypothesis same_quic : forall host ip, contactable cfg ip -> quic1 host ip = quic2 host ip.
Hypothesis same_fetch : forall u ip, contactable cfg ip -> fetch1 u ip = fetch2 u ip.

Lemma quicAll_same host l :
  (forall ip, ip ∈ l -> contactable cfg ip) -> quicAll quic1 host l = quicAll quic2 host l.
Proof.
  intros Hl. unfold quicAll. f_equal. apply map_ext_in. intros ip Hip%list_elem_of_In.
  apply elem_of_dedupe_from in Hip as [Hip _]. by rewrite same_quic by auto.
Qed.

Lemma redirectChains_same host hosts :
  (forall fam h ip, hosts fam !! h = Some ip -> contactable cfg ip) ->
  redirectChains fetch1 host hosts = redirectChains fetch2 host hosts.
Proof.
  intros Hh. unfold redirectChains. f_equal. apply list_omap_ext, Forall_Forall2_diag, Forall_forall.
  intros fam _. simpl. destruct (hosts fam !! host); [|done]. f_equal. f_equal.
  unfold followRedirects. apply follow_known. intros u ip _ Hip. eapply same_fetch, Hh, Hip.
Qed.

Lemma probeHost_same host l reserved hosts :
  (forall ip, ip ∈ l -> contactable cfg ip) ->
  (forall fam h ip, hosts fam !! h = Some ip -> contactable cfg ip) ->
  probeHost probe1 quic1 fetch1 cfg host l reserved hosts = probeHost probe2 quic2 fetch2 cfg host l reserved hosts.
Proof.
  intros Hl Hh. unfold probeHost. cbv zeta. rewrite quicAll_same by done. rewrite (redirectChains_same _ _ Hh).
  assert (Hm : map (fun ip => addrEntry (probe1 host ip) (quicAll quic2 host l !! addr_string (ap_IP (probe1 host ip)))) l
             = map (fun ip => addrEntry (probe2 host ip) (quicAll quic2 host l !! addr_string (ap_IP (probe2 host ip)))) l).
  { apply map_ext_in. intros ip Hip%list_elem_of_In. by rewrite same_probe by auto. }
  by rewrite Hm.
Qed.

Lemma probeWeb_same apex www :
  probeWeb probe1 quic1 fetch1 cfg apex www = probeWeb probe2 quic2 fetch2 cfg apex www.
Proof.
  unfold probeWeb.
  pose proof (wanted_contactable cfg [lget apex "A"; lget apex "AAAA"]) as Ha.
  pose proof (wanted_contactable cfg [lget www "A"; lget www "AAAA"]) as Hw.
  set (apexAll := wantedAddrs cfg [lget apex "A"; lget apex "AAAA"]) in *.
  set (wwwAll := wantedAddrs cfg [lget www "A"; lget www "AAAA"]) in *.
  assert (Hw' : forall ip, ip ∈ (splitReserved (if registrableDomain (cfg_Domain cfg) then wwwAll else [])).1 ->
                           contactable cfg ip).
  { destruct (registrableDomain _); [exact Hw|]. simpl. set_solver. }
  destruct (splitReserved apexAll) as [apexAddrs reservedApex].
  destruct (splitReserved (if registrableDomain _ then _ else _)) as [wwwAddrs reservedWWW].
  simpl in Ha, Hw'.
  assert (Hh : forall fam h ip,
    hostAddrsByFamily [(cfg_Domain cfg, apexAddrs); ("www." +:+ cfg_Domain cfg, wwwAddrs)] fam !! h = Some ip ->
    contactable cfg ip).
  { intros fam h ip (l & Hl & Hip)%hostAddrsByFamily_elem. set_solver. }
  rewrite !probeHost_same by done. done.
Qed.
End ProbeLemmas.

(** C15: The web probes contact nothing but public addresses of the families
    asked for: replace every connection, QUIC probe and request of a
    redirect chain to any other address, and the section stays the same,
    whatever the DNS published and whatever a server redirects to. *)
Theorem probeWeb_public_only `{D : Dpdomain} `{P : Psl} `{I : Ipnorm} `{L : UrlLib}
    (probe1 probe2 : probe_fn) (quic1 quic2 : quic_fn) (fetch1 fetch2 : Url -> Addr -> HTTPResult)
    (cfg : config) (apex www : gmap string Lookup) :
  (forall host ip, contactable cfg ip -> probe1 host ip = probe2 host ip) ->
  (forall host ip, contactable cfg ip -> quic1 host ip = quic2 host ip) ->
  (forall u ip, contactable cfg ip -> fetch1 u ip = fetch2 u ip) ->
  probeWeb probe1 quic1 fetch1 cfg apex www = probeWeb probe2 quic2 fetch2 cfg apex www.
Proof. intros Hp Hq Hf. by apply probeWeb_same. Qed.

(** A network where only one address answers, and one where all do. *)
Definition dead_probe (ip : Addr) : addrProbe := mkAddrProbe ip PortTimeout PortTimeout None None None None.
Definition live_probe (ip : Addr) : addrProbe := mkAddrProbe ip PortOpen PortOpen None None None None.
Definition loopback_reserved : Ipnorm :=
  {| ipnorm_Reserved := fun ip => if bool_decide (ip = V4 2130706433) then "loopback" else "" |}.
Definition plain_psl : Psl :=
  {| psl_Lookup := fun d _ => mkPslResult d "nl" true; psl_Registrable := fun d => Some d;
     psl_RDAPServer := fun _ => None |}.
Definition plain_config : config :=
  mkConfig "a.nl" "" systemResolver ["ipv4"; "ipv6"] 3 2 2 18 4 false "" false true false "" false false "" "" "" "".
Definition two_addresses : gmap string Lookup :=
  {[ "A" := mkLookup "a.nl" "A" StatusOK TrustNone ["192.0.2.1"; "127.0.0.1"] [] "" 0 false [] ]}.

Definition guarded {T} (ip : Addr) (public other : T) : T :=
  if String.eqb (@reservedReason loopback_reserved ip) "" then public else other.

Lemma probeWeb_public_only_witness :
  @probeWeb lower_dpdomain plain_psl loopback_reserved root_urls
    (fun _ ip => live_probe ip) (fun _ _ => quicFailed "") (fun _ _ => httpError "up") plain_config two_addresses ∅ =
  @probeWeb lower_dpdomain plain_psl loopback_reserved root_urls
    (fun _ ip => guarded ip (live_probe ip) (dead_probe ip)) (fun _ ip => guarded ip (quicFailed "") (quicFailed "down"))
    (fun _ ip => guarded ip (httpError "up") (httpError "down")) plain_config two_addresses ∅.
Proof.
  apply probeWeb_public_only.
  - intros host ip [Hr _]. unfold guarded. by rewrite Hr.
  - intros host ip [Hr _]. unfold guarded. by rewrite Hr.
  - intros u ip [Hr _]. unfold guarded. by rewrite Hr.
Defined.
