(* ===== verification/Run.v ===== *)
(** * A whole run: run.go

    The environment is what the program asks: the lookups as its cache gives
    them, the trace, the probes, the audits, the preload list, the registry.
    The tasks of one wave run at once in the program and write to disjoint
    places; their order does not matter here. *)

From S2P Require Import Prelude GoStrings Netip Names Records Runner Dog Dig Trace Dnssec Wildcard Caa Tlsa Spf.
From S2P Require Import Mail Tcp Tls Http Versions Web NsAudit Rdap Preload Report Findings ZoneFindings Judge Cli Cache Probe.

(** ** The system's resolver *)

(** The nameserver lines of resolv.conf; [None] is an unreadable file. *)
Definition resolvConfNameservers (file : option string) : list string :=
  match file with
  | None => []
  | Some text =>
      omap (fun line => match Fields line with
                        | "nameserver" :: ns :: _ => Some ns
                        | _ => None
                        end) (Split text newline)
  end.

Definition resolvConfFamilies (file : option string) : list string :=
  base.filter (fun fam => fam <> "")
    (map (fun ns => serverFamily (str_take_while (fun c => negb (Ascii.eqb c "%"%char)) ns))
       (resolvConfNameservers file)).

Definition resolvConfServer (file : option string) (family : string) : option string :=
  head (base.filter (fun ns => ContainsByte ns "%"%char = false /\ serverFamily ns = family)
          (resolvConfNameservers file)).

Definition resolverSupports (cfg : config) (file : option string) (family : string) : bool :=
  if negb (String.eqb (cfg_dnsFamily cfg) "") then String.eqb (cfg_dnsFamily cfg) family
  else if negb (String.eqb (res_Host (cfg_Resolver cfg)) "") then true
  else let fams := resolvConfFamilies file in (length fams =? 0)%nat || member family fams.

(** Whether the resolver validates: [None] when no family answered. *)
Definition resolverValidates (reachTrust : gmap string Trust) : option bool :=
  let seen := base.filter (fun t => t <> TrustNone) (map_to_list reachTrust).*2 in
  if (length seen =? 0)%nat then None else boolPtr (existsb (fun t => bool_decide (t = TrustSecure)) seen).

(** ** The lookups of a run *)

Record dnsResults := mkDnsResults {
  r_apex : gmap string Lookup;
  r_www : option (gmap string Lookup);     (* [None] when www is not looked up *)
  r_ds : Lookup;
  r_dnskey : Lookup;
  r_reach : gmap string Reach;
  r_reachTrust : gmap string Trust;
  r_dmarc : Lookup;
  r_mtaSTS : Lookup;
  r_tlsRPT : Lookup;
  r_wild : list wildProbe;
  r_wildSkip : string;
  r_caaApex : Lookup;
  r_caaWWW : Lookup;
  r_tlsaApex : Lookup;
  r_tlsaWWW : Lookup;
}.

Definition www_of (d : dnsResults) : gmap string Lookup := default ∅ (r_www d).

Definition untrusted (l : Lookup) : Lookup := set_Trust TrustNone l.
Definition untrusted_probe (p : wildProbe) : wildProbe :=
  mkProbe (p_label p) (untrusted (p_a p)) (untrusted (p_aaaa p)).

Definition untrusted_map (m : gmap string Lookup) : gmap string Lookup := untrusted <$> m.

Definition dropTrust (d : dnsResults) : dnsResults :=
  mkDnsResults (untrusted_map (r_apex d)) (untrusted_map <$> r_www d) (untrusted (r_ds d)) (untrusted (r_dnskey d))
    (r_reach d) (r_reachTrust d) (untrusted (r_dmarc d)) (untrusted (r_mtaSTS d)) (untrusted (r_tlsRPT d))
    (map untrusted_probe (r_wild d)) (r_wildSkip d) (untrusted (r_caaApex d)) (untrusted (r_caaWWW d))
    (untrusted (r_tlsaApex d)) (untrusted (r_tlsaWWW d)).

(** ** The zone *)

(** What [classifyDNS] writes to the report. *)
Record zoneReport := mkZone {
  z_DNS : DNSSection;
  z_PublicSuffix : bool;
  z_ReservedName : string;
  z_NotAZone : bool;
  z_EnclosingZone : string;
  z_DNSSEC : DNSSECReport;
  z_Delegation : Delegation;
}.

Definition anyPositive (apex : gmap string Lookup) : bool :=
  existsb (fun t => negb (String.eqb t "NS") && HasRecords (lget apex t)) apexTypes.

Section Zone.
Context `{D : Dpdomain} `{P : Psl}.

(** The owner of a SOA above the name, when a negative answer showed one. *)
Definition enclosingZone (domain : string) (apex : gmap string Lookup) : string :=
  let fqdn := domain +:+ "." in
  default "" (head (omap (fun t =>
    let owner := SOAOwner (lget apex t) in
    if negb (String.eqb owner "") && negb (String.eqb owner fqdn) && HasSuffix fqdn ("." +:+ owner)
    then Some (bareName owner) else None) apexTypes)).

Definition detectNotAZone (domain : string) (apex : gmap string Lookup) (deleg : Delegation) : bool * string :=
  let ns := lget apex "NS" in
  if nonempty (d_ParentNS deleg) then (false, "")
  else if nonempty (l_CNAME ns) then (true, enclosingZone domain apex)
  else if negb (bool_decide (l_Status ns = StatusNXRRSet)) then (false, "")
  else
    let zone := enclosingZone domain apex in
    if String.eqb zone "" && negb (anyPositive apex) then (false, "") else (true, zone).

Definition reservedText (rfc : string) : string := "name reserved by " +:+ rfc +:+ ", outside the global DNS".

(** [probe] is the check with checking disabled, for a lookup that failed. *)
Definition classifyZone (probe : option bogusProbe) (domain : string) (dns : dnsResults) (deleg : Delegation)
    (section : DNSSection) : zoneReport :=
  let suffix := negb (registrableDomain domain) && isPublicSuffix domain in
  let rfc := reservedName domain in
  if negb (String.eqb rfc "") then
    mkZone section suffix rfc false ""
      (mkDNSSEC DNSSECUnknown false false "" (reservedText rfc))
      (mkDeleg DelegationReservedName [] "" [] "" [] [] (reservedText rfc +:+ ": not traced"))
  else
    let '(notAZone, zone) := detectNotAZone domain (r_apex dns) deleg in
    if notAZone then
      mkZone section suffix "" true zone (classifyByTrust (r_apex dns))
        (mkDeleg DelegationNotAZone [] "" [] "" [] []
           ("name is a host inside " +:+ firstNonEmpty [zone; "another zone"]))
    else
      mkZone section suffix "" false zone (classifyDNSSEC (r_ds dns) (r_dnskey dns) (r_apex dns) probe) deleg.

Definition blindDetail : string :=
  "the resolver does not validate DNSSEC (it did not authenticate the signed root zone), so no DNSSEC verdict is possible".

(** The lookups as later checks see them, and the zone. *)
Definition classifyDNS (probe : option bogusProbe) (domain : string) (dns : dnsResults) (deleg : Delegation)
    : dnsResults * zoneReport :=
  let validates := resolverValidates (r_reachTrust dns) in
  let blind := bool_decide (validates = Some false) in
  let dns := if blind then dropTrust dns else dns in
  let z := classifyZone probe domain dns deleg (mkDNS (r_apex dns) (www_of dns) (r_reach dns) validates) in
  (dns,
   if blind && String.eqb (z_ReservedName z) "" then
     mkZone (z_DNS z) (z_PublicSuffix z) (z_ReservedName z) (z_NotAZone z) (z_EnclosingZone z)
       (mkDNSSEC DNSSECUnknown (HasRecords (r_ds dns)) (HasRecords (r_dnskey dns)) "" blindDetail) (z_Delegation z)
   else z).

End Zone.

(** The spans of a run in which its checks ask for names. A name asked for in
    two of them may be answered twice: what one span had no budget left to ask
    is asked in the next ([Session]). *)
Inductive phase := FirstWave | SecondWave | AuditPhase | MailPhase.

(** ** Report assembly *)

Record preloadFacts := mkFacts {
  pf_status : PreloadStatus;
  pf_coveredBy : string;
  pf_policy : string;
  pf_problem : string;
  pf_includeSubdomains : option bool;
}.

Definition noFacts : preloadFacts := mkFacts PreloadNone "" "" "" None.

Section Preloading.
Context `{D : Dpdomain}.

(** [loaded] is what loading the list gave. *)
Definition checkPreload (cfg : config) (loaded : preloadList + string) : preloadFacts :=
  if negb (cfg_HSTSPreload cfg) then noFacts
  else match loaded with
       | inr err => mkFacts PreloadUnknown "" "" (scrubResolver err) None
       | inl l =>
           let '(st, coveredBy, policy) := status (Some l) (cfg_Domain cfg) in
           mkFacts st coveredBy policy (scrubResolver (note l))
             (if negb (bool_decide (st = PreloadPreloaded)) then None
              else if negb (String.eqb coveredBy "") then boolPtr true
              else boolPtr (match entries l !! bareName (cfg_Domain cfg) with
                            | Some rec => includeSubdomains rec
                            | None => false
                            end))
       end.
End Preloading.

(** The sections filled after the DNS phase. *)
Record sections := mkSections {
  x_Web : WebSection;
  x_Mail : option MailReport;
  x_Nameservers : option NSReport;
  x_CAA : option CAAReport;
  x_TLSA : option TLSAReport;
  x_Wildcard : option WildcardReport;
  x_RDAP : option RDAPReport;
  x_ReservedAddresses : list string;
  x_Preload : preloadFacts;
}.

(** [newReport] with what was found, before it is judged. *)
Definition assemble (cfg : config) (version timestamp : string) (deadline : bool) (z : zoneReport)
    (x : sections) : Report :=
  let p := x_Preload x in
  mkReport version timestamp (cfg_Domain cfg) (cfg_UnicodeDomain cfg) (z_NotAZone z) (z_ReservedName z)
    (z_PublicSuffix z) (z_EnclosingZone z) (resolver_String (cfg_Resolver cfg)) (cfg_Families cfg)
    (cfg_TimeoutSec cfg) (cfg_TCPTimeoutSec cfg) (cfg_DNSConcurrency cfg) (cfg_QuicTimeoutSec cfg)
    (cfg_MaxTimeSec cfg) (cfg_RedirectLog cfg) (z_DNS z) (z_DNSSEC z) (z_Delegation z) (x_Web x) ∅
    (x_Mail x) (x_Nameservers x) (x_CAA x) (x_TLSA x) (x_Wildcard x) (x_RDAP x) (x_ReservedAddresses x)
    (pf_status p) (pf_coveredBy p) (pf_policy p) (pf_problem p) (pf_includeSubdomains p)
    [] [] [] false deadline 0.

(** The names of the certificates moved out of the web section. *)
Definition hoisted (rep : Report) (elapsed : Z) : Report :=
  let '(certs, web) := hoistCertNames (rp_Web rep) in
  mkReport (rp_Version rep) (rp_Timestamp rep) (rp_Domain rep) (rp_UnicodeDomain rep) (rp_NotAZone rep)
    (rp_ReservedName rep) (rp_PublicSuffix rep) (rp_EnclosingZone rep) (rp_Resolver rep) (rp_Families rep)
    (rp_TimeoutSec rep) (rp_TCPTimeoutSec rep) (rp_DNSConcurrency rep) (rp_QuicTimeoutSec rep)
    (rp_MaxTimeSec rep) (rp_RedirectLog rep) (rp_DNS rep) (rp_DNSSEC rep) (rp_Delegation rep) web
    certs (rp_Mail rep) (rp_Nameservers rep) (rp_CAA rep) (rp_TLSA rep) (rp_Wildcard rep)
    (rp_RDAP rep) (rp_ReservedAddresses rep) (rp_HSTSPreload rep) (rp_HSTSPreloadCoveredBy rep)
    (rp_HSTSPreloadPolicy rep) (rp_HSTSPreloadError rep) (rp_HSTSPreloadIncludeSubdomains rep)
    (rp_Errors rep) (rp_Warnings rep) (rp_Findings rep) (rp_OK rep) (rp_DeadlineReached rep) elapsed.

(** ** The run *)

Section Run.
Context `{D : Dpdomain} `{P : Psl} `{I : Ipnorm} `{L : UrlLib}.
Variable cfg : config.
(** The build's version, the start, whether the deadline was reached, and the
    milliseconds spent. *)
Variables version timestamp : string.
Variable deadline : bool.
Variable elapsed : Z.
(** The answers of dog to the queries of each phase, through the cache, and to
    the root query sent to one server. *)
Variable answer : phase -> query -> Lookup.
Variable rootNS : string -> Lookup.
Variable resolvConf : option string.
Variable lookupNetIP : string -> string -> option (list Addr).
(** The random labels drawn, for the wildcard probes and for DKIM. *)
Variable labels : list string.
Variable controlLabel : string.
Variable trace : Delegation.
Variable bogus : option bogusProbe.
Variable probe : probe_fn.
Variable quic : quic_fn.
Variable fetch : Url -> Addr -> HTTPResult.
(** The audits of the name servers, in the order they finished, and dig's
    answer to the glue query. *)
Variable audits : NSReport -> list NSServer.
Variable glueAnswer : list digMessage.
Variable ParsePKIX : string -> pkixKey.
Variable ParsePKCS1 : string -> option Z.
(** The MTA-STS policy file: its text and the error of fetching it. *)
Variable policyFile : string * string.
Variable preloaded : preloadList + string.
Variable registration : option RDAPReport.
Variables sha256 sha512 : string -> string.

Definition lookup_in (p : phase) : lookupFn := get (answer p).

Definition serverForFamily (family : string) : option string :=
  let res := cfg_Resolver cfg in
  if String.eqb (res_Host res) "" then resolvConfServer resolvConf family
  else if negb (String.eqb (cfg_dnsFamily cfg) "") then Some (dogServer res)
  else match lookupNetIP (if String.eqb family "ipv4" then "ip4" else "ip6") (res_Host res) with
       | Some (ip :: _) =>
           Some (JoinHostPort (addr_string (Unmap ip)) (Itoa (if (res_Port res =? 0)%Z then 53 else res_Port res)))
       | _ => None
       end.

Definition checkReachability (family : string) : Reach * Trust :=
  if negb (resolverSupports cfg resolvConf family) then (ReachSkipped, TrustNone)
  else match serverForFamily family with
       | None => (ReachNo, TrustNone)
       | Some server =>
           let l := rootNS server in
           if Answered l then (ReachYes, l_Trust l) else (ReachNo, TrustNone)
       end.

Definition lookups_of (name : string) (types : list string) : gmap string Lookup :=
  list_to_map (map (fun t => (t, lookup_in FirstWave name t)) types).

(** The fixed lookups and the resolver's reachability. *)
Definition firstWave : dnsResults :=
  let d := cfg_Domain cfg in
  let www := "www." +:+ d in
  let registrable := registrableDomain d in
  let lookup := lookup_in FirstWave in
  let on_www name t := if registrable then lookup name t else zeroLookup in
  let reach := map (fun fam => (fam, checkReachability fam)) (cfg_Families cfg) in
  mkDnsResults (lookups_of d apexTypes) (if registrable then Some (lookups_of www wwwTypes) else None)
    (lookup d "DS") (lookup d "DNSKEY")
    (list_to_map (map (fun p => (p.1, p.2.1)) reach)) (list_to_map (map (fun p => (p.1, p.2.2)) reach))
    (lookup ("_dmarc." +:+ d) "TXT") (lookup ("_mta-sts." +:+ d) "TXT")
    (lookup ("_smtp._tls." +:+ d) "TXT") [] "" (lookup d "CAA") (on_www www "CAA")
    (lookup ("_443._tcp." +:+ d) "TLSA") (on_www ("_443._tcp." +:+ www) "TLSA").

Definition with_wild (dns : dnsResults) (skipped : string) (wild : list wildProbe) : dnsResults :=
  mkDnsResults (r_apex dns) (r_www dns) (r_ds dns) (r_dnskey dns) (r_reach dns) (r_reachTrust dns)
    (r_dmarc dns) (r_mtaSTS dns) (r_tlsRPT dns) wild skipped (r_caaApex dns) (r_caaWWW dns)
    (r_tlsaApex dns) (r_tlsaWWW dns).

(** Both waves. Of the second one, only the wildcard probes leave more than
    answers in the cache. *)
Definition gatherDNS : dnsResults :=
  let dns := firstWave in
  let '(wildSkip, wild) :=
    probeWildcard (r_apex dns) (www_of dns) labels (lookup_in SecondWave) (cfg_Domain cfg) in
  with_wild dns wildSkip wild.

(** The names looked up in the second wave, to warm the cache. *)
Definition dependentLookups (dns : dnsResults) : list (string * string) :=
  let both h := [(h, "A"); (h, "AAAA")] in
  (if registrySuffix (cfg_Domain cfg) then []
   else map (fun sel => (sel +:+ "._domainkey." +:+ cfg_Domain cfg, "TXT")) dkimSelectors)
  ++ concat (map both (mxHosts (lget (r_apex dns) "MX")))
  ++ concat (map both (nsNames (lget (r_apex dns) "NS")))
  ++ (if sts_Record (parseMTASTSRecord (r_mtaSTS dns)) then both ("mta-sts." +:+ cfg_Domain cfg) else []).

Definition with_glue (g : option GlueReport) (n : NSReport) : NSReport :=
  mkNSReport (nr_Count n) (nr_Servers n) (nr_SerialsConsistent n) (nr_IPv4Prefixes24 n) (nr_IPv6Prefixes48 n)
    g (nr_NSDomains n) (nr_NSCNAME n) (nr_Unresolvable n) (nr_Unresolved n) (nr_addrs n).

Definition auditNameservers (dns : dnsResults) (z : zoneReport) : option NSReport :=
  if z_NotAZone z || negb (String.eqb (z_ReservedName z) "") then None
  else
    let own := nsNames (lget (r_apex dns) "NS") in
    let names := match own with [] => d_ParentNS (z_Delegation z) | _ => own end in
    match names with
    | [] => None
    | _ =>
        let n := resolveNS names (lookup_in AuditPhase) in
        let n := auditAll n (cfg_Families cfg) (audits n) in
        Some (if negb (String.eqb (d_ParentServer (z_Delegation z)) "")
                 && negb (bool_decide (d_Status (z_Delegation z) = DelegationSameServers))
              then with_glue (checkGlue glueAnswer (cfg_Domain cfg) names (nr_addrs n)) n
              else n)
    end.

Definition noMailPossible (dns : dnsResults) (z : zoneReport) : bool :=
  z_NotAZone z || negb (String.eqb (z_ReservedName z) "") || registrySuffix (cfg_Domain cfg)
  || nameDoesNotExist (r_apex dns).

(** [None] only when the SPF evaluation runs out of fuel. *)
Definition assessMail (dns : dnsResults) (skip : bool) : option (option MailReport) :=
  if skip then Some None
  else
    spf ← evaluateSPF (lookup_in MailPhase) (cfg_Domain cfg) (lget (r_apex dns) "TXT");
    let mx := lget (r_apex dns) "MX" in
    let sts := checkMTASTS policyFile (r_mtaSTS dns) (mxHosts mx) in
    let rpt := hasTLSRPT (r_tlsRPT dns) in
    Some (Some (mkMail (parseDMARC (r_dmarc dns)) spf (checkMX (lookup_in MailPhase) mx)
                  (probeDKIM ParsePKIX ParsePKCS1 (cfg_Domain cfg) controlLabel (lookup_in MailPhase)) (Some sts) rpt
                  (Answered (r_mtaSTS dns) && negb (sts_Record sts)) (Answered (r_tlsRPT dns) && negb rpt))).

(** The section, and the web section with www marked as the wildcard's. *)
Definition wildcardSection (dns : dnsResults) (web : WebSection) : WildcardReport * WebSection :=
  let w := assessWildcard (r_wild dns) (r_wildSkip dns) (lget (www_of dns) "A") (lget (www_of dns) "AAAA") in
  (w, if w_WWWViaWildcard w then mkWeb (web_Apex web) (set_ViaWildcard <$> web_WWW web) else web).

(** The two sections, and the web section with its addresses stamped. *)
Definition assessCertPolicies (dns : dnsResults) (web : WebSection)
    : option CAAReport * option TLSAReport * WebSection :=
  if apexAbsent (r_apex dns) then (None, None, web)
  else
    let wwwProbed := match r_www dns with Some _ => true | None => false end in
    let caa := assessCAA (r_caaApex dns) (r_caaWWW dns) (servedLeaf (web_Apex web)) (servedLeaf (web_WWW web))
                 wwwProbed in
    let stamp a w := stampHosts sha256 sha512 a w web in
    let tlsa := assessTLSA (r_tlsaApex dns) (r_tlsaWWW dns) (fun a w => (stamp a w).2) wwwProbed in
    (Some caa, Some tlsa, (stamp (r_tlsaApex dns) (if wwwProbed then r_tlsaWWW dns else zeroLookup)).1).

Definition finishReport (rep : Report) : Report := hoisted (buildFindings rep) elapsed.

(** A name reserved by RFC is not in the global DNS. *)
Definition reserved : bool := negb (String.eqb (reservedName (cfg_Domain cfg)) "").

(** The two tasks a reserved name has not: [None] is a task that was never
    started, and leaves its part of the report as it was. *)
Definition startedTrace : option Delegation := if reserved then None else Some trace.

Definition startedWeb : option (WebSection * list string) :=
  if reserved then None else Some (probeWeb probe quic fetch cfg (r_apex gatherDNS) (www_of gatherDNS)).

(** A zone whose delegated servers stayed silent is audited first, and is all
    the report when none of them answers. *)
Definition run : option Report :=
  let '(web, reservedAddresses) := default (mkWeb None None, []) startedWeb in
  let '(dns, z) := classifyDNS bogus (cfg_Domain cfg) gatherDNS (default zeroDeleg startedTrace) in
  let early := delegationSilent (z_Delegation z) (lget (r_apex dns) "NS") in
  let nameservers := auditNameservers dns z in
  let report x := assemble cfg version timestamp deadline z x in
  let dead := report (mkSections (mkWeb None None) None nameservers None None None registration
                        reservedAddresses noFacts) in
  if early && zoneUnreachable dead then Some (finishReport dead)
  else
    mail ← assessMail dns (noMailPossible dns z);
    let '(wildcard, web) := wildcardSection dns web in
    let '(caa, tlsa, web) := assessCertPolicies dns web in
    Some (finishReport (report (mkSections web mail nameservers caa tlsa (Some wildcard) registration
                                  reservedAddresses (checkPreload cfg preloaded)))).

(** ** Lemmas *)

(** The lookups and the zone the rest of the run works with. *)
Definition zone_phase : dnsResults * zoneReport :=
  classifyDNS bogus (cfg_Domain cfg) gatherDNS (default zeroDeleg startedTrace).

Lemma assessMail_Some dns skip : exists m, assessMail dns skip = Some m /\ (skip = true -> m = None).
Proof.
  unfold assessMail. destruct skip; [eauto|].
  destruct (evaluateSPF_Some (lookup_in MailPhase) (cfg_Domain cfg) (lget (r_apex dns) "TXT")) as [spf ->].
  eexists. split; [reflexivity|done].
Qed.

Lemma empty_web_wildcard dns : (wildcardSection dns (mkWeb None None)).2 = mkWeb None None.
Proof. unfold wildcardSection. cbv zeta. cbn [snd web_Apex web_WWW]. by destruct (w_WWWViaWildcard _). Qed.

Lemma empty_web_policies dns : (assessCertPolicies dns (mkWeb None None)).2 = mkWeb None None.
Proof. unfold assessCertPolicies. by destruct (apexAbsent _). Qed.

Lemma policies_tlsa dns web t :
  (assessCertPolicies dns web).1.2 = Some t ->
  exists stamp probed, t = assessTLSA (r_tlsaApex dns) (r_tlsaWWW dns) stamp probed.
Proof. unfold assessCertPolicies. destruct (apexAbsent _); [done|]. cbn. intros [= <-]. eauto. Qed.

Lemma classifyZone_DNS b domain dns deleg section : z_DNS (classifyZone b domain dns deleg section) = section.
Proof. unfold classifyZone. destruct (negb _); [done|]. by destruct (detectNotAZone _ _ _) as [[] ?]. Qed.

(** The section of the report is made of the lookups that go on. *)
Lemma zone_phase_apex : dns_Apex (z_DNS zone_phase.2) = r_apex zone_phase.1.
Proof.
  unfold zone_phase, classifyDNS. cbn [fst snd]. destruct (_ && _); cbn [z_DNS]; by rewrite classifyZone_DNS.
Qed.

(** Every run ends in one judged report on its zone. *)
Lemma run_shape :
  exists x,
    run = Some (finishReport (assemble cfg version timestamp deadline zone_phase.2 x)) /\
    (forall t, x_TLSA x = Some t ->
       exists stamp probed, t = assessTLSA (r_tlsaApex zone_phase.1) (r_tlsaWWW zone_phase.1) stamp probed) /\
    (reserved = true -> noMailPossible zone_phase.1 zone_phase.2 = true ->
     auditNameservers zone_phase.1 zone_phase.2 = None ->
     x_Web x = mkWeb None None /\ x_Mail x = None /\ x_Nameservers x = None /\ x_ReservedAddresses x = []) /\
    (zoneUnreachable (assemble cfg version timestamp deadline zone_phase.2 x) = true ->
     x_Web x = mkWeb None None /\ x_Mail x = None /\ x_CAA x = None /\ x_TLSA x = None /\ x_Wildcard x = None).
Proof.
  unfold run. fold zone_phase. pose proof zone_phase_apex as Hapex.
  destruct (default _ startedWeb) as [web reservedAddresses] eqn:Ew.
  assert (Hw : reserved = true -> web = mkWeb None None /\ reservedAddresses = []).
  { intros E. unfold startedWeb in Ew. rewrite E in Ew. by injection Ew as <- <-. }
  clear Ew. destruct zone_phase as [dns z]. cbn [fst snd] in *.
  destruct (_ && zoneUnreachable _) eqn:Eu.
  { eexists. split; [reflexivity|]. cbn. split; [done|].
    split; [intros E _ ->; by destruct (Hw E) as [_ ->]|done]. }
  destruct (assessMail_Some dns (noMailPossible dns z)) as (m & -> & Hm). cbn [mbind option_bind].
  pose proof (empty_web_wildcard dns) as Hwild.
  destruct (wildcardSection dns web) as [wildcard web1] eqn:E1.
  pose proof (policies_tlsa dns web1) as Ht. pose proof (empty_web_policies dns) as Hpol.
  destruct (assessCertPolicies dns web1) as [[caa tlsa] web2] eqn:E2.
  eexists. split; [reflexivity|]. split; [exact Ht|]. split.
  2:{ intros Hz. unfold zoneUnreachable in Hz, Eu. cbn in Hz, Eu. rewrite Hapex in Hz, Eu. rewrite Hz in Eu.
      rewrite andb_true_r in Eu. simp_bool. congruence. }
  cbn. intros E Hmail ->. destruct (Hw E) as [-> ->]. rewrite E1 in Hwild. simpl in Hwild. subst web1. rewrite E2 in Hpol. simpl in Hpol. 
  split; [done|]. split; [by apply Hm|done].
Qed.

(** The wildcard section, when there is one, is made of the probes alone. *)
Lemma run_wildcard :
  exists x,
    run = Some (finishReport (assemble cfg version timestamp deadline zone_phase.2 x)) /\
    forall w, x_Wildcard x = Some w -> w = (wildcardSection zone_phase.1 (mkWeb None None)).1.
Proof.
  unfold run. fold zone_phase.
  destruct (default _ startedWeb) as [web reservedAddresses].
  destruct zone_phase as [dns z]. cbn [fst]. destruct (_ && zoneUnreachable _); [by eexists|].
  destruct (assessMail_Some dns (noMailPossible dns z)) as (m & -> & _). cbn [mbind option_bind].
  destruct (wildcardSection dns web) as [wildcard web1] eqn:E1. destruct (assessCertPolicies dns web1) as [[caa tlsa] web2].
  eexists. split; [reflexivity|]. cbn. intros w [= <-]. unfold wildcardSection in *. cbv zeta in *. by injection E1 as <- _.
Qed.

(** With a resolver that validates the lookups go on as they are, and the zone
    is judged by them and the trace. *)
Lemma zone_phase_seen :
  resolverValidates (r_reachTrust gatherDNS) <> Some false -> reservedName (cfg_Domain cfg) = "" ->
  zone_phase.1 = gatherDNS /\
  (z_NotAZone zone_phase.2 = false ->
   z_DNSSEC zone_phase.2 = classifyDNSSEC (r_ds gatherDNS) (r_dnskey gatherDNS) (r_apex gatherDNS) bogus /\
   z_Delegation zone_phase.2 = trace).
Proof.
  intros Hv Hr. unfold zone_phase, classifyDNS, startedTrace, reserved. rewrite Hr, bool_decide_false by done.
  cbn [String.eqb negb andb fst snd default]. split; [done|]. unfold classifyZone. rewrite Hr. cbn [String.eqb negb].
  by destruct (detectNotAZone _ _ _) as [[] zone].
Qed.

Lemma untrusted_map_empty : untrusted_map ∅ = ∅.
Proof. unfold untrusted_map. by rewrite fmap_empty. Qed.

(** Judging and hoisting leave the rest of the report alone. *)
Lemma finishReport_fields rep :
  rp_DNS (finishReport rep) = rp_DNS rep /\ rp_DNSSEC (finishReport rep) = rp_DNSSEC rep /\
  rp_TLSA (finishReport rep) = rp_TLSA rep /\ rp_Delegation (finishReport rep) = rp_Delegation rep /\
  rp_Domain (finishReport rep) = rp_Domain rep /\ rp_Mail (finishReport rep) = rp_Mail rep /\
  rp_Nameservers (finishReport rep) = rp_Nameservers rep /\
  rp_ReservedAddresses (finishReport rep) = rp_ReservedAddresses rep /\
  rp_ReservedName (finishReport rep) = rp_ReservedName rep /\
  rp_Web (finishReport rep) = (hoistCertNames (rp_Web rep)).2 /\
  rp_OK (finishReport rep) = rp_OK (buildFindings rep) /\
  rp_Findings (finishReport rep) = rp_Findings (buildFindings rep).
Proof.
  unfold finishReport, hoisted. change (rp_Web (buildFindings rep)) with (rp_Web rep).
  destruct (hoistCertNames (rp_Web rep)). repeat split.
Qed.

(** The DNS section of the report is the lookups of the first wave, without
    their trust when the resolver does not validate. *)
Lemma run_dns :
  exists rep, run = Some rep /\ rp_Domain rep = cfg_Domain cfg /\
    let validates := resolverValidates (r_reachTrust gatherDNS) in
    let kept m := if bool_decide (validates = Some false) then untrusted_map m else m in
    rp_DNS rep = mkDNS (kept (r_apex firstWave)) (kept (www_of firstWave)) (r_reach firstWave) validates.
Proof.
  destruct run_shape as (x & Hrun & _). eexists. split; [exact Hrun|]. split.
  { unfold finishReport, hoisted. by destruct (hoistCertNames _). }
  destruct (finishReport_fields (assemble cfg version timestamp deadline zone_phase.2 x)) as (-> & _).
  cbn [assemble rp_DNS]. cbv zeta.
  assert (Hg : r_apex gatherDNS = r_apex firstWave /\ www_of gatherDNS = www_of firstWave /\ r_reach gatherDNS = r_reach firstWave).
  { unfold gatherDNS. by destruct (probeWildcard _ _ _ _ _). }
  destruct Hg as (<- & <- & <-). unfold zone_phase, classifyDNS. cbn [snd].
  destruct (bool_decide _); cbn [andb];
    [destruct (String.eqb _ ""); cbn [z_DNS]|]; rewrite classifyZone_DNS; try done;
    unfold www_of, dropTrust; cbn [r_apex r_www r_reach]; destruct (r_www gatherDNS); cbn; by rewrite ?untrusted_map_empty.
Qed.


(** ** A resolver that does not validate *)

Lemma untrusted_map_none m k l : untrusted_map m !! k = Some l -> l_Trust l = TrustNone.
Proof. unfold untrusted_map. rewrite lookup_fmap. destruct (m !! k); intros; by simplify_eq/=. Qed.

Lemma assessTLSA_unsigned a w stamp probed :
  l_Trust a = TrustNone -> ts_Signed (assessTLSA a w stamp probed) = false.
Proof.
  intros Ha. assert (Hs : tlsaSigned a = false) by (unfold tlsaSigned; by rewrite Ha).
  unfold assessTLSA. rewrite Hs. cbn [andb]. destruct (_ =? 0)%nat; [by destruct (_ || _)|].
  by destruct (stamp _ _).
Qed.

Lemma zone_phase_blind :
  resolverValidates (r_reachTrust gatherDNS) = Some false ->
  zone_phase.1 = dropTrust gatherDNS /\ s_State (z_DNSSEC zone_phase.2) = DNSSECUnknown /\
  z_DNS zone_phase.2 = mkDNS (r_apex zone_phase.1) (www_of zone_phase.1) (r_reach gatherDNS) (Some false).
Proof.
  intros Hb. unfold zone_phase, classifyDNS. rewrite Hb. rewrite bool_decide_eq_true_2 by done.
  cbn [fst snd]. split; [done|].
  set (z := classifyZone _ _ _ _ _).
  assert (Hz : z_DNS z = mkDNS (r_apex (dropTrust gatherDNS)) (www_of (dropTrust gatherDNS)) (r_reach gatherDNS) (Some false)
               /\ (z_ReservedName z <> "" -> s_State (z_DNSSEC z) = DNSSECUnknown)).
  { subst z. unfold classifyZone. destruct (negb (String.eqb (reservedName _) "")); [done|].
    destruct (detectNotAZone _ _ _) as [[] zone]; done. }
  destruct Hz as [H1 H2]. cbn [andb]. destruct (String.eqb_spec (z_ReservedName z) ""); cbn; auto.
Qed.

(** C5: A resolver that does not validate is believed about nothing that
    needs validation. When no root answer was authenticated, the report
    says so, gives no verdict on DNSSEC, carries no trust on any lookup and
    never calls TLSA records signed. *)
Theorem run_blind_withholds :
  resolverValidates (r_reachTrust gatherDNS) = Some false ->
  exists rep, run = Some rep /\
    dns_ResolverValidates (rp_DNS rep) = Some false /\
    s_State (rp_DNSSEC rep) = DNSSECUnknown /\
    (forall k l, dns_Apex (rp_DNS rep) !! k = Some l \/ dns_WWW (rp_DNS rep) !! k = Some l -> l_Trust l = TrustNone) /\
    (forall t, rp_TLSA rep = Some t -> ts_Signed t = false).
Proof.
  intros Hb. destruct run_shape as (x & Hr & Ht & _). destruct (zone_phase_blind Hb) as (Hd & Hs & Hz).
  eexists. split; [exact Hr|].
  destruct (finishReport_fields (assemble cfg version timestamp deadline zone_phase.2 x))
    as (-> & -> & -> & _).
  cbn [assemble rp_DNS rp_DNSSEC rp_TLSA]. rewrite Hz, Hd. cbn [dns_ResolverValidates dns_Apex dns_WWW].
  refine (conj eq_refl (conj Hs (conj _ _))).
  - intros k l [H|H]; [exact (untrusted_map_none (r_apex gatherDNS) k l H)|]. unfold www_of, dropTrust in H. cbn [r_www] in H.
    destruct (r_www gatherDNS) as [m|]; [exact (untrusted_map_none m k l H)|]. simpl in H. by rewrite lookup_empty in H.
  - intros t E. destruct (Ht t E) as (stamp & probed & ->). apply assessTLSA_unsigned. by rewrite Hd.
Qed.

(** ** Reserved names *)

Lemma zone_phase_reserved :
  reserved = true ->
  z_ReservedName zone_phase.2 = reservedName (cfg_Domain cfg) /\
  d_Status (z_Delegation zone_phase.2) = DelegationReservedName.
Proof.
  intros Hr. unfold zone_phase, classifyDNS, classifyZone. unfold reserved in Hr. rewrite Hr.
  destruct (bool_decide _); cbn [fst snd z_ReservedName z_Delegation andb]; [|done].
  apply negb_true_iff in Hr. by rewrite Hr.
Qed.


End Run.

(** ** A run to try the theorems on *)

Definition quiet_dog (_ : phase) (q : query) : Lookup := mkLookup (q_name q) (q_type q) StatusNXRRSet TrustSecure [] [] "" 0 false [].
Definition root_answer (t : Trust) (_ : string) : Lookup := mkLookup "." "NS" StatusOK t ["a.root."] [] "" 0 false [].

Definition config_for (domain : string) : config :=
  mkConfig domain "" (mkResolver "9.9.9.9" 0) ["ipv4"] 3 2 2 18 4 false "" false false false "" false false "" "" "" "ipv4".

Definition sample_run (domain : string) (rootTrust : Trust) : option Report :=
  @run lower_dpdomain plain_psl loopback_reserved root_urls (config_for domain) "devel" "" false 0 quiet_dog
    (root_answer rootTrust) None (fun _ _ => None) [] "x" zeroDeleg None (fun _ ip => dead_probe ip)
    (fun _ _ => quicFailed "") (fun _ _ => httpError "") (fun _ => []) [] (fun _ => PkixError) (fun _ => None)
    ("", "") (inr "") None (fun s => s) (fun s => s).


Lemma run_blind_withholds_witness :
  exists rep, sample_run "a.nl" TrustInsecure = Some rep /\ s_State (rp_DNSSEC rep) = DNSSECUnknown.
Proof.
  destruct (@run_blind_withholds lower_dpdomain plain_psl loopback_reserved root_urls (config_for "a.nl")
    "devel" "" false 0%Z quiet_dog (root_answer TrustInsecure) None (fun _ _ => None) [] "x" zeroDeleg None
    (fun _ ip => dead_probe ip) (fun _ _ => quicFailed "") (fun _ _ => httpError "") (fun _ => []) []
    (fun _ => PkixError) (fun _ => None) ("", "") (inr "") None (fun s => s) (fun s => s))
    as (rep & Hrun & _ & Hs & _); [by vm_compute|].
  exists rep. split; [exact Hrun|exact Hs].
Defined.
