(* ===== verification/RunTruth.v ===== *)
(** * What a report says of a domain is so

    The references put together: with answers that a validating resolver can
    give of one zone, a trace that walked along one chain of zones, and
    random names put to one zone, the sections of the report that [Run.run]
    makes are those of the zones. *)

From S2P Require Import Prelude GoStrings Netip Names Records Runner Dog Dig Trace TraceText Dnssec Wildcard Tls Http Tcp Rdap Preload NsAudit Mail Web Report Findings Judge Cli Cache Probe Run DelegRef DnssecRef WildRef.

Section RunTruth.
Context `{D : Dpdomain} `{P : Psl} `{I : Ipnorm} `{L : UrlLib}.
Variable cfg : config.
Variables version timestamp : string.
Variable deadline : bool.
Variable elapsed : Z.
Variable answer : phase -> query -> Lookup.
Variable rootNS : string -> Lookup.
Variable resolvConf : option string.
Variable lookupNetIP : string -> string -> option (list Addr).
Variable labels : list string.
Variable controlLabel : string.
Variable trace : Delegation.
Variable bogus : option bogusProbe.
Variable probe : probe_fn.
Variable quic : quic_fn.
Variable fetch : Url -> Addr -> HTTPResult.
Variable audits : NSReport -> list NSServer.
Variable glueAnswer : list digMessage.
Variable ParsePKIX : string -> pkixKey.
Variable ParsePKCS1 : string -> option Z.
Variable policyFile : string * string.
Variable preloaded : preloadList + string.
Variable registration : option RDAPReport.
Variables sha256 sha512 : string -> string.

Let domain := cfg_Domain cfg.
Let dns := gatherDNS cfg answer rootNS resolvConf lookupNetIP labels.
Let the_run := run cfg version timestamp deadline elapsed answer rootNS resolvConf lookupNetIP labels controlLabel
  trace bogus probe quic fetch audits glueAnswer ParsePKIX ParsePKCS1 policyFile preloaded registration sha256 sha512.

(** ** What is asked, and of what *)

(** The first wave is answered as a validating resolver can answer of [s]. *)
Definition answers_of (s : signing) : Prop :=
  (forall t, t ∈ "DS" :: "DNSKEY" :: apexTypes ->
     resolves s t (lookup_in answer FirstWave domain t) /\ l_Type (lookup_in answer FirstWave domain t) = t) /\
  explained s (r_ds dns) (r_dnskey dns) (r_apex dns) /\
  (forall p, bogus = Some p -> probe_sound s p).

(** The random names, the domain and www are answered as in [w]; none of the
    latter is an alias that leads nowhere. *)
Definition names_of (w : zone) : Prop :=
  z_domain w = domain /\ (forall label, label ∈ labels -> fresh w label) /\
  (forall label t, label ∈ labels -> t ∈ ["A"; "AAAA"] ->
     truthful w (label +:+ "." +:+ domain) t (lookup_in answer SecondWave (label +:+ "." +:+ domain) t)) /\
  (forall name, name ∈ [domain; "www." +:+ domain] ->
     truthful w name "A" (lookup_in answer FirstWave name "A") /\
     (l_Status (lookup_in answer FirstWave name "A") = StatusNXDomain ->
      l_CNAME (lookup_in answer FirstWave name "A") = [])).

(** The trace walked along [zs] and ended so. *)
Definition trace_of (hosts : string -> string -> bool) (zs : list dzone) (e : ending) : Prop :=
  exists z0 hops banner diags tr auth,
    chain_ok (fqdnOf domain) zs /\ head zs = Some z0 /\ dz_name z0 <> fqdnOf domain /\
    (forall z s, last zs = Some z -> fqdnOf s ∈ dz_above z -> hosts s (fqdnOf domain) = true) /\
    (forall s, digAuthoritative (run_stdout (auth s)) = hosts s (fqdnOf domain)) /\
    Forall banner_ok banner /\ Forall diag_ok diags /\ run_stdout tr = print_trace banner hops diags /\
    walk hosts (fqdnOf domain) zs hops e /\ trace = traced tr auth domain.

(** ** Lemmas *)

Lemma gathered :
  r_ds dns = lookup_in answer FirstWave domain "DS" /\ r_dnskey dns = lookup_in answer FirstWave domain "DNSKEY" /\
  r_apex dns = lookups_of answer domain apexTypes /\
  (r_www dns = None \/ r_www dns = Some (lookups_of answer ("www." +:+ domain) wwwTypes)) /\
  (r_wildSkip dns, r_wild dns) =
    probeWildcard (r_apex dns) (www_of dns) labels (lookup_in answer SecondWave) domain.
Proof.
  unfold dns, gatherDNS.
  destruct (probeWildcard _ _ _ _ _) as [skip wild] eqn:E. cbn [r_ds r_dnskey r_apex r_www r_wildSkip r_wild with_wild].
  split_and!; [done..| |by rewrite <-E].
  unfold firstWave. cbn [r_www]. destruct (registrableDomain _); auto.
Qed.

Lemma looked_up_run s : answers_of s -> looked_up s (r_ds dns) (r_dnskey dns) (r_apex dns).
Proof.
  intros (Ha & _). destruct gathered as (-> & -> & -> & _). split_and!; [apply Ha; set_solver..|].
  intros t l H. unfold lookups_of in H. rewrite lookup_tabulate in H. destruct (decide (t ∈ apexTypes)); [|done].
  injection H as <-. apply Ha. set_solver.
Qed.

Lemma traced_status hosts zs e z :
  trace_of hosts zs e -> last zs = Some z -> status_of_walk z e (d_Status trace).
Proof.
  intros (z0 & hops & banner & diags & tr & auth & Hc & H0 & Hne & Hl & Ha & Hb & Hd & Ht & Hw & ->) Hz.
  eapply traced_walk; try done. intros s. by apply Hl.
Qed.

Lemma lget_lookups name types t : t ∈ types -> lget (lookups_of answer name types) t = lookup_in answer FirstWave name t.
Proof. intros H. unfold lget, mget, lookups_of. by rewrite lookup_tabulate, decide_True. Qed.

Lemma unasked_truthful w name t : truthful w name t zeroLookup.
Proof. unfold truthful. cbn. split_and!; try done. set_solver. Qed.

Lemma wildcard_seen w :
  zone_ok w -> names_of w ->
  let rep := (wildcardSection dns (mkWeb None None)).1 in
  (w_Status rep = WildcardPresent -> catches w) /\ (w_Status rep = WildcardAbsent -> ~ catches w).
Proof.
  intros Hw (Hd & Hf & Hg & Hfirst). destruct gathered as (_ & _ & Ha & Hwww & Hpw). cbv zeta.
  assert (Hname : forall name, name ∈ [domain; "www." +:+ domain] ->
    forall m, m = lookup_in answer FirstWave name "A" \/ m = zeroLookup ->
    truthful w name "A" m /\ (l_Status m = StatusNXDomain -> l_CNAME m = [])).
  { intros name Hin m [->| ->]; [by apply Hfirst|]. split; [apply unasked_truthful|done]. }
  assert (Hapex : lget (r_apex dns) "A" = lookup_in answer FirstWave domain "A")
    by (rewrite Ha; apply lget_lookups; by left).
  assert (Hw3 : lget (www_of dns) "A" = lookup_in answer FirstWave ("www." +:+ domain) "A" \/ lget (www_of dns) "A" = zeroLookup).
  { unfold www_of. destruct Hwww as [->| ->]; [by right|]. left. apply lget_lookups. by left. }
  destruct (Hname domain ltac:(by left) _ (or_introl Hapex)) as [H1 H2].
  destruct (Hname ("www." +:+ domain) ltac:(right; by left) _ Hw3) as [H3 H4].
  rewrite <-Hd in H1, H3, Hpw, Hg.
  assert (Hal : forall l, l ∈ [lget (r_apex dns) "A"; lget (www_of dns) "A"] -> l_Status l = StatusNXDomain -> l_CNAME l = []).
  { intros l [->| ->%list_elem_of_singleton]%elem_of_cons; done. }
  pose proof (wildcard_sound w (r_apex dns) (www_of dns) labels (lookup_in answer SecondWave)
    (lget (www_of dns) "A") (lget (www_of dns) "AAAA") Hw Hf Hg H1 H3 Hal) as H.
  rewrite <-Hpw in H. destruct H as (Hp & Hn & _). by split.
Qed.

(** ** Properties *)

(** C4: What the report says of a domain is so. For a name that is not
    reserved, with a resolver that validates: when the lookups are answered
    as the zone's DNSSEC lets a validating resolver answer, the trace is one
    that dig can make along the zones above, and the random names are
    answered as the zone answers them, every run ends with a report whose
    DNSSEC state is so, whose delegation status is that of the zones and of
    how the walk ended, unless it takes the name for a host inside a zone,
    and whose wildcard verdict is the zone's. The delegation of a zone without
    NS records on its parent's servers is the exception: it is called not
    delegated. *)
Theorem report_is_so (s : signing) (w : zone) (hosts : string -> string -> bool) (zs : list dzone) (e : ending) :
  reservedName domain = "" -> resolverValidates (r_reachTrust dns) <> Some false ->
  signing_ok s -> answers_of s -> zone_ok w -> names_of w -> trace_of hosts zs e ->
  exists rep, the_run = Some rep /\
    (rp_NotAZone rep = false ->
       so s (s_State (rp_DNSSEC rep)) /\
       (forall z, last zs = Some z -> status_of_walk z e (d_Status (rp_Delegation rep)))) /\
    (forall wild, rp_Wildcard rep = Some wild ->
       (w_Status wild = WildcardPresent -> catches w) /\ (w_Status wild = WildcardAbsent -> ~ catches w)).
Proof.
  intros Hr Hv Hs Ha Hw Hn Ht. unfold the_run.
  destruct (run_wildcard cfg version timestamp deadline elapsed answer rootNS resolvConf lookupNetIP labels controlLabel
    trace bogus probe quic fetch audits glueAnswer ParsePKIX ParsePKCS1 policyFile preloaded registration sha256 sha512)
    as (x & Hrun & Hx).
  destruct (zone_phase_seen cfg answer rootNS resolvConf lookupNetIP labels trace bogus Hv Hr) as (Hdns & Hzone).
  eexists. split; [exact Hrun|]. set (rep := assemble _ _ _ _ _ x) in *.
  destruct (finishReport_fields elapsed rep) as (_ & -> & _ & -> & _).
  assert (rp_NotAZone (finishReport elapsed rep) = rp_NotAZone rep /\ rp_Wildcard (finishReport elapsed rep) = x_Wildcard x) as [-> ->].
  { unfold finishReport, hoisted. by destruct (hoistCertNames _). }
  split.
  - intros Hnz. destruct (Hzone Hnz) as [Hd Hdel].
    change (rp_DNSSEC rep) with (Run.z_DNSSEC (zone_phase cfg answer rootNS resolvConf lookupNetIP labels trace bogus).2).
    change (rp_Delegation rep) with (Run.z_Delegation (zone_phase cfg answer rootNS resolvConf lookupNetIP labels trace bogus).2).
    rewrite Hd, Hdel. destruct Ha as (Ha1 & Ha2 & Ha3). split; [|intros z; by eapply traced_status].
    apply verdict_so; [done|by apply looked_up_run|done..].
  - intros wild Hwild. rewrite (Hx wild Hwild), Hdns. by apply wildcard_seen.
Qed.
End RunTruth.

(** *** A signed zone with a wildcard and a server its parent does not know *)

Definition signed_zone : signing := mkSigning true true true true true true (fun t => member t ["A"; "NS"]).

Definition signed_answers (p : phase) (q : query) : Lookup :=
  match p with
  | FirstWave => if String.eqb (q_name q) "a.nl" then heard signed_zone (q_type q) else wild_answer (q_name q) (q_type q)
  | _ => wild_answer (q_name q) (q_type q)
  end.

Definition sample_labels : list string := ["qx"; "qy"].

Definition signed_run : option Report :=
  @run dotted_dpdomain plain_psl loopback_reserved root_urls (config_for "a.nl") "devel" "" false 0 signed_answers
    (root_answer TrustSecure) None (fun _ _ => None) sample_labels "x" (@traced dotted_dpdomain sample_trace sample_auth "a.nl")
    None (fun _ ip => dead_probe ip) (fun _ _ => quicFailed "") (fun _ _ => httpError "") (fun _ => []) []
    (fun _ => PkixError) (fun _ => None) ("", "") (inr "") None (fun s => s) (fun s => s).

Lemma signed_answers_of :
  @answers_of dotted_dpdomain plain_psl (config_for "a.nl") signed_answers (root_answer TrustSecure) None (fun _ _ => None)
    sample_labels None signed_zone.
Proof.
  split_and!; [|intros failed H; vm_compute in H; discriminate H|done].
  intros t Ht. split; [apply (heard_resolves signed_zone t)|].
  unfold lookup_in, get. cbn. unfold heard. by destruct (holds signed_zone t).
Qed.

Lemma signed_names_of :
  @names_of dotted_dpdomain (config_for "a.nl") signed_answers sample_labels wild_zone.
Proof.
  split_and!; [done|intros label [->| ->%list_elem_of_singleton]%elem_of_cons; reflexivity| |].
  - intros label t [->| ->%list_elem_of_singleton]%elem_of_cons Ht; by apply wild_answer_truthful.
  - intros name [->| ->%list_elem_of_singleton]%elem_of_cons.
    + split; [|done]. apply (wild_answer_truthful "a.nl" "A"). by left.
    + split; [|done]. apply (wild_answer_truthful "www.a.nl" "A"). by left.
Qed.

Lemma sample_trace_of :
  @trace_of dotted_dpdomain (config_for "a.nl") (@traced dotted_dpdomain sample_trace sample_auth "a.nl") sample_hosts
    sample_zones FromChild.
Proof.
  exists (mkDZone "." [] [] "."), sample_walk, [""], [], sample_trace, sample_auth.
  split_and!; [exact sample_chain|done|done| |exact sample_asked|by repeat constructor|constructor|done|exact sample_walks|done].
  intros z s [= <-]. apply sample_listed.
Qed.

Lemma report_is_so_witness :
  exists rep, signed_run = Some rep /\ rp_NotAZone rep = false /\
    so signed_zone (s_State (rp_DNSSEC rep)) /\ d_Status (rp_Delegation rep) = DelegationMismatch /\
    (forall wild, rp_Wildcard rep = Some wild -> w_Status wild = WildcardPresent -> catches wild_zone).
Proof.
  assert (Hz : rp_NotAZone <$> signed_run = Some false) by (vm_compute; reflexivity).
  destruct (@report_is_so dotted_dpdomain plain_psl loopback_reserved root_urls (config_for "a.nl") "devel" "" false 0
    signed_answers (root_answer TrustSecure) None (fun _ _ => None) sample_labels "x"
    (@traced dotted_dpdomain sample_trace sample_auth "a.nl") None (fun _ ip => dead_probe ip) (fun _ _ => quicFailed "")
    (fun _ _ => httpError "") (fun _ => []) [] (fun _ => PkixError) (fun _ => None) ("", "") (inr "") None
    (fun s => s) (fun s => s) signed_zone wild_zone sample_hosts sample_zones FromChild) as (rep & Hrun & Hz' & Hw).
  - vm_compute. reflexivity.
  - intros H. vm_compute in H. discriminate H.
  - intros t _. reflexivity.
  - exact signed_answers_of.
  - exact wild_zone_ok.
  - exact signed_names_of.
  - exact sample_trace_of.
  - change (signed_run = Some rep) in Hrun. rewrite Hrun in Hz. injection Hz as Hnz. destruct (Hz' Hnz) as [Hs Hd].
    exists rep. split; [exact Hrun|]. split; [exact Hnz|]. split; [exact Hs|].
    split; [rewrite (proj1 (Hd sample_zone eq_refl)) by (intros [? _]; discriminate); reflexivity|]. intros wild E. apply (Hw wild E).
Defined.
