(* ===== verification/Session.v ===== *)
(** * The memo through a whole run (run.go)

    [Cache] is about the callers of one wave. A run has several spans, each
    with a context of its own: the two waves, the audit that may come first,
    the probes. Its one thread moves the memo to the next context
    ([setContext]), and may clear the trust of what is in it ([dropTrust]),
    only when every check of the span before has returned. The checks of a
    span ask for what they please, when they please, depending on what they
    were told. *)

From S2P Require Import Prelude GoStrings Names Records Dog Cache Run.

(** One call of [get] with a normalised name. *)
Record call := mkCall { k_span : nat; k_query : query; k_at : caller }.

Record session := mkSession {
  s_done : gmap string Lookup;
  s_span : nat;                      (* which context is the memo's *)
  s_spent : bool;                    (* that context has ended *)
  s_calls : list call;
  s_fetched : list (nat * query);    (* the times dog was run, for the record *)
}.

Definition session_init : session := mkSession ∅ 0 false [] [].

Definition is_answered (c : call) : bool :=
  match k_at c with Answered_with _ => true | _ => false end.

Definition goes_to (c : call) (a : caller) : call := mkCall (k_span c) (k_query c) a.

(** [newLookupCache] is [session_init]; the rest of a span ends with its
    [parallel]. *)
Definition joined (s : session) : Prop := Forall (fun c => is_answered c = true) (s_calls s).

#[export] Instance joined_dec s : Decision (joined s).
Proof. unfold joined. apply _. Defined.

(** [setContext]: the memo moves to the next span's context, still alive. *)
Definition setContext (s : session) : session :=
  mkSession (s_done s) (S (s_span s)) false (s_calls s) (s_fetched s).

(** [lookupCache.dropTrust]: every memoised lookup loses its trust. *)
Definition memo_dropTrust (s : session) : session :=
  mkSession (untrusted_map (s_done s)) (s_span s) (s_spent s) (s_calls s) (s_fetched s).

Section Session.
(** What dog may answer to a query when it is run, killed or not. *)
Variable dog_answers : query -> Lookup -> Prop.

Inductive session_step : session -> session -> Prop :=
| se_call s q :
    no_slash (q_type q) = true ->
    session_step s (mkSession (s_done s) (s_span s) (s_spent s)
                      (s_calls s ++ [mkCall (s_span s) q Waiting]) (s_fetched s))
| se_hit s i c l :
    s_calls s !! i = Some c -> k_at c = Waiting -> s_done s !! cache_key (k_query c) = Some l ->
    session_step s (mkSession (s_done s) (s_span s) (s_spent s)
                      (<[i := goes_to c (Answered_with l)]> (s_calls s)) (s_fetched s))
| se_miss s i c :
    s_calls s !! i = Some c -> k_at c = Waiting -> s_done s !! cache_key (k_query c) = None ->
    session_step s (mkSession (s_done s) (s_span s) (s_spent s)
                      (<[i := goes_to c Missed]> (s_calls s)) (s_fetched s))
| se_too_late s i c :
    s_calls s !! i = Some c -> k_at c = Missed -> s_spent s = true ->
    session_step s (mkSession (s_done s) (s_span s) (s_spent s)
                      (<[i := goes_to c (Answered_with (expiredLookup (k_query c)))]> (s_calls s)) (s_fetched s))
| se_fetch s i c :
    s_calls s !! i = Some c -> k_at c = Missed -> s_spent s = false ->
    session_step s (mkSession (s_done s) (s_span s) (s_spent s)
                      (<[i := goes_to c Running]> (s_calls s)) ((s_span s, k_query c) :: s_fetched s))
| se_store s i c l :
    s_calls s !! i = Some c -> k_at c = Running -> dog_answers (k_query c) l ->
    session_step s (mkSession (<[cache_key (k_query c) := l]> (s_done s)) (s_span s) (s_spent s)
                      (<[i := goes_to c (Answered_with l)]> (s_calls s)) (s_fetched s))
| se_expire s :
    session_step s (mkSession (s_done s) (s_span s) true (s_calls s) (s_fetched s))
| se_setContext s :
    joined s ->
    session_step s (setContext s)
| se_dropTrust s :
    joined s ->
    session_step s (memo_dropTrust s).

(** ** Lemmas *)

(** The answer is dog's, its trust perhaps withdrawn. *)
Definition from_dog (q : query) (l : Lookup) : Prop :=
  exists l0, dog_answers q l0 /\ (l = l0 \/ l = untrusted l0).

Lemma untrusted_idemp l : untrusted (untrusted l) = untrusted l.
Proof. done. Qed.

Lemma from_dog_untrusted q l : from_dog q l -> from_dog q (untrusted l).
Proof. intros (l0 & Hd & [->| ->]); exists l0; auto. Qed.

Lemma from_dog_same q l : dog_answers q l -> from_dog q l.
Proof. intros H. exists l. auto. Qed.

#[local] Hint Resolve from_dog_untrusted from_dog_same : go.

(** Where a call is, against the span and the runs of dog. *)
Definition call_ok (s : session) (c : call) : Prop :=
  no_slash (q_type (k_query c)) = true /\ (k_span c <= s_span s)%nat /\
  (is_answered c = false -> k_span c = s_span s) /\
  match k_at c with
  | Waiting => True
  | Missed => forall n, (n, k_query c) ∈ s_fetched s -> n = s_span s
  | Running => (s_span s, k_query c) ∈ s_fetched s
  | Answered_with l => from_dog (k_query c) l \/ l = expiredLookup (k_query c)
  end.

(** A run of dog is stored by the time its span ends. *)
Definition fetch_ok (s : session) (f : nat * query) : Prop :=
  no_slash (q_type f.2) = true /\ (f.1 <= s_span s)%nat /\
  (is_Some (s_done s !! cache_key f.2) \/
   (f.1 = s_span s /\ exists c, c ∈ s_calls s /\ k_query c = f.2 /\ k_at c = Running)).

(** What a call of a later span is told is what is in the memo for good. *)
Definition late_ok (s : session) : Prop :=
  forall n c l, (n, k_query c) ∈ s_fetched s -> c ∈ s_calls s -> (n < k_span c)%nat -> k_at c = Answered_with l ->
    exists d, s_done s !! cache_key (k_query c) = Some d /\ untrusted d = untrusted l.

Definition session_inv (s : session) : Prop :=
  (forall c, c ∈ s_calls s -> call_ok s c) /\
  (forall f, f ∈ s_fetched s -> fetch_ok s f) /\
  (forall k d, s_done s !! k = Some d ->
     exists q n, k = cache_key q /\ no_slash (q_type q) = true /\ (n, q) ∈ s_fetched s /\ from_dog q d) /\
  (forall n m q, (n, q) ∈ s_fetched s -> (m, q) ∈ s_fetched s -> n = m) /\
  late_ok s.

(** What a step does to the calls: one of them moves. *)
Lemma elem_of_moved (l : list call) i c a d :
  l !! i = Some c -> d ∈ <[i := goes_to c a]> l -> d = goes_to c a \/ d ∈ l.
Proof.
  intros Hi [j Hj]%list_elem_of_lookup. apply insert_lookup_cases in Hj as [[_ <-]|[_ Hj]]; [auto|].
  right. by eapply list_elem_of_lookup_2.
Qed.

(** A call that is somewhere else than the one that moves is still there. *)
Lemma still_there (l : list call) i c a d :
  l !! i = Some c -> d ∈ l -> k_at d <> k_at c -> d ∈ <[i := goes_to c a]> l.
Proof.
  intros Hi [j Hj]%list_elem_of_lookup Hne. apply (list_elem_of_lookup_2 _ j).
  rewrite list_lookup_insert_ne; [done|]. intros ->. congruence.
Qed.

Lemma moved_there (l : list call) i c a : l !! i = Some c -> goes_to c a ∈ <[i := goes_to c a]> l.
Proof.
  intros Hi. apply (list_elem_of_lookup_2 _ i). apply list_lookup_insert_eq. by eapply lookup_lt_Some.
Qed.

(** A move of one call that leaves the memo alone. *)
Lemma moved_inv s i c a fetched :
  session_inv s -> s_calls s !! i = Some c -> is_answered c = false -> is_Some (s_done s !! cache_key (k_query c)) \/ k_at c <> Running ->
  (fetched = s_fetched s \/ fetched = (s_span s, k_query c) :: s_fetched s /\ a = Running /\ k_at c = Missed) ->
  call_ok (mkSession (s_done s) (s_span s) (s_spent s) (<[i := goes_to c a]> (s_calls s)) fetched) (goes_to c a) ->
  (forall n l, a = Answered_with l -> (n, k_query c) ∈ s_fetched s -> (n < s_span s)%nat ->
     exists d, s_done s !! cache_key (k_query c) = Some d /\ untrusted d = untrusted l) ->
  session_inv (mkSession (s_done s) (s_span s) (s_spent s) (<[i := goes_to c a]> (s_calls s)) fetched).
Proof.
  intros (Hc & Hf & Hd & Hu & Hl) Hi Ha Hrun Hfet Hok Hlate.
  assert (Hin : c ∈ s_calls s) by (by eapply list_elem_of_lookup_2).
  destruct (Hc c Hin) as (Hslash & Hspan & Hopen & Hat). specialize (Hopen Ha).
  assert (Hsub : forall f, f ∈ s_fetched s -> f ∈ fetched) by (intros f; destruct Hfet as [->|[-> _]]; [done|by right]).
  assert (Hnew : forall n q, (n, q) ∈ fetched -> (n, q) ∈ s_fetched s \/
            ((n, q) = (s_span s, k_query c) /\ a = Running /\ forall m, (m, k_query c) ∈ s_fetched s -> m = s_span s)).
  { intros n q. destruct Hfet as [->|(-> & -> & Em)]; [auto|]. rewrite Em in Hat.
    intros [?|?]%elem_of_cons; auto. }
  split_and!; cbn [s_calls s_done s_fetched s_span].
  - intros d [->|H]%(elem_of_moved _ _ _ _ _ Hi); [done|]. destruct (Hc d H) as (H1 & H2 & H3 & H4).
    split_and!; [done..|]. destruct (k_at d) eqn:E; cbn [s_fetched s_span]; try done; [|auto].
    intros n Hn. destruct (Hnew _ _ Hn) as [?|[[= -> _] _]]; auto.
  - intros [n q] Hn. destruct (Hnew _ _ Hn) as [H|[[= -> ->] [-> _]]].
    + destruct (Hf _ H) as (H1 & H2 & [H3|(H3 & d & Hd1 & Hd2 & Hd3)]); cbn in *; (split_and!; [done..|]); [by left|].
      destruct (decide (k_at c = Running)) as [E|E].
      * destruct Hrun as [Hrun|]; [|done]. destruct (decide (k_query c = q)) as [<-|Hne]; [by left|].
        right. split; [done|]. exists d. split_and!; [|done..].
        destruct (list_elem_of_lookup_1 _ _ Hd1) as [j Hj]. cbn [s_calls]. apply (list_elem_of_lookup_2 _ j).
        rewrite list_lookup_insert_ne; [done|]. intros ->. congruence.
      * right. split; [done|]. exists d. split_and!; [|done..]. eapply still_there; [done|done|congruence].
    + cbn. split_and!; [done..|]. right. split; [done|]. eexists. split_and!; [by eapply moved_there|done..].
  - intros k d H. destruct (Hd k d H) as (q & n & H1 & H2 & H3 & H4). exists q, n. auto.
  - intros n m q H1 H2. destruct (Hnew _ _ H1) as [H3|(E1 & _ & H3)], (Hnew _ _ H2) as [H4|(E2 & _ & H4)];
      simplify_eq; eauto. symmetry. eauto.
  - intros n d l Hn [->|H]%(elem_of_moved _ _ _ _ _ Hi) Hlt Hat'; cbn in *.
    + destruct (Hnew _ _ Hn) as [H|(E & -> & _)]; [|done]. apply (Hlate n); [done..|lia].
    + destruct (Hnew _ _ Hn) as [H'|(E & _)]; [by eapply Hl|].
      injection E as -> _. destruct (Hc d H) as (_ & Hle & _). lia.
Qed.

Lemma stored_inv s i c l :
  session_inv s -> s_calls s !! i = Some c -> k_at c = Running -> dog_answers (k_query c) l ->
  session_inv (mkSession (<[cache_key (k_query c) := l]> (s_done s)) (s_span s) (s_spent s) (s_calls s) (s_fetched s)).
Proof.
  intros (Hc & Hf & Hd & Hu & Hl) Hi Hat Hdog.
  assert (Hin : c ∈ s_calls s) by (by eapply list_elem_of_lookup_2).
  destruct (Hc c Hin) as (Hslash & Hspan & _ & Hfet). rewrite Hat in Hfet.
  split_and!; cbn [s_calls s_done s_fetched s_span].
  - intros d H. exact (Hc d H).
  - intros f H. destruct (Hf f H) as (H1 & H2 & H3). split_and!; [done..|]. destruct H3 as [H3|H3]; [left|by right].
    cbn [s_done]. destruct (decide (cache_key (k_query c) = cache_key f.2)) as [->|E];
      [rewrite lookup_insert_eq; eauto|by rewrite lookup_insert_ne].
  - intros k d [[<- <-]|[_ H]]%lookup_insert_Some; [|by apply Hd].
    exists (k_query c), (s_span s). split_and!; auto with go.
  - exact Hu.
  - intros n d l' Hn H Hlt Hat'. destruct (decide (k_query d = k_query c)) as [E|E].
    + rewrite E in Hn. rewrite (Hu _ _ _ Hn Hfet) in Hlt. destruct (Hc d H) as (_ & Hle & _). lia.
    + destruct (Hl n d l' Hn H Hlt Hat') as (x & Hx & Hx'). exists x. split; [|done]. cbn [s_done]. rewrite lookup_insert_ne; [done|].
      intros Ek. apply E. symmetry. apply cache_key_inj; [done|by apply (Hc d H)|done].
Qed.

Lemma joined_answered s c : joined s -> c ∈ s_calls s -> is_answered c = true.
Proof. unfold joined. rewrite Forall_forall. auto. Qed.

(** The next context finds every call answered, so no run of dog is open. *)
Lemma setContext_inv s : session_inv s -> joined s -> session_inv (setContext s).
Proof.
  intros (Hc & Hf & Hd & Hu & Hl) Hj.
  split_and!; cbn; [| |done|done|done].
  - intros d H. pose proof (joined_answered s d Hj H) as E. destruct (Hc d H) as (H1 & H2 & _ & H4).
    split_and!; cbn; [done|lia|congruence|]. unfold is_answered in E. by destruct (k_at d).
  - intros f H. destruct (Hf f H) as (H1 & H2 & [H3|(_ & d & Hd1 & _ & Hd2)]).
    + split_and!; cbn; [done|lia|by left].
    + pose proof (joined_answered s d Hj Hd1) as E. unfold is_answered in E. by rewrite Hd2 in E.
Qed.

Lemma dropTrust_inv s : session_inv s -> joined s -> session_inv (memo_dropTrust s).
Proof.
  intros (Hc & Hf & Hd & Hu & Hl) Hj.
  split_and!; cbn; [exact Hc| | |exact Hu|].
  - intros f H. destruct (Hf f H) as (H1 & H2 & H3). split_and!; [done..|]. cbn.
    unfold untrusted_map. rewrite lookup_fmap, fmap_is_Some. exact H3.
  - cbn. unfold untrusted_map. intros k d. rewrite lookup_fmap, fmap_Some. intros (d0 & H & ->).
    destruct (Hd k d0 H) as (q & n & H1 & H2 & H3 & H4). exists q, n. auto with go.
  - intros n c l Hn Hin Hlt Hat. destruct (Hl n c l Hn Hin Hlt Hat) as (d & Hd1 & Hd2).
    exists (untrusted d). split; [|done]. cbn. unfold untrusted_map. by rewrite lookup_fmap, Hd1.
Qed.

Lemma session_inv_step s s' : session_inv s -> session_step s s' -> session_inv s'.
Proof.
  intros Hinv. pose proof Hinv as (Hc & Hf & Hd & Hu & Hl).
  destruct 1 as [s q Hq|s i c l Hi Ha Hl'|s i c Hi Ha Hn|s i c Hi Ha He|s i c Hi Ha He|s i c l Hi Ha Hdog|s|s Hj|s Hj];
    try (assert (Hin : c ∈ s_calls s) by (by eapply list_elem_of_lookup_2);
         destruct (Hc c Hin) as (Hslash & Hspan & Hopen & Hat); rewrite Ha in Hat;
         assert (Hna : is_answered c = false) by (unfold is_answered; by rewrite Ha); specialize (Hopen Hna)).
  - split_and!; cbn [s_calls s_done s_fetched s_span].
    + intros d [H| ->%list_elem_of_singleton]%elem_of_app; [exact (Hc d H)|]. by split_and!.
    + intros f H. destruct (Hf f H) as (H1 & H2 & [H3|(H3 & d & Hd1 & Hd2)]); (split_and!; [done..|]); [by left|].
      right. split; [done|]. exists d. cbn. rewrite elem_of_app. auto.
    + done.
    + done.
    + intros n d l Hn [H| ->%list_elem_of_singleton]%elem_of_app; [by eapply Hl|done].
  - apply moved_inv; [done|done|done|right; by rewrite Ha|by left| |].
    + destruct (Hd _ _ Hl') as (q & n & Hk & Hs & _ & Hfrom). apply cache_key_inj in Hk; [subst|done|done].
      split_and!; [done..|]. by left.
    + intros n l0 [= <-] _ _. by exists l.
  - apply moved_inv; [done|done|done|right; by rewrite Ha|by left| |done].
    split_and!; [done..|]. cbn. intros n Hfet. destruct (Hf _ Hfet) as (_ & _ & [H|[H _]]); cbn in H; [|done].
    rewrite Hn in H. by destruct H.
  - apply moved_inv; [done|done|done|right; by rewrite Ha|by left| |].
    + split_and!; [done..|]. by right.
    + intros n l0 _ Hfet Hlt. specialize (Hat n Hfet). lia.
  - apply moved_inv; [done|done|done|right; by rewrite Ha|by right| |done].
    split_and!; [done..|]. cbn. by left.
  - pose proof (stored_inv s i c l Hinv Hi Ha Hdog) as Hst.
    apply (moved_inv _ i c (Answered_with l) (s_fetched s)) in Hst; [exact Hst|done|done| |by left| |].
    + left. cbn. rewrite lookup_insert_eq. eauto.
    + split_and!; [done..|]. left. auto with go.
    + cbn. intros n l0 _ Hfet Hlt. rewrite (Hu _ _ _ Hfet Hat) in Hlt. lia.
  - split_and!; [exact Hc|exact Hf|exact Hd|exact Hu|exact Hl].
  - by apply setContext_inv.
  - by apply dropTrust_inv.
Qed.

Lemma session_inv_reachable s : rtc session_step session_init s -> session_inv s.
Proof.
  intros H. eapply rtc_preserves; [exact session_inv_step|exact H|].
  split_and!; cbn; try (by intros ? ?%elem_of_nil); [by intros k d ?%lookup_empty_Some|by intros ? ? ? ?%elem_of_nil|].
  by intros n c l ?%elem_of_nil.
Qed.

(** *** Every call can be answered *)

Definition call_work (c : call) : nat :=
  match k_at c with Waiting => 3 | Missed => 2 | Running => 1 | Answered_with _ => 0 end.

Definition session_work (s : session) : nat := sum_list_with call_work (s_calls s).

Lemma session_progress s :
  (forall q, exists l, dog_answers q l) -> ~ joined s ->
  exists s', session_step s s' /\ (session_work s' < session_work s)%nat.
Proof.
  intros Htotal Hn. apply not_Forall_Exists, Exists_exists in Hn as (c & [i Hi]%list_elem_of_lookup & Hc);
    [|intros x; apply _].
  assert (Hless : forall a, (call_work (goes_to c a) < call_work c)%nat ->
            (sum_list_with call_work (<[i := goes_to c a]> (s_calls s)) < session_work s)%nat).
  { intros a H. pose proof (sum_insert call_work _ _ (goes_to c a) _ Hi). unfold session_work. lia. }
  apply not_true_is_false in Hc. unfold is_answered in Hc. destruct (k_at c) as [| | |l] eqn:E; [..|done].
  - destruct (s_done s !! cache_key (k_query c)) as [l|] eqn:Hd; eexists; (split;
      [first [by eapply se_hit|by eapply se_miss]|apply Hless; unfold call_work; rewrite E; cbn; lia]).
  - destruct (s_spent s) eqn:Hs; eexists; (split;
      [first [by eapply se_too_late|by eapply se_fetch]|apply Hless; unfold call_work; rewrite E; cbn; lia]).
  - destruct (Htotal (k_query c)) as [l Hl]. eexists. split; [by eapply se_store|].
    apply Hless. unfold call_work. rewrite E. cbn. lia.
Qed.

End Session.

(** ** Properties *)

(** C16: One memo serves the whole run. Whatever the checks ask, in whatever
    order, and whenever a budget runs out: a call is told what dog answered
    to its own query, with the trust withdrawn at most, or that the budget was
    spent; dog is run for a query in one span of the run only; and every call
    for it in a later span is told what came of that, trust aside: its answer,
    or the timeout of a dog that the budget killed. All calls can always be
    answered. *)
Theorem lookups_of_a_run (dog_answers : query -> Lookup -> Prop) (s : session) :
  (forall q, exists l, dog_answers q l) -> rtc (session_step dog_answers) session_init s ->
  (forall c l, c ∈ s_calls s -> k_at c = Answered_with l ->
     from_dog dog_answers (k_query c) l \/ l = expiredLookup (k_query c)) /\
  (forall n m q, (n, q) ∈ s_fetched s -> (m, q) ∈ s_fetched s -> n = m) /\
  (forall n q, (n, q) ∈ s_fetched s -> (n < s_span s)%nat ->
     exists d, from_dog dog_answers q d /\
       forall c l, c ∈ s_calls s -> k_query c = q -> (n < k_span c)%nat -> k_at c = Answered_with l ->
         untrusted l = untrusted d) /\
  (exists s', rtc (session_step dog_answers) s s' /\ joined s').
Proof.
  intros Htotal Hs. pose proof (session_inv_reachable _ _ Hs) as (Hc & Hf & Hd & Hu & Hl). split_and!.
  - intros c l H E. destruct (Hc c H) as (_ & _ & _ & H4). by rewrite E in H4.
  - exact Hu.
  - intros n q Hn Hlt. destruct (Hf _ Hn) as (Hq & _ & [[d Ed]|[H _]]); cbn in *; [|lia].
    exists d. split.
    + destruct (Hd _ _ Ed) as (q' & m & Hk & Hs' & _ & Hfrom). apply cache_key_inj in Hk; [by subst|done|done].
    + intros c l Hin <- Hspan E. destruct (Hl n c l Hn Hin Hspan E) as (d' & Hd' & <-). congruence.
  - apply (rtc_completes _ (fun _ => True) joined session_work); [done| |done].
    intros x _. by apply session_progress.
Qed.

(** ** A lookup cut short by its span's budget *)

(** dog is killed before it can answer. *)
Definition dog_killed (q : query) (l : Lookup) : Prop := l = timedOutLookup (q_name q) (q_type q).

Definition late_include : query := mkQuery "spf.a.nl" "TXT".

Definition cut_short : Lookup := timedOutLookup "spf.a.nl" "TXT".

Definition cut_session : session :=
  mkSession {[ "spf.a.nl/TXT" := cut_short ]} 1 false
    [mkCall 0 late_include (Answered_with cut_short); mkCall 1 late_include (Answered_with cut_short)]
    [(0%nat, late_include)].

(** A lookup that runs when the budget of its span ends is killed, and its
    timeout is kept: the next span, with a budget of its own, does not ask. *)
Lemma cut_short_inherited : rtc (session_step dog_killed) session_init cut_session.
Proof.
  eapply rtc_l; [by apply (se_call _ session_init late_include)|].
  eapply rtc_l; [by apply (se_miss _ _ 0 (mkCall 0 late_include Waiting))|].
  eapply rtc_l; [by apply (se_fetch _ _ 0 (mkCall 0 late_include Missed))|].
  eapply rtc_l; [apply se_expire|].
  eapply rtc_l; [by apply (se_store _ _ 0 (mkCall 0 late_include Running) cut_short)|].
  eapply rtc_l; [apply se_setContext; by repeat constructor|].
  eapply rtc_l; [by apply (se_call _ _ late_include)|].
  eapply rtc_l; [by apply (se_hit _ _ 1 (mkCall 1 late_include Waiting) cut_short)|].
  apply rtc_refl.
Qed.

Lemma lookups_of_a_run_witness :
  rtc (session_step dog_killed) session_init cut_session /\
  (forall n m q, (n, q) ∈ s_fetched cut_session -> (m, q) ∈ s_fetched cut_session -> n = m) /\
  exists d, from_dog dog_killed late_include d /\ untrusted cut_short = untrusted d.
Proof.
  assert (Ht : forall q, exists l, dog_killed q l) by (intros q; eexists; reflexivity).
  destruct (lookups_of_a_run dog_killed cut_session Ht cut_short_inherited) as (_ & Hu & Hl & _).
  split; [exact cut_short_inherited|]. split; [exact Hu|].
  destruct (Hl 0%nat late_include) as (d & Hd & Hc); [by left|cbn; lia|].
  exists d. split; [exact Hd|].
  apply (Hc (mkCall 1 late_include (Answered_with cut_short))); [right; by left|done|cbn; lia|done].
Defined.
