(* ===== verification/Waves.v ===== *)
(** * The tasks of a run at work (run.go)

    [Run] takes the lookups of a wave as a function of the query. Here the
    wave is what the program starts: one task per lookup and per address
    family, running at once, sharing the memo and the results under a mutex.
    The theorem is that the function is what the tasks leave, whatever their
    interleaving. *)

From S2P Require Import Prelude GoStrings Netip Names Records Dnssec Wildcard Report Cli Cache Probe Run.

(** ** The first wave (gatherDNS, fixedLookups, store) *)

(** Where a fixed lookup's answer goes. *)
Inductive slot :=
| SApex (t : string) | SWWW (t : string) | SDS | SDNSKEY | SDMARC | SMTASTS | STLSRPT
| SCAAApex | STLSAApex | SCAAWWW | STLSAWWW.

#[export] Instance slot_eq_dec : EqDecision slot.
Proof. solve_decision. Defined.

Definition put (s : slot) (l : Lookup) (r : dnsResults) : dnsResults :=
  let '(mkDnsResults apex www ds dnskey reach trust dmarc sts rpt wild skipped caaA caaW tlsaA tlsaW) := r in
  match s with
  | SApex t => mkDnsResults (<[t := l]> apex) www ds dnskey reach trust dmarc sts rpt wild skipped caaA caaW tlsaA tlsaW
  | SWWW t => mkDnsResults apex (insert t l <$> www) ds dnskey reach trust dmarc sts rpt wild skipped caaA caaW tlsaA tlsaW
  | SDS => mkDnsResults apex www l dnskey reach trust dmarc sts rpt wild skipped caaA caaW tlsaA tlsaW
  | SDNSKEY => mkDnsResults apex www ds l reach trust dmarc sts rpt wild skipped caaA caaW tlsaA tlsaW
  | SDMARC => mkDnsResults apex www ds dnskey reach trust l sts rpt wild skipped caaA caaW tlsaA tlsaW
  | SMTASTS => mkDnsResults apex www ds dnskey reach trust dmarc l rpt wild skipped caaA caaW tlsaA tlsaW
  | STLSRPT => mkDnsResults apex www ds dnskey reach trust dmarc sts l wild skipped caaA caaW tlsaA tlsaW
  | SCAAApex => mkDnsResults apex www ds dnskey reach trust dmarc sts rpt wild skipped l caaW tlsaA tlsaW
  | STLSAApex => mkDnsResults apex www ds dnskey reach trust dmarc sts rpt wild skipped caaA caaW l tlsaW
  | SCAAWWW => mkDnsResults apex www ds dnskey reach trust dmarc sts rpt wild skipped caaA l tlsaA tlsaW
  | STLSAWWW => mkDnsResults apex www ds dnskey reach trust dmarc sts rpt wild skipped caaA caaW tlsaA l
  end.

Definition read (s : slot) (r : dnsResults) : option Lookup :=
  match s with
  | SApex t => r_apex r !! t
  | SWWW t => m ← r_www r; m !! t
  | SDS => Some (r_ds r)
  | SDNSKEY => Some (r_dnskey r)
  | SDMARC => Some (r_dmarc r)
  | SMTASTS => Some (r_mtaSTS r)
  | STLSRPT => Some (r_tlsRPT r)
  | SCAAApex => Some (r_caaApex r)
  | STLSAApex => Some (r_tlsaApex r)
  | SCAAWWW => Some (r_caaWWW r)
  | STLSAWWW => Some (r_tlsaWWW r)
  end.

Definition put_reach (fam : string) (reach : Reach) (r : dnsResults) : dnsResults :=
  mkDnsResults (r_apex r) (r_www r) (r_ds r) (r_dnskey r) (<[fam := reach]> (r_reach r)) (r_reachTrust r)
    (r_dmarc r) (r_mtaSTS r) (r_tlsRPT r) (r_wild r) (r_wildSkip r) (r_caaApex r) (r_caaWWW r)
    (r_tlsaApex r) (r_tlsaWWW r).

Definition put_trust (fam : string) (t : Trust) (r : dnsResults) : dnsResults :=
  mkDnsResults (r_apex r) (r_www r) (r_ds r) (r_dnskey r) (r_reach r) (<[fam := t]> (r_reachTrust r))
    (r_dmarc r) (r_mtaSTS r) (r_tlsRPT r) (r_wild r) (r_wildSkip r) (r_caaApex r) (r_caaWWW r)
    (r_tlsaApex r) (r_tlsaWWW r).

(** The tasks: the slot, the name's prefix to the domain, the type. *)
Definition fixedTasks (www : bool) : list (slot * (string * string)) :=
  map (fun t => (SApex t, ("", t))) apexTypes
  ++ [(SDS, ("", "DS")); (SDNSKEY, ("", "DNSKEY")); (SDMARC, ("_dmarc.", "TXT"));
      (SMTASTS, ("_mta-sts.", "TXT")); (STLSRPT, ("_smtp._tls.", "TXT")); (SCAAApex, ("", "CAA"));
      (STLSAApex, ("_443._tcp.", "TLSA"))]
  ++ (if www then map (fun t => (SWWW t, ("www.", t))) wwwTypes
                  ++ [(SCAAWWW, ("www.", "CAA")); (STLSAWWW, ("_443._tcp.www.", "TLSA"))]
      else []).

(** Before any task has run. *)
Definition noResults (www : bool) : dnsResults :=
  mkDnsResults ∅ (if www then Some ∅ else None) zeroLookup zeroLookup ∅ ∅ zeroLookup zeroLookup zeroLookup
    [] "" zeroLookup zeroLookup zeroLookup zeroLookup.

(** The answers the callers hold, as a function of the query. *)
Definition answer_of (l : list (query * caller)) (q : query) : Lookup :=
  default zeroLookup
    (head (omap (fun p => if bool_decide (p.1 = q)
                          then match p.2 with Answered_with a => Some a | _ => None end
                          else None) l)).

(** What the task of an address family has stored. *)
Inductive reachStage := NothingStored | StatusStored | TrustStored.

#[export] Instance reachStage_eq_dec : EqDecision reachStage.
Proof. solve_decision. Defined.

(** The callers of the cache are the tasks in their order. *)
Record wave := mkWave {
  v_cache : cacheState;
  v_stored : list bool;
  v_reach : list reachStage;
  v_res : dnsResults;
}.

Section Waves.
Context `{D : Dpdomain} `{P : Psl}.
Variable cfg : config.
Variable dog_answers : query -> Lookup -> Prop.
Variable rootNS : string -> Lookup.
Variable resolvConf : option string.
Variable lookupNetIP : string -> string -> option (list Addr).

Definition www_asked : bool := registrableDomain (cfg_Domain cfg).

Definition query_of (task : slot * (string * string)) : query :=
  mkQuery (task.2.1 +:+ cfg_Domain cfg) task.2.2.

Definition queries : list query := map query_of (fixedTasks www_asked).

Definition reach_of (fam : string) : Reach * Trust :=
  checkReachability cfg rootNS resolvConf lookupNetIP fam.

Definition wave_init : wave :=
  mkWave (cache_init queries) (map (fun _ => false) (fixedTasks www_asked))
    (map (fun _ => NothingStored) (cfg_Families cfg)) (noResults www_asked).

Inductive wave_step : wave -> wave -> Prop :=
| wave_get v c :
    cache_step dog_answers (v_cache v) c ->
    wave_step v (mkWave c (v_stored v) (v_reach v) (v_res v))
| wave_store v i s pt q l :
    fixedTasks www_asked !! i = Some (s, pt) ->
    c_callers (v_cache v) !! i = Some (q, Answered_with l) -> v_stored v !! i = Some false ->
    wave_step v (mkWave (v_cache v) (<[i := true]> (v_stored v)) (v_reach v) (put s l (v_res v)))
| wave_reach v i fam :
    cfg_Families cfg !! i = Some fam -> v_reach v !! i = Some NothingStored ->
    wave_step v (mkWave (v_cache v) (v_stored v) (<[i := StatusStored]> (v_reach v))
                   (put_reach fam (reach_of fam).1 (v_res v)))
| wave_trust v i fam :
    cfg_Families cfg !! i = Some fam -> v_reach v !! i = Some StatusStored ->
    wave_step v (mkWave (v_cache v) (v_stored v) (<[i := TrustStored]> (v_reach v))
                   (put_trust fam (reach_of fam).2 (v_res v))).

(** [parallel] returns when every task has. *)
Definition wave_done (v : wave) : Prop :=
  Forall (fun b => b = true) (v_stored v) /\ Forall (fun n => n = TrustStored) (v_reach v).

(** ** Lemmas *)

Lemma read_put s l r : (forall t, s = SWWW t -> is_Some (r_www r)) -> read s (put s l r) = Some l.
Proof.
  destruct r, s as [t|t| | | | | | | | | ]; intros Hw; try reflexivity; cbn; [by rewrite lookup_insert_eq|].
  destruct (Hw t eq_refl) as [m Hm]. cbn in Hm. subst. cbn. by rewrite lookup_insert_eq.
Qed.

Lemma read_put_ne s s' l r : s <> s' -> read s' (put s l r) = read s' r.
Proof.
  intros Hne. destruct r as [apex www], s, s'; try done; cbn; try (rewrite lookup_insert_ne; congruence);
    destruct www as [m|]; cbn; try done; rewrite lookup_insert_ne; congruence.
Qed.

Lemma put_rest s l r :
  r_reach (put s l r) = r_reach r /\ r_reachTrust (put s l r) = r_reachTrust r /\
  r_wild (put s l r) = r_wild r /\ r_wildSkip (put s l r) = r_wildSkip r /\
  (is_Some (r_www (put s l r)) <-> is_Some (r_www r)).
Proof. destruct r as [? www], s; cbn; repeat split; try done; by rewrite fmap_is_Some. Qed.

Lemma fixedTasks_slots www : NoDup (fixedTasks www).*1.
Proof. apply (bool_decide_eq_true_1 _). by destruct www; vm_compute. Qed.

Lemma fixedTasks_queries www : NoDup (fixedTasks www).*2.
Proof. apply (bool_decide_eq_true_1 _). by destruct www; vm_compute. Qed.

(** The slots of www are written only where there is a www section. *)
Lemma fixedTasks_www www i t pt : fixedTasks www !! i = Some (SWWW t, pt) -> www = true.
Proof.
  intros H%list_elem_of_lookup_2. destruct www; [done|]. unfold fixedTasks in H.
  rewrite app_nil_r, elem_of_app, list_elem_of_fmap in H. set_solver.
Qed.

(** What the tasks hold at any time. *)
Definition wave_inv (v : wave) : Prop :=
  (cache_inv dog_answers (v_cache v) /\ (c_callers (v_cache v)).*1 = queries) /\
  (length (v_stored v) = length (fixedTasks www_asked) /\ length (v_reach v) = length (cfg_Families cfg)) /\
  (forall i s pt, fixedTasks www_asked !! i = Some (s, pt) -> v_stored v !! i = Some true ->
     exists q l, c_callers (v_cache v) !! i = Some (q, Answered_with l) /\ read s (v_res v) = Some l) /\
  (forall s, s ∉ (fixedTasks www_asked).*1 -> read s (v_res v) = read s (noResults www_asked)) /\
  (is_Some (r_www (v_res v)) <-> www_asked = true) /\
  (r_wild (v_res v) = [] /\ r_wildSkip (v_res v) = "") /\
  (forall fam, fam ∉ cfg_Families cfg -> r_reach (v_res v) !! fam = None /\ r_reachTrust (v_res v) !! fam = None) /\
  (forall i fam n, cfg_Families cfg !! i = Some fam -> v_reach v !! i = Some n ->
     (n <> NothingStored -> r_reach (v_res v) !! fam = Some (reach_of fam).1) /\
     (n = TrustStored -> r_reachTrust (v_res v) !! fam = Some (reach_of fam).2)).

Lemma wave_inv_init : wave_inv wave_init.
Proof.
  unfold wave_inv, wave_init. cbn [v_cache v_stored v_reach v_res].
  refine (conj (conj _ _) (conj (conj _ _) (conj _ (conj _ (conj _ (conj _ (conj _ _))))))).
  - eapply cache_inv_reachable; [|apply rtc_refl]. unfold queries.
    apply Forall_map, Forall_forall. intros [s [p t]] H. cbn.
    assert (Ht : Forall (fun x => no_slash x.2.2 = true) (fixedTasks www_asked))
      by (destruct www_asked; repeat constructor).
    rewrite Forall_forall in Ht. by apply (Ht (s, (p, t))).
  - apply cache_init_queries.
  - by rewrite length_map.
  - by rewrite length_map.
  - intros i s pt _ H. rewrite list_lookup_fmap in H. by destruct (_ !! i).
  - done.
  - cbn. destruct www_asked; split; [done|eauto|by intros []|done].
  - done.
  - intros fam _. cbn. by rewrite !lookup_empty.
  - intros i fam n _ H. rewrite list_lookup_fmap in H. destruct (_ !! i); [|done]. by simplify_eq/=.
Qed.

Lemma wave_inv_step v v' : wave_inv v -> wave_step v v' -> wave_inv v'.
Proof.
  intros ((Hc & Hq) & (Hl1 & Hl2) & Hs & Hn & Hw & Hx & Hf & Hr).
  destruct 1 as [v c Hstep|v i s pt q l Ht Hi Hst|v i fam Hi Hst|v i fam Hi Hst];
    unfold wave_inv; cbn [v_cache v_stored v_reach v_res].
  - refine (conj (conj _ _) (conj (conj Hl1 Hl2) (conj _ (conj Hn (conj Hw (conj Hx (conj Hf Hr))))))).
    + by eapply cache_inv_step.
    + by rewrite (cache_step_queries _ _ _ Hstep).
    + intros i s pt Ht Hi. destruct (Hs _ _ _ Ht Hi) as (q & l & Ha & Hread).
      exists q, l. split; [by eapply cache_step_answered|done].
  - destruct (put_rest s l (v_res v)) as (E1 & E2 & E3 & E4 & E5). rewrite E1, E2, E3, E4, E5.
    assert (Hin : s ∈ (fixedTasks www_asked).*1) by (apply list_elem_of_lookup_2 in Ht; by apply (list_elem_of_fmap_2 fst) in Ht).
    refine (conj (conj Hc Hq) (conj (conj _ Hl2) (conj _ (conj _ (conj Hw (conj Hx (conj Hf Hr))))))).
    + by rewrite length_insert.
    + intros j s' pt' Hj [[<- _]|[Hne Hst']]%insert_lookup_cases.
      * rewrite Ht in Hj. injection Hj as <- <-. exists q, l. split; [done|]. apply read_put.
        intros t ->. apply Hw. by eapply fixedTasks_www.
      * destruct (Hs _ _ _ Hj Hst') as (q' & l' & Ha & Hread). exists q', l'. split; [done|].
        rewrite read_put_ne; [done|]. intros <-. apply Hne.
        eapply (NoDup_lookup _ _ _ s (fixedTasks_slots www_asked)); rewrite list_lookup_fmap; by rewrite ?Ht, ?Hj.
    + intros s' Hs'. rewrite read_put_ne by (by intros <-). auto.
  - refine (conj (conj Hc Hq) (conj (conj Hl1 _) (conj Hs (conj Hn (conj Hw (conj Hx (conj _ _))))))).
    + by rewrite length_insert.
    + intros g Hg. cbn. rewrite lookup_insert_ne; [by apply Hf|]. intros <-. apply Hg. by eapply list_elem_of_lookup_2.
    + intros j g n Hg Hj. cbn. destruct (decide (fam = g)) as [<-|Hne].
      * rewrite lookup_insert_eq. split; [done|]. apply insert_lookup_cases in Hj as [[_ <-]|[_ Hj]]; [done|].
        by apply (Hr _ _ _ Hg Hj).
      * rewrite lookup_insert_ne by done. apply insert_lookup_cases in Hj as [[<- <-]|[_ Hj]]; [congruence|].
        by apply (Hr _ _ _ Hg Hj).
  - refine (conj (conj Hc Hq) (conj (conj Hl1 _) (conj Hs (conj Hn (conj Hw (conj Hx (conj _ _))))))).
    + by rewrite length_insert.
    + intros g Hg. cbn. rewrite lookup_insert_ne; [by apply Hf|]. intros <-. apply Hg. by eapply list_elem_of_lookup_2.
    + intros j g n Hg Hj. cbn. destruct (decide (fam = g)) as [<-|Hne].
      * rewrite lookup_insert_eq. split; [intros _|done]. by apply (Hr _ _ _ Hi Hst).
      * rewrite lookup_insert_ne by done. apply insert_lookup_cases in Hj as [[<- <-]|[_ Hj]]; [congruence|].
        by apply (Hr _ _ _ Hg Hj).
Qed.

Lemma wave_inv_reachable v : rtc wave_step wave_init v -> wave_inv v.
Proof. intros H. eapply rtc_preserves; [|exact H|apply wave_inv_init]. intros; by eapply wave_inv_step. Qed.

Lemma answer_of_elem l i q a :
  NoDup l.*1 -> l !! i = Some (q, Answered_with a) -> answer_of l q = a.
Proof.
  revert i. induction l as [|[q' c] l IH]; intros i Hnd Hi; [done|]. apply NoDup_cons in Hnd as [Hnin Hnd].
  unfold answer_of. cbn [omap list_omap fst snd]. destruct i as [|i]; cbn in Hi.
  - injection Hi as -> ->. by rewrite bool_decide_true.
  - rewrite bool_decide_false; [by eapply IH|].
    intros ->. apply Hnin. apply list_elem_of_lookup_2 in Hi. by apply (list_elem_of_fmap_2 fst) in Hi.
Qed.

Lemma queries_NoDup : NoDup queries.
Proof.
  unfold queries. assert (map query_of (fixedTasks www_asked) =
    map (fun pt => mkQuery (pt.1 +:+ cfg_Domain cfg) pt.2) (fixedTasks www_asked).*2) as ->.
  { rewrite <-list_fmap_compose. done. }
  apply NoDup_fmap_2; [|apply fixedTasks_queries]. intros [p t] [p' t'] E. cbn in E.
  injection E as E ->. by apply append_inj_l in E as ->.
Qed.

(** The names asked for under a normalised domain are normalised. *)
Definition names_normal : Prop :=
  forall s p t, (s, (p, t)) ∈ fixedTasks www_asked ->
    exists n, dnsName (p +:+ cfg_Domain cfg) = inl n /\ ASCII n = p +:+ cfg_Domain cfg.

Lemma lookup_normal (answer : query -> Lookup) s p t :
  names_normal -> (s, (p, t)) ∈ fixedTasks www_asked ->
  get answer (p +:+ cfg_Domain cfg) t = answer (mkQuery (p +:+ cfg_Domain cfg) t).
Proof. intros Hn Hin. destruct (Hn _ _ _ Hin) as (n & H1 & H2). unfold get. by rewrite H1, H2. Qed.

(** Every slot of a finished wave holds what its task was given. *)
Lemma wave_done_read v s p t :
  wave_inv v -> wave_done v -> (s, (p, t)) ∈ fixedTasks www_asked ->
  exists l, read s (v_res v) = Some l /\ answer_of (c_callers (v_cache v)) (mkQuery (p +:+ cfg_Domain cfg) t) = l /\
            (dog_answers (mkQuery (p +:+ cfg_Domain cfg) t) l \/ l = expiredLookup (mkQuery (p +:+ cfg_Domain cfg) t)).
Proof.
  intros (((Hct & Hcd & Hca) & Hq) & (Hl & _) & Hs & _) [Hst _] [i Hi]%list_elem_of_lookup.
  destruct (lookup_lt_is_Some_2 (v_stored v) i) as [b Hb]; [rewrite Hl; by eapply lookup_lt_Some|].
  assert (b = true) as -> by (by eapply Forall_lookup_1 in Hst).
  destruct (Hs _ _ _ Hi Hb) as (q & l & Hc & Hr).
  assert (q = mkQuery (p +:+ cfg_Domain cfg) t) as ->.
  { assert (E : (c_callers (v_cache v)).*1 !! i = queries !! i) by (by rewrite Hq).
    unfold queries in E. rewrite !list_lookup_fmap, Hc, Hi in E. by injection E. }
  exists l. split; [done|]. split; [eapply answer_of_elem; [rewrite Hq; apply queries_NoDup|exact Hc]|].
  apply Hca. by eapply list_elem_of_lookup_2.
Qed.

(** ** Results are what their slots hold *)

(** [r] holds the answers of the wave's tasks and nothing else. *)
Definition holds (answer : query -> Lookup) (r : dnsResults) : Prop :=
  (forall s p t, (s, (p, t)) ∈ fixedTasks www_asked -> read s r = Some (get answer (p +:+ cfg_Domain cfg) t)) /\
  (forall s, s ∉ (fixedTasks www_asked).*1 -> read s r = read s (noResults www_asked)).

Lemma holds_map answer r (mk : string -> slot) (p : string) (types : list string) (m : gmap string Lookup) :
  holds answer r -> (forall t, read (mk t) r = m !! t) ->
  (forall t, t ∈ types -> (mk t, (p, t)) ∈ fixedTasks www_asked) ->
  (forall t, t ∉ types -> mk t ∉ (fixedTasks www_asked).*1 /\ read (mk t) (noResults www_asked) = None) ->
  m = list_to_map (map (fun t => (t, get answer (p +:+ cfg_Domain cfg) t)) types).
Proof.
  intros [Hr Hn] Hm Hin Hout. apply map_eq. intros t. rewrite lookup_tabulate, <-Hm.
  destruct (decide (t ∈ types)) as [Ht|Ht]; [by rewrite (Hr _ _ _ (Hin t Ht))|].
  destruct (Hout t Ht) as [Ho <-]. by apply Hn.
Qed.

Lemma holds_apex answer r :
  holds answer r -> r_apex r = list_to_map (map (fun t => (t, get answer (cfg_Domain cfg) t)) apexTypes).
Proof.
  intros H. apply (holds_map answer r SApex "" apexTypes (r_apex r) H); [done| |].
  - intros t Ht. unfold fixedTasks. apply elem_of_app. left. by apply (list_elem_of_fmap_2 (fun t => (SApex t, ("", t)))).
  - intros t Ht. split; [|cbn; by rewrite lookup_empty]. intros Hin. apply Ht.
    destruct www_asked; cbn in Hin; unfold apexTypes; set_solver.
Qed.

Lemma holds_www answer r :
  holds answer r -> (is_Some (r_www r) <-> www_asked = true) ->
  r_www r = if www_asked then Some (list_to_map (map (fun t => (t, get answer ("www." +:+ cfg_Domain cfg) t)) wwwTypes))
            else None.
Proof.
  intros H Hw. destruct (r_www r) as [m|] eqn:E.
  - assert (www_asked = true) as Ew by (apply Hw; eauto). rewrite Ew. f_equal.
    apply (holds_map answer r SWWW "www." wwwTypes m H).
    + intros t. cbn. by rewrite E.
    + intros t Ht. rewrite Ew. unfold fixedTasks. rewrite !elem_of_app. right; right; left.
      by apply (list_elem_of_fmap_2 (fun t => (SWWW t, ("www.", t)))).
    + intros t Ht. rewrite Ew. split; [|cbn; by rewrite lookup_empty]. intros Hin. apply Ht.
      cbn in Hin. unfold wwwTypes. set_solver.
  - destruct www_asked; [|done]. destruct (proj2 Hw eq_refl) as [? [=]].
Qed.

(** A slot that is a field of its own. *)
Lemma holds_field answer r s p t (l : Lookup) :
  holds answer r -> read s r = Some l -> bool_decide ((s, (p, t)) ∈ fixedTasks www_asked) = true ->
  l = get answer (p +:+ cfg_Domain cfg) t.
Proof. intros [Hr _] Hl Hin%bool_decide_eq_true. rewrite (Hr _ _ _ Hin) in Hl. by injection Hl. Qed.

Lemma holds_unasked answer r s (l : Lookup) :
  holds answer r -> read s r = Some l -> bool_decide (s ∉ (fixedTasks www_asked).*1) = true ->
  read s (noResults www_asked) = Some l.
Proof. intros [_ Hn] Hl Hin%bool_decide_eq_true. by rewrite <-Hn. Qed.

Definition holds_reach (r : dnsResults) : Prop :=
  (forall fam, fam ∈ cfg_Families cfg ->
     r_reach r !! fam = Some (reach_of fam).1 /\ r_reachTrust r !! fam = Some (reach_of fam).2) /\
  (forall fam, fam ∉ cfg_Families cfg -> r_reach r !! fam = None /\ r_reachTrust r !! fam = None).

Lemma holds_reach_eq r :
  holds_reach r ->
  r_reach r = list_to_map (map (fun f => (f, (reach_of f).1)) (cfg_Families cfg)) /\
  r_reachTrust r = list_to_map (map (fun f => (f, (reach_of f).2)) (cfg_Families cfg)).
Proof.
  intros [Hin Hout]. split; apply map_eq; intros fam; rewrite lookup_tabulate;
    (destruct (decide (fam ∈ cfg_Families cfg)) as [H|H]; [by destruct (Hin _ H)|by destruct (Hout _ H)]).
Qed.

Lemma holds_firstWave answer r :
  holds answer r -> (is_Some (r_www r) <-> www_asked = true) -> holds_reach r ->
  r_wild r = [] -> r_wildSkip r = "" ->
  r = firstWave cfg (fun _ => answer) rootNS resolvConf lookupNetIP.
Proof.
  intros H Hw Hreach. pose proof (holds_apex answer r H) as Ha. pose proof (holds_www answer r H Hw) as Hwm.
  apply holds_reach_eq in Hreach as [Hr1 Hr2]. unfold firstWave. fold www_asked. rewrite !map_map. cbn [fst snd].
  destruct r as [apex www ds dnskey reach trust dmarc sts rpt wild skipped caaA caaW tlsaA tlsaW].
  cbn in Ha, Hwm, Hr1, Hr2 |- *. intros -> ->. subst apex www reach trust.
  pose proof (fun s p t l => holds_field _ _ s p t l H) as Hf. pose proof (fun s l => holds_unasked _ _ s l H) as Hu.
  clear H Hw. f_equal.
  - by apply (Hf SDS ""); [|destruct www_asked].
  - by apply (Hf SDNSKEY ""); [|destruct www_asked].
  - by apply (Hf SDMARC "_dmarc."); [|destruct www_asked].
  - by apply (Hf SMTASTS "_mta-sts."); [|destruct www_asked].
  - by apply (Hf STLSRPT "_smtp._tls."); [|destruct www_asked].
  - by apply (Hf SCAAApex ""); [|destruct www_asked].
  - destruct www_asked; [by apply (Hf SCAAWWW "www.")|by injection (Hu SCAAWWW caaW eq_refl eq_refl)].
  - by apply (Hf STLSAApex "_443._tcp."); [|destruct www_asked].
  - destruct www_asked; [by apply (Hf STLSAWWW "_443._tcp.www.")|by injection (Hu STLSAWWW tlsaW eq_refl eq_refl)].
Qed.

Lemma wave_done_res v :
  names_normal -> wave_inv v -> wave_done v ->
  v_res v = firstWave cfg (fun _ => answer_of (c_callers (v_cache v))) rootNS resolvConf lookupNetIP.
Proof.
  intros Hnorm Hinv Hdone. apply holds_firstWave; [split|..].
  - intros s p t Hin. rewrite (lookup_normal _ s p t Hnorm Hin).
    destruct (wave_done_read v s p t Hinv Hdone Hin) as (l & -> & <- & _). done.
  - apply Hinv.
  - apply Hinv.
  - destruct Hinv as (_ & (_ & Hlr) & _ & _ & _ & _ & Hf & Hr). destruct Hdone as [_ Hdr]. split; [|done].
    intros fam [i Hi]%list_elem_of_lookup.
    destruct (lookup_lt_is_Some_2 (v_reach v) i) as [n Hb]; [rewrite Hlr; by eapply lookup_lt_Some|].
    assert (n = TrustStored) as -> by (by eapply Forall_lookup_1 in Hdr).
    destruct (Hr _ _ _ Hi Hb) as [H1 H2]. split; [by apply H1|by apply H2].
  - apply Hinv.
  - apply Hinv.
Qed.

(** ** The wave can always be finished *)

Definition caller_work (c : query * caller) : nat :=
  match c.2 with Waiting => 3 | Missed => 2 | Running => 1 | Answered_with _ => 0 end.

Definition reach_work (n : reachStage) : nat :=
  match n with NothingStored => 2 | StatusStored => 1 | TrustStored => 0 end.

Definition work (v : wave) : nat :=
  sum_list_with caller_work (c_callers (v_cache v))
  + sum_list_with (fun b : bool => if b then 0 else 1)%nat (v_stored v)
  + sum_list_with reach_work (v_reach v).

(** A caller that waits or runs can go on. *)
Lemma caller_progress c i q a :
  (forall q, exists l, dog_answers q l) -> c_callers c !! i = Some (q, a) -> (forall l, a <> Answered_with l) ->
  exists c', cache_step dog_answers c c' /\
    (sum_list_with caller_work (c_callers c') < sum_list_with caller_work (c_callers c))%nat.
Proof.
  intros Htotal Hi Ha.
  assert (Hsum : forall a' done, (caller_work (q, a') < caller_work (q, a))%nat ->
    (sum_list_with caller_work (c_callers (set_caller c i q a' done)) < sum_list_with caller_work (c_callers c))%nat).
  { intros a' done H. pose proof (sum_insert caller_work _ _ (q, a') _ Hi). unfold set_caller. cbn [c_callers]. lia. }
  destruct a as [| | |l]; [| | |by destruct (Ha l)].
  - destruct (c_done c !! cache_key q) as [l|] eqn:Hd;
      (eexists; split; [|apply Hsum]; [first [by eapply step_hit|by eapply step_miss]|cbn; lia]).
  - destruct (c_expired c) eqn:He;
      (eexists; split; [|apply Hsum]; [first [by eapply step_expired|by eapply step_run]|cbn; lia]).
  - destruct (Htotal q) as [l Hl]. eexists. split; [by eapply step_store|]. apply Hsum. cbn. lia.
Qed.

Lemma wave_progress v :
  (forall q, exists l, dog_answers q l) -> wave_inv v -> ~ wave_done v ->
  exists v', wave_step v v' /\ (work v' < work v)%nat.
Proof.
  intros Htotal ((_ & Hq) & (Hl & Hlr) & _) Hnd. unfold work.
  destruct (decide (Forall (fun b => b = true) (v_stored v))) as [Hst|Hst].
  - assert (~ Forall (fun n => n = TrustStored) (v_reach v)) as Hr by (by intros Hr; apply Hnd).
    apply not_Forall_Exists, Exists_exists in Hr as (n & [i Hi]%list_elem_of_lookup & Hn); [|intros n; apply _].
    destruct (lookup_lt_is_Some_2 (cfg_Families cfg) i) as [fam Hfam]; [rewrite <-Hlr; by eapply lookup_lt_Some|].
    destruct n; [..|by destruct Hn].
    + eexists. split; [by eapply wave_reach|]. cbn [v_cache v_stored v_reach].
      pose proof (sum_insert reach_work _ _ StatusStored _ Hi). cbn in *. lia.
    + eexists. split; [by eapply wave_trust|]. cbn [v_cache v_stored v_reach].
      pose proof (sum_insert reach_work _ _ TrustStored _ Hi). cbn in *. lia.
  - apply not_Forall_Exists, Exists_exists in Hst as (b & [i Hi]%list_elem_of_lookup & Hb); [|intros ?; apply _].
    destruct b; [by destruct Hb|]. clear Hb.
    destruct (lookup_lt_is_Some_2 (fixedTasks www_asked) i) as [[s pt] Ht]; [rewrite <-Hl; by eapply lookup_lt_Some|].
    destruct (lookup_lt_is_Some_2 (c_callers (v_cache v)) i) as [[q a] Hc].
    { erewrite <-length_fmap, Hq. unfold queries. rewrite length_map. by eapply lookup_lt_Some. }
    destruct a as [| | |l] eqn:Ea.
    4:{ eexists. split; [by eapply wave_store|]. cbn [v_cache v_stored v_reach].
        pose proof (sum_insert (fun b : bool => if b then 0 else 1)%nat _ _ true _ Hi). cbn in *. lia. }
    all: destruct (caller_progress (v_cache v) i q a Htotal) as (c' & Hstep & Hlt); [by subst..|];
      (eexists; split; [by apply wave_get|]; cbn [v_cache v_stored v_reach]; lia).
Qed.

#[local] Instance wave_done_dec v : Decision (wave_done v).
Proof. unfold wave_done. apply _. Defined.

Lemma wave_completes v :
  (forall q, exists l, dog_answers q l) -> rtc wave_step wave_init v ->
  exists v', rtc wave_step v v' /\ wave_done v'.
Proof.
  intros Htotal Hv. apply (rtc_completes wave_step wave_inv wave_done work).
  - apply wave_inv_step.
  - intros x. by apply wave_progress.
  - by apply wave_inv_reachable.
Qed.

End Waves.

(** ** Properties *)

(** The first wave does what the run takes it to do. Its tasks run at
    once and share the memo and the results, and yet, whatever their
    interleaving and whenever the budget runs out, what they leave is the
    results of one function of the query, whose values are answers of dog to
    that query or the timeout of a spent budget; and from every state the
    tasks can get to, they can finish. *)
Theorem firstWave_refined `{D : Dpdomain} `{P : Psl} (cfg : config) (dog_answers : query -> Lookup -> Prop)
    (rootNS : string -> Lookup) (resolvConf : option string)
    (lookupNetIP : string -> string -> option (list Addr)) (v : wave) :
  names_normal cfg -> (forall q, exists l, dog_answers q l) ->
  rtc (wave_step cfg dog_answers rootNS resolvConf lookupNetIP) (wave_init cfg) v ->
  (wave_done v ->
   exists answer : query -> Lookup,
     (forall q, q ∈ queries cfg -> dog_answers q (answer q) \/ answer q = expiredLookup q) /\
     v_res v = firstWave cfg (fun _ => answer) rootNS resolvConf lookupNetIP) /\
  (exists v', rtc (wave_step cfg dog_answers rootNS resolvConf lookupNetIP) v v' /\ wave_done v').
Proof.
  intros Hnorm Htotal Hv. split; [|by apply wave_completes]. intros Hdone.
  pose proof (wave_inv_reachable _ _ _ _ _ _ Hv) as Hinv.
  exists (answer_of (c_callers (v_cache v))). split; [|by apply wave_done_res with (dog_answers := dog_answers)].
  intros q ([s [p t]] & -> & Hin)%list_elem_of_fmap.
  eapply wave_done_read in Hinv; [|exact Hdone|exact Hin]; destruct Hinv as (l & _ & <- & H). exact H.
Qed.

Lemma firstWave_refined_witness :
  let cfg := config_for "a.nl" in
  let step := @wave_step plain_psl cfg dog_ok (root_answer TrustSecure) None (fun _ _ => None) in
  exists v, rtc step (@wave_init plain_psl cfg) v /\ wave_done v /\
    exists answer, v_res v =
      @firstWave lower_dpdomain plain_psl cfg (fun _ => answer) (root_answer TrustSecure) None (fun _ _ => None).
Proof.
  assert (Hn : @names_normal lower_dpdomain plain_psl (config_for "a.nl")).
  { intros s p t Hin. exists (mkName (p +:+ "a.nl") (p +:+ "a.nl") KindName). split; [|reflexivity].
    apply list_elem_of_In in Hin. vm_compute in Hin.
    repeat (destruct Hin as [Hin|Hin]; [by simplify_eq|]). done. }
  assert (Ht : forall q, exists l, dog_ok q l) by (intros q; eexists; reflexivity).
  destruct (@firstWave_refined lower_dpdomain plain_psl (config_for "a.nl") dog_ok (root_answer TrustSecure) None
              (fun _ _ => None) _ Hn Ht (rtc_refl _ _)) as [_ (v & Hv & Hd)].
  exists v. split; [exact Hv|]. split; [exact Hd|].
  destruct (@firstWave_refined lower_dpdomain plain_psl (config_for "a.nl") dog_ok (root_answer TrustSecure) None
              (fun _ _ => None) v Hn Ht Hv) as [H _].
  destruct (H Hd) as (answer & _ & E). by exists answer.
Defined.
