(* ===== verification/Stages.v ===== *)
(** * The second wave and the whole DNS phase (run.go)

    Of the second wave only the wildcard probes leave more than answers in
    the memo. They come in two stages: one random name, both types at once,
    and, when it answered, the other names, all at once. Here they are a step
    relation; with [Waves], whatever order the lookups of both waves complete
    in, [Run.gatherDNS] is what they leave. *)

From S2P Require Import Prelude GoStrings Netip Names Records Dnssec Wildcard Report Cli Cache Probe Run Waves.

(** The two lookups of one random name (runWildProbe). *)
Definition lookups : Type := option Lookup * option Lookup.

Definition probe_of (label : string) (s : lookups) : option wildProbe :=
  match s with (Some a, Some b) => Some (mkProbe label a b) | _ => None end.

Definition probes_of (labels : list string) (ss : list lookups) : option (list wildProbe) :=
  mapM (fun x => probe_of x.1 x.2) (zip labels ss).

Inductive wildState :=
| FirstName (label : string) (rest : list string) (s : lookups)
| OtherNames (first : wildProbe) (labels : list string) (ss : list lookups)
| WildDone (probes : list wildProbe).

(** [probeWildcard] when it starts, for the labels drawn. *)
Definition wild_init (apex www : gmap string Lookup) (labels : list string) : wildState :=
  if negb (String.eqb (wildcardSkipReason apex www) "") then WildDone []
  else match labels with
       | [] => WildDone []
       | l0 :: rest => FirstName l0 rest (None, None)
       end.

Section Stages.
Variable domain : string.
(** What a call of [get] may be told. *)
Variable told : query -> Lookup -> Prop.

Definition wild_query (label qtype : string) : query := mkQuery (label +:+ "." +:+ domain) qtype.

Inductive fills (label : string) : lookups -> lookups -> Prop :=
| fills_A b l : told (wild_query label "A") l -> fills label (None, b) (Some l, b)
| fills_AAAA a l : told (wild_query label "AAAA") l -> fills label (a, None) (a, Some l).

Inductive wild_step : wildState -> wildState -> Prop :=
| first_fills label rest s s' :
    fills label s s' -> wild_step (FirstName label rest s) (FirstName label rest s')
| first_settles label rest s p :
    probe_of label s = Some p -> classifyProbe p <> probeAnswered ->
    wild_step (FirstName label rest s) (WildDone [p])
| first_opens label rest s p :
    probe_of label s = Some p -> classifyProbe p = probeAnswered ->
    wild_step (FirstName label rest s) (OtherNames p rest (map (fun _ => (None, None)) rest))
| other_fills p labels ss i label s s' :
    labels !! i = Some label -> ss !! i = Some s -> fills label s s' ->
    wild_step (OtherNames p labels ss) (OtherNames p labels (<[i := s']> ss))
| others_join p labels ss probes :
    probes_of labels ss = Some probes -> wild_step (OtherNames p labels ss) (WildDone (p :: probes)).

(** ** Lemmas *)

Definition slot_ok (label : string) (s : lookups) : Prop :=
  (forall l, s.1 = Some l -> told (wild_query label "A") l) /\
  (forall l, s.2 = Some l -> told (wild_query label "AAAA") l).

Definition probe_ok (p : wildProbe) : Prop :=
  told (wild_query (p_label p) "A") (p_a p) /\ told (wild_query (p_label p) "AAAA") (p_aaaa p).

Lemma fills_ok label s s' : slot_ok label s -> fills label s s' -> slot_ok label s'.
Proof. unfold slot_ok. intros [H1 H2]. destruct 1 as [b l H|a l H]; cbn in *; split; [|done|done|]; by intros ? [= <-]. Qed.

Lemma probe_of_ok label s p : slot_ok label s -> probe_of label s = Some p -> probe_ok p /\ p_label p = label.
Proof.
  unfold slot_ok, probe_ok. destruct s as [[a|] [b|]]; try done. intros [H1 H2] [= <-]. cbn in *. auto.
Qed.

Lemma probes_of_ok labels ss probes :
  Forall2 slot_ok labels ss -> probes_of labels ss = Some probes ->
  Forall probe_ok probes /\ map p_label probes = labels.
Proof.
  intros H. revert probes. unfold probes_of. induction H as [|label s labels ss Hs H IH]; intros probes E.
  - by injection E as <-.
  - cbn in E. destruct (probe_of label s) as [p|] eqn:Ep; [|done]. cbn in E.
    destruct (mapM _ _) as [ps|]; [|done]. injection E as <-.
    destruct (probe_of_ok _ _ _ Hs Ep) as [Hp <-]. destruct (IH ps eq_refl) as [Hps <-]. auto.
Qed.

(** What the probes are, once all are in, for the labels [l0 :: rest]. *)
Definition wild_final (l0 : string) (rest : list string) (probes : list wildProbe) : Prop :=
  Forall probe_ok probes /\
  exists p ps, probes = p :: ps /\ p_label p = l0 /\
    ((classifyProbe p <> probeAnswered /\ ps = []) \/ (classifyProbe p = probeAnswered /\ map p_label ps = rest)).

Definition wild_inv (l0 : string) (rest : list string) (s : wildState) : Prop :=
  match s with
  | FirstName label labels s => label = l0 /\ labels = rest /\ slot_ok label s
  | OtherNames p labels ss =>
      p_label p = l0 /\ labels = rest /\ probe_ok p /\ classifyProbe p = probeAnswered /\ Forall2 slot_ok labels ss
  | WildDone probes => wild_final l0 rest probes
  end.

Lemma wild_inv_step l0 rest s s' : wild_inv l0 rest s -> wild_step s s' -> wild_inv l0 rest s'.
Proof.
  intros Hinv. destruct 1 as [label labels s s' H|label labels s p Hp Hc|label labels s p Hp Hc
    |p labels ss i label s s' Hl Hs H|p labels ss probes H]; cbn in Hinv |- *; destruct_and! Hinv; subst.
  - split_and!; [done..|]. by eapply fills_ok.
  - eapply probe_of_ok in Hp as [Hok <-]; [|done]. split; [by constructor|]. exists p, []. auto.
  - eapply probe_of_ok in Hp as [Hok <-]; [|done]. split_and!; [done..|].
    apply Forall2_same_length_lookup. rewrite length_map. split; [done|].
    intros i label s' _ Hi. rewrite list_lookup_fmap in Hi. destruct (rest !! i); [|done]. injection Hi as <-. by unfold slot_ok.
  - split_and!; [done..|]. rewrite <-(list_insert_id rest i label) by done.
    apply Forall2_insert; [done|]. eapply fills_ok; [|done]. by eapply Forall2_lookup_lr.
  - eapply probes_of_ok in H as [Hok <-]; [|done]. split; [by constructor|]. exists p, probes. auto.
Qed.

(** *** The probes can always be finished *)

Definition slot_work (s : lookups) : nat :=
  match s with (None, None) => 2 | (Some _, Some _) => 0 | _ => 1 end.

Definition wild_work (s : wildState) : nat :=
  match s with
  | FirstName _ rest s => slot_work s + 2 * length rest + 2
  | OtherNames _ _ ss => sum_list_with slot_work ss + 1
  | WildDone _ => 0
  end.

Lemma fill_progress label s :
  (forall q, exists l, told q l) ->
  (exists p, probe_of label s = Some p) \/ exists s', fills label s s' /\ (slot_work s' < slot_work s)%nat.
Proof.
  intros Htotal. destruct (Htotal (wild_query label "A")) as [a Ha], (Htotal (wild_query label "AAAA")) as [b Hb].
  destruct s as [[x|] [y|]]; [by left; eexists|..]; right; eexists;
    (split; [first [by apply fills_A|by apply fills_AAAA]|cbn; lia]).
Qed.

Lemma probes_of_stuck labels ss :
  length labels = length ss -> probes_of labels ss = None ->
  exists i label s, labels !! i = Some label /\ ss !! i = Some s /\ probe_of label s = None.
Proof.
  revert ss. induction labels as [|label labels IH]; intros [|s ss] Hl E; try done. unfold probes_of in *. cbn in E.
  destruct (probe_of label s) as [p|] eqn:Ep; [|by exists 0%nat, label, s]. cbn in E.
  destruct (mapM _ (zip labels ss)) eqn:Em; [done|].
  destruct (IH ss) as (i & H); [by injection Hl|done|]. by exists (S i).
Qed.

Definition is_done (s : wildState) : Prop := exists probes, s = WildDone probes.

#[local] Instance is_done_dec s : Decision (is_done s).
Proof. destruct s as [| |probes]; [right; by intros []|right; by intros []|left; by exists probes]. Defined.

Lemma wild_progress l0 rest s :
  (forall q, exists l, told q l) -> wild_inv l0 rest s -> ~ is_done s ->
  exists s', wild_step s s' /\ (wild_work s' < wild_work s)%nat.
Proof.
  intros Htotal Hinv Hn. destruct s as [label labels s|p labels ss|probes]; [| |by destruct Hn; eexists].
  - destruct (fill_progress label s Htotal) as [[p Hp]|(s' & Hs' & Hlt)].
    + destruct (decide (classifyProbe p = probeAnswered)); eexists;
        (split; [first [by eapply first_opens|by eapply first_settles]|cbn; try lia]).
      assert (sum_list_with slot_work (map (fun _ => (None, None)) labels) = 2 * length labels)%nat as ->;
        [|lia]. clear. induction labels; cbn in *; lia.
    + eexists. split; [by eapply first_fills|cbn; lia].
  - destruct Hinv as (_ & _ & _ & _ & Hss). destruct (probes_of labels ss) as [probes|] eqn:E.
    + eexists. split; [by eapply others_join|cbn; lia].
    + apply probes_of_stuck in E as (i & label & s & Hl & Hs & Ep); [|by eapply Forall2_length].
      destruct (fill_progress label s Htotal) as [[p' Hp]|(s' & Hs' & Hlt)]; [congruence|].
      eexists. split; [by eapply other_fills|]. cbn. pose proof (sum_insert slot_work _ _ s' _ Hs). lia.
Qed.

(** *** What the probes are, as answers to queries *)

Definition answers_in (probes : list wildProbe) (q : query) : Lookup :=
  default zeroLookup (head (omap (fun p =>
    if bool_decide (wild_query (p_label p) "A" = q) then Some (p_a p)
    else if bool_decide (wild_query (p_label p) "AAAA" = q) then Some (p_aaaa p) else None) probes)).

Lemma wild_query_inj l1 t1 l2 t2 : wild_query l1 t1 = wild_query l2 t2 -> l1 = l2 /\ t1 = t2.
Proof. unfold wild_query. intros [= E ->]. split; [|done]. by apply append_inj_l in E. Qed.

Lemma answers_in_elem probes p :
  NoDup (map p_label probes) -> p ∈ probes ->
  answers_in probes (wild_query (p_label p) "A") = p_a p /\ answers_in probes (wild_query (p_label p) "AAAA") = p_aaaa p.
Proof.
  unfold answers_in. induction probes as [|p' probes IH]; [by intros _ ?%elem_of_nil|].
  intros [Hnin Hnd]%NoDup_cons [->|Hin]%elem_of_cons; cbn [omap list_omap].
  - rewrite bool_decide_true by done. cbn. split; [done|].
    rewrite bool_decide_false by (by intros [_ [=]]%wild_query_inj). by rewrite bool_decide_true.
  - assert (Hl : p_label p' <> p_label p) by (intros E; apply Hnin; rewrite E; by apply list_elem_of_fmap_2).
    rewrite !(bool_decide_false (wild_query (p_label p') _ = _)) by (by intros [E _]%wild_query_inj). by apply IH.
Qed.

Lemma answers_in_told probes l0 rest label qtype :
  NoDup (l0 :: rest) -> wild_final l0 rest probes -> label ∈ map p_label probes -> qtype ∈ ["A"; "AAAA"] ->
  told (wild_query label qtype) (answers_in probes (wild_query label qtype)).
Proof.
  intros Hnd (Hok & p & ps & -> & <- & Hps) (x & -> & Hx)%list_elem_of_fmap Ht.
  assert (NoDup (map p_label (p :: ps))) as Hnd' by (destruct Hps as [[_ ->]|[_ <-]]; [apply NoDup_singleton|done]).
  destruct (answers_in_elem _ _ Hnd' Hx) as [Ha Hb]. rewrite Forall_forall in Hok. destruct (Hok _ Hx) as [H1 H2].
  apply elem_of_cons in Ht as [->|Ht]; [by rewrite Ha|]. apply list_elem_of_singleton in Ht as ->. by rewrite Hb.
Qed.

(** Names that are their own normal form. *)
Definition is_normal `{D : Dpdomain} (name : string) : Prop := exists n, dnsName name = inl n /\ ASCII n = name.

Lemma runWildProbe_answers `{D : Dpdomain} probes p :
  NoDup (map p_label probes) -> p ∈ probes -> is_normal (p_label p +:+ "." +:+ domain) ->
  runWildProbe (get (answers_in probes)) domain (p_label p) = p.
Proof.
  intros Hnd Hin (n & Hn & En). destruct (answers_in_elem _ _ Hnd Hin) as [Ha Hb].
  unfold runWildProbe, get. rewrite Hn, En. unfold wild_query in *. rewrite Ha, Hb. by destruct p.
Qed.

Lemma probeWildcard_final `{D : Dpdomain} apex www l0 rest probes :
  wildcardSkipReason apex www = "" -> NoDup (l0 :: rest) ->
  (forall label, label ∈ l0 :: rest -> is_normal (label +:+ "." +:+ domain)) ->
  wild_final l0 rest probes ->
  probeWildcard apex www (l0 :: rest) (get (answers_in probes)) domain = ("", probes).
Proof.
  intros Hskip Hnd Hnorm (Hok & p & ps & -> & <- & Hps). unfold probeWildcard. rewrite Hskip. cbn [String.eqb negb].
  assert (NoDup (map p_label (p :: ps))) as Hnd' by (destruct Hps as [[_ ->]|[_ <-]]; [apply NoDup_singleton|done]).
  rewrite (runWildProbe_answers (p :: ps) p Hnd'); [|by left|apply Hnorm; by left].
  destruct Hps as [[Hc ->]|[Hc <-]]; [by rewrite bool_decide_false|]. rewrite bool_decide_true by done.
  f_equal. f_equal. rewrite map_map. trans (map id ps); [|apply map_id].
  apply map_ext_in. intros x Hx%list_elem_of_In. apply runWildProbe_answers; [done|by right|].
  apply Hnorm. right. by apply list_elem_of_fmap_2.
Qed.

Lemma wild_done_stays probes s : rtc wild_step (WildDone probes) s -> s = WildDone probes.
Proof. intros H. inversion H as [|? y ? Hy]; [done|]. inversion Hy. Qed.

(** The two ways a run of the stages goes. *)
Lemma wild_runs apex www labels s :
  rtc wild_step (wild_init apex www labels) s ->
  (exists l0 rest, labels = l0 :: rest /\ wildcardSkipReason apex www = "" /\ wild_inv l0 rest s) \/
  (s = WildDone [] /\ forall g, probeWildcard apex www labels g domain = (wildcardSkipReason apex www, [])).
Proof.
  unfold wild_init, probeWildcard. destruct (String.eqb_spec (wildcardSkipReason apex www) "") as [->|Hne]; cbn [negb].
  - destruct labels as [|l0 rest]; intros H; [right|left].
    + by apply wild_done_stays in H as ->.
    + exists l0, rest. split_and!; [done..|]. eapply rtc_preserves; [|exact H|by split_and!].
      intros; by eapply wild_inv_step.
  - intros H. right. by apply wild_done_stays in H as ->.
Qed.

Lemma wild_finishes apex www labels s :
  (forall q, exists l, told q l) -> rtc wild_step (wild_init apex www labels) s ->
  exists s', rtc wild_step s s' /\ is_done s'.
Proof.
  intros Htotal [(l0 & rest & _ & _ & Hinv)|[-> _]]%wild_runs; [|by exists (WildDone []); split; [apply rtc_refl|eexists]].
  apply (rtc_completes wild_step (wild_inv l0 rest) is_done wild_work); [apply wild_inv_step| |done].
  intros x. by apply wild_progress.
Qed.
End Stages.

(** ** Properties *)

(** A run's answers, made of those of the two waves. *)
Definition both_answers (first second : query -> Lookup) (p : phase) : query -> Lookup :=
  match p with FirstWave => first | _ => second end.

(** C8: The DNS phase leaves what the run takes it to leave. The lookups of
    the first wave run at once, then the random names in their two stages,
    the address types and the other names at once; whatever the interleaving
    and whenever the budgets run out, the results are those of one function
    of the query for each wave, whose values are answers of dog to that query
    or the timeout of a spent budget; and from every state the lookups can
    get to, they can finish. *)
Theorem gatherDNS_refined `{D : Dpdomain} `{P : Psl} (cfg : config) (dog_answers : query -> Lookup -> Prop)
    (rootNS : string -> Lookup) (resolvConf : option string)
    (lookupNetIP : string -> string -> option (list Addr)) (labels : list string) (v : wave) (s : wildState) :
  let told q l := dog_answers q l \/ l = expiredLookup q in
  let skip := wildcardSkipReason (r_apex (v_res v)) (www_of (v_res v)) in
  names_normal cfg -> (forall label, label ∈ labels -> is_normal (label +:+ "." +:+ cfg_Domain cfg)) ->
  NoDup labels -> (forall q, exists l, dog_answers q l) ->
  rtc (wave_step cfg dog_answers rootNS resolvConf lookupNetIP) (wave_init cfg) v ->
  rtc (wild_step (cfg_Domain cfg) told) (wild_init (r_apex (v_res v)) (www_of (v_res v)) labels) s ->
  (forall probes, wave_done v -> s = WildDone probes ->
   exists first second : query -> Lookup,
     (forall q, q ∈ queries cfg -> told q (first q)) /\
     (forall label t, label ∈ map p_label probes -> t ∈ ["A"; "AAAA"] ->
        told (wild_query (cfg_Domain cfg) label t) (second (wild_query (cfg_Domain cfg) label t))) /\
     with_wild (v_res v) skip probes =
       gatherDNS cfg (both_answers first second) rootNS resolvConf lookupNetIP labels) /\
  (exists v', rtc (wave_step cfg dog_answers rootNS resolvConf lookupNetIP) v v' /\ wave_done v') /\
  (exists s', rtc (wild_step (cfg_Domain cfg) told) s s' /\ is_done s').
Proof.
  intros told skip Hnorm Hlab Hnd Htotal Hv Hs.
  destruct (firstWave_refined cfg dog_answers rootNS resolvConf lookupNetIP v Hnorm Htotal Hv) as [Hdone Hcan].
  assert (Htold : forall q, exists l, told q l) by (intros q; destruct (Htotal q) as [l Hl]; exists l; by left).
  split_and!; [|exact Hcan|by eapply wild_finishes].
  intros probes Hd ->. destruct (Hdone Hd) as (first & Hf & E).
  exists first, (answers_in (cfg_Domain cfg) probes). split; [exact Hf|]. unfold gatherDNS.
  change (firstWave cfg (both_answers _ _)) with (firstWave cfg (fun _ => first)). rewrite <-E.
  unfold lookup_in. cbn [both_answers].
  apply wild_runs in Hs as [(l0 & rest & -> & Hskip & Hfin)|[[= ->] Hpw]].
  - split; [intros label t; by apply (answers_in_told _ _ _ l0 rest)|].
    rewrite (probeWildcard_final _ told _ _ l0 rest probes); [by unfold skip; rewrite Hskip|done..].
  - split; [by intros label t ?%elem_of_nil|]. by rewrite Hpw.
Qed.

Lemma gatherDNS_refined_witness :
  let labels := ["qx"; "qy"] in
  let told q l := dog_ok q l \/ l = expiredLookup q in
  exists v probes,
    rtc (@wave_step plain_psl (config_for "a.nl") dog_ok (root_answer TrustSecure) None (fun _ _ => None))
      (@wave_init plain_psl (config_for "a.nl")) v /\
    rtc (wild_step "a.nl" told) (wild_init (r_apex (v_res v)) (www_of (v_res v)) labels) (WildDone probes) /\
    exists answer,
      with_wild (v_res v) (wildcardSkipReason (r_apex (v_res v)) (www_of (v_res v))) probes =
      @gatherDNS lower_dpdomain plain_psl (config_for "a.nl") answer (root_answer TrustSecure) None
        (fun _ _ => None) labels.
Proof.
  cbv zeta. set (cfg := config_for "a.nl").
  assert (Hn : @names_normal lower_dpdomain plain_psl cfg).
  { intros s p t Hin. exists (mkName (p +:+ "a.nl") (p +:+ "a.nl") KindName). split; [|reflexivity].
    apply list_elem_of_In in Hin. vm_compute in Hin.
    repeat (destruct Hin as [Hin|Hin]; [by simplify_eq|]). done. }
  assert (Hl : forall label, label ∈ ["qx"; "qy"] -> @is_normal lower_dpdomain (label +:+ "." +:+ cfg_Domain cfg)).
  { intros label [->|[->|[]%elem_of_nil]%elem_of_cons]%elem_of_cons; eexists; split; reflexivity. }
  assert (Hd : NoDup ["qx"; "qy"]) by (apply (bool_decide_unpack _); reflexivity).
  assert (Ht : forall q, exists l, dog_ok q l) by (intros q; eexists; reflexivity).
  destruct (@gatherDNS_refined lower_dpdomain plain_psl cfg dog_ok (root_answer TrustSecure) None (fun _ _ => None)
    ["qx"; "qy"] _ _ Hn Hl Hd Ht (rtc_refl _ _) (rtc_refl _ _)) as (_ & (v & Hv & Hvd) & _).
  destruct (@gatherDNS_refined lower_dpdomain plain_psl cfg dog_ok (root_answer TrustSecure) None (fun _ _ => None)
    ["qx"; "qy"] v _ Hn Hl Hd Ht Hv (rtc_refl _ _)) as (_ & _ & (s & Hs & [probes ->])).
  destruct (@gatherDNS_refined lower_dpdomain plain_psl cfg dog_ok (root_answer TrustSecure) None (fun _ _ => None)
    ["qx"; "qy"] v (WildDone probes) Hn Hl Hd Ht Hv Hs) as (H & _ & _).
  destruct (H probes Hvd eq_refl) as (first & second & _ & _ & E).
  exists v, probes. split; [exact Hv|]. split; [exact Hs|]. exists (both_answers first second). exact E.
Defined.
