(* ===== verification/NsPhase.v ===== *)
(** * The audit of the name servers at work (run.go, nsaudit.go)

    [Run.auditNameservers] takes the answers and the audits as given. Here
    are the tasks that leave them: two lookups for each name, all at once;
    then one audit for each address, all at once, each appending its server
    under a lock; then the servers are sorted and the glue is checked. *)

From S2P Require Import Prelude Fan GoStrings Netip Names Records Runner Dog Dig Trace Dnssec Wildcard Spf NsAudit Report Cli Cache Probe Run Waves.

(** ** Lookups started at once *)

Section Lookups.
Context `{D : Dpdomain}.
(** What a query may be answered. *)
Variable told : query -> Lookup -> Prop.

(** The query of a call of [get], if its name is a DNS name. *)
Definition asked (p : string * string) : option query :=
  match dnsName p.1 with inl n => Some (mkQuery (ASCII n) p.2) | inr _ => None end.

(** What the call may return. *)
Definition says (p : string * string) (l : Lookup) : Prop :=
  match dnsName p.1 with
  | inl n => told (mkQuery (ASCII n) p.2) l
  | inr err => l = invalidLookup p.1 p.2 err
  end.

Lemma says_total : (forall q, exists l, told q l) -> forall p, exists l, says p l.
Proof. intros Ht p. unfold says. destruct (dnsName p.1); [apply Ht|by eexists]. Qed.

Lemma get_asked g p q : asked p = Some q -> get g p.1 p.2 = g q.
Proof. unfold asked, get. destruct (dnsName p.1); [|done]. by intros [= <-]. Qed.

Lemma get_agree g g' p : (forall q, asked p = Some q -> g' q = g q) -> get g' p.1 p.2 = get g p.1 p.2.
Proof. unfold asked, get. destruct (dnsName p.1); [|done]. auto. Qed.

Lemma says_get g p : (forall q, asked p = Some q -> told q (g q)) -> says p (get g p.1 p.2).
Proof. unfold asked, says, get. destruct (dnsName p.1); auto. Qed.

(** The answers are those of one function of the query, when no query comes
    twice. *)
Lemma lookups_function calls outs :
  NoDup (omap asked calls) -> Forall2 says calls outs ->
  exists g, (forall q, q ∈ omap asked calls -> told q (g q)) /\ outs = map (fun p => get g p.1 p.2) calls.
Proof.
  intros Hnd H. induction H as [|p l calls outs Hl H IH].
  { exists (fun _ => zeroLookup). split; [intros q Hq; by apply elem_of_nil in Hq|done]. }
  cbn in Hnd. destruct (asked p) as [q|] eqn:Eq.
  - apply NoDup_cons in Hnd as [Hq Hnd]. destruct (IH Hnd) as (g & Hg & ->).
    exists (fun q' => if decide (q' = q) then l else g q'). split.
    + cbn. rewrite Eq. intros q' [->|Hin]%elem_of_cons.
      * rewrite decide_True by done. unfold asked in Eq. unfold says in Hl.
        destruct (dnsName p.1); [|done]. by injection Eq as <-.
      * rewrite decide_False by (by intros ->). by apply Hg.
    + cbn. rewrite (get_asked _ p q Eq), decide_True by done. f_equal. apply map_ext_in.
      intros p' Hin%list_elem_of_In. symmetry. apply get_agree. intros q' Hq'. rewrite decide_False; [done|].
      intros ->. apply Hq, list_elem_of_omap. by exists p'.
  - destruct (IH Hnd) as (g & Hg & ->). exists g. cbn. rewrite Eq. split; [done|]. f_equal.
    unfold asked in Eq. unfold says in Hl. unfold get. by destruct (dnsName p.1).
Qed.
End Lookups.

(** ** The tasks *)

(** The NS records of the zone, or the parent's when it has none. *)
Definition audit_names `{D : Dpdomain} (dns : dnsResults) (z : zoneReport) : list string :=
  let own := nsNames (lget (r_apex dns) "NS") in
  match own with [] => d_ParentNS (z_Delegation z) | _ => own end.

(** The lookups of [resolveNS], in the order of its tasks. *)
Definition ns_calls (names : list string) : list (string * string) :=
  concat (map (fun n => [(n, "A"); (n, "AAAA")]) names).

(** The loop behind them: the names with their two answers. *)
Fixpoint fill_ns (names : list string) (answers : list Lookup) (rep : NSReport) : NSReport :=
  match names, answers with
  | n :: names, a :: aaaa :: answers =>
      fill_ns names answers (add_ns (fun _ t => if String.eqb t "A" then a else aaaa) rep n)
  | _, _ => rep
  end.

Definition resolved `{D : Dpdomain} `{P : Psl} (names : list string) (answers : list Lookup) : NSReport :=
  with_diversity (fill_ns names answers (newNSReport names)).

Inductive ns_state :=
| Resolving (names : list string) (f : fan Lookup)
| Auditing (names : list string) (rep : NSReport) (f : fan NSServer)
| Audited (rep : option NSReport).

Section NsPhase.
Context `{D : Dpdomain} `{P : Psl} `{I : Ipnorm}.
Variable cfg : config.
(** What a query may be answered, and how a run of dig against a name server
    may end. *)
Variable told : query -> Lookup -> Prop.
Variable ran : string * Addr -> RunResult -> Prop.
Variable glueAnswer : list digMessage.
Variable dns : dnsResults.
Variable z : zoneReport.

(** What the task of one address appends. *)
Definition audited (t : string * Addr) (s : NSServer) : Prop :=
  exists first ctxErr second, ran t first /\ ran t second /\ s = auditServer first ctxErr second t.1 t.2.

Lemma audited_total : (forall t, exists r, ran t r) -> forall t, exists s, audited t s.
Proof. intros Hr t. destruct (Hr t) as [r H]. by exists (auditServer r None r t.1 t.2), r, None, r. Qed.

(** The tasks of [auditAll]: reserved addresses get none. *)
Definition audit_calls (rep : NSReport) : list (string * Addr) :=
  base.filter (fun t => ~ is_reserved t = true) (auditTargets (nr_addrs rep) (cfg_Families cfg)).

(** The glue check that follows. *)
Definition ns_glued (names : list string) (n : NSReport) : NSReport :=
  if negb (String.eqb (d_ParentServer (z_Delegation z)) "")
     && negb (bool_decide (d_Status (z_Delegation z) = DelegationSameServers))
  then with_glue (checkGlue glueAnswer (cfg_Domain cfg) names (nr_addrs n)) n
  else n.

Definition ns_init : ns_state :=
  if z_NotAZone z || negb (String.eqb (z_ReservedName z) "") then Audited None
  else match audit_names dns z with
       | [] => Audited None
       | names => Resolving names (fan_init (ns_calls names))
       end.

Inductive ns_step : ns_state -> ns_state -> Prop :=
| ns_resolve names f f' :
    fan_step (says told) (ns_calls names) f f' -> ns_step (Resolving names f) (Resolving names f')
| ns_resolved names f answers :
    fan_slots f = Some answers ->
    ns_step (Resolving names f)
      (Auditing names (resolved names answers) (fan_init (audit_calls (resolved names answers))))
| ns_audit names rep f f' :
    fan_step audited (audit_calls rep) f f' -> ns_step (Auditing names rep f) (Auditing names rep f')
| ns_joined names rep f servers :
    fan_slots f = Some servers ->
    ns_step (Auditing names rep f)
      (Audited (Some (ns_glued names (auditAll rep (cfg_Families cfg) (fan_appended f))))).

(** ** Lemmas *)

Lemma fill_ns_get g names rep :
  fill_ns names (map (fun p => get g p.1 p.2) (ns_calls names)) rep = foldl (add_ns (get g)) rep names.
Proof. revert rep. induction names as [|n names IH]; intros rep; [done|]. cbn. by rewrite <-IH. Qed.

Lemma resolved_get g names :
  resolved names (map (fun p => get g p.1 p.2) (ns_calls names)) = resolveNS names (get g).
Proof. unfold resolved, resolveNS. by rewrite fill_ns_get. Qed.

Lemma elem_of_ns_calls n t names : (n, t) ∈ ns_calls names <-> n ∈ names /\ t ∈ ["A"; "AAAA"].
Proof.
  unfold ns_calls. induction names as [|m names IH]; cbn; [set_solver|].
  rewrite !elem_of_cons, IH. set_solver.
Qed.

Lemma audited_key t s : audited t s -> server_key s = (t.1, addr_string t.2).
Proof.
  intros (r1 & e & r2 & _ & _ & ->).
  assert (H : forall r, server_key (auditOnce r t.1 t.2) = (t.1, addr_string t.2)).
  { intros r. unfold auditOnce. destruct (runDig r) as [|m rest]; [done|].
    destruct (negb _); [done|]. unfold interpretAudit. by destruct (records m "SOA"). }
  unfold auditServer. destruct (_ && _); [|apply H]. rewrite <-(H r2). done.
Qed.

Definition target_key (t : string * Addr) : string * string := (t.1, addr_string t.2).

Lemma pairs_NoDup (names : list string) (l : string -> list Addr) :
  NoDup names -> (forall n, n ∈ names -> NoDup (map addr_string (l n))) ->
  NoDup (map target_key (concat (map (fun n => map (fun ip => (n, ip)) (l n)) names))).
Proof.
  induction 1 as [|n names Hn Hnd IH]; intros Hl; [constructor|]. cbn. rewrite map_app, map_map.
  apply NoDup_app. split_and!.
  - change (fun ip => target_key (n, ip)) with (fun ip => pair n (addr_string ip)).
    rewrite <-(map_map addr_string (pair n)). apply (NoDup_fmap_2 (pair n)). apply Hl. by left.
  - intros k (ip & -> & _)%list_elem_of_fmap (t & E & Ht)%list_elem_of_fmap. apply Hn.
    apply list_elem_of_In, in_concat in Ht as (ts & Hts & Ht).
    apply in_map_iff in Hts as (n' & <- & Hn'). apply in_map_iff in Ht as (ip' & <- & _).
    injection E as <- _. by apply list_elem_of_In.
  - apply IH. intros m Hm. apply Hl. by right.
Qed.

Lemma auditTargets_NoDup m families :
  (forall n l, m !! n = Some l -> NoDup (map addr_string l)) -> NoDup (map target_key (auditTargets m families)).
Proof.
  intros Hm. unfold auditTargets. eapply sublist_NoDup; [|apply (fmap_sublist target_key), sublist_filter].
  apply pairs_NoDup.
  - unfold sortedAddrKeys. rewrite sort_strings_perm. apply NoDup_fst_map_to_list.
  - intros n _. unfold addrs_of, mget. destruct (m !! n) eqn:E; [by eapply Hm|constructor].
Qed.

(** Whatever the order in which the audits end, they give one section. *)
Lemma auditAll_joined rep audits completed :
  nr_Servers rep = [] -> Forall2 audited (audit_calls rep) audits -> completed ≡ₚ audits ->
  (forall n l, nr_addrs rep !! n = Some l -> NoDup (map addr_string l)) ->
  auditAll rep (cfg_Families cfg) completed = auditAll rep (cfg_Families cfg) audits.
Proof.
  intros Hs Ha Hp Hl. apply auditAll_any_order; [done|]. set (targets := auditTargets (nr_addrs rep) (cfg_Families cfg)).
  assert (Hk : map server_key completed ≡ₚ map target_key (audit_calls rep)).
  { etrans; [exact (fmap_Permutation server_key _ _ Hp)|]. apply Permutation_refl'. clear - Ha.
    induction Ha as [|t s ts ss Ht _ IH]; [done|]. cbn. f_equal; [by apply audited_key|done]. }
  rewrite Hs. unfold appended. cbn [app]. rewrite map_app, map_map, Hk.
  change (map _ (base.filter _ _)) with (map target_key (base.filter (fun t => is_reserved t = true) targets)).
  rewrite <-map_app. eapply NoDup_Permutation_proper; [|by apply (auditTargets_NoDup (nr_addrs rep) (cfg_Families cfg))].
  apply (fmap_Permutation target_key), filter_app_complement.
Qed.

(** ** The phase *)

(** No query is asked twice, and no name has an address twice. *)
Definition asked_once : Prop := NoDup (omap asked (ns_calls (audit_names dns z))).

Definition addressed_once : Prop :=
  forall n a aaaa, n ∈ audit_names dns z -> says told (n, "A") a -> says told (n, "AAAA") aaaa ->
  NoDup (map addr_string (Addrs a ++ Addrs aaaa)).

(** What the section may be: what the function makes of some answers and of
    some audits of their targets. *)
Definition ns_result (out : option NSReport) : Prop :=
  exists (answer : query -> Lookup) (audits : list NSServer),
    (forall q, q ∈ omap asked (ns_calls (audit_names dns z)) -> told q (answer q)) /\
    Forall2 audited (audit_calls (resolveNS (audit_names dns z) (get answer))) audits /\
    out = auditNameservers cfg (fun _ => answer) (fun _ => audits) glueAnswer dns z.

Definition is_audited (s : ns_state) : Prop := exists out, s = Audited out.

Definition ns_inv (s : ns_state) : Prop :=
  match s with
  | Resolving names f => names = audit_names dns z /\ fan_inv (says told) (ns_calls names) f
  | Auditing names rep f =>
      names = audit_names dns z /\
      (exists answer, (forall q, q ∈ omap asked (ns_calls names) -> told q (answer q)) /\
         rep = resolveNS names (get answer)) /\
      fan_inv audited (audit_calls rep) f
  | Audited out => ns_result out
  end.

(** The phase runs, on the names it has. *)
Definition ns_runs : Prop :=
  z_NotAZone z || negb (String.eqb (z_ReservedName z) "") = false /\ audit_names dns z <> [].

Lemma auditNameservers_runs answer audits : ns_runs ->
  auditNameservers cfg answer audits glueAnswer dns z =
  let n := resolveNS (audit_names dns z) (get (answer AuditPhase)) in
  Some (ns_glued (audit_names dns z) (auditAll n (cfg_Families cfg) (audits n))).
Proof.
  intros [Hz Hn]. unfold auditNameservers. rewrite Hz. cbv zeta. fold (audit_names dns z).
  destruct (audit_names dns z); [done|]. reflexivity.
Qed.

Lemma auditNameservers_skips answer audits : ~ ns_runs ->
  auditNameservers cfg answer audits glueAnswer dns z = None /\ ns_init = Audited None.
Proof.
  unfold ns_runs, auditNameservers, ns_init. cbv zeta. fold (audit_names dns z). intros H.
  destruct (_ || _); [done|]. destruct (audit_names dns z) as [|n names]; [done|]. destruct H. done.
Qed.

Lemma ns_init_runs : ns_runs -> ns_init = Resolving (audit_names dns z) (fan_init (ns_calls (audit_names dns z))).
Proof. intros [Hz Hn]. unfold ns_init. rewrite Hz. by destruct (audit_names dns z). Qed.

#[local] Instance ns_runs_dec : Decision ns_runs.
Proof. unfold ns_runs. apply _. Defined.

(** The report the audit starts from. *)
Lemma resolveNS_start answer :
  addressed_once -> (forall q, q ∈ omap asked (ns_calls (audit_names dns z)) -> told q (answer q)) ->
  let rep := resolveNS (audit_names dns z) (get answer) in
  nr_Servers rep = [] /\ (forall n l, nr_addrs rep !! n = Some l -> NoDup (map addr_string l)).
Proof.
  intros Hone Ht rep. split; [apply resolveNS_servers|]. intros n l Hl.
  destruct (resolveNS_partition (audit_names dns z) (get answer)) as (_ & _ & H & _).
  apply H in Hl as (Hn & _ & _ & -> & _).
  assert (Hs : forall t, t ∈ ["A"; "AAAA"] -> says told (n, t) (get answer n t)).
  { intros t Hin. apply (says_get _ answer (n, t)). intros q Hq. apply Ht, list_elem_of_omap.
    exists (n, t). split; [by apply elem_of_ns_calls|done]. }
  apply (Hone n); [done|apply Hs; set_solver..].
Qed.

Lemma ns_inv_step s s' : ns_runs -> asked_once -> addressed_once -> ns_inv s -> ns_step s s' -> ns_inv s'.
Proof.
  intros Hruns Hq Hone Hinv. destruct 1 as [names f f' H|names f answers H|names rep f f' H|names rep f servers H];
    cbn in Hinv |- *.
  - destruct Hinv as [-> Hf]. split; [done|]. by eapply fan_inv_step.
  - destruct Hinv as [-> Hf]. pose proof (fan_found _ _ _ _ Hf H) as Ha.
    destruct (lookups_function told _ _ Hq Ha) as (answer & Ht & ->). rewrite resolved_get.
    split_and!; [done|by exists answer|apply fan_inv_init].
  - destruct Hinv as (-> & Ha & Hf). split_and!; [done..|]. by eapply fan_inv_step.
  - destruct Hinv as (-> & (answer & Ht & ->) & Hf). exists answer, servers. split_and!; [done|by eapply fan_found|].
    rewrite auditNameservers_runs by done. cbv zeta.
    destruct (resolveNS_start answer Hone Ht) as [Hs Hl].
    erewrite auditAll_joined; [done|done|by eapply fan_found|by eapply fan_appended_perm|exact Hl].
Qed.

Lemma ns_inv_reachable s :
  asked_once -> addressed_once -> (forall q, exists l, told q l) -> (forall t, exists r, ran t r) ->
  rtc ns_step ns_init s -> ns_inv s /\ (ns_runs \/ s = Audited None).
Proof.
  intros Hq Hone Ht Hran Hs. destruct (decide ns_runs) as [Hr|Hr].
  - split; [|by left]. eapply rtc_preserves; [|exact Hs|].
    + intros x y. by apply ns_inv_step.
    + rewrite ns_init_runs by done. split; [done|apply fan_inv_init].
  - destruct (auditNameservers_skips (fun _ _ => zeroLookup) (fun _ => []) Hr) as [E Ei].
    rewrite Ei in Hs. assert (s = Audited None) as -> by (inversion Hs as [|? y ? Hy]; [done|inversion Hy]).
    split; [|by right]. cbn. destruct (found_exists (says told) (says_total told Ht) (ns_calls (audit_names dns z))) as [outs Ho].
    destruct (lookups_function told _ _ Hq Ho) as (answer & Ha & _). exists answer.
    destruct (found_exists audited (audited_total Hran) (audit_calls (resolveNS (audit_names dns z) (get answer)))) as [audits Haud].
    exists audits. split_and!; [done..|]. by destruct (auditNameservers_skips (fun _ => answer) (fun _ => audits) Hr) as [-> _].
Qed.

(** The lookups can be brought to an end, and then the audits. *)
Lemma ns_finishes s :
  (forall q, exists l, told q l) -> (forall t, exists r, ran t r) -> ns_inv s -> exists s', rtc ns_step s s' /\ is_audited s'.
Proof.
  intros Ht Hran Hs.
  assert (Haud : forall names rep f, fan_inv audited (audit_calls rep) f ->
    exists s', rtc ns_step (Auditing names rep f) s' /\ is_audited s').
  { intros names rep f Hf. destruct (fan_completes audited (audit_calls rep) f (audited_total Hran) Hf) as (f' & outs & Hrun & _ & Ho).
    eexists. split; [|by eexists]. etrans; [|by apply rtc_once, (ns_joined names rep f' outs)].
    eapply (rtc_congruence (Auditing names rep) ns_step); [|exact Hrun]. intros x y. apply ns_audit. }
  destruct s as [names f|names rep f|out]; [| |by exists (Audited out); split; [apply rtc_refl|eexists]].
  - destruct Hs as [-> Hf]. destruct (fan_completes (says told) _ f (says_total told Ht) Hf) as (f' & outs & Hrun & Hf' & Ho).
    destruct (Haud (audit_names dns z) (resolved (audit_names dns z) outs) (fan_init _) (fan_inv_init _ _)) as (s' & Hs' & Hd).
    exists s'. split; [|done]. etrans; [|eapply rtc_l; [by apply (ns_resolved (audit_names dns z) f' outs)|exact Hs']].
    eapply (rtc_congruence (Resolving (audit_names dns z)) ns_step); [|exact Hrun]. intros x y. apply ns_resolve.
  - apply Haud. apply Hs.
Qed.
End NsPhase.

(** ** Properties *)

(** C9: The audit of the name servers does what the run takes it to do.
    Two lookups for each name run at once, then one audit for each address
    that is not reserved, each appending what it found when it is done;
    whatever the interleaving, the section is the one the run's function
    makes of answers of dog to those queries and of one audit for each of
    those addresses, in the order of the addresses; and from every state the
    tasks can get to, they can finish. No query and no address may come
    twice: the two would be told apart by who is first. *)
Theorem auditNameservers_refined `{D : Dpdomain} `{P : Psl} `{I : Ipnorm} (cfg : config)
    (told : query -> Lookup -> Prop) (ran : string * Addr -> RunResult -> Prop) (glueAnswer : list digMessage)
    (dns : dnsResults) (z : zoneReport) (s : ns_state) :
  asked_once dns z -> addressed_once told dns z ->
  (forall q, exists l, told q l) -> (forall t, exists r, ran t r) ->
  rtc (ns_step cfg told ran glueAnswer z) (ns_init dns z) s ->
  (forall out, s = Audited out -> ns_result cfg told ran glueAnswer dns z out) /\
  (exists s', rtc (ns_step cfg told ran glueAnswer z) s s' /\ is_audited s').
Proof.
  intros Hq Hone Ht Hr Hs.
  destruct (ns_inv_reachable cfg told ran glueAnswer dns z s Hq Hone Ht Hr Hs) as [Hinv _]. split.
  - by intros out ->.
  - by apply (ns_finishes cfg told ran glueAnswer dns z).
Qed.

(** Two name servers, each with one address. *)
Definition two_servers : zoneReport :=
  mkZone (mkDNS ∅ ∅ ∅ None) false "" false "" (mkDNSSEC DNSSECSecure true true "" "")
    (mkDeleg DelegationMatch ["ns1.a.nl."; "ns2.a.nl."] "" [] "" [] [] "").

Definition one_address (q : query) (l : Lookup) : Prop :=
  l = mkLookup (q_name q) (q_type q) StatusOK TrustNone
        (if String.eqb (q_type q) "A" then ["9.9.9.9"] else []) [] "" 0 false [].

Definition silent_dig (t : string * Addr) (r : RunResult) : Prop := r = mkRun "" "" None None.

Lemma auditNameservers_refined_witness :
  let step := @ns_step lower_dpdomain plain_psl loopback_reserved (config_for "a.nl") one_address silent_dig []
                two_servers in
  exists out,
    rtc step (@ns_init lower_dpdomain (noResults true) two_servers) (Audited out) /\
    is_Some out /\ exists answer audits,
      out = @auditNameservers lower_dpdomain plain_psl loopback_reserved (config_for "a.nl") (fun _ => answer)
              (fun _ => audits) [] (noResults true) two_servers.
Proof.
  cbv zeta.
  assert (Hq : @asked_once lower_dpdomain (noResults true) two_servers)
    by (apply (bool_decide_unpack _); vm_compute; reflexivity).
  assert (Hn : @audit_names lower_dpdomain (noResults true) two_servers = ["ns1.a.nl."; "ns2.a.nl."])
    by (vm_compute; reflexivity).
  assert (Ha : @addressed_once lower_dpdomain one_address (noResults true) two_servers).
  { intros n a aaaa _ -> ->. apply (bool_decide_unpack _). vm_compute. reflexivity. }
  assert (Ht : forall q, exists l, one_address q l) by (intros q; eexists; reflexivity).
  assert (Hr : forall t, exists r, silent_dig t r) by (intros t; eexists; reflexivity).
  destruct (@auditNameservers_refined lower_dpdomain plain_psl loopback_reserved (config_for "a.nl") one_address
    silent_dig [] (noResults true) two_servers _ Hq Ha Ht Hr (rtc_refl _ _)) as [_ (s & Hs & [out ->])].
  destruct (@auditNameservers_refined lower_dpdomain plain_psl loopback_reserved (config_for "a.nl") one_address
    silent_dig [] (noResults true) two_servers _ Hq Ha Ht Hr Hs) as [H _].
  destruct (H out eq_refl) as (answer & audits & _ & _ & E).
  exists out. split; [exact Hs|]. split; [|by exists answer, audits].
  rewrite E. eexists. apply auditNameservers_runs. split; [reflexivity|]. by rewrite Hn.
Defined.
