(* ===== verification/Early.v ===== *)
(** * The web probes that run beside the second wave (run.go, earlyWeb)

    [run] starts them once the first wave is in, waits for them before the
    report is judged, or stops them when the zone is dead, and stops them
    again as it returns. The steps are those of the run's own thread and of
    the one the probes are on. *)

From S2P Require Import Prelude GoStrings Web.

(** The probes: [Probing c] while they run, [c] telling whether they were
    cancelled; [Probed] with what they returned. *)
Inductive early := NotStarted | Probing (cancelled : bool) | Probed (result : WebSection).

(** Where the run is. [Stopping] and [Joining] are the two halves of [stop],
    [Leaving] the deferred one. *)
Inductive place := Waves1 | Waves2 | Zone | Stopping | Joining | Waiting | Judging | Leaving | LastJoin | Returned.

#[export] Instance place_eq_dec : EqDecision place.
Proof. solve_decision. Defined.

Record runState := mkRunState {
  rs_place : place;
  rs_early : early;
  rs_web : WebSection;      (* rep.Web *)
}.

Definition cancel (e : early) : early :=
  match e with Probing _ => Probing true | _ => e end.

(** What [wait] returns, once it does. *)
Definition waited (e : early) : option WebSection :=
  match e with NotStarted => Some (mkWeb None None) | Probed w => Some w | Probing _ => None end.

Definition is_probing (e : early) : bool := match e with Probing _ => true | _ => false end.

Section Early.
(** Whether the name is reserved, whether the zone turns out dead, and what
    the probes return when they are left alone and when they are cut short. *)
Variables reserved dead : bool.
Variable whole : WebSection.
Variable cut : WebSection -> Prop.

Inductive early_step : runState -> runState -> Prop :=
| run_start e w :
    reserved = false -> early_step (mkRunState Waves1 e w) (mkRunState Waves2 (Probing false) w)
| run_skip e w :
    reserved = true -> early_step (mkRunState Waves1 e w) (mkRunState Waves2 e w)
| run_zone e w :
    early_step (mkRunState Waves2 e w) (mkRunState Zone e w)
| run_dead e w :
    dead = true -> early_step (mkRunState Zone e w) (mkRunState Stopping e w)
| run_alive e w :
    dead = false -> early_step (mkRunState Zone e w) (mkRunState Waiting e w)
| run_cancel e w :
    early_step (mkRunState Stopping e w) (mkRunState Joining (cancel e) w)
| run_join e w :
    is_probing e = false -> early_step (mkRunState Joining e w) (mkRunState Judging e w)
| run_wait e w r :
    waited e = Some r -> early_step (mkRunState Waiting e w) (mkRunState Judging (cancel e) r)
| run_judge e w :
    early_step (mkRunState Judging e w) (mkRunState Leaving e w)
| run_defer e w :
    early_step (mkRunState Leaving e w) (mkRunState LastJoin (cancel e) w)
| run_return e w :
    is_probing e = false -> early_step (mkRunState LastJoin e w) (mkRunState Returned e w)
| probes_whole p w :
    early_step (mkRunState p (Probing false) w) (mkRunState p (Probed whole) w)
| probes_cut p w r :
    cut r -> early_step (mkRunState p (Probing true) w) (mkRunState p (Probed r) w).

Definition early_init : runState := mkRunState Waves1 NotStarted (mkWeb None None).

(** ** Lemmas *)

Definition nothing : WebSection := mkWeb None None.

(** The probes left alone. *)
Definition alone (e : early) : Prop :=
  if reserved then e = NotStarted else e = Probing false \/ e = Probed whole.

(** What the report's web section ends as. *)
Definition final_web : WebSection := if dead || reserved then nothing else whole.

Definition early_inv (s : runState) : Prop :=
  match rs_place s with
  | Waves1 => rs_early s = NotStarted /\ rs_web s = nothing
  | Waves2 | Zone => alone (rs_early s) /\ rs_web s = nothing
  | Stopping => dead = true /\ rs_web s = nothing
  | Joining => dead = true /\ (rs_early s <> Probing false) /\ rs_web s = nothing
  | Waiting => dead = false /\ alone (rs_early s) /\ rs_web s = nothing
  | Judging | Leaving | LastJoin | Returned => is_probing (rs_early s) = false /\ rs_web s = final_web
  end.

Lemma alone_whole : alone (Probing false) -> alone (Probed whole).
Proof. unfold alone. destruct reserved; [done|auto]. Qed.

Lemma alone_cut : ~ alone (Probing true).
Proof. unfold alone. destruct reserved; [done|]. by intros [|]. Qed.

Lemma waited_alone e r : alone e -> waited e = Some r -> dead = false -> is_probing (cancel e) = false /\ r = final_web.
Proof.
  unfold alone, final_web. intros H Hw ->. destruct reserved; cbn.
  - subst. by injection Hw as <-.
  - destruct H as [->| ->]; [done|]. by injection Hw as <-.
Qed.

Lemma early_inv_step s s' : early_inv s -> early_step s s' -> early_inv s'.
Proof.
  unfold early_inv.
  destruct 2 as [e w G|e w G|e w|e w G|e w G|e w|e w G|e w r G|e w|e w|e w G|p w|p w r G];
    cbn [rs_place rs_early rs_web] in *; destruct_and?; try tauto.
  - split; [|done]. unfold alone. rewrite G. auto.
  - subst. split; [|done]. unfold alone. by rewrite G.
  - split_and!; [done| |done]. by destruct e as [|[]|].
  - unfold final_web. destruct dead; [done|congruence].
  - eapply waited_alone in G as [? ->]; [done|done|done].
  - by destruct e.
  - destruct p; destruct_and?; try done; try (split; [by apply alone_whole|done]); by split_and!; [|apply alone_whole|].
  - destruct p; destruct_and?; try done; try (exfalso; by eapply alone_cut); by split_and!.
Qed.

Lemma early_inv_reachable s : rtc early_step early_init s -> early_inv s.
Proof. intros H. eapply rtc_preserves; [|exact H|done]. intros; by eapply early_inv_step. Qed.

(** *** The run is never stuck *)

Definition place_work (p : place) : nat :=
  match p with
  | Waves1 => 9 | Waves2 => 8 | Zone => 7 | Stopping => 6 | Joining | Waiting => 5
  | Judging => 4 | Leaving => 3 | LastJoin => 2 | Returned => 0
  end.

Definition early_work (s : runState) : nat :=
  (2 * place_work (rs_place s) + if is_probing (rs_early s) then 1 else 0)%nat.

Lemma early_progress s :
  (exists r, cut r) -> rs_place s <> Returned -> exists s', early_step s s' /\ (early_work s' < early_work s)%nat.
Proof.
  intros [r Hr] Hp. destruct s as [p e w]. destruct (is_probing e) eqn:Ee.
  - destruct e as [|[]|]; try done.
    + exists (mkRunState p (Probed r) w). split; [by apply probes_cut|]. unfold early_work. cbn. lia.
    + exists (mkRunState p (Probed whole) w). split; [by apply probes_whole|]. unfold early_work. cbn. lia.
  - destruct p; try done.
    + destruct reserved eqn:G; eexists; (split; [first [by apply run_start|by apply run_skip]|]);
        unfold early_work; cbn; rewrite ?Ee; lia.
    + eexists. split; [apply run_zone|]. unfold early_work. cbn. lia.
    + destruct dead eqn:G; eexists; (split; [first [by apply run_dead|by apply run_alive]|]);
        unfold early_work; cbn; lia.
    + eexists. split; [apply run_cancel|]. unfold early_work. cbn. by destruct e; cbn; lia.
    + eexists. split; [by apply run_join|]. unfold early_work. cbn. lia.
    + destruct e as [| |x]; try done; eexists; (split; [by eapply run_wait|]); unfold early_work; cbn; lia.
    + eexists. split; [apply run_judge|]. unfold early_work. cbn. lia.
    + eexists. split; [apply run_defer|]. unfold early_work. cbn. by destruct e; cbn; lia.
    + eexists. split; [by apply run_return|]. unfold early_work. cbn. rewrite Ee. lia.
Qed.

Lemma early_finishes s : (exists r, cut r) -> exists s', rtc early_step s s' /\ rs_place s' = Returned.
Proof.
  intros Hcut. apply (rtc_completes early_step (fun _ => True) (fun s => rs_place s = Returned) early_work); [done| |done].
  intros x _. by apply early_progress.
Qed.
End Early.

(** ** Properties *)

(** C11: The web probes are always joined, and never at the cost of their
    answer. Whatever the interleaving, once the run judges its report the
    probes have returned, so nothing of them outlives the run; the section
    judged is what they return when left alone, or empty for a reserved name,
    whose addresses are never probed, and for a dead zone; and from every
    state the run can get to, it returns. *)
Theorem earlyWeb_joined (reserved dead : bool) (whole : WebSection) (cut : WebSection -> Prop) (s : runState) :
  (exists r, cut r) -> rtc (early_step reserved dead whole cut) early_init s ->
  (rs_place s ∈ [Judging; Leaving; LastJoin; Returned] ->
     is_probing (rs_early s) = false /\
     rs_web s = if dead || reserved then mkWeb None None else whole) /\
  (reserved = true -> rs_early s = NotStarted) /\
  (exists s', rtc (early_step reserved dead whole cut) s s' /\ rs_place s' = Returned).
Proof.
  intros Hcut Hs. pose proof (early_inv_reachable _ _ _ _ _ Hs) as Hinv. split; [|split; [|by apply early_finishes]].
  - unfold early_inv in Hinv. intros Hp. repeat apply elem_of_cons in Hp as [Hp|Hp]; try (rewrite Hp in Hinv; exact Hinv).
    by apply elem_of_nil in Hp.
  - intros ->. eapply (rtc_preserves _ (fun s => rs_early s = NotStarted)); [|exact Hs|done].
    intros a b Ha H. destruct H; cbn in *; subst; done.
Qed.

Lemma earlyWeb_joined_witness :
  let whole := mkWeb (Some zeroHost) None in
  exists s, rtc (early_step false false whole (fun _ => True)) early_init s /\ rs_place s = Returned /\ rs_web s = whole.
Proof.
  set (whole := mkWeb (Some zeroHost) None). cbv zeta.
  destruct (earlyWeb_joined false false whole (fun _ => True) early_init) as (_ & _ & s & Hs & Hp);
    [by exists whole | apply rtc_refl |].
  destruct (earlyWeb_joined false false whole (fun _ => True) s) as (H & _); [by exists whole | exact Hs |].
  exists s. split; [exact Hs|]. split; [exact Hp|]. rewrite Hp in H. apply H. by repeat (left || right).
Defined.
