(* ===== verification/Aia.v ===== *)
(** * The issuer downloads shared by all addresses (aia.go, aiaCache)

    [Tls] takes the issuer behind a URL as a function of the URL. Here the
    probes of many addresses ask at once, and share one entry per URL whose
    [sync.Once] lets one of them download. *)

From S2P Require Import Prelude GoStrings Netip Tls.

(** An issuer certificate, or the error. *)
Definition issuer : Type := xcert + string.

(** The [sync.Once] of an entry, with the result it guards. *)
Inductive once := Unused | Busy | Used (r : issuer).

(** A caller of [fetchAIACached]: before the map is read, with its entry in
    hand, downloading, and with the result. *)
Inductive asker := Asking | Holding | Downloading | Told (r : issuer).

Record aiaState := mkAia {
  a_done : gmap string once;
  a_askers : list (string * asker);
  a_downloads : list string;     (* the URLs downloaded, in order *)
}.

Section Aia.
(** What [fetchAIA] may return for a URL. *)
Variable fetched : string -> issuer -> Prop.

Definition set_asker (s : aiaState) (i : nat) (u : string) (a : asker) (done : gmap string once)
    (downloads : list string) : aiaState :=
  mkAia done (<[i := (u, a)]> (a_askers s)) downloads.

Inductive aia_step : aiaState -> aiaState -> Prop :=
| aia_entry s i u e :
    a_askers s !! i = Some (u, Asking) -> a_done s !! u = Some e ->
    aia_step s (set_asker s i u Holding (a_done s) (a_downloads s))
| aia_new_entry s i u :
    a_askers s !! i = Some (u, Asking) -> a_done s !! u = None ->
    aia_step s (set_asker s i u Holding (<[u := Unused]> (a_done s)) (a_downloads s))
| aia_first s i u :
    a_askers s !! i = Some (u, Holding) -> a_done s !! u = Some Unused ->
    aia_step s (set_asker s i u Downloading (<[u := Busy]> (a_done s)) (a_downloads s ++ [u]))
| aia_fetched s i u r :
    a_askers s !! i = Some (u, Downloading) -> fetched u r ->
    aia_step s (set_asker s i u (Told r) (<[u := Used r]> (a_done s)) (a_downloads s))
| aia_after s i u r :
    a_askers s !! i = Some (u, Holding) -> a_done s !! u = Some (Used r) ->
    aia_step s (set_asker s i u (Told r) (a_done s) (a_downloads s)).

Definition aia_init (urls : list string) : aiaState := mkAia ∅ (map (fun u => (u, Asking)) urls) [].

(** ** Lemmas *)

Definition downloading (s : aiaState) (u : string) (i : nat) : Prop := a_askers s !! i = Some (u, Downloading).

(** What an asker holds agrees with the entry of its URL. *)
Definition agrees (s : aiaState) (i : nat) (u : string) (a : asker) : Prop :=
  match a with
  | Asking => True
  | Holding => is_Some (a_done s !! u)
  | Downloading => a_done s !! u = Some Busy
  | Told r => a_done s !! u = Some (Used r)
  end.

Definition aia_inv (s : aiaState) : Prop :=
  (forall i u a, a_askers s !! i = Some (u, a) -> agrees s i u a) /\
  (forall i j u, downloading s u i -> downloading s u j -> i = j) /\
  (forall u, a_done s !! u = Some Busy -> exists i, downloading s u i) /\
  NoDup (a_downloads s) /\
  (forall u, u ∈ a_downloads s <-> exists e, a_done s !! u = Some e /\ e <> Unused) /\
  (forall u r, a_done s !! u = Some (Used r) -> fetched u r).

Lemma aia_inv_init urls : aia_inv (aia_init urls).
Proof.
  unfold aia_inv, aia_init, downloading. cbn [a_askers a_done a_downloads]. split_and!.
  - intros i u a H. rewrite list_lookup_fmap in H. destruct (urls !! i); [|done]. by simplify_eq/=.
  - intros i j u H. rewrite list_lookup_fmap in H. by destruct (urls !! i).
  - intros u H. by rewrite lookup_empty in H.
  - constructor.
  - intros u. rewrite lookup_empty. split; [by intros ?%elem_of_nil|by intros (? & ? & _)].
  - intros u r H. by rewrite lookup_empty in H.
Qed.

(** An asker after an update of one of them. *)
Lemma set_asker_lookup s i u a done dl j v b :
  a_askers (set_asker s i u a done dl) !! j = Some (v, b) ->
  (i = j /\ v = u /\ b = a) \/ (i <> j /\ a_askers s !! j = Some (v, b)).
Proof. intros [[-> [= -> ->]]|[? ?]]%insert_lookup_cases; auto. Qed.

Lemma set_asker_self s i u a a0 done dl :
  a_askers s !! i = Some (u, a0) -> a_askers (set_asker s i u a done dl) !! i = Some (u, a).
Proof. intros H. apply list_lookup_insert_eq. by eapply lookup_lt_Some. Qed.

Lemma set_asker_other s i j u v a b done dl :
  i <> j -> a_askers s !! j = Some (v, b) -> a_askers (set_asker s i u a done dl) !! j = Some (v, b).
Proof. intros Hne H. cbn. by rewrite list_lookup_insert_ne. Qed.

(** The entries after an update of one of them, for the askers of others and
    for those of the same URL. *)
Lemma agrees_insert s s' j v b u e :
  a_done s' = <[u := e]> (a_done s) -> agrees s j v b ->
  (v = u -> match b with Downloading => e = Busy | Told r => e = Used r | _ => True end) -> agrees s' j v b.
Proof.
  intros E Ha Hu. destruct (decide (v = u)) as [->|Hne].
  - specialize (Hu eq_refl). unfold agrees. rewrite E, lookup_insert_eq. destruct b; subst; eauto.
  - unfold agrees in *. rewrite E, lookup_insert_ne by done. done.
Qed.

(** A step that leaves the entries and the downloaders alone. *)
Lemma aia_inv_quiet s i u a a' :
  aia_inv s -> a_askers s !! i = Some (u, a) -> a <> Downloading -> a' <> Downloading ->
  agrees s i u a' -> aia_inv (set_asker s i u a' (a_done s) (a_downloads s)).
Proof.
  intros (H1 & H2 & H3 & H4) Hi Ha Ha' Hag.
  assert (Hd : forall j v, downloading (set_asker s i u a' (a_done s) (a_downloads s)) v j -> downloading s v j).
  { intros j v [(_ & _ & E)|[_ H]]%set_asker_lookup; [congruence|exact H]. }
  refine (conj _ (conj _ (conj _ H4))).
  - intros j v b [(-> & -> & ->)|[_ H]]%set_asker_lookup; [exact Hag|exact (H1 _ _ _ H)].
  - intros j k v Hj%Hd Hk%Hd. by eapply H2.
  - intros v [j Hj]%H3. exists j. unfold downloading in *. apply set_asker_other; [congruence|done].
Qed.

(** A fresh entry: nobody holds one for this URL yet. *)
Lemma aia_inv_new s i u :
  aia_inv s -> a_askers s !! i = Some (u, Asking) -> a_done s !! u = None ->
  aia_inv (set_asker s i u Holding (<[u := Unused]> (a_done s)) (a_downloads s)).
Proof.
  intros (H1 & H2 & H3 & H4 & H5 & H6) Hi He.
  assert (Hd : forall j v, downloading (set_asker s i u Holding (<[u := Unused]> (a_done s)) (a_downloads s)) v j ->
                           downloading s v j).
  { by intros j v [(_ & _ & E)|[_ H]]%set_asker_lookup. }
  refine (conj _ (conj _ (conj _ (conj H4 (conj _ _))))).
  - intros j v b [(-> & -> & ->)|[_ H]]%set_asker_lookup; [cbn; rewrite lookup_insert_eq; eauto|].
    eapply (agrees_insert s); [done|by eapply H1|]. intros ->. specialize (H1 _ _ _ H). unfold agrees in H1.
    rewrite He in H1. by destruct b.
  - intros j k v Hj%Hd Hk%Hd. by eapply H2.
  - intros v. cbn. intros [[_ E]|[Hne Hv]]%lookup_insert_Some; [done|]. destruct (H3 v Hv) as [j Hj]. exists j.
    unfold downloading in *. apply set_asker_other; [congruence|done].
  - intros v. cbn. rewrite H5. destruct (decide (u = v)) as [<-|Hne]; [|by rewrite lookup_insert_ne].
    rewrite He, lookup_insert_eq. split; [by intros (? & ? & _)|by intros (? & [= <-] & ?)].
  - intros v r. cbn. intros [[_ E]|[_ Hv]]%lookup_insert_Some; [done|auto].
Qed.

(** The one download of a URL. *)
Lemma aia_inv_first s i u :
  aia_inv s -> a_askers s !! i = Some (u, Holding) -> a_done s !! u = Some Unused ->
  aia_inv (set_asker s i u Downloading (<[u := Busy]> (a_done s)) (a_downloads s ++ [u])).
Proof.
  intros (H1 & H2 & H3 & H4 & H5 & H6) Hi He.
  refine (conj _ (conj _ (conj _ (conj _ (conj _ _))))).
  - intros j v b [(-> & -> & ->)|[_ H]]%set_asker_lookup; [cbn; by rewrite lookup_insert_eq|].
    eapply (agrees_insert s); [done|by eapply H1|]. intros ->. specialize (H1 _ _ _ H). unfold agrees in H1.
    rewrite He in H1. by destruct b.
  - assert (Hno : forall j, ~ downloading s u j) by (intros j Hj%H1; cbn in Hj; congruence).
    intros j k v [(Ej & Ev & _)|[Hj1 Hj]]%set_asker_lookup [(Ek & Ev' & _)|[Hk1 Hk]]%set_asker_lookup.
    + congruence.
    + subst. by apply Hno in Hk.
    + subst. by apply Hno in Hj.
    + by eapply H2.
  - intros v. cbn. intros [[<- _]|[Hne Hv]]%lookup_insert_Some; [exists i; by eapply set_asker_self|].
    destruct (H3 v Hv) as [j Hj]. exists j. unfold downloading in *. apply set_asker_other; [congruence|done].
  - cbn. apply NoDup_app. split_and!; [done| |apply NoDup_singleton].
    intros v (e & Hv & Hne)%H5 ->%list_elem_of_singleton. congruence.
  - intros v. cbn. rewrite elem_of_app, list_elem_of_singleton, H5.
    destruct (decide (u = v)) as [<-|Hne]; [rewrite lookup_insert_eq; naive_solver|rewrite lookup_insert_ne by done; naive_solver].
  - intros v r. cbn. intros [[_ E]|[_ Hv]]%lookup_insert_Some; [done|auto].
Qed.

(** Its result. *)
Lemma aia_inv_fetched s i u r :
  aia_inv s -> a_askers s !! i = Some (u, Downloading) -> fetched u r ->
  aia_inv (set_asker s i u (Told r) (<[u := Used r]> (a_done s)) (a_downloads s)).
Proof.
  intros (H1 & H2 & H3 & H4 & H5 & H6) Hi He.
  assert (Hd : forall j v, downloading (set_asker s i u (Told r) (<[u := Used r]> (a_done s)) (a_downloads s)) v j ->
                           downloading s v j /\ i <> j).
  { by intros j v [(_ & _ & E)|[Hne H]]%set_asker_lookup. }
  pose proof (H1 _ _ _ Hi) as Hb. cbn in Hb.
  refine (conj _ (conj _ (conj _ (conj H4 (conj _ _))))).
  - intros j v b [(-> & -> & ->)|[Hne H]]%set_asker_lookup; [cbn; by rewrite lookup_insert_eq|].
    eapply (agrees_insert s); [done|by eapply H1|]. intros ->. pose proof (H1 _ _ _ H) as Ha. unfold agrees in Ha.
    rewrite Hb in Ha. destruct b; try done. exfalso. by apply Hne, (H2 _ _ u).
  - intros j k v [Hj _]%Hd [Hk _]%Hd. by eapply H2.
  - intros v. cbn. intros [[_ E]|[Hne Hv]]%lookup_insert_Some; [done|]. destruct (H3 v Hv) as [j Hj]. exists j.
    unfold downloading in *. apply set_asker_other; [congruence|done].
  - intros v. cbn. rewrite H5. destruct (decide (u = v)) as [<-|Hne]; [|by rewrite lookup_insert_ne].
    rewrite Hb, lookup_insert_eq. naive_solver.
  - intros v r'. cbn. intros [[<- [= <-]]|[_ Hv]]%lookup_insert_Some; auto.
Qed.

Lemma aia_inv_step s s' : aia_inv s -> aia_step s s' -> aia_inv s'.
Proof.
  intros Hinv. destruct 1 as [s i u e Hi He|s i u Hi He|s i u Hi He|s i u r Hi Hr|s i u r Hi He].
  - eapply aia_inv_quiet; [done|exact Hi|done|done|]. cbn. eauto.
  - by apply aia_inv_new.
  - by apply aia_inv_first.
  - by apply aia_inv_fetched.
  - by eapply aia_inv_quiet.
Qed.

Lemma aia_inv_reachable urls s : rtc aia_step (aia_init urls) s -> aia_inv s.
Proof. intros H. eapply rtc_preserves; [|exact H|apply aia_inv_init]. intros; by eapply aia_inv_step. Qed.

Lemma aia_step_urls s s' : aia_step s s' -> (a_askers s').*1 = (a_askers s).*1.
Proof.
  destruct 1 as [s i u e H|s i u H|s i u H|s i u r H|s i u r H]; unfold set_asker; cbn [a_askers];
    rewrite list_fmap_insert; apply list_insert_id; by rewrite list_lookup_fmap, H.
Qed.

(** *** No asker waits for ever *)

Definition asker_work (p : string * asker) : nat :=
  match p.2 with Asking => 3 | Holding => 2 | Downloading => 1 | Told _ => 0 end.

Definition all_told (s : aiaState) : Prop := Forall (fun p => exists r, p.2 = Told r) (a_askers s).

Lemma aia_progress s :
  (forall u, exists r, fetched u r) -> aia_inv s -> ~ all_told s ->
  exists s', aia_step s s' /\
    (sum_list_with asker_work (a_askers s') < sum_list_with asker_work (a_askers s))%nat.
Proof.
  intros Htotal (H1 & _ & H3 & _) Hnot.
  assert (Hlt : forall i u a a' done dl, a_askers s !! i = Some (u, a) ->
    (asker_work (u, a') < asker_work (u, a))%nat ->
    (sum_list_with asker_work (a_askers (set_asker s i u a' done dl)) < sum_list_with asker_work (a_askers s))%nat).
  { intros i u a a' done dl Hi Hw. pose proof (sum_insert asker_work _ _ (u, a') _ Hi). cbn [set_asker a_askers]. lia. }
  assert (Hdown : forall i u, downloading s u i -> exists s', aia_step s s' /\
    (sum_list_with asker_work (a_askers s') < sum_list_with asker_work (a_askers s))%nat).
  { intros i u Hi. destruct (Htotal u) as [r Hr].
    eexists. split; [by eapply aia_fetched|]. eapply Hlt; [exact Hi|cbn; lia]. }
  apply not_Forall_Exists, Exists_exists in Hnot as ([u a] & [i Hi]%list_elem_of_lookup & Ha);
    [|intros [? []]; cbn; (right; by intros [? ?]) || (left; eauto)].
  destruct a as [| | |r]; [| |by eapply Hdown|by destruct Ha; exists r].
  - destruct (a_done s !! u) as [e|] eqn:He.
    + eexists. split; [by eapply aia_entry|]. eapply Hlt; [exact Hi|cbn; lia].
    + eexists. split; [by eapply aia_new_entry|]. eapply Hlt; [exact Hi|cbn; lia].
  - destruct (H1 _ _ _ Hi) as [[| |r] He].
    + eexists. split; [by eapply aia_first|]. eapply Hlt; [exact Hi|cbn; lia].
    + destruct (H3 u He) as [j Hj]. by eapply Hdown.
    + eexists. split; [by eapply aia_after|]. eapply Hlt; [exact Hi|cbn; lia].
Qed.

#[local] Instance all_told_dec s : Decision (all_told s).
Proof. apply Forall_dec. intros [? []]; cbn; (right; by intros [? ?]) || (left; eauto). Defined.

Lemma aia_finishes urls s :
  (forall u, exists r, fetched u r) -> rtc aia_step (aia_init urls) s ->
  exists s', rtc aia_step s s' /\ all_told s'.
Proof.
  intros Htotal Hs. eapply (rtc_completes aia_step aia_inv all_told (fun s => sum_list_with asker_work (a_askers s))).
  - apply aia_inv_step.
  - intros x. by apply aia_progress.
  - by eapply aia_inv_reachable.
Qed.
End Aia.

(** ** Properties *)

(** C17: However many addresses serve a leaf that names an issuer, and however
    their probes interleave, its URL is downloaded once and every probe is
    given that one result; and no probe waits for ever, for from every state
    they can get to, all of them can be given a result. *)
Theorem fetchAIACached_once (fetched : string -> issuer -> Prop) (urls : list string) (s : aiaState) :
  (forall u, exists r, fetched u r) -> rtc (aia_step fetched) (aia_init urls) s ->
  NoDup (a_downloads s) /\
  (exists issuer_of : string -> issuer,
     forall u r, (u, Told r) ∈ a_askers s -> r = issuer_of u /\ fetched u r /\ u ∈ a_downloads s) /\
  (exists s', rtc (aia_step fetched) s s' /\ all_told s').
Proof.
  intros Htotal Hs. pose proof (aia_inv_reachable _ _ _ Hs) as (H1 & _ & _ & H4 & H5 & H6).
  split; [done|]. split; [|by eapply aia_finishes].
  exists (fun u => match a_done s !! u with Some (Used r) => r | _ => inr "" end).
  intros u r [i Hi%H1]%list_elem_of_lookup. cbn in Hi. rewrite Hi. split; [done|]. split; [auto|].
  apply H5. by eexists.
Qed.

(** Every URL answered with an error. *)
Definition no_issuer (_ : string) (r : issuer) : Prop := r = inr "no answer".

Lemma fetchAIACached_once_witness :
  exists s, rtc (aia_step no_issuer) (aia_init ["http://ca.example/i.der"; "http://ca.example/i.der"]) s /\
    all_told s /\ NoDup (a_downloads s).
Proof.
  assert (Ht : forall u, exists r, no_issuer u r) by (intros u; by eexists).
  destruct (fetchAIACached_once no_issuer ["http://ca.example/i.der"; "http://ca.example/i.der"] _ Ht (rtc_refl _ _))
    as (_ & _ & s & Hs & Hd).
  exists s. split; [exact Hs|]. split; [exact Hd|].
  destruct (fetchAIACached_once no_issuer _ s Ht Hs) as [H _]. exact H.
Defined.
