(* ===== verification/Loaders.v ===== *)
(** * Processes loading the preload list, with the file between them (preloadlist.go)

    Each process runs [loadPreloadList] step by step: the read, the lock, the
    second read, the download, and the write, which fills a temporary file
    and renames it over the cache. A process may be killed while it waits,
    downloads or writes. The steps refine the lock protocol of [Preload] and
    the function [loadPreloadList] at once. *)

From S2P Require Import Prelude GoStrings Preload.

(** [Finished None] is a process that was killed. *)
Inductive proc :=
| Starting
| WaitingLock
| Locked
| Fetching (stale : option preloadList)
| Writing (l : preloadList)
| Written (l : preloadList)
| Finished (r : option (preloadList + string)).

Record world := mkWorld {
  w_file : string + string;        (* the cache file: its text, or the error of reading it *)
  w_lock : option nat;
  w_procs : list proc;
  w_temps : list (option string);  (* the temporary file of each process *)
  w_renames : nat;
}.

Section Loaders.
Context `{T : TimeLib}.
Variable path : string.
Variable now : Z.
(** The lists a download may give. *)
Variable downloads : preloadList -> Prop.

Definition fresh_file (f : string + string) : option preloadList :=
  match cachedList path f with
  | Some l => if fresh l now then Some l else None
  | None => None
  end.

(** The file unchanged: process [i] goes on to [p], with the lock and its
    temporary file as given. *)
Definition goes (w : world) (i : nat) (p : proc) (lock : option nat) (temp : option string) : world :=
  mkWorld (w_file w) lock (<[i := p]> (w_procs w)) (<[i := temp]> (w_temps w)) (w_renames w).

Definition refresh_note (l : preloadList) (err : string) : preloadList :=
  with_note l ("the preload list could not be refreshed, so a copy from "
    +:+ match fetched l with Some t => time_Format t | None => "0001-01-01T00:00:00Z" end
    +:+ " answered: " +:+ err).

Definition write_note (l : preloadList) (cause : string) : preloadList :=
  with_note l ("the preload cache could not be written: " +:+ cause).

(** The parts of a text written so far. *)
Definition part_of (text part : string) : Prop := exists rest, text = part +:+ rest.

Inductive world_step : world -> world -> Prop :=
| w_read_fresh w i l :
    w_procs w !! i = Some Starting -> fresh_file (w_file w) = Some l ->
    world_step w (goes w i (Finished (Some (inl l))) (w_lock w) None)
| w_read_stale w i :
    w_procs w !! i = Some Starting -> fresh_file (w_file w) = None ->
    world_step w (goes w i WaitingLock (w_lock w) None)
| w_acquire w i :
    w_procs w !! i = Some WaitingLock -> w_lock w = None ->
    world_step w (goes w i Locked (Some i) None)
| w_give_up w i err :
    w_procs w !! i = Some WaitingLock ->
    world_step w (goes w i (Finished (Some (inr ("waiting for the preload cache lock: " +:+ err)))) (w_lock w) None)
| w_reread_fresh w i l :
    w_procs w !! i = Some Locked -> fresh_file (w_file w) = Some l ->
    world_step w (goes w i (Finished (Some (inl l))) None None)
| w_reread_stale w i :
    w_procs w !! i = Some Locked -> fresh_file (w_file w) = None ->
    world_step w (goes w i (Fetching (cachedList path (w_file w))) (w_lock w) None)
| w_fetched w i stale l :
    w_procs w !! i = Some (Fetching stale) -> downloads l ->
    world_step w (goes w i (Writing l) (w_lock w) (Some ""))
| w_fetch_failed w i stale err :
    w_procs w !! i = Some (Fetching stale) ->
    world_step w (goes w i (Finished (Some (match stale with
                                            | Some l => inl (refresh_note l err)
                                            | None => inr err
                                            end))) None None)
| w_write w i l part :
    w_procs w !! i = Some (Writing l) -> part_of (marshalCache l now) part ->
    world_step w (goes w i (Writing l) (w_lock w) (Some part))
| w_synced w i l :
    w_procs w !! i = Some (Writing l) ->
    world_step w (goes w i (Written l) (w_lock w) (Some (marshalCache l now)))
| w_write_failed w i l cause :
    w_procs w !! i = Some (Writing l) \/ w_procs w !! i = Some (Written l) ->
    world_step w (goes w i (Finished (Some (inl (write_note l cause)))) None None)
| w_rename w i l text :
    w_procs w !! i = Some (Written l) -> w_temps w !! i = Some (Some text) ->
    world_step w (mkWorld (inl text) None (<[i := Finished (Some (inl l))]> (w_procs w))
                    (<[i := None]> (w_temps w)) (S (w_renames w)))
| w_killed_waiting w i :
    w_procs w !! i = Some WaitingLock ->
    world_step w (goes w i (Finished None) (w_lock w) None)
| w_killed w i p temp :
    w_procs w !! i = Some p -> (exists stale, p = Fetching stale) \/ (exists l, p = Writing l \/ p = Written l) ->
    w_temps w !! i = Some temp ->
    world_step w (goes w i (Finished None) None temp).

Definition world_init (file : string + string) (processes : nat) : world :=
  mkWorld file None (replicate processes Starting) (replicate processes None) 0.

(** ** The lock protocol the steps refine *)

Definition abs_proc (p : proc) : loader :=
  match p with
  | Starting => LStart
  | WaitingLock => LWaiting
  | Locked => LLocked
  | Fetching _ | Writing _ | Written _ => LFetching
  | Finished _ => LDone
  end.

Definition is_fresh (f : string + string) : bool := match fresh_file f with Some _ => true | None => false end.

Definition abs (w : world) : shared :=
  mkShared (is_fresh (w_file w)) (w_lock w) (map abs_proc (w_procs w)) (w_renames w).

(** ** What each process does is one run of [loadPreloadList] *)

Hypothesis path_enabled : cachingDisabled path = false.

Lemma fresh_file_Some f l : fresh_file f = Some l -> cachedList path f = Some l /\ fresh l now = true.
Proof. unfold fresh_file. destruct (cachedList path f) as [l'|]; [|done]. destruct (fresh l' now) eqn:E; [|done]. by intros [= ->]. Qed.

Lemma fresh_file_None f : fresh_file f = None -> forall l, cachedList path f = Some l -> fresh l now = false.
Proof. unfold fresh_file. intros H l E. rewrite E in H. by destruct (fresh l now). Qed.

Lemma load_first e l : le_now e = now -> fresh_file (le_file1 e) = Some l -> loadPreloadList path e = inl l.
Proof. intros Hn [H1 H2]%fresh_file_Some. unfold loadPreloadList. by rewrite path_enabled, H1, Hn, H2. Qed.

Lemma load_locked e :
  le_now e = now -> fresh_file (le_file1 e) = None ->
  loadPreloadList path e = match le_lock e with
                           | Some err => inr ("waiting for the preload cache lock: " +:+ err)
                           | None => refreshPreloadList path e
                           end.
Proof.
  intros Hn H. unfold loadPreloadList. rewrite path_enabled, Hn.
  destruct (cachedList path (le_file1 e)) as [l|] eqn:E; [|done]. by rewrite (fresh_file_None _ H l E).
Qed.

Lemma refresh_second e l : le_now e = now -> fresh_file (le_file2 e) = Some l -> refreshPreloadList path e = inl l.
Proof. intros Hn [H1 H2]%fresh_file_Some. unfold refreshPreloadList. cbv zeta. by rewrite H1, Hn, H2. Qed.

Lemma refresh_fetch e :
  le_now e = now -> fresh_file (le_file2 e) = None ->
  refreshPreloadList path e =
  match le_fetch e with
  | inr err => match cachedList path (le_file2 e) with Some l => inl (refresh_note l err) | None => inr err end
  | inl new => inl (match le_write e with Some cause => write_note new cause | None => new end)
  end.
Proof.
  intros Hn H. unfold refreshPreloadList. cbv zeta. rewrite Hn.
  destruct (cachedList path (le_file2 e)) as [l|] eqn:E; [by rewrite (fresh_file_None _ H l E); destruct (le_fetch e)|].
  by destruct (le_fetch e).
Qed.

(** How a process got where it is. *)
Definition explained (p : proc) : Prop :=
  match p with
  | Starting | Finished None => True
  | WaitingLock | Locked => exists f1, fresh_file f1 = None
  | Fetching stale => exists f1 f2, fresh_file f1 = None /\ fresh_file f2 = None /\ stale = cachedList path f2
  | Writing l | Written l => (exists f1 f2, fresh_file f1 = None /\ fresh_file f2 = None) /\ downloads l
  | Finished (Some r) => exists e, le_now e = now /\ loadPreloadList path e = r
  end.

Lemma explained_step w w' :
  Forall explained (w_procs w) -> world_step w w' -> Forall explained (w_procs w').
Proof.
  intros HF. assert (Hat : forall i p, w_procs w !! i = Some p -> explained p) by (intros i p H; by eapply Forall_lookup_1 in H).
  destruct 1 as [w i l Hi Hf|w i Hi Hf|w i Hi Hl|w i err Hi|w i l Hi Hf|w i Hi Hf|w i stale l Hi Hd|w i stale err Hi
    |w i l part Hi Hp|w i l Hi|w i l cause Hi|w i l text Hi Ht|w i Hi|w i p temp Hi Hp Ht];
    unfold goes; cbn [w_procs]; apply Forall_insert; try done; cbn [explained].
  - exists (mkLoad now (w_file w) None (w_file w) (inr "") None). split; [done|]. by apply load_first.
  - by eexists.
  - exact (Hat _ _ Hi).
  - destruct (Hat _ _ Hi) as [f1 H1]. exists (mkLoad now f1 (Some err) f1 (inr "") None). split; [done|].
    by rewrite load_locked.
  - destruct (Hat _ _ Hi) as [f1 H1]. exists (mkLoad now f1 None (w_file w) (inr "") None). split; [done|].
    rewrite load_locked by done. by apply refresh_second.
  - destruct (Hat _ _ Hi) as [f1 H1]. by exists f1, (w_file w).
  - destruct (Hat _ _ Hi) as (f1 & f2 & H1 & H2 & _). split; [by exists f1, f2|done].
  - destruct (Hat _ _ Hi) as (f1 & f2 & H1 & H2 & ->). exists (mkLoad now f1 None f2 (inr err) None). split; [done|].
    rewrite load_locked by done. cbn [le_lock]. by rewrite refresh_fetch.
  - exact (Hat _ _ Hi).
  - exact (Hat _ _ Hi).
  - assert ((exists f1 f2, fresh_file f1 = None /\ fresh_file f2 = None) /\ downloads l) as [(f1 & f2 & H1 & H2) _]
      by (destruct Hi as [Hi|Hi]; exact (Hat _ _ Hi)).
    exists (mkLoad now f1 None f2 (inl l) (Some cause)). split; [done|].
    rewrite load_locked by done. cbn [le_lock]. by rewrite refresh_fetch.
  - destruct (Hat _ _ Hi) as [(f1 & f2 & H1 & H2) _].
    exists (mkLoad now f1 None f2 (inl l) None). split; [done|].
    rewrite load_locked by done. cbn [le_lock]. by rewrite refresh_fetch.
Qed.

(** ** The file is never seen half written *)

Variable file : string + string.

(** The file as it was, or a download written in full; and the temporary file
    of a process that is about to rename it is complete. *)
Definition file_inv (w : world) : Prop :=
  (w_file w = file \/ exists l, downloads l /\ w_file w = inl (marshalCache l now)) /\
  (forall i l, w_procs w !! i = Some (Written l) -> w_temps w !! i = Some (Some (marshalCache l now))) /\
  length (w_temps w) = length (w_procs w) /\ Forall explained (w_procs w).

Lemma file_inv_step w w' : file_inv w -> world_step w w' -> file_inv w'.
Proof.
  intros (Hf & Hw & Hl & He) Hstep. pose proof (explained_step _ _ He Hstep) as He'.
  refine (conj _ (conj _ (conj _ He'))).
  - destruct Hstep; try exact Hf. right. exists l. cbn. pose proof (Hw _ _ H) as Ht. simplify_eq.
    split; [|done]. by eapply Forall_lookup_1 in H; [|exact He]; destruct H.
  - destruct Hstep; unfold goes; cbn [w_procs w_temps]; intros j l' [[<- E]|[Hne E]]%insert_lookup_cases;
      try done; try (rewrite list_lookup_insert_ne by done; by apply Hw).
    + injection E as ->. apply list_lookup_insert_eq. rewrite Hl. by eapply lookup_lt_Some.
  - destruct Hstep; unfold goes; cbn [w_procs w_temps]; by rewrite !length_insert.
Qed.
(** ** The simulation *)

Hypothesis written_fresh : forall l, downloads l -> is_fresh (inl (marshalCache l now)) = true.

Lemma abs_goes w i p lock temp :
  abs (goes w i p lock temp) =
  mkShared (sh_fresh (abs w)) lock (<[i := abs_proc p]> (sh_procs (abs w))) (sh_written (abs w)).
Proof.
  unfold abs, goes. cbn [w_file w_lock w_procs w_renames sh_fresh sh_procs sh_written]. f_equal.
  exact (list_fmap_insert abs_proc _ _ _).
Qed.

Lemma abs_lookup w i p : w_procs w !! i = Some p -> sh_procs (abs w) !! i = Some (abs_proc p).
Proof. intros H. unfold abs. cbn [sh_procs]. rewrite list_lookup_fmap. by rewrite H. Qed.

(** A step within the download. *)
Lemma abs_stutter w i p p' temp :
  w_procs w !! i = Some p -> abs_proc p' = abs_proc p ->
  abs (goes w i p' (w_lock w) temp) = abs w.
Proof.
  intros Hi E. rewrite abs_goes, E, list_insert_id by (by apply abs_lookup). done.
Qed.

Lemma is_fresh_Some f l : fresh_file f = Some l -> is_fresh f = true.
Proof. unfold is_fresh. by intros ->. Qed.

Lemma is_fresh_None f : fresh_file f = None -> is_fresh f = false.
Proof. unfold is_fresh. by intros ->. Qed.

Lemma world_step_refines w w' : file_inv w -> world_step w w' -> rtc load_step (abs w) (abs w').
Proof.
  intros (_ & Hw & _ & He).
  destruct 1 as [w i l Hi Hf|w i Hi Hf|w i Hi Hl|w i err Hi|w i l Hi Hf|w i Hi Hf|w i stale l Hi Hd|w i stale err Hi
    |w i l part Hi Hp|w i l Hi|w i l cause Hi|w i l text Hi Ht|w i Hi|w i p temp Hi Hp Ht].
  - rewrite abs_goes. apply rtc_once, load_read_fresh; [by apply abs_lookup in Hi|by eapply is_fresh_Some].
  - rewrite abs_goes. apply rtc_once, load_read_stale; [by apply abs_lookup in Hi|by apply is_fresh_None].
  - rewrite abs_goes. by apply rtc_once, load_acquire; [apply abs_lookup in Hi|].
  - rewrite abs_goes. by apply rtc_once, load_give_up, (abs_lookup _ _ _ Hi).
  - rewrite abs_goes. apply rtc_once, load_reread_fresh; [by apply abs_lookup in Hi|by eapply is_fresh_Some].
  - rewrite abs_goes. apply rtc_once, load_reread_stale; [by apply abs_lookup in Hi|by apply is_fresh_None].
  - erewrite abs_stutter by done. apply rtc_refl.
  - rewrite abs_goes. by apply rtc_once, load_failed, (abs_lookup _ _ _ Hi).
  - erewrite abs_stutter by done. apply rtc_refl.
  - erewrite abs_stutter by done. apply rtc_refl.
  - rewrite abs_goes. apply rtc_once, load_failed. by destruct Hi as [Hi|Hi]; apply (abs_lookup _ _ _ Hi).
  - pose proof (Hw _ _ Hi) as E. rewrite Ht in E. injection E as ->.
    assert (Hd : downloads l) by (by eapply Forall_lookup_1 in Hi; [|exact He]; destruct Hi).
    assert (abs (mkWorld (inl (marshalCache l now)) None (<[i := Finished (Some (inl l))]> (w_procs w))
                   (<[i := None]> (w_temps w)) (S (w_renames w)))
            = mkShared true None (<[i := LDone]> (sh_procs (abs w))) (S (sh_written (abs w)))) as ->.
    { unfold abs. cbn [w_file w_lock w_procs w_renames sh_procs sh_written]. rewrite written_fresh by done. f_equal.
      exact (list_fmap_insert abs_proc _ _ _). }
    by apply rtc_once, load_fetched, (abs_lookup _ _ _ Hi).
  - rewrite abs_goes. by apply rtc_once, load_give_up, (abs_lookup _ _ _ Hi).
  - rewrite abs_goes. apply rtc_once, load_failed. apply abs_lookup in Hi.
    by destruct Hp as [[? ->]|[? [->| ->]]].
Qed.

Lemma file_inv_init processes : file_inv (world_init file processes).
Proof.
  unfold file_inv, world_init. cbn [w_file w_procs w_temps]. refine (conj (or_introl eq_refl) (conj _ (conj _ _))).
  - intros i l [E _]%lookup_replicate. done.
  - by rewrite !length_replicate.
  - apply Forall_replicate. done.
Qed.

Lemma world_refines processes w :
  rtc world_step (world_init file processes) w ->
  file_inv w /\ rtc load_step (abs (world_init file processes)) (abs w).
Proof.
  intros H. apply (rtc_preserves world_step
    (fun w => file_inv w /\ rtc load_step (abs (world_init file processes)) (abs w)) _ _) with (3 := conj (file_inv_init processes) (rtc_refl _ _)) in H; [done|].
  intros a b [Ha Hr] Hs. split; [by eapply file_inv_step|]. etrans; [exact Hr|]. by apply world_step_refines.
Qed.
End Loaders.

(** ** Properties *)

(** What the language's times give: one is printed on a line, and read back
    as a time less than seven days old. *)
Definition time_reads_back `{T : TimeLib} (now : Z) : Prop :=
  str_all (fun c => negb (Ascii.eqb newline c)) (time_Format now) = true /\
  exists t, time_Parse (TrimSpace (" " +:+ time_Format now)) = Some t /\ (now - t < preloadCacheMaxAge)%Z.

Lemma marshalled_fresh `{T : TimeLib} path now l :
  cachingDisabled path = false -> time_reads_back now -> entries_ok (entries l) -> entries l <> ∅ ->
  is_fresh path now (inl (marshalCache l now)) = true.
Proof.
  intros Hp (Hnl & t & Ht & Hage) Hok Hne. unfold is_fresh, fresh_file, cachedList, readPreloadCache. rewrite Hp.
  rewrite (unmarshal_marshalCache l now Hok Hne Hnl), Ht. unfold fresh. cbn [fetched].
  by rewrite (proj2 (Z.ltb_lt _ _) Hage).
Qed.

(** A process that holds the lock and found the list stale under it. *)
Definition busy (w : world) (i : nat) : Prop :=
  exists p, w_procs w !! i = Some p /\ abs_proc p = LFetching.

(** A file that was replaced is counted. *)
Lemma unrenamed_file `{T : TimeLib} path now downloads file processes w :
  rtc (world_step path now downloads) (world_init file processes) w -> w_renames w = 0%nat -> w_file w = file.
Proof.
  intros H. refine (rtc_preserves _ (fun w => w_renames w = 0%nat -> w_file w = file) _ w _ H _); [|done].
  intros a b Ha Hs. by destruct Hs.
Qed.

Lemma one_writer `{T : TimeLib} path now processes w :
  load_reachable processes (abs path now w) ->
  (w_renames w <= 1)%nat /\ (forall i j, busy w i -> busy w j -> i = j) /\ (forall i, busy w i -> w_renames w = 0%nat).
Proof.
  intros (H1 & H2 & H3 & _)%preloadLock_once.
  assert (Hb : forall i, busy w i -> sh_procs (abs path now w) !! i = Some LFetching).
  { intros i (p & Hi & <-). by apply abs_lookup. }
  split_and!; [exact H1| |].
  - intros i j Hi%Hb Hj%Hb. apply H2; rewrite ?Hi, ?Hj; set_solver.
  - intros i Hi%Hb. by apply (H3 i).
Qed.

(** C10: Processes that load the list with a cache file between them, any of
    which may be killed while it waits, downloads or writes, refine the lock
    protocol step for step. When the list found was stale, no two of them are
    downloading or writing at once, one does so only while no list has been
    written, so another downloads again only after one that failed or was
    killed, and the file is replaced at most once. What each returns is what
    [loadPreloadList] returns for some reads of the file, outcome of the lock,
    download and write. And nobody ever sees a file half written: it is
    as it was found, or a download in full. *)
Theorem loadPreloadList_refines `{T : TimeLib} (path : string) (now : Z) (downloads : preloadList -> Prop)
    (file : string + string) (processes : nat) (w : world) :
  cachingDisabled path = false -> time_reads_back now ->
  (forall l, downloads l -> entries_ok (entries l) /\ entries l <> ∅) ->
  rtc (world_step path now downloads) (world_init file processes) w ->
  (is_fresh path now file = false ->
     load_reachable processes (abs path now w) /\ (w_renames w <= 1)%nat /\
     (forall i j, busy w i -> busy w j -> i = j) /\ (forall i, busy w i -> w_renames w = 0%nat /\ w_file w = file)) /\
  rtc load_step (abs path now (world_init file processes)) (abs path now w) /\
  (forall i r, w_procs w !! i = Some (Finished (Some r)) ->
     exists e, le_now e = now /\ loadPreloadList path e = r) /\
  (w_file w = file \/ exists l, downloads l /\ w_file w = inl (marshalCache l now)).
Proof.
  intros Hp Ht Hd Hw.
  destruct (world_refines path now downloads Hp file
              (fun l H => marshalled_fresh path now l Hp Ht (proj1 (Hd l H)) (proj2 (Hd l H))) processes w Hw)
    as [(Hf & _ & _ & He) Hr].
  split; [|split; [exact Hr|split; [|exact Hf]]].
  - intros E. assert (Hreach : load_reachable processes (abs path now w)).
    { unfold load_reachable, shared_init. unfold abs at 1 in Hr. cbn in Hr. rewrite E in Hr.
      by rewrite (fmap_replicate abs_proc) in Hr. }
    destruct (one_writer _ _ _ _ Hreach) as (H1 & H2 & H3). split_and!; [done..|].
    intros i Hi. specialize (H3 i Hi). split; [done|]. by eapply unrenamed_file.
  - intros i r Hi. eapply Forall_lookup_1 in Hi; [|exact He]. exact Hi.
Qed.

(** ** One process that downloads and writes the list *)

Definition plain_time : TimeLib := Build_TimeLib (fun _ => "2026-10-07T00:00:00Z") (fun _ => Some 7%Z).

Definition one_entry : preloadList := mkList {[ "app" := mkPre true "public-suffix" ]} None "".

Definition sample_file : string := @marshalCache plain_time one_entry 0.

Definition loaded_world : world :=
  mkWorld (inl sample_file) None [Finished (Some (inl one_entry))] [None] 1.

Lemma loaded_world_reachable :
  rtc (@world_step plain_time "hsts.tsv" 0 (eq one_entry)) (world_init (inr "no such file") 1) loaded_world.
Proof.
  eapply rtc_l; [by apply (w_read_stale _ _ _ _ 0)|]. eapply rtc_l; [by apply (w_acquire _ _ _ _ 0)|].
  eapply rtc_l; [by apply (w_reread_stale _ _ _ _ 0)|]. eapply rtc_l; [by eapply (w_fetched _ _ _ _ 0)|].
  eapply rtc_l; [by apply (w_synced _ _ _ _ 0)|]. eapply rtc_l; [by eapply (w_rename _ _ _ _ 0)|]. apply rtc_refl.
Qed.

Lemma loadPreloadList_refines_witness :
  rtc (@world_step plain_time "hsts.tsv" 0 (eq one_entry)) (world_init (inr "no such file") 1) loaded_world /\
  load_reachable 1 (@abs plain_time "hsts.tsv" 0 loaded_world).
Proof.
  split; [exact loaded_world_reachable|].
  refine (proj1 (proj1 (@loadPreloadList_refines plain_time "hsts.tsv" 0 (eq one_entry) (inr "no such file") 1 loaded_world _ _ _ _) _)).
  - reflexivity.
  - split; [reflexivity|]. exists 7%Z. split; [reflexivity|done].
  - intros l <-. split; [|discriminate]. intros n r. cbn [entries one_entry]. rewrite lookup_singleton_Some.
    intros [<- <-]. split; [discriminate|]. split; split; reflexivity.
  - exact loaded_world_reachable.
  - reflexivity.
Defined.
