(* ===== verification/Budget.v ===== *)
(** * Budgets in machine integers (main.go, run.go)

    A [time.Duration] counts nanoseconds in 64 bits, so a number of seconds
    from the command line may wrap. *)

From S2P Require Import Prelude GoStrings Names NsAudit Cli.

(** int64 arithmetic. *)
Definition wrap64 (z : Z) : Z := (z + 2 ^ 63) mod 2 ^ 64 - 2 ^ 63.

Definition Second : Z := 1000000000.

Definition seconds (n : Z) : Z := wrap64 (n * Second).

Definition timeout (c : config) : Z := seconds (cfg_TimeoutSec c).
Definition tcpTimeout (c : config) : Z := seconds (cfg_TCPTimeoutSec c).

Definition probeBudget (c : config) : Z :=
  let b := wrap64 (3 * tcpTimeout c) in
  let q := wrap64 (seconds (cfg_QuicTimeoutSec c) + Second) in
  wrap64 ((if (b <? q)%Z then q else b) + Second).

(** The run's deadline; [None] when it has none. *)
Definition runContext (c : config) : option Z :=
  if (cfg_MaxTimeSec c =? 0)%Z then None else Some (seconds (cfg_MaxTimeSec c)).

(** ** Lemmas *)

Lemma wrap64_small z : (minInt64 <= z <= maxInt64)%Z -> wrap64 z = z.
Proof. unfold wrap64, minInt64, maxInt64. intros H. rewrite Z.mod_small by lia. lia. Qed.

Lemma wrap64_range z : (minInt64 <= wrap64 z <= maxInt64)%Z.
Proof.
  unfold wrap64, minInt64, maxInt64. pose proof (Z.mod_pos_bound (z + 2 ^ 63) (2 ^ 64) ltac:(lia)). lia.
Qed.

(** The most seconds three times which, and a few more, still fit. *)
Definition maxSeconds : Z := 3074457344.

Lemma seconds_exact n : (0 <= n <= maxSeconds)%Z -> seconds n = (n * Second)%Z.
Proof. unfold maxSeconds, seconds, Second. intros H. apply wrap64_small. unfold minInt64, maxInt64. lia. Qed.

(** ** Properties *)

(** C27: The budgets of an accepted command line do not wrap as long as each
    timeout is at most [maxSeconds] (97 years): they are positive, the phase
    of the probes holds three connects and one QUIC handshake with a second
    to spare, and the run has the deadline [-max-time] gives, none when that
    is 0. *)
Theorem budgets_exact (c : config) :
  validateTimeouts c = None ->
  Forall (fun n => (n <= maxSeconds)%Z) [cfg_TimeoutSec c; cfg_TCPTimeoutSec c; cfg_QuicTimeoutSec c; cfg_MaxTimeSec c] ->
  timeout c = (cfg_TimeoutSec c * Second)%Z /\ (0 < timeout c)%Z /\ (0 < tcpTimeout c)%Z /\
  probeBudget c = (Z.max (3 * cfg_TCPTimeoutSec c * Second) (cfg_QuicTimeoutSec c * Second + Second) + Second)%Z /\
  (3 * tcpTimeout c < probeBudget c <= maxInt64)%Z /\
  runContext c = (if (cfg_MaxTimeSec c =? 0)%Z then None else Some (cfg_MaxTimeSec c * Second)%Z).
Proof.
  unfold validateTimeouts. intros Hv Hmax. rewrite !Forall_cons in Hmax. destruct Hmax as (H1 & H2 & H3 & H4 & _).
  repeat case_hyp Hv; try discriminate. simp_bool.
  assert (Hb : probeBudget c = (Z.max (3 * cfg_TCPTimeoutSec c * Second) (cfg_QuicTimeoutSec c * Second + Second) + Second)%Z).
  { unfold probeBudget, tcpTimeout. rewrite !seconds_exact by (unfold maxSeconds in *; lia).
    rewrite !(wrap64_small (3 * _)), !(wrap64_small (_ * _ + _)) by (unfold minInt64, maxInt64, maxSeconds, Second in *; lia).
    case_goal; simp_bool; rewrite wrap64_small; unfold minInt64, maxInt64, maxSeconds, Second in *; lia. }
  rewrite Hb. unfold timeout, tcpTimeout, runContext. rewrite !seconds_exact by (unfold maxSeconds in *; lia).
  unfold maxInt64, maxSeconds, Second in *. split_and!; try lia. done.
Qed.

Lemma budgets_exact_witness :
  let c := config_of 4 "" ∅ systemResolver in
  timeout c = (3 * Second)%Z /\ probeBudget c = (7 * Second)%Z.
Proof.
  set (c := config_of 4 "" ∅ systemResolver). cbv zeta.
  destruct (budgets_exact c) as (H1 & _ & _ & H2 & _); [reflexivity|by repeat constructor|].
  split; [exact H1|exact H2].
Defined.

(** A number of seconds that a Duration cannot hold is accepted and wraps: a
    lookup's budget is then over before it starts. *)
Theorem huge_timeout_wraps :
  exists c, @parseArgs lower_dpdomain 4 "" ["-t"; "9223372037"; "a.nl"] = inl c /\ (timeout c < 0)%Z.
Proof. eexists. split; [vm_compute; reflexivity|]. by vm_compute. Qed.
