(* ===== verification/Program.v ===== *)
(** * The program: the run over the tools it calls, and main (main.go, run.go)

    [Run] takes the answers of the tools as functions. Here they are what the
    other components make of the output of the commands the program runs, so
    that nothing between the command line and the report is left open but the
    commands' output, the network and the libraries. *)

From S2P Require Import Prelude GoStrings Netip Names Records Runner Dog Dig Trace Dnssec Wildcard Spf.
From S2P Require Import Mail Tcp Tls Http Versions Web NsAudit Rdap Preload Report Judge Cli Cache Probe Run Tools.

Definition traceFamily (c : config) : string := if wantsFamily c "ipv4" then "ipv4" else "ipv6".

Definition usage : string :=
  "usage: domaintest [-4|-6] [-t seconds] [-tcp-timeout seconds] [-quic-timeout seconds] [-max-time seconds] [-dns-concurrency n] [-no-hsts-preload] [-hsts-cache path] [-no-rdap] [-rdap path] [-redirectlog] [-pretty] [-quicprobe path] [-dog path] [-dig path] <domain> [@dnsserver[:port]]"
  +:+ byte_string newline +:+ "       domaintest -warm-hsts-cache"
  +:+ byte_string newline +:+ "       domaintest -version".

(** What the program printed and its exit status. *)
Inductive output := NoOutput | VersionLine (v : string) | ReportJSON (rep : Report) (pretty : bool).

Record exit := mkExit { ex_status : Z; ex_stdout : output; ex_stderr : string }.

Section Program.
Context `{D : Dpdomain} `{P : Psl} `{I : Ipnorm} `{L : UrlLib} `{T : TimeLib} `{H : Host}.

(** The process of the [n]-th run of a command in a phase with the error of
    its context when it returned, whether its context ended before there was a
    slot for it, and whether the budget of the caller was spent when the first
    run had returned. *)
Variable processes : phase -> nat -> string -> list string -> option CtxErr * process.
Variable refused : phase -> nat -> string -> list string -> option CtxErr.
Variable spent : phase -> list string -> option CtxErr.
(** The queries the memo turned away because their phase was over. *)
Variable expired : phase -> query -> bool.
(** encoding/json over the tools' output. *)
Variable decodeDog : string -> list dogOutput.
Variable decodeQUIC : string -> option QUICResult.
Variable decodeRDAP : string -> rdapDomain + string.
(** The rest of the run's surroundings, as in [Run]. *)
Variables timestamp : string.
Variable deadline : bool.
Variable elapsed : Z.
Variable resolvConf : option string.
Variable lookupNetIP : string -> string -> option (list Addr).
Variable labels : list string.
Variable controlLabel : string.
Variable probe : probe_fn.
Variable fetch : Url -> Addr -> HTTPResult.
Variable ParsePKIX : string -> pkixKey.
Variable ParsePKCS1 : string -> option Z.
Variable policyFile : string * string.
(** What loading the preload list met with, and the files it could open. *)
Variable loads : loadEnv.
Variable opens : string -> bool.
Variables sha256 sha512 : string -> string.
(** The order in which the audits finish. *)
Variable finished : list (string * Addr) -> list (string * Addr).

(** The plain runner, for quicprobe, rdap and the resolver's reachability, and
    the capped one, for the DNS tools. *)
Definition runner : Type := phase -> nat -> string -> list string -> RunResult.

Definition plain : runner := fun p n name args => let '(ctxErr, pr) := processes p n name args in execRun (Some ctxErr) name pr.

Definition capped (c : config) : runner := fun p n name args =>
  let '(ctxErr, pr) := processes p n name args in
  limitRunner (cfg_DNSConcurrency c) (refused p n name args) name ctxErr pr.

Definition dogLookup (r : runner) (c : config) (p : phase) (server name qtype : string) : Lookup :=
  let args := dogArgs server (cfg_TimeoutSec c) name qtype in
  dnsLookup decodeDog (r p 0%nat (cfg_DogPath c) args) (spent p args) (r p 1%nat (cfg_DogPath c) args) name qtype.

Definition answers (c : config) (p : phase) (q : query) : Lookup :=
  if expired p q then expiredLookup q
  else dogLookup (capped c) c p (dogServer (cfg_Resolver c)) (q_name q) (q_type q).

Definition rootAnswer (c : config) (server : string) : Lookup := dogLookup plain c FirstWave server "." "NS".

(** The parent server is known from the trace alone. *)
Definition runTrace (c : config) : Delegation :=
  let args := traceArgs (traceFamily c) (cfg_TimeoutSec c) (cfg_Domain c) in
  let traced := traceDelegation (capped c FirstWave 0 (cfg_DigPath c) args) (spent FirstWave args) in
  let server := d_ParentServer (traced (mkRun "" "" None None) (cfg_Domain c)) in
  traced (capped c FirstWave 0 (cfg_DigPath c) (authArgs server (traceFamily c) (cfg_TimeoutSec c) (cfg_Domain c)))
    (cfg_Domain c).

Definition bogus (c : config) : bogusProbe :=
  let dig cd name qtype :=
    run_stdout (capped c FirstWave 0 (cfg_DigPath c)
                  (digArgs (resolver_args (cfg_Resolver c)) cd (cfg_TimeoutSec c) name qtype)) in
  newBogusProbe (dig true) (dig false).

Definition quicFor (c : config) (host : string) (ip : Addr) : QUICResult :=
  probeQUIC decodeQUIC (plain MailPhase 0 (cfg_QuicPath c) (quicArgs host ip (cfg_QuicTimeoutSec c))).

Definition auditsOf (c : config) (n : NSReport) : list NSServer :=
  map (fun t : string * Addr =>
         let args := nsAuditArgs t.2 (cfg_Domain c) (cfg_TimeoutSec c) in
         auditServer (capped c AuditPhase 0 (cfg_DigPath c) args) (spent AuditPhase args)
           (capped c AuditPhase 1 (cfg_DigPath c) args) t.1 t.2)
    (finished (base.filter (fun t => is_reserved t = false) (auditTargets (nr_addrs n) (cfg_Families c)))).

Definition glueAnswer (c : config) : list digMessage :=
  runDig (capped c AuditPhase 0 (cfg_DigPath c)
            (glueArgs (d_ParentServer (runTrace c)) (traceFamily c) (cfg_TimeoutSec c) (cfg_Domain c))).

Definition startRDAP (c : config) : option RDAPReport :=
  if cfg_RDAP c then
    checkRDAP decodeRDAP (cfg_Domain c) (cfg_RDAPPath c)
      (match rdapTarget (cfg_Domain c) with
       | Some (q, server) => plain FirstWave 0 (cfg_RDAPPath c) (rdapArgs q server (cfg_TimeoutSec c))
       | None => mkRun "" "" None None
       end)
  else None.

Variable settings : option (list BuildSetting).
Variable versionVar : string.

Definition runProgram (c : config) : option Report :=
  run c (buildVersion versionVar settings) timestamp deadline elapsed (answers c) (rootAnswer c) resolvConf lookupNetIP
    labels controlLabel (runTrace c) (Some (bogus c)) probe (quicFor c) fetch (auditsOf c) (glueAnswer c)
    ParsePKIX ParsePKCS1 policyFile (loadPreloadList (cfg_HSTSCache c) loads) (startRDAP c) sha256 sha512.

(** ** main *)

Variable NumCPU : Z.
Variable userCacheDir : option string.
(** The error of writing the report, if any. *)
Variable writeReport : option string.

Definition complaint (msg : string) : string := "domaintest: " +:+ msg +:+ byte_string newline.

Definition warmMain (c : config) : exit :=
  let isDir p := match Stat p with Some (dir, _) => dir | None => false end in
  match warmPreloadCache (cfg_HSTSCache c) (lockPath isDir opens (cfg_HSTSCache c)) loads with
  | inr err => mkExit 2 NoOutput (complaint ("warming the HSTS preload cache: " +:+ scrubResolver err))
  | inl note => mkExit 0 NoOutput (complaint note)
  end.

(** [None] only if the run gave no report, which it always does. *)
Definition realMain (args : list string) : option exit :=
  match parseArgs NumCPU (defaultPreloadCachePath userCacheDir) args with
  | inr err => Some (mkExit 2 NoOutput (complaint (err +:+ byte_string newline +:+ usage)))
  | inl c =>
      if cfg_ShowVersion c then Some (mkExit 0 (VersionLine (buildVersion versionVar settings)) "")
      else if cfg_WarmHSTSCache c then Some (warmMain c)
      else match resolveTools c with
           | inr err => Some (mkExit 2 NoOutput (complaint err))
           | inl c =>
               rep ← runProgram c;
               Some (match writeReport with
                     | Some err => mkExit 2 NoOutput (complaint err)
                     | None => mkExit (if rp_OK rep then 0 else 1) (ReportJSON rep (cfg_Pretty c)) ""
                     end)
           end
  end.

(** ** Lemmas *)

Lemma runProgram_Some c : exists rep, runProgram c = Some rep /\ rp_Domain rep = cfg_Domain c.
Proof.
  unfold runProgram. edestruct (run_dns c) as (rep & Hrep & Hd & _). exists rep. split; [exact Hrep|exact Hd].
Qed.

Lemma expiredLookup_wf q : lookup_wf (expiredLookup q).
Proof. done. Qed.

Lemma dogLookup_wf r c p server name qtype :
  let l := dogLookup r c p server name qtype in lookup_wf l /\ l_Name l = name /\ l_Type l = qtype.
Proof.
  cbv zeta. unfold dogLookup, dnsLookup. cbv zeta. destruct (_ && _);
  (match goal with |- context [dogOnce decodeDog ?run name qtype] =>
         pose proof (dogOnce_frame decodeDog run name qtype) as [= Hn Ht _];
         pose proof (dogOnce_wf decodeDog run name qtype) as Hw end;
  split; [exact Hw|by split]).
Qed.

(** What a check was told about a name and a type. *)
Definition asked (name qtype : string) (l : Lookup) : Prop :=
  l_Type l = qtype /\ match dnsName name with inl n => l_Name l = ASCII n | inr _ => l_Name l = name end.

Lemma answers_wf c p name qtype :
  let l := get (answers c p) name qtype in asked name qtype l /\ lookup_wf l.
Proof.
  unfold get, asked. destruct (dnsName name) as [n|err]; [|done]. unfold answers. cbn [q_name q_type].
  destruct (expired p _); [done|].
  destruct (dogLookup_wf (capped c) c p (dogServer (cfg_Resolver c)) (ASCII n) qtype) as (Hw & Hn & Ht). done.
Qed.

Lemma untrusted_wf name qtype l :
  asked name qtype l -> lookup_wf l ->
  asked name qtype (untrusted l) /\ l_Trust (untrusted l) = TrustNone /\ exists t, lookup_wf (set_Trust t (untrusted l)).
Proof. intros Ha Hw. split; [by destruct l|]. split; [done|]. exists (l_Trust l). by destruct l. Qed.

(** C7: Every lookup in the report of every run is well formed and about what
    was asked. Whatever the DNS client printed, whenever it was cut short and
    whichever queries found their budget spent, a lookup of the report under
    a type carries that type and the normalised name; it has a status, and
    with a validating resolver a success has records and a trust, while a
    failure has none; with one that does not validate it is such a lookup
    with its trust removed. *)
Theorem report_lookups_wf c :
  exists rep, runProgram c = Some rep /\
  forall name m, (name, m) ∈ [(cfg_Domain c, dns_Apex (rp_DNS rep)); ("www." +:+ cfg_Domain c, dns_WWW (rp_DNS rep))] ->
  forall qtype l, m !! qtype = Some l ->
    asked name qtype l /\
    if bool_decide (dns_ResolverValidates (rp_DNS rep) = Some false)
    then l_Trust l = TrustNone /\ exists t, lookup_wf (set_Trust t l)
    else lookup_wf l.
Proof.
  unfold runProgram. edestruct (run_dns c) as (rep & Hrep & _ & Hdns). exists rep. split; [exact Hrep|].
  cbv zeta in Hdns. rewrite Hdns. cbn [dns_Apex dns_WWW dns_ResolverValidates]. clear Hrep Hdns.
  set (blind := bool_decide _). set (first := firstWave _ _ _ _ _).
  assert (Hall : forall name m, (name, m) ∈ [(cfg_Domain c, r_apex first); ("www." +:+ cfg_Domain c, www_of first)] ->
                 forall qtype l, m !! qtype = Some l -> asked name qtype l /\ lookup_wf l).
  { intros name m Hin qtype l Hl. assert (l = get (answers c FirstWave) name qtype) as ->; [|apply answers_wf].
    repeat apply elem_of_cons in Hin as [[= -> ->]|Hin]; [| |by apply elem_of_nil in Hin].
    - unfold first, firstWave, lookups_of in Hl. cbn [r_apex] in Hl. rewrite lookup_tabulate in Hl.
      destruct (decide _); [by injection Hl|done].
    - unfold first, firstWave, lookups_of, www_of in Hl. cbn [r_www] in Hl.
      destruct (registrableDomain _); cbn [from_option id] in Hl; [|by rewrite lookup_empty in Hl].
      rewrite lookup_tabulate in Hl. destruct (decide _); [by injection Hl|done]. }
  intros name m Hin qtype l Hl. destruct blind.
  - assert (exists m0, m = untrusted_map m0 /\ (name, m0) ∈ [(cfg_Domain c, r_apex first); ("www." +:+ cfg_Domain c, www_of first)])
      as (m0 & -> & Hin0).
    { repeat apply elem_of_cons in Hin as [[= -> ->]|Hin]; [| |by apply elem_of_nil in Hin];
        eexists; (split; [reflexivity|]); by repeat (left || right). }
    unfold untrusted_map in Hl. rewrite lookup_fmap in Hl. destruct (m0 !! qtype) as [l0|] eqn:E; [|done].
    injection Hl as <-. destruct (Hall _ _ Hin0 _ _ E). by apply untrusted_wf.
  - by eapply Hall.
Qed.

(** What the exit status promises of one outcome. *)
Definition promise (args : list string) (e : exit) : Prop :=
  ex_status e ∈ [0; 1; 2]%Z /\
  (ex_status e = 1%Z <-> exists rep pretty, ex_stdout e = ReportJSON rep pretty /\ rp_OK rep = false) /\
  (forall rep pretty, ex_stdout e = ReportJSON rep pretty ->
     ex_stderr e = "" /\ (ex_status e = 0%Z <-> rp_OK rep = true) /\
     exists c c', parseArgs NumCPU (defaultPreloadCachePath userCacheDir) args = inl c /\ resolveTools c = inl c' /\
                  rp_Domain rep = cfg_Domain c) /\
  (ex_status e = 2%Z -> ex_stdout e = NoOutput /\ HasPrefix (ex_stderr e) "domaintest: " = true).

Lemma promise_complaint args msg : promise args (mkExit 2 NoOutput (complaint msg)).
Proof.
  split; [by repeat (left || right)|]. split; [split; [done|by intros (? & ? & [=] & _)]|]. split; [done|].
  intros _. split; [done|]. apply HasPrefix_app.
Qed.

Lemma promise_quiet args out err : (forall rep pretty, out <> ReportJSON rep pretty) -> promise args (mkExit 0 out err).
Proof.
  intros Hne. split; [by left|]. split; [split; [done|]|split; [|done]].
  - intros (rep & pretty & E & _). by destruct (Hne rep pretty).
  - intros rep pretty E. by destruct (Hne rep pretty).
Qed.

Lemma promise_report args c c' rep pretty :
  parseArgs NumCPU (defaultPreloadCachePath userCacheDir) args = inl c -> resolveTools c = inl c' -> rp_Domain rep = cfg_Domain c ->
  promise args (mkExit (if rp_OK rep then 0 else 1) (ReportJSON rep pretty) "").
Proof.
  intros Hp Ht Hd. destruct (rp_OK rep) eqn:Eok.
  - split; [by left|]. split; [split; [done|by intros (? & ? & [= <- _] & ?); congruence]|].
    split; [|done]. intros rep' pretty' [= <- <-]. rewrite Eok. split; [done|]. split; [done|]. eauto.
  - split; [by right; left|]. split; [split; [eauto|done]|].
    split; [|done]. intros rep' pretty' [= <- <-]. rewrite Eok. split; [done|]. split; [done|]. eauto.
Qed.

(** C2: What the exit status promises. The program always ends, with 0, 1 or
    2. It is 1 exactly when a report was printed that is not ok; a report is
    printed alone, about the domain of the command line, only after the
    command line was accepted and the tools were found, with 0 exactly when
    it is ok; and on 2 nothing is printed but the complaint, on stderr. *)
Theorem realMain_status args :
  exists e, realMain args = Some e /\ ex_status e ∈ [0; 1; 2]%Z /\
    (ex_status e = 1%Z <-> exists rep pretty, ex_stdout e = ReportJSON rep pretty /\ rp_OK rep = false) /\
    (forall rep pretty, ex_stdout e = ReportJSON rep pretty ->
       ex_stderr e = "" /\ (ex_status e = 0%Z <-> rp_OK rep = true) /\
       exists c c', parseArgs NumCPU (defaultPreloadCachePath userCacheDir) args = inl c /\ resolveTools c = inl c' /\
                    rp_Domain rep = cfg_Domain c) /\
    (ex_status e = 2%Z -> ex_stdout e = NoOutput /\ HasPrefix (ex_stderr e) "domaintest: " = true).
Proof.
  change (exists e, realMain args = Some e /\ promise args e).
  unfold realMain. destruct (parseArgs _ _ args) as [c|err] eqn:Ep; [|eexists; split; [done|apply promise_complaint]].
  destruct (cfg_ShowVersion c); [eexists; split; [done|by apply promise_quiet]|].
  destruct (cfg_WarmHSTSCache c).
  { eexists. split; [done|]. unfold warmMain. cbv zeta.
    destruct (warmPreloadCache _ _ _); [by apply promise_quiet|apply promise_complaint]. }
  destruct (resolveTools c) as [c'|err] eqn:Et; [|eexists; split; [done|apply promise_complaint]].
  destruct (runProgram_Some c') as (rep & -> & Hd). cbn [mbind option_bind]. eexists. split; [done|].
  destruct writeReport; [apply promise_complaint|]. eapply promise_report; [done|exact Et|]. rewrite Hd.
  apply resolveTools_inl in Et as (? & ? & ? & ? & -> & _). done.
Qed.

End Program.
